(* ===== verification/_CoqProject ===== *)
-Q . S2P
Prelude.v
PyStr.v
PyRegex.v
Errors.v
Sha256.v
Uuid.v
Schema.v
Migrations.v
MigrationLaws.v
MigrationHandoffs.v
Contracts.v
Grounding.v
Prompt.v
Pydantic.v
Sql.v
Redis.v
Events.v
Logging.v
Models.v
Integrity.v
ModelSchema.v
World.v
Session.v
State.v
Traffic.v
Sample.v
Health.v
MetaWebhook.v
Delivery.v
DeliveryLaws.v
DeliveryProps.v
Composition.v
Llm.v
Coordination.v
BuenPickModels.v
BuenPick.v
Conversations.v
Handoffs.v
Processing.v
PendingActions.v
ActivePick.v
Ingress.v
MetaDelivery.v
Tools.v
Evidence.v
Policies.v
PickImage.v
Orchestrator.v
TurnLaws.v
TurnProps.v
Worker.v
Frames.v
WorkerProps.v
Config.v
Startup.v
Resources.v
AlembicEnv.v
Api.v
Web.v
IntegrityLaws.v
QueueLaws.v
Identifiers.v
Reachable.v
Totality.v
Answering.v
ScheduleLaws.v
Progress.v
Transcript.v
Runtime.v
Program.v
