(* ===== verification/Prelude.v ===== *)
(** * Piki: a verification library

    Piki is the assistant of BuenPick ([src/src/piki], written [src/piki] in
    the comments): it receives WhatsApp webhooks of Meta and messages of a local
    web console, resolves an intent, asks the internal API of BuenPick, lets a
    language model write an answer that is checked against the confirmed data,
    and delivers it through Meta.  PostgreSQL keeps conversations, messages,
    the job queue, handoffs and the delivery ledger; Redis keeps locks,
    deduplication marks, pending actions and the active pick.

    ** How the parts interact

    A webhook enters at [Api] (signature, JSON), is normalised by [MetaWebhook]
    and stored by [Ingress], which enqueues its messages and applies its status
    callbacks to the ledger.  The loop of [Runtime] calls
    [Worker.process_once]: claim a job ([Processing]), answer it
    ([Orchestrator.respond_persisted]), send the answer ([Delivery.send] with
    [MetaDelivery.meta_send]), end the job.  The console enters at [Api] and
    calls [Orchestrator.orchestrator_respond].  A turn takes the lock of its
    conversation ([Coordination]), reads the history ([Conversations]), asks for
    a handoff ([Handoffs]) or for picks ([Tools] over [BuenPick], made into
    evidence by [Evidence]), builds a packet under a policy ([Policies]), and
    gets its text from the response engine ([Composition], with the prompt of
    [Prompt], an adapter of [Llm] and the checks of [Grounding]).  [ActivePick]
    and [PickImage] resolve the pick a conversation is about and its image.
    [Config] and [Startup] decide which of these parts exist; [Resources] opens
    and closes their connections; [Program] assembles them.  [Migrations] builds the tables before any of
    this runs.

    ** Foundations

    - [Prelude]: automation and lemmas on lists, options and integers.
    - [PyStr], [PyRegex], [Sha256], [Uuid]: what the program uses of [str],
      [re], [hashlib], [hmac] and [uuid], executable; Unicode data are the
      interface [UCD] with a Latin-1 instance.
    - [Errors]: exceptions with the subclass tests of the [except] clauses, the
      result type, [StrEnum] and the pydantic [Contract].  [construct] is the
      creation of a model: field constraints, then the validator.
    - [Pydantic], [Contracts], [Events]: validation of decoded JSON, the shared
      models ([domain/contracts.py]), lifecycle records
      ([observability/events.py]).
    - [Sql], [Redis]: the database and the server as interfaces.  An
      [SqlEngine] is any implementation whose statements have the effects of
      [insert_spec], [update_spec] and [select_spec]; a [RedisServer] any whose
      commands refine [redis_spec], where a command may always fail, before or
      after its effect.  [map_engine] and [scheduled_server] implement them.
    - [Models], [World], [Session]: the rows and their constraints
      ([db/models.py]), the state and the monad [M] of effects, the statements
      of a session that commits or rolls back ([db/session.py]).  [Env] is the
      outside: clocks, whether the database answers at each tick, the answer of
      every HTTP request after any history of requests, random tokens.
      [keeps R m] says that every run of [m] relates its first and last worlds
      by [R].
    - [Schema]: PostgreSQL tables, rows and data definition statements.  A
      [Postgres] server runs a statement with the effect of [ddl_spec] or is
      unreachable; [valid] is what the constraints of a schema say of its rows,
      and [ddl_spec_valid] that every statement keeps it.
    - [Sample]: one concrete environment, in which the witnesses run.

    ** What the theorems show

    Delivery ([Delivery], [DeliveryLaws], [DeliveryProps];
    [delivery/service.py]).  The abstract specification is a step relation of
    many senders, callbacks, crashes and foreign writes on one ledger:
    [at_most_one_provider_call] is its safety property, by an invariant;
    [send_refines_steps] shows that [send] refines it; [delivery_only_progresses]
    and [delivery_keeps_wf] are the invariants of the ledger, [send_then_replay]
    its round trip, [callback_race_regresses] what two interleaved callbacks
    break.

    The worker ([Worker], [WorkerProps], [Runtime]; [conversation/worker.py],
    [worker/main.py]) over the queue ([Processing]; [db/processing.py]).
    [worker_ends_claimed_job]: while the database answers, a run never raises
    and ends the job it takes.  [worker_drains]: consecutive runs stop finding
    work, whatever fails.  [completed_job_accepted], [reply_sent_once]: a
    completed job was accepted by the provider, which is asked once per
    message.  [run_worker_ends]: the process stops and removes its heartbeat.
    [claim_takes_oldest], [claim_exclusive], [queue_lifecycle],
    [complete_exact]: the queue.

    A turn ([Orchestrator], [TurnLaws], [TurnProps];
    [conversation/service.py]).  [message_answered_once],
    [new_reply_grounded], [turn_releases_lock]; [textless_message_unanswered],
    [unanswered_web_message_stays_busy], [foreign_reply_returned],
    [human_attention_keeps_answering] and
    [Api.long_message_id_refused] are limits of the code.

    From the webhook to the end ([QueueLaws], [ScheduleLaws], [Progress]).
    [queue_wf] says that a message in the queue can be turned into a job and
    [scheduled_wf] that the queue will find it; every handler keeps both
    ([queue_always_claimable], [queue_always_scheduled]), so waiting makes every
    unfinished job due ([everything_becomes_due]).  [webhook_messages_end]
    composes the ingress, the queue and the worker: after at most as many rounds
    as the queue holds attempts, each message of an acknowledged webhook is
    completed, its reply accepted by the provider, or failed.  Rounds that each
    wait until everything unfinished is due are the fairness it needs.

    The program ([Program], [Runtime], [Logging], [Health]; [api/app.py],
    [api/main.py], [worker/main.py], [core/logging.py], [api/health.py]).
    [Program] assembles the parts the factories of [Startup] build from the
    settings: its engine, reader and adapter keep the promises of the interfaces
    the components are proved against.  [Program.acknowledged_messages_end] and
    [Program.worker_stops] are the two liveness results for that program, with
    nothing assumed of its parts; [server_serves_its_settings] and
    [readiness_exact] concern the server, [configure_logging_exact] the levels.

    The whole system ([Integrity], [IntegrityLaws]).  [integrity] says that the
    rows of the five tables fit their columns, that no two conflict and that
    foreign keys have their rows; the class [Constrained] gives each table its
    constraints.  [database_integrity] is its preservation by every request to
    the console or the webhook and every round of the worker, in any order.
    [Identifiers] and [Reachable] add what else holds of every reached state: the
    identifiers to come are free ([identifiers_unused]), the stored texts and
    statuses can be read back, the queue is claimable ([states_sound]).
    [Totality] and [Answering] show that work gets done in such states: a turn
    whose collaborators answer returns ([turn_answers]), a delivery under a new
    key ends ([send_delivers]), and a round answers the message it claims
    ([due_message_answered]).

    The schema ([Migrations], [MigrationLaws], [MigrationHandoffs],
    [AlembicEnv], [ModelSchema]; [src/migrations], [db/models.py]).
    [head_schema_is_metadata]: the four migrations build the tables of the
    mapped classes.  [integrity_is_schema_validity]: the constraints stated on
    records are those the server checks on rows, so the two views of the
    database agree; the classes [MappedRow] and [MappedTable] relate a record to
    its row and a class to its table.  [migration_roundtrip] and
    [upgrade_head_exact] are the migrations on stored data,
    [offline_script_exact] the script of the offline mode,
    [migrations_use_service_database] the URL they connect to.

    Connections ([Resources]).  [worker_closes_what_it_opened],
    [lifespan_closes_what_it_opened]: what a shutdown closes, also when closing
    fails; [factories_refine_startup]: the parts built are those [Startup]
    derives from the settings.

    Text ([Grounding], [Prompt], [Composition], [Llm], [Policies];
    [composition/], [prompts/], [integrations/llm/]).  [validate_exact] states
    the validator as a set of failures, [factual_fallback_safe] bounds the
    fallback, [respond_safe] and [respond_falls_back] what leaves the engine,
    [oversized_prompt_escapes] the packets that make it fail,
    [prompt_lines_exact] that no data can forge a section of the prompt,
    [adapters_bounded] the retries, [policy_packets_safe] the policies.

    Data ([BuenPickModels], [BuenPick], [Tools], [Evidence], [ActivePick],
    [PickImage]; [integrations/buenpick/], [tools/], [evidence/], [state/],
    [use_cases/]).  [client_calls_bounded], [format_ars_cents_roundtrip],
    [tools_report_reader], [evidence_backed], [search_evidence_exact],
    [resolve_confirms_fresh], [prepared_image_is_active].

    Storage ([Conversations], [Handoffs], [PendingActions], [Coordination]).
    [inbound_stored_once], [outbound_first_wins], [recent_messages_window],
    [handoff_request_answered], [pending_action_consumed_once],
    [lock_mutual_exclusion], [dedup_claims_once].

    Edges ([MetaWebhook], [Ingress], [MetaDelivery], [Api], [Web], [Config],
    [Startup]; [integrations/meta/], [api/], [web/], [core/config.py]).
    [normalize_webhook_exact] is the equivalence with a reference definition,
    [normalize_webhook_raises] its errors, [verify_signature_exact] and
    [webhook_effect_signed] the authentication,
    [acknowledged_messages_stored] and [redelivery_stores_nothing] the ingress,
    [meta_send_truthful] and [meta_send_answers] the adapter,
    [validated_settings_start] the settings.

    ** Bounds and fuel

    Strings are lists of code points and their lengths are unbounded; the
    bounds are those of the contracts and of the columns.  Retry loops count
    down the remaining attempts, which the constructors keep positive.  The
    regular expressions recurse on the pattern with the length of the text as
    fuel for a repetition: every iteration that counts consumes a character.
    The worker loop takes fuel; [run_worker_ends] shows that the tick at which
    the stop event is set is enough.

    ** Not modelled

    - A clock value is read per statement and per call, with no assumption on
      their order unless a theorem states one; PostgreSQL's [now()] is the
      start of the transaction, which is one of these choices.
    - Runs of handlers are sequential; the interleavings considered are those
      of the step relation of [DeliveryProps], of the stale claims and row locks
      of [Processing], of the lock protocol of [Coordination] and, in
      [callback_race_regresses], of two sessions.
    - The statements of [Session] do not refuse a counter past 32 bits or an
      identifier past 128: [machine_ranges] is a condition where it matters.  A
      NUL character, which PostgreSQL refuses in a text, is not special; a
      decoded JSON object is the list of its entries, the keys being distinct.
    - Cancellation of a task ([CancelledError]) is not an exception here.
    - The libraries: pydantic-settings, FastAPI routing, the rendering of a
      float by [repr] ([PyRepr]), [json.loads] ([JsonLoads]), [urlparse]
      ([UrlParse]), reading a file ([Files]), signals ([Signals]), the
      processors of structlog are parameters or are left out.
    - The libraries that open and close connections ([Libraries]) and those
      that find the migrations to run ([Alembic]) are interfaces.
    - How Alembic prints a statement in the offline mode, the FastAPI objects,
      and the parts a test injects into [create_app].  The tables [tool_runs] and [trace_events] exist
      in the schema and no code uses them. *)
From stdpp Require Export base tactics list option numbers gmap strings fin_maps.
From Stdlib Require Export ZArith Lia.

(** ** Scope and notations of the development *)

Declare Scope piki_scope.
Delimit Scope piki_scope with piki.

(** ** Automation *)

(** Facts that close routine side conditions of the component lemmas. *)
Create HintDb piki discriminated.

(** Split every conditional and match of the goal or of a hypothesis, keeping
    the equations. *)
Ltac split_match :=
  match goal with
  | |- context [match ?x with _ => _ end] =>
      lazymatch x with
      | context [match _ with _ => _ end] => fail
      | _ => destruct x eqn:?
      end
  end.

Ltac split_match_in H :=
  match type of H with
  | context [match ?x with _ => _ end] =>
      lazymatch x with
      | context [match _ with _ => _ end] => fail
      | _ => destruct x eqn:?
      end
  end.

Ltac split_all := repeat (split_match; simplify_eq/=).
Ltac split_all_in H := repeat (split_match_in H; simplify_eq/=).

(** Turn the boolean connectives of hypotheses into propositions. *)
Ltac bools :=
  repeat match goal with
  | H : _ && _ = true |- _ => apply andb_true_iff in H as [? ?]
  | H : _ || _ = false |- _ => apply orb_false_iff in H as [? ?]
  | H : negb _ = true |- _ => apply negb_true_iff in H
  | H : negb _ = false |- _ => apply negb_false_iff in H
  | H : bool_decide _ = true |- _ => apply bool_decide_eq_true in H
  | H : bool_decide _ = false |- _ => apply bool_decide_eq_false in H
  | H : Z.leb _ _ = true |- _ => apply Z.leb_le in H
  | H : Z.leb _ _ = false |- _ => apply Z.leb_gt in H
  | H : Z.ltb _ _ = true |- _ => apply Z.ltb_lt in H
  | H : Z.ltb _ _ = false |- _ => apply Z.ltb_ge in H
  | H : Z.eqb _ _ = true |- _ => apply Z.eqb_eq in H
  | H : Z.eqb _ _ = false |- _ => apply Z.eqb_neq in H
  end.

(** ** Lists *)

Section lists.
Context {A B : Type}.
Implicit Types (l : list A).

(** [is_infix p l] decides whether [p] occurs in [l] as a contiguous block. *)
Fixpoint is_prefix `{EqDecision A} (p l : list A) : bool :=
  match p, l with
  | [], _ => true
  | _ :: _, [] => false
  | x :: p', y :: l' => bool_decide (x = y) && is_prefix p' l'
  end.

Fixpoint is_infix `{EqDecision A} (p l : list A) : bool :=
  is_prefix p l ||
  match l with
  | [] => false
  | _ :: l' => is_infix p l'
  end.

Lemma is_prefix_spec `{EqDecision A} p l :
  is_prefix p l = true <-> exists s, l = p ++ s.
Proof.
  revert l; induction p as [|x p IH]; intros l; simpl.
  - split; [eauto | done].
  - destruct l as [|y l]; simpl.
    { split; [done | by intros [s ?]]. }
    rewrite andb_true_iff, bool_decide_eq_true, IH. split.
    + intros [-> [s ->]]. eauto.
    + intros [s [= -> ->]]. eauto.
Qed.

Lemma is_infix_spec `{EqDecision A} p l :
  is_infix p l = true <-> exists a b, l = a ++ p ++ b.
Proof.
  induction l as [|y l IH]; cbn [is_infix]; rewrite orb_true_iff, is_prefix_spec.
  - split.
    + intros [[s Hs]|?]; [|done]. by exists [], s.
    + intros (a & b & Hl). left. exists b. by destruct a.
  - rewrite IH. split.
    + intros [[s ->]|(a & b & ->)]; [by exists [], s | by exists (y :: a), b].
    + intros ([|z a] & b & Hl); simplify_eq/=; eauto.
Qed.

Lemma is_infix_false `{EqDecision A} p l :
  is_infix p l = false <-> forall a b, l <> a ++ p ++ b.
Proof.
  rewrite <- not_true_iff_false, is_infix_spec. naive_solver.
Qed.

(** A block that avoids the separator [c] lies on one side of it. *)
Lemma infix_avoid `{EqDecision A} p l1 c l2 :
  c ∉ p -> is_infix p (l1 ++ c :: l2) = true ->
  is_infix p l1 = true \/ is_infix p l2 = true.
Proof.
  intros Hc (a & b & Hl)%is_infix_spec.
  destruct (decide (length a + length p <= length l1)) as [Hlen|Hlen].
  - left. apply is_infix_spec.
    assert (l1 = take (length l1) (a ++ p ++ b)) as ->.
    { by rewrite <- Hl, take_app_length. }
    exists a, (take (length l1 - length a - length p) b).
    rewrite !take_app, (take_ge a), (take_ge p) by lia. by do 3 f_equal.
  - right. apply is_infix_spec.
    destruct (decide (length l1 < length a)) as [Ha|Ha].
    + assert (l2 = drop (S (length l1)) (a ++ p ++ b)) as ->.
      { rewrite <- Hl, drop_app_ge by lia.
        by replace (S (length l1) - length l1) with 1 by lia. }
      rewrite drop_app_le by lia. eauto.
    + exfalso. apply Hc.
      assert ((a ++ p ++ b) !! length l1 = Some c) as Hlk.
      { rewrite <- Hl. by rewrite list_lookup_middle. }
      rewrite lookup_app_r in Hlk by lia.
      rewrite lookup_app_l in Hlk by lia.
      by eapply list_elem_of_lookup_2.
Qed.

Lemma infix_app_l `{EqDecision A} p l1 l2 :
  is_infix p l1 = true -> is_infix p (l1 ++ l2) = true.
Proof.
  rewrite !is_infix_spec. intros (a & b & ->). exists a, (b ++ l2).
  by rewrite <- !app_assoc.
Qed.

Lemma infix_app_r `{EqDecision A} p l1 l2 :
  is_infix p l2 = true -> is_infix p (l1 ++ l2) = true.
Proof.
  rewrite !is_infix_spec. intros (a & b & ->). exists (l1 ++ a), b.
  by rewrite <- !app_assoc.
Qed.
End lists.

Lemma Forall2_elem_l {A B} (P : A -> B -> Prop) l k x :
  Forall2 P l k -> x ∈ l -> exists y, y ∈ k /\ P x y.
Proof.
  induction 1 as [|a b l k Hab _ IH]; [set_solver|].
  intros [->|Hx]%elem_of_cons; [exists b; set_solver|].
  destruct (IH Hx) as (y & ? & ?). exists y. set_solver.
Qed.

Lemma Forall2_elem_r {A B} (P : A -> B -> Prop) l k y :
  Forall2 P l k -> y ∈ k -> exists x, x ∈ l /\ P x y.
Proof.
  intros H%Forall2_flip Hy. destruct (Forall2_elem_l _ _ _ _ H Hy) as (x & ? & ?). eauto.
Qed.
