(* ===== verification/PyStr.v ===== *)
(** * Python strings

    [str] values as lists of code points, with the string methods the program
    calls ([strip], [split], [join], [in], [startswith], [removeprefix],
    [upper], [casefold], slices, [str] and [int] of integers).  The per code
    point data of the Unicode Character Database is a parameter, the class
    [UCD]; the laws [UCDLaws] only fix its ASCII part, and [latin1_ucd] is an
    instance used by the concrete examples. *)
From S2P Require Import Prelude.
From Stdlib Require Import Strings.Ascii.
From Stdlib Require Export Sorting.Sorted.

Local Open Scope Z_scope.

(** A Python [str]: the list of its code points. *)
Abbreviation str := (list Z).

(** ** Literals *)

(** UTF-8 decoding of the bytes of a literal of the source. *)
Fixpoint utf8_decode (l : list Z) : str :=
  match l with
  | [] => []
  | b0 :: t0 =>
      if b0 <? 128 then b0 :: utf8_decode t0
      else match t0 with
      | [] => [b0]
      | b1 :: t1 =>
          if b0 <? 224 then ((b0 - 192) * 64 + (b1 - 128)) :: utf8_decode t1
          else match t1 with
          | [] => [b0; b1]
          | b2 :: t2 =>
              if b0 <? 240
              then ((b0 - 224) * 4096 + (b1 - 128) * 64 + (b2 - 128)) :: utf8_decode t2
              else match t2 with
              | [] => [b0; b1; b2]
              | b3 :: t3 =>
                  ((b0 - 240) * 262144 + (b1 - 128) * 4096 + (b2 - 128) * 64 + (b3 - 128))
                    :: utf8_decode t3
              end
          end
      end
  end.

Fixpoint bytes_of_string (s : string) : list Z :=
  match s with
  | EmptyString => []
  | String a s' => Z.of_nat (nat_of_ascii a) :: bytes_of_string s'
  end.

(** [u "text"] is the Python string of a literal. *)
Definition u (s : string) : str := utf8_decode (bytes_of_string s).
Arguments u _%_string_scope : simpl never.

(** ** Length, truth value, concatenation *)

Definition py_len (s : str) : Z := Z.of_nat (length s).

(** [bool(s)]: a string is true when it is not empty. *)
Definition truthy (s : str) : bool := negb (bool_decide (s = [])).

(** [bool(s)] for a [str | None]. *)
Definition truthy_opt (o : option str) : bool :=
  match o with Some s => truthy s | None => false end.

(** [o or d] for a [str | None]. *)
Definition or_else (o : option str) (d : str) : str :=
  match o with Some s => if truthy s then s else d | None => d end.

(** [s[:n]] for [n >= 0]. *)
Definition prefix_to (n : Z) (s : str) : str := take (Z.to_nat n) s.

(** [p in s]. *)
Definition contains (p s : str) : bool := is_infix p s.

Definition startswith (p s : str) : bool := is_prefix p s.

Definition removeprefix (p s : str) : str :=
  if is_prefix p s then drop (length p) s else s.

(** ** White space: [str.isspace], [str.strip], [str.split] *)

Definition is_space (c : Z) : bool :=
  ((9 <=? c) && (c <=? 13)) || ((28 <=? c) && (c <=? 32)) ||
  (c =? 133) || (c =? 160) || (c =? 5760) ||
  ((8192 <=? c) && (c <=? 8202)) ||
  (c =? 8232) || (c =? 8233) || (c =? 8239) || (c =? 8287) || (c =? 12288).

Fixpoint lstrip_by (f : Z -> bool) (s : str) : str :=
  match s with
  | [] => []
  | c :: s' => if f c then lstrip_by f s' else s
  end.

Definition rstrip_by (f : Z -> bool) (s : str) : str := rev (lstrip_by f (rev s)).

Definition strip (s : str) : str := rstrip_by is_space (lstrip_by is_space s).

(** [s.rstrip(chars)] and [s.strip(chars)]. *)
Definition rstrip_chars (chars s : str) : str :=
  rstrip_by (fun c => bool_decide (c ∈ chars)) s.
Definition strip_chars (chars s : str) : str :=
  rstrip_chars chars (lstrip_by (fun c => bool_decide (c ∈ chars)) s).

(** [s.split()]: the maximal blocks without white space. *)
Fixpoint split_aux (s cur : str) : list str :=
  match s with
  | [] => if bool_decide (cur = []) then [] else [rev cur]
  | c :: s' =>
      if is_space c
      then if bool_decide (cur = []) then split_aux s' [] else rev cur :: split_aux s' []
      else split_aux s' (c :: cur)
  end.

Definition split (s : str) : list str := split_aux s [].

(** [sep.join(parts)]. *)
Fixpoint join (sep : str) (parts : list str) : str :=
  match parts with
  | [] => []
  | [p] => p
  | p :: ps => p ++ sep ++ join sep ps
  end.

(** ** Decimal integers: [str(n)] and [int(s)] *)

Fixpoint digits_aux (fuel : nat) (n : Z) (acc : str) : str :=
  match fuel with
  | O => acc
  | S fuel' =>
      let acc' := (48 + n mod 10) :: acc in
      if n <? 10 then acc' else digits_aux fuel' (n / 10) acc'
  end.

(** The fuel exceeds the number of decimal digits, see [digits_value]. *)
Definition digits (n : Z) : str := digits_aux (S (Z.to_nat (Z.log2 n))) n [].

Definition str_of_Z (n : Z) : str := if n <? 0 then 45 :: digits (- n) else digits n.

Definition digits_val (s : str) : Z := fold_left (fun a c => a * 10 + (c - 48)) s 0.

(** ** Order of strings and [sorted(..., key=...)] *)

(** Python compares strings code point by code point. *)
Fixpoint str_leb (s t : str) : bool :=
  match s, t with
  | [], _ => true
  | _ :: _, [] => false
  | a :: s', b :: t' => (a <? b) || ((a =? b) && str_leb s' t')
  end.

(** Stable insertion sort on a string key. *)
Fixpoint insert_by {A} (key : A -> str) (x : A) (l : list A) : list A :=
  match l with
  | [] => [x]
  | y :: l' => if str_leb (key x) (key y) then x :: l else y :: insert_by key x l'
  end.

Definition sorted_by {A} (key : A -> str) (l : list A) : list A :=
  foldr (insert_by key) [] l.

(** ** Unicode character data *)

(** What the interpreter's Unicode Character Database says of a code point. *)
Class UCD := {
  cp_casefold : Z -> list Z;   (* full case folding *)
  cp_upper : Z -> list Z;      (* full upper-case mapping *)
  cp_nfkd : Z -> list Z;       (* full compatibility decomposition *)
  cp_combining : Z -> Z;       (* canonical combining class *)
  cp_decimal : Z -> option Z;  (* value of a decimal digit (category Nd) *)
  cp_word : Z -> bool          (* alphanumeric or underscore: the class \w *)
}.

Definition ascii_lower (c : Z) : Z := if (65 <=? c) && (c <=? 90) then c + 32 else c.
Definition ascii_upper (c : Z) : Z := if (97 <=? c) && (c <=? 122) then c - 32 else c.
Definition is_digit (c : Z) : bool := (48 <=? c) && (c <=? 57).

(** The Latin-1 block of the database, identity elsewhere. *)
Definition latin1_nfkd : list (Z * list Z) :=
  [
    (160, [32]); (168, [32; 776]); (170, [97]); (175, [32; 772]); (178, [50]);
    (179, [51]); (180, [32; 769]); (181, [956]); (184, [32; 807]); (185, [49]);
    (186, [111]); (188, [49; 8260; 52]); (189, [49; 8260; 50]); (190, [51; 8260; 52]);
    (192, [65; 768]); (193, [65; 769]); (194, [65; 770]); (195, [65; 771]);
    (196, [65; 776]); (197, [65; 778]); (199, [67; 807]); (200, [69; 768]);
    (201, [69; 769]); (202, [69; 770]); (203, [69; 776]); (204, [73; 768]);
    (205, [73; 769]); (206, [73; 770]); (207, [73; 776]); (209, [78; 771]);
    (210, [79; 768]); (211, [79; 769]); (212, [79; 770]); (213, [79; 771]);
    (214, [79; 776]); (217, [85; 768]); (218, [85; 769]); (219, [85; 770]);
    (220, [85; 776]); (221, [89; 769]); (224, [97; 768]); (225, [97; 769]);
    (226, [97; 770]); (227, [97; 771]); (228, [97; 776]); (229, [97; 778]);
    (231, [99; 807]); (232, [101; 768]); (233, [101; 769]); (234, [101; 770]);
    (235, [101; 776]); (236, [105; 768]); (237, [105; 769]); (238, [105; 770]);
    (239, [105; 776]); (241, [110; 771]); (242, [111; 768]); (243, [111; 769]);
    (244, [111; 770]); (245, [111; 771]); (246, [111; 776]); (249, [117; 768]);
    (250, [117; 769]); (251, [117; 770]); (252, [117; 776]); (253, [121; 769]);
    (255, [121; 776])
  ].

Definition latin1_ucd : UCD := {|
  cp_casefold c :=
    if c <? 128 then [ascii_lower c]
    else if c =? 181 then [956]
    else if c =? 223 then [115; 115]
    else if (192 <=? c) && (c <=? 222) && negb (c =? 215) then [c + 32]
    else [c];
  cp_upper c :=
    if c <? 128 then [ascii_upper c]
    else if c =? 181 then [924]
    else if c =? 223 then [83; 83]
    else if c =? 255 then [376]
    else if (224 <=? c) && (c <=? 254) && negb (c =? 247) then [c - 32]
    else [c];
  cp_nfkd c :=
    if c <? 128 then [c]
    else match list_find (fun p => p.1 = c) latin1_nfkd with
         | Some (_, (_, d)) => d
         | None => [c]
         end;
  cp_combining c :=
    if (768 <=? c) && (c <=? 776) || (c =? 778) then 230
    else if c =? 807 then 202 else 0;
  cp_decimal c := if is_digit c then Some (c - 48) else None;
  cp_word c :=
    is_digit c || ((65 <=? c) && (c <=? 90)) || (c =? 95) || ((97 <=? c) && (c <=? 122)) ||
    bool_decide (c ∈ [170; 178; 179; 181; 185; 186; 188; 189; 190]) ||
    ((192 <=? c) && (c <=? 255) && negb (c =? 215) && negb (c =? 247))
|}.

(** The documented contents of the database on the Latin-1 block. *)
Class UCDLaws (D : UCD) : Prop := {
  casefold_latin1 c : 0 <= c < 256 -> @cp_casefold D c = @cp_casefold latin1_ucd c;
  upper_latin1 c : 0 <= c < 256 -> @cp_upper D c = @cp_upper latin1_ucd c;
  nfkd_latin1 c : 0 <= c < 256 -> @cp_nfkd D c = @cp_nfkd latin1_ucd c;
  combining_latin1 c : 0 <= c < 256 -> @cp_combining D c = 0;
  decimal_latin1 c : 0 <= c < 256 -> @cp_decimal D c = @cp_decimal latin1_ucd c
}.

#[export] Instance latin1_laws : UCDLaws latin1_ucd.
Proof.
  split; try done. intros c Hc. cbn.
  destruct (_ || _) eqn:He; [|destruct (c =? 807) eqn:?]; lia.
Qed.

Definition casefold `{UCD} (s : str) : str := s ≫= cp_casefold.
Definition upper `{UCD} (s : str) : str := s ≫= cp_upper.

(** Canonical ordering: stable sort of each run of non-starters. *)
Fixpoint ccc_insert `{UCD} (c : Z) (s : str) : str :=
  match s with
  | d :: s' =>
      if (0 <? cp_combining d) && (cp_combining d <? cp_combining c)
      then d :: ccc_insert c s' else c :: s
  | [] => [c]
  end.

(** [unicodedata.normalize("NFKD", s)]. *)
Definition nfkd `{UCD} (s : str) : str :=
  foldr (fun c acc => if cp_combining c =? 0 then c :: acc else ccc_insert c acc) []
    (s ≫= cp_nfkd).

(** [unicodedata.combining(c)] as a truth value. *)
Definition combining `{UCD} (c : Z) : bool := negb (cp_combining c =? 0).

(** Digits with single underscores between them, the literal [int] accepts. *)
Fixpoint int_digits `{UCD} (s : str) (acc : Z) (after_digit : bool) : option Z :=
  match s with
  | [] => if after_digit then Some acc else None
  | c :: s' =>
      if c =? 95 then if after_digit then int_digits s' acc false else None
      else match cp_decimal c with
      | Some d => int_digits s' (acc * 10 + d) true
      | None => None
      end
  end.

(** [int(s)]; [None] stands for the [ValueError].  Conversion of more than
    4300 digits raises too. *)
Definition py_int `{UCD} (s : str) : option Z :=
  let t := strip s in
  let '(sign, body) :=
    match t with
    | 43 :: b => (1, b)
    | 45 :: b => (-1, b)
    | _ => (1, t)
    end in
  if 4300 <? py_len (filter (fun c => c <> 95) body) then None
  else option_map (Z.mul sign) (int_digits body 0 false).

(** ** Lemmas *)

Lemma upper_app `{UCD} s t : upper (s ++ t) = upper s ++ upper t.
Proof. apply bind_app. Qed.

Lemma casefold_app `{UCD} s t : casefold (s ++ t) = casefold s ++ casefold t.
Proof. apply bind_app. Qed.

Lemma casefold_cons `{UCD} c s : casefold (c :: s) = cp_casefold c ++ casefold s.
Proof. done. Qed.

Lemma upper_cons `{UCD} c s : upper (c :: s) = cp_upper c ++ upper s.
Proof. done. Qed.

Lemma upper_ascii_cons `{UCDLaws} c s :
  0 <= c < 128 -> upper (c :: s) = ascii_upper c :: upper s.
Proof.
  intros Hc. rewrite upper_cons, upper_latin1 by lia. cbn.
  by rewrite (proj2 (Z.ltb_lt c 128)) by lia.
Qed.

(** A string of the Latin-1 block, as the literals of the program are. *)
Definition latin1_str (s : str) : bool := forallb (fun c => (0 <=? c) && (c <? 256)) s.

Lemma upper_latin1_str `{UCDLaws} s :
  latin1_str s = true -> upper s = @upper latin1_ucd s.
Proof.
  induction s as [|c s IH]; [done|]. intros Hs. cbn in Hs. bools.
  rewrite !upper_cons, IH by done. by rewrite upper_latin1 by lia.
Qed.

Lemma casefold_latin1_str `{UCDLaws} s :
  latin1_str s = true -> casefold s = @casefold latin1_ucd s.
Proof.
  induction s as [|c s IH]; [done|]. intros Hs. cbn in Hs. bools.
  rewrite !casefold_cons, IH by done. by rewrite casefold_latin1 by lia.
Qed.

Lemma prefix_to_app n s : s = prefix_to n s ++ drop (Z.to_nat n) s.
Proof. unfold prefix_to. by rewrite take_drop. Qed.

Lemma py_len_prefix n s : 0 <= n -> py_len (prefix_to n s) <= n.
Proof. intros Hn. unfold py_len, prefix_to. rewrite length_take. lia. Qed.

Lemma py_len_prefix_eq n s : 0 <= n -> py_len (prefix_to n s) = Z.min n (py_len s).
Proof. intros Hn. unfold py_len, prefix_to. rewrite length_take. lia. Qed.

Lemma join_cons_app sep p ps : exists rest, join sep (p :: ps) = p ++ rest.
Proof. destruct ps; simpl; [exists []; by rewrite app_nil_r | eauto]. Qed.

Lemma py_len_app s t : py_len (s ++ t) = py_len s + py_len t.
Proof. unfold py_len. rewrite length_app. lia. Qed.

Lemma join_head_len sep p ps : py_len p <= py_len (join sep (p :: ps)).
Proof. destruct (join_cons_app sep p ps) as [r ->]. rewrite py_len_app. unfold py_len. lia. Qed.

Lemma py_len_nonneg s : 0 <= py_len s.
Proof. unfold py_len. lia. Qed.

Lemma truthy_true s : truthy s = true <-> s <> [].
Proof. unfold truthy. rewrite negb_true_iff, bool_decide_eq_false. done. Qed.

Lemma truthy_false s : truthy s = false <-> s = [].
Proof. unfold truthy. rewrite negb_false_iff, bool_decide_eq_true. done. Qed.

Lemma truthy_len s : truthy s = true <-> 1 <= py_len s.
Proof. rewrite truthy_true. unfold py_len. destruct s; simpl; split; (done || lia). Qed.

Lemma lstrip_by_length f s : (length (lstrip_by f s) <= length s)%nat.
Proof. induction s as [|c s IH]; simpl; [done|]. destruct (f c); simpl; lia. Qed.

Lemma strip_length s : py_len (strip s) <= py_len s.
Proof.
  unfold py_len, strip, rstrip_by. rewrite length_rev.
  pose proof (lstrip_by_length is_space (rev (lstrip_by is_space s))) as Hr.
  pose proof (lstrip_by_length is_space s) as Hl.
  rewrite length_rev in Hr. lia.
Qed.

(** *** Sorting *)

Lemma insert_by_perm {A} (key : A -> str) x l : insert_by key x l ≡ₚ x :: l.
Proof.
  induction l as [|y l IH]; simpl; [done|]. destruct (str_leb _ _); [done|].
  rewrite IH. constructor.
Qed.

Lemma sorted_by_perm {A} (key : A -> str) l : sorted_by key l ≡ₚ l.
Proof. induction l as [|x l IH]; simpl; [done|]. by rewrite insert_by_perm, IH. Qed.

Lemma str_leb_total s t : str_leb s t = true \/ str_leb t s = true.
Proof.
  revert t. induction s as [|a s IH]; intros [|b t]; simpl; auto.
  destruct (Z.lt_total a b) as [Hab|[->|Hab]].
  - left. by rewrite (proj2 (Z.ltb_lt _ _)).
  - rewrite Z.eqb_refl. destruct (IH t) as [-> | ->]; [left|right]; by rewrite orb_true_r.
  - right. by rewrite (proj2 (Z.ltb_lt _ _)).
Qed.

Lemma str_leb_trans s t v : str_leb s t = true -> str_leb t v = true -> str_leb s v = true.
Proof.
  revert t v. induction s as [|a s IH]; intros [|b t] [|c v]; simpl; try done.
  rewrite !orb_true_iff, !andb_true_iff, !Z.ltb_lt, !Z.eqb_eq.
  intros [?|[-> ?]] [?|[-> ?]]; [left; lia|by left|by left|right; split; [done|eauto]].
Qed.

(** The result is sorted on the key. *)
Lemma sorted_by_sorted {A} (key : A -> str) l :
  StronglySorted (fun x y => str_leb (key x) (key y) = true) (sorted_by key l).
Proof.
  induction l as [|x l IH]; simpl; [constructor|].
  induction IH as [|y l' Hs IHs Hall]; simpl; [repeat constructor|].
  destruct (str_leb (key x) (key y)) eqn:Hxy.
  - constructor; [by constructor|]. constructor; [done|].
    eapply Forall_impl; [exact Hall|]. intros z Hz. by eapply str_leb_trans.
  - constructor; [done|].
    rewrite (insert_by_perm key x l').
    constructor; [|done]. destruct (str_leb_total (key x) (key y)); congruence.
Qed.

(** *** Decimal digits *)

Lemma digits_val_snoc_aux s a :
  fold_left (fun a c => a * 10 + (c - 48)) s a
  = a * 10 ^ Z.of_nat (length s) + digits_val s.
Proof.
  unfold digits_val. revert a. induction s as [|c s IH]; intros a; simpl fold_left.
  - cbn [length]. lia.
  - rewrite IH, (IH (0 * 10 + (c - 48))).
    replace (Z.of_nat (length (c :: s))) with (Z.of_nat (length s) + 1)
      by (cbn [length]; lia).
    rewrite Z.pow_add_r by lia. lia.
Qed.

Lemma digits_aux_value fuel n acc :
  0 <= n < 10 ^ Z.of_nat fuel ->
  digits_val (digits_aux fuel n acc)
  = n * 10 ^ Z.of_nat (length acc) + digits_val acc.
Proof.
  revert n acc. induction fuel as [|fuel IH]; intros n acc Hn.
  - simpl in *. replace n with 0 by lia. lia.
  - cbn [digits_aux].
    assert (Hcons : digits_val ((48 + n mod 10) :: acc)
      = (n mod 10) * 10 ^ Z.of_nat (length acc) + digits_val acc).
    { unfold digits_val. cbn [fold_left]. rewrite digits_val_snoc_aux.
      unfold digits_val. lia. }
    destruct (n <? 10) eqn:Hlt; bools.
    + rewrite Hcons. rewrite Z.mod_small by lia. done.
    + rewrite IH.
      * rewrite Hcons. cbn [length].
        replace (Z.of_nat (S (length acc))) with (1 + Z.of_nat (length acc)) by lia.
        rewrite Z.pow_add_r by lia. pose proof (Z.div_mod n 10). nia.
      * replace (Z.of_nat (S fuel)) with (1 + Z.of_nat fuel) in Hn by lia.
        rewrite Z.pow_add_r in Hn by lia.
        split; [apply Z.div_pos; lia | apply Z.div_lt_upper_bound; lia].
Qed.

Lemma digits_fuel n : 0 <= n -> n < 10 ^ Z.of_nat (S (Z.to_nat (Z.log2 n))).
Proof.
  intros Hn. destruct (decide (n = 0)) as [->|Hz]; [done|].
  pose proof (Z.log2_spec n ltac:(lia)) as [_ Hlt].
  pose proof (Z.log2_nonneg n).
  eapply Z.lt_le_trans; [exact Hlt|].
  replace (Z.of_nat (S (Z.to_nat (Z.log2 n)))) with (Z.succ (Z.log2 n)) by lia.
  apply Z.pow_le_mono_l. lia.
Qed.

(** The printed digits denote the printed number. *)
Lemma digits_value n : 0 <= n -> digits_val (digits n) = n.
Proof.
  intros Hn. unfold digits. rewrite digits_aux_value.
  - change (digits_val []) with 0. cbn [length]. lia.
  - split; [done | by apply digits_fuel].
Qed.

Lemma digits_inj n m : 0 <= n -> 0 <= m -> digits n = digits m -> n = m.
Proof. intros Hn Hm Heq. by rewrite <- (digits_value n), <- (digits_value m), Heq. Qed.

Lemma digits_aux_all fuel n acc :
  0 <= n -> Forall (fun c => is_digit c = true) acc ->
  Forall (fun c => is_digit c = true) (digits_aux fuel n acc).
Proof.
  revert n acc. induction fuel as [|fuel IH]; intros n acc Hn Hacc; [done|].
  cbn [digits_aux].
  assert (Forall (fun c => is_digit c = true) ((48 + n mod 10) :: acc)) as Hc.
  { constructor; [|done]. unfold is_digit.
    pose proof (Z.mod_pos_bound n 10). lia. }
  destruct (n <? 10); [done|]. apply IH; [|done]. apply Z.div_pos; lia.
Qed.

Lemma digits_all n : 0 <= n -> Forall (fun c => is_digit c = true) (digits n).
Proof. intros. by apply digits_aux_all. Qed.

Lemma digits_aux_length_mono fuel n acc :
  (length acc <= length (digits_aux fuel n acc))%nat.
Proof.
  revert n acc. induction fuel as [|fuel IH]; intros n acc; [done|].
  cbn [digits_aux]. destruct (n <? 10); simpl; [lia|].
  etransitivity; [|apply IH]. simpl. lia.
Qed.

Lemma digits_nonempty n : digits n <> [].
Proof.
  unfold digits. cbn [digits_aux].
  destruct (n <? 10); [done|].
  intros Heq. pose proof (digits_aux_length_mono (Z.to_nat (Z.log2 n)) (n / 10)
    [48 + n mod 10]) as Hlen.
  rewrite Heq in Hlen. simpl in Hlen. lia.
Qed.

Lemma str_of_Z_nonempty n : str_of_Z n <> [].
Proof. unfold str_of_Z. destruct (n <? 0); [done|apply digits_nonempty]. Qed.

#[export] Hint Resolve py_len_nonneg : piki.
