(* ===== verification/PyRegex.v ===== *)
(** * Regular expressions of the [re] module

    A backtracking matcher for the constructs the program's patterns use:
    character classes, sequence, alternation, greedy and lazy bounded
    repetition, the word boundary, the end anchor and positive lookahead.
    [ends r st] lists the states reachable by matching [r] from [st] in the
    priority order of Python's engine, so its head is the match [re] finds. *)
From S2P Require Import Prelude PyStr.

Local Open Scope Z_scope.

Inductive re :=
| RChar (p : Z -> bool)
| RSeq (r1 r2 : re)
| RAlt (r1 r2 : re)
| RRep (greedy : bool) (lo : nat) (hi : option nat) (r : re)
| RLook (r : re)
| REnd
| RWordB.

(** A position of the subject: the character before it and the rest. *)
Record re_state := ReState { re_prev : option Z; re_rest : str }.

Definition word_at `{UCD} (o : option Z) : bool :=
  match o with Some c => cp_word c | None => false end.

(** Repetition of one step function; [fuel] bounds the number of iterations
    and every iteration that continues consumes a character. *)
Fixpoint rep_ends (f : re_state -> list re_state) (greedy : bool)
    (lo : nat) (hi : option nat) (fuel : nat) (st : re_state) : list re_state :=
  match fuel with
  | O => if bool_decide (lo = O) then [st] else []
  | S fuel' =>
      let next :=
        match hi with
        | Some O => []
        | _ =>
            f st ≫= (fun st' =>
              if bool_decide (length (re_rest st') < length (re_rest st))%nat
              then rep_ends f greedy (pred lo) (option_map pred hi) fuel' st'
              else [])
        end in
      if bool_decide (lo = O)
      then if greedy then next ++ [st] else st :: next
      else next
  end.

Fixpoint ends `{UCD} (r : re) (st : re_state) : list re_state :=
  match r with
  | RChar p =>
      match re_rest st with
      | c :: s => if p c then [ReState (Some c) s] else []
      | [] => []
      end
  | RSeq r1 r2 => ends r1 st ≫= ends r2
  | RAlt r1 r2 => ends r1 st ++ ends r2 st
  | RRep g lo hi r => rep_ends (ends r) g lo hi (S (length (re_rest st))) st
  | RLook r => if bool_decide (ends r st = []) then [] else [st]
  | REnd =>
      match re_rest st with
      | [] => [st]
      | [c] => if c =? 10 then [st] else []
      | _ => []
      end
  | RWordB =>
      if xorb (word_at (re_prev st)) (word_at (head (re_rest st))) then [st] else []
  end.

(** The text matched at a position, if any. *)
Definition match_at `{UCD} (r : re) (st : re_state) : option (str * re_state) :=
  match ends r st with
  | [] => None
  | st' :: _ => Some (take (length (re_rest st) - length (re_rest st')) (re_rest st), st')
  end.

(** The texts [pattern.finditer] yields, left to right. *)
Fixpoint finditer_aux `{UCD} (r : re) (fuel : nat) (st : re_state) : list str :=
  match fuel with
  | O => []
  | S fuel' =>
      let skip := match re_rest st with
                  | [] => []
                  | c :: s => finditer_aux r fuel' (ReState (Some c) s)
                  end in
      match match_at r st with
      | Some (t, st') => t :: (if truthy t then finditer_aux r fuel' st' else skip)
      | None => skip
      end
  end.

Definition finditer `{UCD} (r : re) (s : str) : list str :=
  finditer_aux r (S (length s)) (ReState None s).

(** [pattern.search(s)] as a truth value. *)
Definition search `{UCD} (r : re) (s : str) : bool :=
  negb (bool_decide (finditer r s = [])).

(** ** Derived forms *)

Definition REps : re := RRep true 0 (Some 0%nat) (RChar (fun _ => false)).
Definition ROpt (r : re) : re := RRep true 0 (Some 1%nat) r.
Definition RStar (r : re) : re := RRep true 0 None r.
Definition RPlus (r : re) : re := RRep true 1 None r.
Fixpoint rseq (l : list re) : re :=
  match l with [] => REps | [r] => r | r :: l' => RSeq r (rseq l') end.
Fixpoint ralt (l : list re) : re :=
  match l with [] => RChar (fun _ => false) | [r] => r | r :: l' => RAlt r (ralt l') end.

Definition one_of (cs : str) : Z -> bool := fun c => bool_decide (c ∈ cs).
Definition c_digit `{UCD} : Z -> bool := fun c => bool_decide (is_Some (cp_decimal c)).
Definition c_space : Z -> bool := is_space.

(** A letter of a pattern under [re.IGNORECASE]: both cases, and the long s
    and dotted and dotless i that the engine also folds. *)
Definition icase (l c : Z) : bool :=
  let lower := if (65 <=? l) && (l <=? 90) then l + 32 else l in
  if (97 <=? lower) && (lower <=? 122)
  then (c =? lower) || (c =? lower - 32) ||
       ((lower =? 115) && (c =? 383)) || ((lower =? 107) && (c =? 8490)) ||
       ((lower =? 105) && ((c =? 304) || (c =? 305)))
  else if (224 <=? lower) && (lower <=? 254) && negb (lower =? 247)
  then (c =? lower) || (c =? lower - 32)
  else c =? l.

(** A literal of a pattern, case sensitive and not. *)
Definition lit (s : str) : re := rseq (map (fun l => RChar (Z.eqb l)) s).
Definition lit_i (s : str) : re := rseq (map (fun l => RChar (icase l)) s).
Definition one_of_i (cs : str) : Z -> bool := fun c => existsb (fun l => icase l c) cs.

(** ** Matched texts are blocks of the subject *)

Definition re_ext (st st' : re_state) : Prop :=
  exists t, re_rest st = t ++ re_rest st'.

Lemma re_ext_refl st : re_ext st st.
Proof. by exists []. Qed.

Lemma re_ext_trans st1 st2 st3 : re_ext st1 st2 -> re_ext st2 st3 -> re_ext st1 st3.
Proof.
  intros [t1 H1] [t2 H2]. exists (t1 ++ t2). by rewrite H1, H2, app_assoc.
Qed.

Lemma rep_ends_ext f g lo hi fuel st st' :
  (forall st st', st' ∈ f st -> re_ext st st') ->
  st' ∈ rep_ends f g lo hi fuel st -> re_ext st st'.
Proof.
  intros Hf. revert lo hi st. induction fuel as [|fuel IH]; intros lo hi st Hin; simpl in Hin.
  - destruct (bool_decide (lo = O)); [|set_solver].
    apply list_elem_of_singleton in Hin as ->. apply re_ext_refl.
  - assert (Hnext : forall l,
      l = match hi with
          | Some O => []
          | _ => f st ≫= (fun st' =>
              if bool_decide (length (re_rest st') < length (re_rest st))%nat
              then rep_ends f g (pred lo) (option_map pred hi) fuel st' else [])
          end -> st' ∈ l -> re_ext st st').
    { intros l -> Hl.
      assert (st' ∈ f st ≫= (fun st' =>
              if bool_decide (length (re_rest st') < length (re_rest st))%nat
              then rep_ends f g (pred lo) (option_map pred hi) fuel st' else []))
        as (y & Hfy & Hy)%list_elem_of_bind.
      { destruct hi as [[|]|]; [set_solver|done..]. }
      case_bool_decide; [|set_solver].
      eapply re_ext_trans; [by apply Hf | by eapply IH]. }
    destruct (bool_decide (lo = O)); [|by eapply Hnext].
    destruct g.
    + apply elem_of_app in Hin as [Hin|Hin]; [by eapply Hnext|].
      apply list_elem_of_singleton in Hin as ->. apply re_ext_refl.
    + apply elem_of_cons in Hin as [->|Hin]; [apply re_ext_refl|by eapply Hnext].
Qed.

Lemma ends_ext `{UCD} r st st' : st' ∈ ends r st -> re_ext st st'.
Proof.
  revert st st'. induction r as [p|r1 IH1 r2 IH2|r1 IH1 r2 IH2|g lo hi r IH|r IH| |];
    intros st st' Hin; cbn [ends] in Hin.
  - destruct (re_rest st) as [|c s] eqn:Hr; [set_solver|].
    destruct (p c); [|set_solver].
    apply list_elem_of_singleton in Hin as ->. by exists [c].
  - apply list_elem_of_bind in Hin as (y & Hy & H1).
    eapply re_ext_trans; eauto.
  - apply elem_of_app in Hin as [?|?]; eauto.
  - eapply rep_ends_ext; eauto.
  - case_bool_decide; [set_solver|].
    apply list_elem_of_singleton in Hin as ->. apply re_ext_refl.
  - destruct (re_rest st) as [|c [|d l]]; [|destruct (c =? 10); [|set_solver]|set_solver];
      apply list_elem_of_singleton in Hin as ->; apply re_ext_refl.
  - destruct (xorb _ _); [|set_solver].
    apply list_elem_of_singleton in Hin as ->. apply re_ext_refl.
Qed.

Lemma match_at_block `{UCD} r st t st' :
  match_at r st = Some (t, st') -> re_rest st = t ++ re_rest st'.
Proof.
  unfold match_at. destruct (ends r st) as [|st1 l] eqn:He; [done|].
  intros [= <- <-].
  destruct (ends_ext r st st1) as [t Ht]; [rewrite He; set_solver|].
  rewrite Ht, length_app, Nat.add_sub. by rewrite take_app_length.
Qed.

(** Every text a pattern finds occurs in the subject. *)
Lemma finditer_aux_block `{UCD} r fuel st t :
  t ∈ finditer_aux r fuel st -> exists a b, re_rest st = a ++ t ++ b.
Proof.
  revert st. induction fuel as [|fuel IH]; intros st Hin; [set_solver|].
  cbn [finditer_aux] in Hin.
  assert (Hskip : t ∈ match re_rest st with
                      | [] => []
                      | c :: s => finditer_aux r fuel (ReState (Some c) s)
                      end -> exists a b, re_rest st = a ++ t ++ b).
  { destruct (re_rest st) as [|c s]; [set_solver|].
    intros (a & b & Hab)%IH. simpl in Hab. exists (c :: a), b. by rewrite Hab. }
  destruct (match_at r st) as [[t' st']|] eqn:Hm; [|by apply Hskip].
  pose proof (match_at_block _ _ _ _ Hm) as Hb.
  apply elem_of_cons in Hin as [->|Hin].
  - by exists [], (re_rest st').
  - destruct (truthy t'); [|by apply Hskip].
    apply IH in Hin as (a & b & Hab). exists (t' ++ a), b.
    by rewrite Hb, Hab, <- app_assoc.
Qed.

Lemma finditer_block `{UCD} r s t : t ∈ finditer r s -> contains t s = true.
Proof.
  intros (a & b & Hab)%finditer_aux_block. simpl in Hab.
  apply is_infix_spec. by exists a, b.
Qed.
