(* ===== verification/Errors.v ===== *)
(** * Exceptions, results, enumerations and pydantic contracts

    The exceptions the program raises or catches with Python's subclass
    relation, the result type of fallible code and its monad, [StrEnum]
    classes as a typeclass, and the typeclass [Contract] of the pydantic
    models: constructing an instance checks the field constraints, then runs
    the [mode="after"] validator. *)
From S2P Require Import Prelude PyStr.

Local Open Scope Z_scope.

(** ** Enumerations *)

(** A [StrEnum]: its members and the string value of each. *)
Class StrEnum (A : Type) `{EqDecision A} := {
  enum_all : list A;
  enum_value : A -> str;
  enum_complete : forall x, x ∈ enum_all;
  enum_value_inj : forall x y, enum_value x = enum_value y -> x = y
}.

(** [E(s)]: the member with that value; [None] stands for the [ValueError]. *)
Definition enum_of {A} `{StrEnum A} (s : str) : option A :=
  match list_find (fun x => enum_value x = s) enum_all with
  | Some (_, x) => Some x
  | None => None
  end.

Lemma enum_of_value {A} `{StrEnum A} (x : A) : enum_of (enum_value x) = Some x.
Proof.
  unfold enum_of.
  destruct (list_find _ _) as [[i y]|] eqn:Hf.
  - apply list_find_Some in Hf as (_ & Hy & _). f_equal. by apply enum_value_inj.
  - eapply list_find_None, Forall_forall in Hf; [|apply enum_complete]. done.
Qed.

Lemma enum_of_Some {A} `{StrEnum A} s (x : A) : enum_of s = Some x -> enum_value x = s.
Proof.
  unfold enum_of. destruct (list_find _ _) as [[i y]|] eqn:Hf; [|done].
  intros [= <-]. by apply list_find_Some in Hf as (_ & Hy & _).
Qed.


(** Closes the two laws of a [StrEnum] instance. *)
Ltac enum_laws :=
  first [ intros []; simpl; set_solver
        | intros [] []; first [done | (intros H; vm_compute in H; discriminate H)] ].

(** The error codes carried by exceptions. *)
Inductive ToolErrorCode :=
| TE_BAD_REQUEST | TE_UNAUTHORIZED | TE_NOT_FOUND | TE_RATE_LIMITED | TE_TIMEOUT
| TE_UPSTREAM_UNAVAILABLE | TE_INTERNAL_ERROR.

#[export] Instance ToolErrorCode_eq_dec : EqDecision ToolErrorCode.
Proof. solve_decision. Defined.

#[export] Program Instance ToolErrorCode_enum : StrEnum ToolErrorCode := {|
  enum_all := [TE_BAD_REQUEST; TE_UNAUTHORIZED; TE_NOT_FOUND; TE_RATE_LIMITED; TE_TIMEOUT;
               TE_UPSTREAM_UNAVAILABLE; TE_INTERNAL_ERROR];
  enum_value c :=
    match c with
    | TE_BAD_REQUEST => u "bad_request"
    | TE_UNAUTHORIZED => u "unauthorized"
    | TE_NOT_FOUND => u "not_found"
    | TE_RATE_LIMITED => u "rate_limited"
    | TE_TIMEOUT => u "timeout"
    | TE_UPSTREAM_UNAVAILABLE => u "upstream_unavailable"
    | TE_INTERNAL_ERROR => u "internal_error"
    end
|}.
Solve All Obligations with enum_laws.

Inductive LLMErrorCode :=
| LE_BAD_REQUEST | LE_UNAUTHORIZED | LE_RATE_LIMITED | LE_TIMEOUT | LE_UNAVAILABLE
| LE_REFUSED | LE_INVALID_RESPONSE.

#[export] Instance LLMErrorCode_eq_dec : EqDecision LLMErrorCode.
Proof. solve_decision. Defined.

#[export] Program Instance LLMErrorCode_enum : StrEnum LLMErrorCode := {|
  enum_all := [LE_BAD_REQUEST; LE_UNAUTHORIZED; LE_RATE_LIMITED; LE_TIMEOUT;
               LE_UNAVAILABLE; LE_REFUSED; LE_INVALID_RESPONSE];
  enum_value c :=
    match c with
    | LE_BAD_REQUEST => u "bad_request"
    | LE_UNAUTHORIZED => u "unauthorized"
    | LE_RATE_LIMITED => u "rate_limited"
    | LE_TIMEOUT => u "timeout"
    | LE_UNAVAILABLE => u "unavailable"
    | LE_REFUSED => u "refused"
    | LE_INVALID_RESPONSE => u "invalid_response"
    end
|}.
Solve All Obligations with enum_laws.

(** ** Exceptions *)

Inductive exn :=
| ValidationError (msg : str)              (* pydantic; a ValueError *)
| ValueError (msg : str)
| JSONDecodeError                          (* json.loads; a ValueError *)
| UnicodeDecodeError                       (* bytes.decode; a ValueError *)
| FileNotFoundError
| PermissionError
| KeyError
| IndexError
| OverflowError
| TypeError
| AssertionError (msg : str)
| RuntimeError (msg : str)
| MetaWebhookError (msg : str)             (* a ValueError *)
| MetaIngressRetryableError (msg : str)    (* a RuntimeError *)
| ConversationBusyError (msg : str)        (* a RuntimeError *)
| CheckoutDisabledError (msg : str)        (* a RuntimeError *)
| BuenPickConfigurationError (msg : str)   (* a ValueError *)
| BuenPickClientError (code : ToolErrorCode) (user_safe_message : str) (status_code : option Z)
| LLMAdapterError (code : LLMErrorCode) (user_safe_message : str) (status_code : option Z)
| HTTPException (status_code : Z) (detail : str)
| IntegrityError                           (* SQLAlchemy, a violated constraint *)
| OperationalError                         (* SQLAlchemy, the database is unreachable *)
| DataError                                (* SQLAlchemy, a value too long for its column *)
| RedisError                               (* redis-py, the server is unreachable *)
| TimeoutError                             (* asyncio.timeout *)
| NoResultFound
| MultipleResultsFound.

#[export] Instance exn_eq_dec : EqDecision exn.
Proof. solve_decision. Defined.

(** [isinstance(e, ValueError)]. *)
Definition is_value_error (e : exn) : bool :=
  match e with
  | ValidationError _ | ValueError _ | JSONDecodeError | UnicodeDecodeError
  | MetaWebhookError _ | BuenPickConfigurationError _ => true
  | _ => false
  end.

(** [isinstance(e, ConversationBusyError)]. *)
Definition is_busy (e : exn) : bool :=
  match e with ConversationBusyError _ => true | _ => false end.

(** [type(e).__name__]. *)
Definition exn_name (e : exn) : str :=
  match e with
  | ValidationError _ => u "ValidationError"
  | ValueError _ => u "ValueError"
  | JSONDecodeError => u "JSONDecodeError"
  | UnicodeDecodeError => u "UnicodeDecodeError"
  | FileNotFoundError => u "FileNotFoundError"
  | PermissionError => u "PermissionError"
  | KeyError => u "KeyError"
  | IndexError => u "IndexError"
  | OverflowError => u "OverflowError"
  | TypeError => u "TypeError"
  | AssertionError _ => u "AssertionError"
  | RuntimeError _ => u "RuntimeError"
  | MetaWebhookError _ => u "MetaWebhookError"
  | MetaIngressRetryableError _ => u "MetaIngressRetryableError"
  | ConversationBusyError _ => u "ConversationBusyError"
  | CheckoutDisabledError _ => u "CheckoutDisabledError"
  | BuenPickConfigurationError _ => u "BuenPickConfigurationError"
  | BuenPickClientError _ _ _ => u "BuenPickClientError"
  | LLMAdapterError _ _ _ => u "LLMAdapterError"
  | HTTPException _ _ => u "HTTPException"
  | IntegrityError => u "IntegrityError"
  | OperationalError => u "OperationalError"
  | DataError => u "DataError"
  | RedisError => u "RedisError"
  | TimeoutError => u "TimeoutError"
  | NoResultFound => u "NoResultFound"
  | MultipleResultsFound => u "MultipleResultsFound"
  end.

(** ** Results *)

Inductive res (A : Type) :=
| Ok (a : A)
| Raise (e : exn).
Arguments Ok {A} a.
Arguments Raise {A} e.

#[export] Instance res_eq_dec {A} `{EqDecision A} : EqDecision (res A).
Proof. solve_decision. Defined.

#[export] Instance res_ret : MRet res := fun A a => Ok a.
#[export] Instance res_bind : MBind res := fun A B f m =>
  match m with Ok a => f a | Raise e => Raise e end.

Lemma res_bind_ok {A B} (f : A -> res B) (m : res A) b :
  (m ≫= f) = Ok b <-> exists a, m = Ok a /\ f a = Ok b.
Proof.
  destruct m as [a|e]; cbn; split.
  - eauto.
  - by intros (? & [= <-] & ?).
  - done.
  - by intros (? & ? & _).
Qed.

Lemma res_bind_raise {A B} (f : A -> res B) (m : res A) e :
  (m ≫= f) = Raise e <-> m = Raise e \/ exists a, m = Ok a /\ f a = Raise e.
Proof.
  destruct m as [a|e']; cbn; split.
  - eauto.
  - by intros [?|(? & [= <-] & ?)].
  - intros [= ->]. auto.
  - by intros [[= ->]|(? & ? & _)].
Qed.

(** Run a function over a list, left to right, stopping at the first raise. *)
Fixpoint res_map {A B} (f : A -> res B) (l : list A) : res (list B) :=
  match l with
  | [] => Ok []
  | x :: l' => y ← f x; ys ← res_map f l'; Ok (y :: ys)
  end.

Lemma res_map_ok {A B} (f : A -> res B) l ys :
  res_map f l = Ok ys <-> Forall2 (fun x y => f x = Ok y) l ys.
Proof.
  revert ys. induction l as [|x l IH]; intros ys; cbn [res_map].
  - split; [by intros [= <-]; constructor | by intros ->%Forall2_nil_inv_l].
  - rewrite res_bind_ok. split.
    + intros (y & Hy & H). apply res_bind_ok in H as (ys' & H & [= <-]).
      constructor; [done | by apply IH].
    + intros (y & ys' & Hy & H & ->)%Forall2_cons_inv_l.
      exists y. split; [done|]. apply res_bind_ok. exists ys'. split; [by apply IH | done].
Qed.

Lemma res_map_raise {A B} (f : A -> res B) l e :
  res_map f l = Raise e -> exists x, x ∈ l /\ f x = Raise e.
Proof.
  induction l as [|x l IH]; cbn [res_map]; [done|].
  intros [Hx|(y & _ & H)]%res_bind_raise; [exists x; set_solver|].
  apply res_bind_raise in H as [H|(ys & _ & H)]; [|done].
  destruct (IH H) as (z & ? & ?). exists z. set_solver.
Qed.

Lemma res_map_length {A B} (f : A -> res B) l ys :
  res_map f l = Ok ys -> length ys = length l.
Proof. intros H%res_map_ok. symmetry. by eapply Forall2_length. Qed.

(** Mapping a function whose results are lists, then flattening them. *)
Lemma res_map_concat {A B C} (f : A -> res (list C)) (h : A -> list B) (g : B -> res C)
    (ok : A -> Prop) l ys :
  (forall x r, f x = Ok r <-> ok x /\ Forall2 (fun y z => g y = Ok z) (h x) r) ->
  (exists rs, res_map f l = Ok rs /\ concat rs = ys) <->
  Forall ok l /\ Forall2 (fun y z => g y = Ok z) (l ≫= h) ys.
Proof.
  intros Hf. setoid_rewrite res_map_ok. revert ys. induction l as [|x l IH]; intros ys.
  - split.
    + intros (rs & ->%Forall2_nil_inv_l & <-). split; constructor.
    + intros (_ & ->%Forall2_nil_inv_l). exists []. split; [constructor|done].
  - rewrite bind_cons, Forall_cons. split.
    + intros (rs & (r & rs' & [Hx Hr]%Hf & Hrs & ->)%Forall2_cons_inv_l & <-).
      destruct (proj1 (IH (concat rs'))) as [Hok Hall]; [eauto|].
      split; [done|]. by apply Forall2_app.
    + intros ((Hx & Hok) & (y1 & y2 & H1 & H2 & ->)%Forall2_app_inv_l).
      destruct (proj2 (IH y2)) as (rs & Hrs & <-); [done|].
      exists (y1 :: rs). split; [|done]. constructor; [by apply Hf|done].
Qed.

(** ** Pydantic contracts *)

(** [fields_ok] is the conjunction of the declared field constraints,
    [model_validator] the message of the [ValueError] its [mode="after"]
    validator raises, if any. *)
Class Contract (A : Type) := {
  fields_ok : A -> bool;
  model_validator : A -> option str
}.

Definition contract_ok {A} `{Contract A} (a : A) : bool :=
  fields_ok a && match model_validator a with None => true | Some _ => false end.

(** Constructing an instance of a pydantic model. *)
Definition construct {A} `{Contract A} (a : A) : res A :=
  if fields_ok a then
    match model_validator a with
    | None => Ok a
    | Some msg => Raise (ValidationError msg)
    end
  else Raise (ValidationError (u "field constraint")).

Lemma construct_ok {A} `{Contract A} (a b : A) :
  construct a = Ok b <-> contract_ok a = true /\ b = a.
Proof.
  unfold construct, contract_ok. destruct (fields_ok a), (model_validator a); simpl; naive_solver.
Qed.

Lemma construct_good {A} `{Contract A} (a : A) : contract_ok a = true -> construct a = Ok a.
Proof. intros. by apply construct_ok. Qed.

Lemma construct_bad {A} `{Contract A} (a : A) :
  contract_ok a = false -> exists msg, construct a = Raise (ValidationError msg).
Proof.
  unfold construct, contract_ok. destruct (fields_ok a), (model_validator a); simpl; naive_solver.
Qed.

Lemma construct_raises {A} `{Contract A} (a : A) e :
  construct a = Raise e -> contract_ok a = false /\ exists msg, e = ValidationError msg.
Proof.
  unfold construct, contract_ok. destruct (fields_ok a), (model_validator a); simpl; naive_solver.
Qed.

Lemma fields_and_validator {A} `{Contract A} (a : A) :
  contract_ok a = true <-> fields_ok a = true /\ model_validator a = None.
Proof.
  unfold contract_ok. rewrite andb_true_iff. destruct (model_validator a); naive_solver.
Qed.

(** [Field(min_length=lo, max_length=hi)] of a [str] and of a [str | None]. *)
Definition len_in (lo hi : Z) (s : str) : bool := (lo <=? py_len s) && (py_len s <=? hi).
Definition opt_len_in (lo hi : Z) (o : option str) : bool :=
  match o with Some s => len_in lo hi s | None => true end.

Lemma len_in_spec lo hi s : len_in lo hi s = true <-> lo <= py_len s <= hi.
Proof. unfold len_in. rewrite andb_true_iff, !Z.leb_le. done. Qed.

(** The first message of a list of guarded [raise ValueError] statements. *)
Fixpoint first_error (checks : list (bool * str)) : option str :=
  match checks with
  | [] => None
  | (bad, msg) :: rest => if bad then Some msg else first_error rest
  end.

Lemma first_error_none checks :
  first_error checks = None <-> Forall (fun p => p.1 = false) checks.
Proof.
  induction checks as [|[b m] l IH]; simpl; [by split|].
  rewrite Forall_cons, <- IH. destruct b; simpl; naive_solver.
Qed.
