(* ===== verification/Sha256.v ===== *)
(** * SHA-256 and HMAC

    [hashlib.sha256(b).hexdigest()], [hmac.new(key, b, sha256).hexdigest()] and
    [hmac.compare_digest] of the Python standard library, and [str.encode()],
    as executable functions: the Redis keys of [src/piki/state] and the webhook
    signature of [src/piki/integrations/meta/webhook.py] are built with them.
    Bytes are numbers in [0, 256), words numbers in [0, 2^32). *)
From S2P Require Import Prelude PyStr Errors.

Local Open Scope Z_scope.

(** ** [str.encode()] *)

Definition utf8_encode_char (c : Z) : list Z :=
  if c <? 128 then [c]
  else if c <? 2048 then [Z.lor 192 (Z.shiftr c 6); Z.lor 128 (Z.land c 63)]
  else if c <? 65536 then
    [Z.lor 224 (Z.shiftr c 12); Z.lor 128 (Z.land (Z.shiftr c 6) 63); Z.lor 128 (Z.land c 63)]
  else
    [Z.lor 240 (Z.shiftr c 18); Z.lor 128 (Z.land (Z.shiftr c 12) 63);
     Z.lor 128 (Z.land (Z.shiftr c 6) 63); Z.lor 128 (Z.land c 63)].

Definition encode (s : str) : list Z := s ≫= utf8_encode_char.

(** ** SHA-256 (FIPS 180-4) *)

Definition mask : Z := 4294967295.
Definition add32 (a b : Z) : Z := Z.land (a + b) mask.
Definition rotr (n x : Z) : Z :=
  Z.lor (Z.shiftr x n) (Z.land (Z.shiftl x (32 - n)) mask).

Definition Ch (x y z : Z) : Z := Z.lxor (Z.land x y) (Z.land (Z.lxor x mask) z).
Definition Maj (x y z : Z) : Z := Z.lxor (Z.land x y) (Z.lxor (Z.land x z) (Z.land y z)).
Definition Sigma0 (x : Z) : Z := Z.lxor (rotr 2 x) (Z.lxor (rotr 13 x) (rotr 22 x)).
Definition Sigma1 (x : Z) : Z := Z.lxor (rotr 6 x) (Z.lxor (rotr 11 x) (rotr 25 x)).
Definition sigma0 (x : Z) : Z := Z.lxor (rotr 7 x) (Z.lxor (rotr 18 x) (Z.shiftr x 3)).
Definition sigma1 (x : Z) : Z := Z.lxor (rotr 17 x) (Z.lxor (rotr 19 x) (Z.shiftr x 10)).

(** The constants are the first 32 bits of the fractional parts of the cube and
    square roots of the first primes (FIPS 180-4), computed here from the
    primes. *)
Definition small_primes (bound : nat) : list Z :=
  filter (fun p => forallb (fun d => negb (p mod Z.of_nat d =? 0)) (seq 2 (Z.to_nat p - 2)) = true)
    (map Z.of_nat (seq 2 bound)).

(** The integer root of order [e], bit by bit from bit [n - 1] down. *)
Fixpoint root_bits (e : Z) (n : nat) (x acc : Z) : Z :=
  match n with
  | O => acc
  | S n' =>
      let c := acc + 2 ^ Z.of_nat n' in
      root_bits e n' x (if c ^ e <=? x then c else acc)
  end.

Definition fraction_bits (e p : Z) : Z := root_bits e 40 (p * 2 ^ (32 * e)) 0 mod 2 ^ 32.

Definition K256 : list Z := Eval vm_compute in map (fraction_bits 3) (take 64 (small_primes 312)).

Definition H0 : list Z := Eval vm_compute in map (fraction_bits 2) (take 8 (small_primes 312)).

(** The 64 schedule words, kept in reverse while they are produced. *)
Fixpoint schedule (n : nat) (acc : list Z) : list Z :=
  match n with
  | O => rev acc
  | S n' =>
      let w i := default 0 (acc !! i) in
      schedule n'
        (add32 (add32 (sigma1 (w 1%nat)) (w 6%nat)) (add32 (sigma0 (w 14%nat)) (w 15%nat)) :: acc)
  end.

Definition round (h : list Z) (kw : Z * Z) : list Z :=
  match h with
  | [a; b; c; d; e; f; g; hh] =>
      let t1 := add32 (add32 (add32 hh (Sigma1 e)) (add32 (Ch e f g) kw.1)) kw.2 in
      let t2 := add32 (Sigma0 a) (Maj a b c) in
      [add32 t1 t2; a; b; c; add32 d t1; e; f; g]
  | _ => h
  end.

Definition compress (h block : list Z) : list Z :=
  zip_with add32 h (fold_left round (zip K256 (schedule 48 (rev block))) h).

Fixpoint words (l : list Z) : list Z :=
  match l with
  | a :: b :: c :: d :: l' => (a * 16777216 + b * 65536 + c * 256 + d) :: words l'
  | _ => []
  end.

(** [n] bytes, big-endian. *)
Fixpoint be_bytes (n : nat) (x : Z) : list Z :=
  match n with
  | O => []
  | S n' => be_bytes n' (x / 256) ++ [x mod 256]
  end.

Definition pad (msg : list Z) : list Z :=
  let len := Z.of_nat (length msg) in
  msg ++ 128 :: replicate (Z.to_nat ((55 - len) mod 64)) 0 ++ be_bytes 8 (8 * len).

Fixpoint blocks (fuel : nat) (h ws : list Z) : list Z :=
  match fuel, ws with
  | S fuel', _ :: _ => blocks fuel' (compress h (take 16 ws)) (drop 16 ws)
  | _, _ => h
  end.

Definition sha256 (msg : list Z) : list Z :=
  let ws := words (pad msg) in blocks (length ws) H0 ws ≫= be_bytes 4.

Definition hexdigit (n : Z) : Z := if n <? 10 then 48 + n else 87 + n.
Definition hexdigest (bytes : list Z) : str :=
  bytes ≫= fun b => [hexdigit (b / 16); hexdigit (b mod 16)].

(** [hmac.new(key, msg, hashlib.sha256)] (RFC 2104). *)
Definition hmac_sha256 (key msg : list Z) : list Z :=
  let k0 := if (64 <? Z.of_nat (length key)) then sha256 key else key in
  let k := k0 ++ replicate (64 - length k0) 0 in
  sha256 (map (Z.lxor 92) k ++ sha256 (map (Z.lxor 54) k ++ msg)).

(** [hmac.compare_digest] of two [str]: both must be ASCII. *)
Definition is_ascii (s : str) : bool := forallb (fun c => c <? 128) s.
Definition compare_digest (a b : str) : res bool :=
  if is_ascii a && is_ascii b then Ok (bool_decide (a = b))
  else Raise TypeError.

(** ** Test vectors of FIPS 180-4 and RFC 4231 *)

Example sha256_empty :
  hexdigest (sha256 []) = u "e3b0c44298fc1c149afbf4c8996fb92427ae41e4649b934ca495991b7852b855".
Proof. vm_compute. reflexivity. Qed.

Example sha256_abc :
  hexdigest (sha256 (encode (u "abc")))
  = u "ba7816bf8f01cfea414140de5dae2223b00361a396177a9cb410ff61f20015ad".
Proof. vm_compute. reflexivity. Qed.

Example sha256_two_blocks :
  hexdigest (sha256 (encode (u "abcdbcdecdefdefgefghfghighijhijkijkljklmklmnlmnomnopnopq")))
  = u "248d6a61d20638b8e5c026930c3e6039a33ce45964ff2167f6ecedd419db06c1".
Proof. vm_compute. reflexivity. Qed.

Example hmac_rfc4231_2 :
  hexdigest (hmac_sha256 (encode (u "Jefe")) (encode (u "what do ya want for nothing?")))
  = u "5bdcc146bf60754e6a042426089575c75a003f089d2739839dec58b964ec3843".
Proof. vm_compute. reflexivity. Qed.

(** ** Shape of a digest *)

Lemma be_bytes_length n x : length (be_bytes n x) = n.
Proof. revert x. induction n as [|n IH]; intros x; simpl; [done|]. rewrite length_app, IH. simpl. lia. Qed.

Lemma be_bytes_range n x : Forall (fun b => 0 <= b < 256) (be_bytes n x).
Proof.
  revert x. induction n as [|n IH]; intros x; cbn [be_bytes]; [constructor|].
  apply Forall_app. split; [done|]. constructor; [|constructor]. apply Z.mod_pos_bound. lia.
Qed.

Lemma round_length h kw : length h = 8%nat -> length (round h kw) = 8%nat.
Proof. by do 9 (destruct h as [|? h]; try done). Qed.

Lemma compress_length h block : length h = 8%nat -> length (compress h block) = 8%nat.
Proof.
  intros Hh. unfold compress.
  assert (forall l h', length h' = 8%nat -> length (fold_left round l h') = 8%nat) as Hf.
  { induction l as [|x l IH]; intros h' Hh'; simpl; [done|]. by apply IH, round_length. }
  rewrite length_zip_with_l; [done|]. rewrite Hf; lia.
Qed.

Lemma blocks_length fuel h ws : length h = 8%nat -> length (blocks fuel h ws) = 8%nat.
Proof.
  revert h ws. induction fuel as [|fuel IH]; intros h [|w ws] Hh; simpl; try done.
  by apply IH, compress_length.
Qed.

Lemma bind_length {A B} (f : A -> list B) n l :
  (forall x, length (f x) = n) -> length (l ≫= f) = (length l * n)%nat.
Proof.
  intros Hf. induction l as [|x l IH]; [done|]. rewrite bind_cons, length_app, Hf, IH. simpl. lia.
Qed.

Lemma sha256_length msg : length (sha256 msg) = 32%nat.
Proof.
  unfold sha256. rewrite (bind_length _ 4%nat); [by rewrite blocks_length|].
  intros. apply be_bytes_length.
Qed.

Lemma sha256_range msg : Forall (fun b => 0 <= b < 256) (sha256 msg).
Proof.
  unfold sha256. apply Forall_bind. apply Forall_true. intros. apply be_bytes_range.
Qed.

Lemma hexdigest_length l : length (hexdigest l) = (length l * 2)%nat.
Proof. by apply bind_length. Qed.

Lemma hexdigest_ascii l : Forall (fun b => 0 <= b < 256) l -> is_ascii (hexdigest l) = true.
Proof.
  intros Hl. unfold is_ascii. apply forallb_forall. intros c Hc%list_elem_of_In.
  unfold hexdigest in Hc. apply list_elem_of_bind in Hc as (b & Hc & Hb).
  rewrite Forall_forall in Hl. specialize (Hl b Hb).
  assert (0 <= b / 16 < 16) by (split; [apply Z.div_pos; lia|apply Z.div_lt_upper_bound; lia]).
  pose proof (Z.mod_pos_bound b 16 ltac:(lia)).
  apply Z.ltb_lt. unfold hexdigit in Hc.
  repeat (apply elem_of_cons in Hc as [->|Hc]; [case_match; lia|]). set_solver.
Qed.

Lemma hmac_digest_ascii key msg : is_ascii (hexdigest (hmac_sha256 key msg)) = true.
Proof. apply hexdigest_ascii. unfold hmac_sha256. apply sha256_range. Qed.

Lemma hmac_digest_length key msg : length (hexdigest (hmac_sha256 key msg)) = 64%nat.
Proof. rewrite hexdigest_length. unfold hmac_sha256. by rewrite sha256_length. Qed.
