(* ===== verification/Uuid.v ===== *)
(** * The text of a UUID

    [str(UUID(int=n))]: 32 hexadecimal digits in groups of 8, 4, 4, 4 and 12.
    Two identifiers of 128 bits have different texts. *)
From S2P Require Import Prelude PyStr Sha256.

Local Open Scope list_scope.
Local Open Scope Z_scope.

Fixpoint hex_digits (k : nat) (n : Z) : str :=
  match k with O => [] | S k => hex_digits k (n / 16) ++ [hexdigit (n mod 16)] end.
Definition uuid_groups (h : str) : str :=
  take 8 h ++ 45 :: take 4 (drop 8 h) ++ 45 :: take 4 (drop 12 h) ++ 45 :: take 4 (drop 16 h) ++
  45 :: drop 20 h.
Definition uuid_text (n : Z) : str := uuid_groups (hex_digits 32 n).

Lemma hex_digits_length k n : length (hex_digits k n) = k.
Proof. revert n. induction k as [|k IH]; intros n; cbn; [done|]. rewrite length_app, IH. cbn. lia. Qed.

Lemma hexdigit_inj a b : 0 <= a < 16 -> 0 <= b < 16 -> hexdigit a = hexdigit b -> a = b.
Proof. unfold hexdigit. intros. repeat case_match; bools; lia. Qed.

Lemma hex_digits_inj k n m :
  0 <= n < 16 ^ Z.of_nat k -> 0 <= m < 16 ^ Z.of_nat k -> hex_digits k n = hex_digits k m -> n = m.
Proof.
  revert n m. induction k as [|k IH]; intros n m Hn Hm; [cbn in *; lia|].
  replace (16 ^ Z.of_nat (S k)) with (16 * 16 ^ Z.of_nat k) in *
    by (rewrite <- Z.pow_succ_r by lia; f_equal; lia).
  cbn [hex_digits]. intros [Hq [= Hd]]%app_inj_2; [|done].
  apply hexdigit_inj in Hd; [|by apply Z.mod_pos_bound..].
  apply IH in Hq; [|split; [apply Z.div_pos; lia|apply Z.div_lt_upper_bound; lia]..].
  rewrite (Z.div_mod n 16), (Z.div_mod m 16) by lia. by rewrite Hq, Hd.
Qed.

Lemma uuid_groups_inj (h g : str) :
  length h = 32%nat -> length g = 32%nat -> uuid_groups h = uuid_groups g -> h = g.
Proof.
  intros Lh Lg He. unfold uuid_groups in He.
  apply app_inj_1 in He as [H1 [= He]]; [|rewrite !length_take; lia].
  apply app_inj_1 in He as [H2 [= He]]; [|rewrite !length_take, !length_drop; lia].
  apply app_inj_1 in He as [H3 [= He]]; [|rewrite !length_take, !length_drop; lia].
  apply app_inj_1 in He as [H4 [= H5]]; [|rewrite !length_take, !length_drop; lia].
  assert (forall l : str, l = take 8 l ++ take 4 (drop 8 l) ++ take 4 (drop 12 l) ++
    take 4 (drop 16 l) ++ drop 20 l) as Hsplit.
  { intros l. rewrite <- (take_drop 8 l) at 1. f_equal. rewrite <- (take_drop 4 (drop 8 l)) at 1.
    f_equal. rewrite drop_drop. rewrite <- (take_drop 4 (drop (8 + 4) l)) at 1. f_equal.
    rewrite drop_drop. rewrite <- (take_drop 4 (drop (8 + 4 + 4) l)) at 1. f_equal. by rewrite drop_drop. }
  rewrite (Hsplit h), (Hsplit g). by rewrite H1, H2, H3, H4, H5.
Qed.

Lemma uuid_groups_length (h : str) : length h = 32%nat -> py_len (uuid_groups h) = 36.
Proof.
  intros Hl. unfold uuid_groups, py_len.
  repeat first [rewrite length_app | rewrite length_take | rewrite length_drop | rewrite Hl | progress cbn [length]].
  lia.
Qed.

Lemma uuid_text_length n : py_len (uuid_text n) = 36.
Proof. apply uuid_groups_length, hex_digits_length. Qed.

Lemma uuid_text_inj n m :
  0 <= n < 2 ^ 128 -> 0 <= m < 2 ^ 128 -> uuid_text n = uuid_text m -> n = m.
Proof.
  intros Hn Hm He%uuid_groups_inj; [|apply hex_digits_length..].
  by apply (hex_digits_inj 32) in He.
Qed.
