(* ===== verification/Schema.v ===== *)
(** * PostgreSQL tables and DDL as an interface

    The migrations are sequences of Alembic operations.  [ddl] is the syntax of
    the operations they use, [ddl_spec] their documented effect in PostgreSQL on
    a schema and its rows, and [Postgres] any server that runs a statement with
    this effect or is unreachable.  Identifiers are [string]s, texts are [str]s;
    a row maps the names of its columns to values; the rows of a table are keyed
    by their [id]; a JSON document is its text. *)
From S2P Require Import Prelude PyStr Sha256 Uuid.

Local Open Scope string_scope.
Local Open Scope list_scope.
Local Open Scope Z_scope.

(** ** Schemas *)

Inductive column_type := Uuid | String_ (n : Z) | Text | Integer | Boolean | DateTime | JSONB.
#[export] Instance column_type_eq_dec : EqDecision column_type.
Proof. solve_decision. Defined.

(** [server_default=sa.func.now()] and [server_default="text"]. *)
Inductive server_default := DNow | DText (s : str).
#[export] Instance server_default_eq_dec : EqDecision server_default.
Proof. solve_decision. Defined.

Record column := Column {
  col_type : column_type;
  col_nullable : bool;
  col_default : option server_default
}.
#[export] Instance column_eq_dec : EqDecision column.
Proof. solve_decision. Defined.

(** Conditions: of CHECK constraints, partial indexes and WHERE clauses. *)
Inductive cond :=
| CGe (column : string) (n : Z)
| CIsNull (column : string)
| CEq (column : string) (text : str)
| CIn (column : string) (texts : list str)
| COr (left_ right_ : cond).
#[export] Instance cond_eq_dec : EqDecision cond.
Proof. solve_decision. Defined.

Record index := Index {
  ix_columns : list string;
  ix_unique : bool;
  ix_where : option cond
}.
#[export] Instance index_eq_dec : EqDecision index.
Proof. solve_decision. Defined.

Inductive referential_action := Cascade | NoAction.
#[export] Instance referential_action_eq_dec : EqDecision referential_action.
Proof. solve_decision. Defined.

Record foreign_key := ForeignKey {
  fk_column : string;
  fk_table : string;
  fk_target : string;
  fk_ondelete : referential_action
}.
#[export] Instance foreign_key_eq_dec : EqDecision foreign_key.
Proof. solve_decision. Defined.

Record table_def := TableDef {
  t_columns : gmap string column;
  t_primary_key : string;
  t_uniques : gmap string (list string);
  t_foreign_keys : list foreign_key;
  t_checks : gmap string cond;
  t_indexes : gmap string index
}.
#[export] Instance table_def_eq_dec : EqDecision table_def.
Proof. solve_decision. Defined.

Abbreviation schema := (gmap string table_def).

(** ** Rows *)

Inductive value :=
| VNull | VUuid (n : Z) | VStr (s : str) | VInt (n : Z) | VBool (b : bool) | VTime (t : Z)
| VJson (text : str).
#[export] Instance value_eq_dec : EqDecision value.
Proof. solve_decision. Defined.

Abbreviation row := (gmap string value).
Abbreviation data := (gmap string (gmap Z row)).

(** The values of a column type: a UUID has 128 bits, an INTEGER 32. *)
Definition has_type (ty : column_type) (v : value) : bool :=
  match ty, v with
  | Uuid, VUuid n => (0 <=? n) && (n <? 2 ^ 128)
  | String_ n, VStr s => py_len s <=? n
  | Text, VStr _ => true
  | Integer, VInt n => (- 2 ^ 31 <=? n) && (n <? 2 ^ 31)
  | Boolean, VBool _ => true
  | DateTime, VTime _ => true
  | JSONB, VJson _ => true
  | _, _ => false
  end.

Definition cell_ok (c : column) (v : value) : bool :=
  match v with VNull => col_nullable c | _ => has_type (col_type c) v end.

(** The three truth values of SQL: [None] is unknown. *)
Definition sql_or (a b : option bool) : option bool :=
  match a, b with
  | Some true, _ | _, Some true => Some true
  | Some false, Some false => Some false
  | _, _ => None
  end.

Fixpoint holds (r : row) (c : cond) : option bool :=
  match c with
  | CGe column n => match r !! column with Some (VInt m) => Some (n <=? m) | _ => None end
  | CIsNull column => Some (bool_decide (r !! column = Some VNull))
  | CEq column text =>
      match r !! column with Some (VStr s) => Some (bool_decide (s = text)) | _ => None end
  | CIn column texts =>
      match r !! column with Some (VStr s) => Some (bool_decide (s ∈ texts)) | _ => None end
  | COr a b => sql_or (holds r a) (holds r b)
  end.

(** A row a WHERE clause selects, and one a CHECK constraint lets pass. *)
Definition selected (w : option cond) (r : row) : bool :=
  match w with Some c => bool_decide (holds r c = Some true) | None => true end.
Definition passes (r : row) (c : cond) : bool := negb (bool_decide (holds r c = Some false)).

(** Equality of two cells in a unique constraint: a NULL differs from all. *)
Definition same_cell (r s : row) (column : string) : bool :=
  match r !! column, s !! column with
  | Some v, Some w => bool_decide (v = w) && negb (bool_decide (v = VNull))
  | _, _ => false
  end.

Definition row_conflict (columns : list string) (w : option cond) (r s : row) : bool :=
  forallb (same_cell r s) columns && selected w r && selected w s.

(** ** Valid data *)

(** The maps have the same keys, and related values. *)
Definition same_keys {K} `{Countable K} {A B} (R : K -> A -> B -> Prop) (m : gmap K A) (n : gmap K B)
    : Prop :=
  map_relation R (fun _ _ => False) (fun _ _ => False) m n.

Definition row_typed (t : table_def) (r : row) : Prop :=
  same_keys (fun _ c v => cell_ok c v = true) (t_columns t) r.

Definition unique_rows (columns : list string) (w : option cond) (rows : gmap Z row) : Prop :=
  map_Forall (fun i r =>
    map_Forall (fun j s => row_conflict columns w r s = true -> i = j) rows) rows.

(** The unique constraints of a table and its unique indexes. *)
Definition uniqueness (t : table_def) : list (list string * option cond) :=
  ((fun p => (p.2, None)) <$> map_to_list (t_uniques t)) ++
  ((fun p => (ix_columns p.2, ix_where p.2)) <$>
     filter (fun p => ix_unique p.2 = true) (map_to_list (t_indexes t))).

Definition refers (d : data) (r : row) (fk : foreign_key) : bool :=
  match r !! fk_column fk with
  | Some VNull => true
  | Some (VUuid n) => bool_decide (is_Some (d !! fk_table fk ≫= lookup n))
  | _ => false
  end.

Record valid_table (t : table_def) (d : data) (rows : gmap Z row) : Prop := {
  valid_keyed : map_Forall (fun k r => r !! t_primary_key t = Some (VUuid k)) rows;
  valid_typed : map_Forall (fun _ r => row_typed t r) rows;
  valid_checks : map_Forall (fun _ r => map_Forall (fun _ c => passes r c = true) (t_checks t)) rows;
  valid_unique : Forall (fun u => unique_rows u.1 u.2 rows) (uniqueness t);
  valid_refers : map_Forall (fun _ r => Forall (fun fk => refers d r fk = true) (t_foreign_keys t)) rows
}.

(** The data of a database satisfy its schema. *)
Definition valid (S : schema) (d : data) : Prop :=
  same_keys (fun _ t rows => valid_table t d rows) S d.

(** ** Data definition statements *)

(** The errors of the server, and an unreachable server. *)
Inductive db_error :=
| DuplicateObject | UndefinedObject | InvalidDefinition | DependentObjects
| NotNullViolation | DataException | CheckViolation | UniqueViolation | ForeignKeyViolation
| Unreachable.
#[export] Instance db_error_eq_dec : EqDecision db_error.
Proof. solve_decision. Defined.

Inductive constraint :=
| UniqueConstraint (name : string) (columns : list string)
| ForeignKeyConstraint (fk : foreign_key)
| CheckConstraint (name : string) (c : cond).

(** The expression an UPDATE assigns: a literal, or [CAST(column AS VARCHAR)]. *)
Inductive expr := ELiteral (s : str) | ECastVarchar (column : string).

Inductive ddl :=
| CreateTable (table : string) (columns : list (string * column)) (primary_key : string)
    (constraints : list constraint)
| DropTable (table : string)
| CreateIndex (name table : string) (i : index)
| DropIndex (name table : string)
| AddColumn (table name : string) (c : column)
| DropColumn (table name : string)
| AlterColumn (table name : string) (nullable : option bool) (default : option server_default)
| CreateUniqueConstraint (name table : string) (columns : list string)
| DropUniqueConstraint (name table : string)
| Update (table column : string) (e : expr) (w : option cond).

Definition target (o : ddl) : string :=
  match o with
  | CreateTable t _ _ _ | DropTable t | CreateIndex _ t _ | DropIndex _ t | AddColumn t _ _
  | DropColumn t _ | AlterColumn t _ _ _ | CreateUniqueConstraint _ t _
  | DropUniqueConstraint _ t | Update t _ _ _ => t
  end.

(** *** On the schema *)

Definition relation_names (S : schema) : list string :=
  map_to_list S ≫= fun p =>
    p.1 :: (p.1 +:+ "_pkey") :: (map_to_list (t_uniques p.2)).*1 ++ (map_to_list (t_indexes p.2)).*1.

Fixpoint cond_columns (c : cond) : list string :=
  match c with
  | CGe column _ | CIsNull column | CEq column _ | CIn column _ => [column]
  | COr a b => cond_columns a ++ cond_columns b
  end.
Definition index_columns (i : index) : list string :=
  ix_columns i ++ from_option cond_columns [] (ix_where i).

Definition has_columns (t : table_def) (columns : list string) : bool :=
  forallb (fun c => bool_decide (is_Some (t_columns t !! c))) columns.

(** The foreign keys of the schema that point into a table. *)
Definition references (S : schema) (table : string) : list (string * foreign_key) :=
  map_to_list S ≫= fun p =>
    (fun fk => (p.1, fk)) <$> filter (fun fk => fk_table fk = table) (t_foreign_keys p.2).

Definition constraint_name (k : constraint) : option string :=
  match k with
  | UniqueConstraint name _ => Some name
  | ForeignKeyConstraint _ | CheckConstraint _ _ => None
  end.

Definition add_constraint (k : constraint) (t : table_def) : table_def :=
  match k with
  | UniqueConstraint name columns =>
      TableDef (t_columns t) (t_primary_key t) (<[name := columns]> (t_uniques t))
        (t_foreign_keys t) (t_checks t) (t_indexes t)
  | ForeignKeyConstraint fk =>
      TableDef (t_columns t) (t_primary_key t) (t_uniques t) (fk :: t_foreign_keys t) (t_checks t)
        (t_indexes t)
  | CheckConstraint name c =>
      TableDef (t_columns t) (t_primary_key t) (t_uniques t) (t_foreign_keys t)
        (<[name := c]> (t_checks t)) (t_indexes t)
  end.

(** The table of a CREATE TABLE; the keys are implicitly not null. *)
Definition create_table (columns : list (string * column)) (primary_key : string)
    (constraints : list constraint) : table_def :=
  foldr add_constraint
    (TableDef (list_to_map columns) primary_key ∅ [] ∅ ∅) constraints.

Definition with_columns (f : gmap string column -> gmap string column) (t : table_def) : table_def :=
  TableDef (f (t_columns t)) (t_primary_key t) (t_uniques t) (t_foreign_keys t) (t_checks t)
    (t_indexes t).
Definition with_uniques (f : gmap string (list string) -> gmap string (list string)) (t : table_def)
    : table_def :=
  TableDef (t_columns t) (t_primary_key t) (f (t_uniques t)) (t_foreign_keys t) (t_checks t)
    (t_indexes t).
Definition with_indexes (f : gmap string index -> gmap string index) (t : table_def) : table_def :=
  TableDef (t_columns t) (t_primary_key t) (t_uniques t) (t_foreign_keys t) (t_checks t)
    (f (t_indexes t)).

(** DROP COLUMN drops the constraints and indexes that involve the column. *)
Definition drop_column (name : string) (t : table_def) : table_def :=
  TableDef (delete name (t_columns t)) (t_primary_key t)
    (filter (fun p => name ∉ p.2) (t_uniques t))
    (filter (fun fk => fk_column fk <> name) (t_foreign_keys t))
    (filter (fun p => name ∉ cond_columns p.2) (t_checks t))
    (filter (fun p => name ∉ index_columns p.2) (t_indexes t)).

Definition alter_column (nullable : option bool) (default : option server_default) (c : column)
    : column :=
  Column (col_type c) (match nullable with Some b => b | None => col_nullable c end)
    (match default with Some d => Some d | None => col_default c end).

Definition guard (b : bool) (e : db_error) : db_error + unit := if b then inr tt else inl e.

#[local] Instance sum_ret : MRet (sum db_error) := fun _ a => inr a.
#[local] Instance sum_bind : MBind (sum db_error) := fun _ _ f m =>
  match m with inl e => inl e | inr a => f a end.

Definition the_table (S : schema) (table : string) : db_error + table_def :=
  match S !! table with Some t => inr t | None => inl UndefinedObject end.

(** The table after a statement that changes one, [None] when it is dropped. *)
Definition schema_table (o : ddl) (S : schema) : db_error + option table_def :=
  match o with
  | CreateTable table columns primary_key constraints =>
      let t := create_table columns primary_key constraints in
      let names := table :: (table +:+ "_pkey") :: omap constraint_name constraints in
      _ ← guard (forallb (fun n => bool_decide (n ∉ relation_names S)) names &&
                 bool_decide (NoDup names) && bool_decide (NoDup columns.*1)) DuplicateObject;
      _ ← guard (forallb (fun p => has_columns t p.2) (map_to_list (t_uniques t)) &&
                 forallb (fun p => has_columns t (cond_columns p.2)) (map_to_list (t_checks t)) &&
                 has_columns t (primary_key :: (fk_column <$> t_foreign_keys t))) UndefinedObject;
      _ ← guard (forallb (fun fk =>
                   match S !! fk_table fk with
                   | Some t' => bool_decide (t_primary_key t' = fk_target fk)
                   | None => false
                   end) (t_foreign_keys t)) InvalidDefinition;
      inr (Some t)
  | DropTable table =>
      _ ← the_table S table;
      _ ← guard (forallb (fun p => bool_decide (p.1 = table)) (references S table)) DependentObjects;
      inr None
  | CreateIndex name table i =>
      t ← the_table S table;
      _ ← guard (bool_decide (name ∉ relation_names S)) DuplicateObject;
      _ ← guard (has_columns t (index_columns i)) UndefinedObject;
      inr (Some (with_indexes (insert name i) t))
  | DropIndex name table =>
      t ← the_table S table;
      _ ← guard (bool_decide (is_Some (t_indexes t !! name))) UndefinedObject;
      inr (Some (with_indexes (delete name) t))
  | AddColumn table name c =>
      t ← the_table S table;
      _ ← guard (bool_decide (t_columns t !! name = None)) DuplicateObject;
      inr (Some (with_columns (insert name c) t))
  | DropColumn table name =>
      t ← the_table S table;
      _ ← guard (has_columns t [name]) UndefinedObject;
      _ ← guard (negb (bool_decide (name = t_primary_key t))) DependentObjects;
      inr (Some (drop_column name t))
  | AlterColumn table name nullable default =>
      t ← the_table S table;
      _ ← guard (has_columns t [name]) UndefinedObject;
      inr (Some (with_columns (alter (alter_column nullable default) name) t))
  | CreateUniqueConstraint name table columns =>
      t ← the_table S table;
      _ ← guard (bool_decide (name ∉ relation_names S)) DuplicateObject;
      _ ← guard (has_columns t columns) UndefinedObject;
      inr (Some (with_uniques (insert name columns) t))
  | DropUniqueConstraint name table =>
      t ← the_table S table;
      _ ← guard (bool_decide (is_Some (t_uniques t !! name))) UndefinedObject;
      inr (Some (with_uniques (delete name) t))
  | Update table column e w =>
      t ← the_table S table;
      _ ← guard (has_columns t (column :: match e with ECastVarchar c => [c] | _ => [] end ++
                   from_option cond_columns [] w)) UndefinedObject;
      inr (Some t)
  end.

Definition schema_step (o : ddl) (S : schema) : db_error + schema :=
  t ← schema_table o S; inr (partial_alter (fun _ => t) (target o) S).

(** *** On the rows *)

(** The cell a default gives at the instant [now]; [None] when the text is not
    one of the type, as far as the types of the defaults in use go. *)
Definition default_cell (now : Z) (c : column) : option value :=
  match col_default c, col_type c with
  | None, _ => Some VNull
  | Some DNow, _ => Some (VTime now)
  | Some (DText s), (String_ _ | Text) => Some (VStr s)
  | Some (DText s), Integer =>
      if truthy s && forallb is_digit s then Some (VInt (digits_val s)) else None
  | Some (DText _), _ => None
  end.

(** [CAST(... AS VARCHAR)] of the values the schema casts. *)
Definition cast_varchar (v : value) : value :=
  match v with VUuid n => VStr (uuid_text n) | VInt n => VStr (str_of_Z n) | _ => v end.

Definition eval_expr (e : expr) (r : row) : value :=
  match e with
  | ELiteral s => VStr s
  | ECastVarchar column => cast_varchar (default VNull (r !! column))
  end.

Definition rows_step (now : Z) (o : ddl) (rows : gmap Z row) : option (gmap Z row) :=
  match o with
  | AddColumn _ name c => (fun v => insert name v <$> rows) <$> default_cell now c
  | DropColumn _ name => Some (delete name <$> rows)
  | Update _ column e w =>
      Some ((fun r => if selected w r then <[column := eval_expr e r]> r else r) <$> rows)
  | _ => Some rows
  end.

(** What is wrong with the rows of a table, if something is. *)
Definition has_null (t : table_def) (r : row) : bool :=
  negb (bool_decide (map_Forall (fun n c => r !! n = Some VNull -> col_nullable c = true)
    (t_columns t))).

#[export] Instance row_typed_dec t r : Decision (row_typed t r).
Proof. unfold row_typed, same_keys. apply _. Defined.
#[export] Instance unique_rows_dec columns w rows : Decision (unique_rows columns w rows).
Proof. unfold unique_rows. apply _. Defined.

Definition violation (t : table_def) (d : data) (rows : gmap Z row) : option db_error :=
  if existsb (fun p => has_null t p.2) (map_to_list rows) then Some NotNullViolation
  else if negb (bool_decide (map_Forall (fun _ r => row_typed t r) rows)) then Some DataException
  else if negb (bool_decide (map_Forall
    (fun _ r => map_Forall (fun _ c => passes r c = true) (t_checks t)) rows))
  then Some CheckViolation
  else if negb (bool_decide (Forall (fun u => unique_rows u.1 u.2 rows) (uniqueness t)))
  then Some UniqueViolation
  else if negb (bool_decide (map_Forall
    (fun _ r => Forall (fun fk => refers d r fk = true) (t_foreign_keys t)) rows))
  then Some ForeignKeyViolation
  else if negb (bool_decide (map_Forall (fun k r => r !! t_primary_key t = Some (VUuid k)) rows))
  then Some InvalidDefinition
  else None.

(** The effect of a statement, at the instant [now], on a schema and its data:
    a statement that would leave invalid rows fails. *)
Definition ddl_spec (now : Z) (o : ddl) (c : schema * data) : db_error + (schema * data) :=
  S' ← schema_step o c.1;
  match o with
  | CreateTable table _ _ _ => inr (S', <[table := ∅]> c.2)
  | DropTable table => inr (S', delete table c.2)
  | _ =>
      match S' !! target o, c.2 !! target o with
      | Some t, Some rows =>
          match rows_step now o rows with
          | None => inl DataException
          | Some rows' =>
              match violation t c.2 rows' with
              | Some e => inl e
              | None => inr (S', <[target o := rows']> c.2)
              end
          end
      | _, _ => inl UndefinedObject
      end
  end.

Fixpoint ddl_specs (now : Z) (ops : list ddl) (c : schema * data) : db_error + (schema * data) :=
  match ops with
  | [] => inr c
  | o :: ops => match ddl_spec now o c with inl e => inl e | inr c' => ddl_specs now ops c' end
  end.

(** A server: in the transaction that starts at the instant [server_clock s] a
    statement has the effect of [ddl_spec], or the server is unreachable;
    [reachable s] says whether a connection is made and a commit arrives. *)
Class Postgres := {
  server : Type;
  contents : server -> schema * data;
  server_clock : server -> Z;
  reachable : server -> bool;
  run_ddl : Z -> ddl -> server -> db_error + server;
  run_ddl_law now o s :
    run_ddl now o s = inl Unreachable \/
    match run_ddl now o s, ddl_spec now o (contents s) with
    | inl e, inl e' => e = e'
    | inr s', inr c' => contents s' = c'
    | _, _ => False
    end
}.

Fixpoint run_ddls `{Postgres} (now : Z) (ops : list ddl) (s : server) : db_error + server :=
  match ops with
  | [] => inr s
  | o :: ops => match run_ddl now o s with inl e => inl e | inr s' => run_ddls now ops s' end
  end.

(** The server that always answers, with a constant clock. *)
Program Definition plain_server : Postgres := {|
  server := schema * data;
  contents s := s;
  server_clock _ := 0;
  reachable _ := true;
  run_ddl now o s := ddl_spec now o s
|}.
Next Obligation. intros. right. cbn. by destruct (ddl_spec _ _ _). Qed.

(** ** Lemmas *)

Lemma violation_none t d rows : violation t d rows = None <-> valid_table t d rows.
Proof.
  unfold violation. split.
  - by repeat case_match; bools.
  - intros [Hk Ht Hc Hu Hf].
    assert (existsb (fun p => has_null t p.2) (map_to_list rows) = false) as ->.
    { apply not_true_iff_false. rewrite existsb_exists.
      intros ([k r] & Hin%list_elem_of_In%elem_of_map_to_list & Hn).
      unfold has_null in Hn. bools. apply Hn. intros n c Hcol Hnull. specialize (Ht k r Hin n).
      cbn in Hnull. by rewrite Hcol, Hnull in Ht. }
    repeat (rewrite bool_decide_eq_true_2 by done). done.
Qed.

(** The identifiers a database has, which foreign keys refer to. *)
Definition ids_within (d d' : data) : Prop :=
  forall table n, is_Some (d !! table ≫= lookup n) -> is_Some (d' !! table ≫= lookup n).

Lemma refers_within d d' r fk : ids_within d d' -> refers d r fk = true -> refers d' r fk = true.
Proof.
  intros Hw. unfold refers. destruct (r !! fk_column fk) as [[]|]; try done.
  rewrite !bool_decide_eq_true. apply Hw.
Qed.

Lemma valid_table_within t d d' rows :
  ids_within d d' -> valid_table t d rows -> valid_table t d' rows.
Proof.
  intros Hw [Hk Ht Hc Hu Hf]. split; try done. intros k r Hr.
  eapply Forall_impl; [by eapply Hf|]. intros fk. by apply refers_within.
Qed.

Lemma valid_lookup S d table t :
  valid S d -> S !! table = Some t -> exists rows, d !! table = Some rows /\ valid_table t d rows.
Proof. intros Hv Ht. specialize (Hv table). rewrite Ht in Hv. destruct (d !! table); naive_solver. Qed.

Lemma rows_step_ids now o rows rows' n :
  rows_step now o rows = Some rows' -> is_Some (rows !! n) -> is_Some (rows' !! n).
Proof.
  unfold rows_step. intros Hs Hn. destruct o; simplify_eq/=; rewrite ?lookup_fmap, ?fmap_is_Some; try done.
  destruct (default_cell now c); simplify_eq/=. by rewrite lookup_fmap, fmap_is_Some.
Qed.

Lemma schema_step_inv o S S' :
  schema_step o S = inr S' ->
  exists t, schema_table o S = inr t /\ S' = partial_alter (fun _ => t) (target o) S.
Proof. unfold schema_step. destruct (schema_table o S) as [e|t]; [done|]. intros [= <-]. eauto. Qed.

Lemma valid_replace S d table t rows :
  valid S d -> ids_within d (<[table := rows]> d) -> valid_table t d rows ->
  valid (partial_alter (fun _ => Some t) table S) (<[table := rows]> d).
Proof.
  intros Hv Hw Ht m. destruct (decide (m = table)) as [->|Hne].
  - rewrite lookup_partial_alter_eq, lookup_insert_eq. by eapply valid_table_within.
  - rewrite lookup_partial_alter_ne, lookup_insert_ne by done. specialize (Hv m).
    destruct (S !! m), (d !! m); cbn in *; try done. by eapply valid_table_within.
Qed.

(** Dropping a table no other table refers to. *)
Lemma valid_drop S d table :
  valid S d -> forallb (fun p => bool_decide (p.1 = table)) (references S table) = true ->
  valid (partial_alter (fun _ => None) table S) (delete table d).
Proof.
  intros Hv Hr m. destruct (decide (m = table)) as [->|Hne].
  - by rewrite lookup_partial_alter_eq, lookup_delete_eq.
  - rewrite lookup_partial_alter_ne, lookup_delete_ne by done. pose proof (Hv m) as Hm.
    destruct (S !! m) as [t|] eqn:HSm, (d !! m) as [rows|]; cbn in *; try done.
    destruct Hm as [Hk Ht Hc Hu Hf]. split; try done. intros k r Hkr.
    rewrite Forall_forall. intros fk Hfk. specialize (Hf k r Hkr). rewrite Forall_forall in Hf.
    specialize (Hf fk Hfk). unfold refers in *. destruct (r !! fk_column fk) as [[]|]; try done.
    destruct (decide (fk_table fk = table)) as [Hft|Hft]; [|by rewrite lookup_delete_ne].
    rewrite forallb_forall in Hr. exfalso. apply Hne. eapply (bool_decide_eq_true (m = table)), (Hr (m, fk)).
    unfold references. apply list_elem_of_In, list_elem_of_bind. exists (m, t).
    split; [|by apply elem_of_map_to_list]. apply list_elem_of_fmap. exists fk. split; [done|].
    by apply list_elem_of_filter.
Qed.

Lemma guard_ok b e a : guard b e = inr a -> b = true.
Proof. by destruct b. Qed.

Lemma create_table_inv table columns key constraints S t :
  schema_table (CreateTable table columns key constraints) S = inr t -> is_Some t /\ S !! table = None.
Proof.
  cbn. intros H. destruct (guard _ DuplicateObject) eqn:Hg; [done|]. apply guard_ok in Hg. bools.
  destruct (guard _ UndefinedObject); [done|]. destruct (guard _ InvalidDefinition); [done|].
  injection H as <-. split; [by eexists|]. apply eq_None_not_Some. intros [t Ht].
  match goal with Hn : table ∉ _ |- _ => apply Hn end. unfold relation_names. apply list_elem_of_bind. exists (table, t).
  split; [set_solver|]. by apply elem_of_map_to_list.
Qed.

Lemma drop_table_inv table S t :
  schema_table (DropTable table) S = inr t ->
  t = None /\ forallb (fun p => bool_decide (p.1 = table)) (references S table) = true.
Proof.
  cbn. destruct (the_table S table); [done|]. cbn. unfold guard. destruct (forallb _ _); [|done].
  by intros [= <-].
Qed.

(** A new table is empty and takes no identifier away. *)
Lemma create_then t table S d :
  valid S d -> S !! table = None ->
  ids_within d (<[table := ∅]> d) /\ valid_table t d ∅.
Proof.
  intros Hv Hn. split.
  - intros m n. destruct (decide (m = table)) as [->|Hne]; [|by rewrite lookup_insert_ne].
    specialize (Hv table). rewrite Hn in Hv. destruct (d !! table); [done|]. by intros [? ?].
  - split; [apply map_Forall_empty..| |apply map_Forall_empty].
    apply Forall_forall. intros u _. apply map_Forall_empty.
Qed.

(** No statement breaks the validity of the data. *)
Lemma ddl_spec_valid now o c c' :
  ddl_spec now o c = inr c' -> valid c.1 c.2 -> valid c'.1 c'.2.
Proof.
  destruct c as [S d]. unfold ddl_spec. cbn [fst snd mbind sum_bind].
  destruct (schema_step o S) as [|S'] eqn:Hs; [done|].
  apply schema_step_inv in Hs as (t & Ht & ->). intros Hrun Hv.
  assert (forall rows rows', d !! target o = Some rows -> rows_step now o rows = Some rows' ->
    ids_within d (<[target o := rows']> d)) as Hids.
  { intros rows rows' Hd Hst m n. destruct (decide (m = target o)) as [->|Hne].
    - rewrite Hd, lookup_insert_eq. cbn. by eapply rows_step_ids.
    - by rewrite lookup_insert_ne. }
  assert (forall t', t = Some t' ->
    match d !! target o with
    | Some rows =>
      match rows_step now o rows with
      | None => inl DataException
      | Some rows' => match violation t' d rows' with
                      | Some e => inl e
                      | None => inr (partial_alter (fun _ => t) (target o) S, <[target o := rows']> d)
                      end
      end
    | None => inl UndefinedObject
    end = inr c' -> valid c'.1 c'.2) as Hgen.
  { intros t' -> Hr. destruct (d !! target o) as [rows|] eqn:Hd; [|done].
    destruct (rows_step now o rows) as [rows'|] eqn:Hst; [|done].
    destruct (violation t' d rows') eqn:Hvio; [done|]. injection Hr as <-. cbn.
    apply valid_replace; [done|by eapply Hids|by apply violation_none]. }
  cbn [mbind sum_bind] in Hrun.
  destruct o; cbn [target] in *; rewrite ?lookup_partial_alter_eq in Hrun;
    try (destruct t as [t'|]; [by apply (Hgen t')|done]).
  - apply create_table_inv in Ht as [[t' ->] Hnew].
    destruct (create_then t' table S d Hv Hnew). injection Hrun as <-. by apply valid_replace.
  - apply drop_table_inv in Ht as [-> Href]. injection Hrun as <-. by apply valid_drop.
Qed.

Lemma ddl_specs_app now ops ops' c :
  ddl_specs now (ops ++ ops') c =
    match ddl_specs now ops c with inl e => inl e | inr c' => ddl_specs now ops' c' end.
Proof. revert c. induction ops as [|o ops IH]; intros c; [done|]. cbn. by destruct (ddl_spec _ _ _). Qed.

Lemma ddl_specs_valid now ops c c' :
  ddl_specs now ops c = inr c' -> valid c.1 c.2 -> valid c'.1 c'.2.
Proof.
  revert c. induction ops as [|o ops IH]; intros c; cbn; [by intros [= <-]|].
  destruct (ddl_spec now o c) as [e|c1] eqn:Ho; [done|]. intros Hs Hv. apply (IH c1); [done|].
  by eapply ddl_spec_valid.
Qed.

(** A server runs statements as [ddl_specs] does, or becomes unreachable. *)
Lemma run_ddls_law `{Postgres} now ops s :
  run_ddls now ops s = inl Unreachable \/
  match run_ddls now ops s, ddl_specs now ops (contents s) with
  | inl e, inl e' => e = e'
  | inr s', inr c' => contents s' = c'
  | _, _ => False
  end.
Proof.
  revert s. induction ops as [|o ops IH]; intros s; cbn; [by right|].
  destruct (run_ddl_law now o s) as [->|Hl]; [by left|].
  destruct (run_ddl now o s) as [e|s'], (ddl_spec now o (contents s)) as [e'|c']; try done; [by right|].
  subst c'. apply IH.
Qed.

(** ** Rows that stay valid *)

(** A statement on a table that exists before and after it. *)
Lemma ddl_spec_rows now o S S' t d rows rows' :
  match o with CreateTable _ _ _ _ | DropTable _ => False | _ => True end ->
  schema_step o S = inr S' -> S' !! target o = Some t -> d !! target o = Some rows ->
  rows_step now o rows = Some rows' ->
  ddl_spec now o (S, d) =
    match violation t d rows' with Some e => inl e | None => inr (S', <[target o := rows']> d) end.
Proof.
  intros Ho HS Ht Hd Hr. unfold ddl_spec. cbn [fst snd]. rewrite HS. cbn [mbind sum_bind].
  destruct o; try done; rewrite Ht, Hd, Hr; done.
Qed.

(** The columns a constraint of the table depends on. *)
Definition constrained (t : table_def) : list string :=
  t_primary_key t :: (uniqueness t ≫= fun u => u.1 ++ from_option cond_columns [] u.2) ++
  (map_to_list (t_checks t) ≫= fun p => cond_columns p.2) ++ (fk_column <$> t_foreign_keys t).

Definition agree_on (columns : list string) (r s : row) : Prop :=
  forall n, n ∈ columns -> r !! n = s !! n.

Lemma holds_agree c r s : agree_on (cond_columns c) r s -> holds r c = holds s c.
Proof.
  intros Ha. induction c as [n k|n|n x|n l|a IHa b IHb]; cbn in *;
    try (rewrite (Ha n) by set_solver; done).
  rewrite IHa, IHb; [done|intros n Hn; apply Ha; set_solver..].
Qed.

Lemma selected_agree w r s : agree_on (from_option cond_columns [] w) r s -> selected w r = selected w s.
Proof. intros Ha. destruct w as [c|]; [|done]. cbn in *. by rewrite (holds_agree c r s). Qed.

Lemma row_conflict_agree columns w r r' s s' :
  agree_on (columns ++ from_option cond_columns [] w) r r' ->
  agree_on (columns ++ from_option cond_columns [] w) s s' ->
  row_conflict columns w r s = row_conflict columns w r' s'.
Proof.
  intros Hr Hs. unfold row_conflict.
  rewrite (selected_agree w r r'), (selected_agree w s s') by (intros n Hn; (apply Hr || apply Hs); set_solver).
  do 2 f_equal. apply eq_true_iff_eq. rewrite !forallb_forall.
  assert (forall n, n ∈ columns -> same_cell r s n = same_cell r' s' n) as Hn.
  { intros n Hn. unfold same_cell. by rewrite (Hr n), (Hs n) by set_solver. }
  split; intros Hall n Hin; specialize (Hall n Hin); apply list_elem_of_In in Hin;
    [by rewrite <- Hn|by rewrite Hn].
Qed.

Lemma constrained_unique t u : u ∈ uniqueness t ->
  forall n, n ∈ u.1 ++ from_option cond_columns [] u.2 -> n ∈ constrained t.
Proof.
  intros Hu n Hn. unfold constrained. apply list_elem_of_further, elem_of_app. left.
  apply list_elem_of_bind. eauto.
Qed.

(** Rows rewritten away from the constrained columns stay valid, in a table
    with no more constraints. *)
Lemma valid_table_rewrite t t' d rows (h : row -> row) :
  valid_table t d rows ->
  t_primary_key t' = t_primary_key t -> uniqueness t' ⊆ uniqueness t ->
  t_checks t' ⊆ t_checks t -> t_foreign_keys t' ⊆ t_foreign_keys t ->
  (forall k r, rows !! k = Some r -> agree_on (constrained t') (h r) r /\ row_typed t' (h r)) ->
  valid_table t' d (h <$> rows).
Proof.
  intros [Hk Ht Hc Hu Hf] Hpk Huni Hchk Hfks Hh.
  assert (forall k r', (h <$> rows) !! k = Some r' -> exists r, rows !! k = Some r /\ r' = h r /\
    agree_on (constrained t') (h r) r) as Hinv.
  { intros k r'. rewrite lookup_fmap, fmap_Some. intros (r & Hr & ->). exists r. naive_solver. }
  split.
  - intros k r' (r & Hr & -> & Ha)%Hinv. rewrite (Ha (t_primary_key t')) by (left || constructor).
    rewrite Hpk. by apply Hk.
  - intros k r'. rewrite lookup_fmap, fmap_Some. intros (r & Hr & ->). by eapply Hh.
  - intros k r' (r & Hr & -> & Ha)%Hinv n c Hn. unfold passes.
    rewrite (holds_agree c (h r) r); [by eapply Hc; [|eapply lookup_weaken]|].
    intros m Hm. apply Ha. unfold constrained. apply list_elem_of_further, elem_of_app. right.
    apply elem_of_app. left. apply list_elem_of_bind. exists (n, c). by rewrite elem_of_map_to_list.
  - rewrite Forall_forall in Hu |- *. intros u Hin. specialize (Hu u (Huni u Hin)).
    intros i r' (r & Hr & -> & Ha)%Hinv j s' (s & Hs & -> & Hb)%Hinv Hcf. apply (Hu i r Hr j s Hs).
    rewrite <- Hcf. symmetry. apply row_conflict_agree; intros n Hn;
      (apply Ha || apply Hb); by eapply constrained_unique.
  - intros k r' (r & Hr & -> & Ha)%Hinv. rewrite Forall_forall. intros fk Hfk.
    specialize (Hf k r Hr). rewrite Forall_forall in Hf. specialize (Hf fk (Hfks fk Hfk)).
    unfold refers in *. rewrite (Ha (fk_column fk)); [done|]. unfold constrained.
    apply list_elem_of_further, elem_of_app. right. apply elem_of_app. right.
    apply list_elem_of_fmap. eauto.
Qed.

(** One more unique constraint, or unique index: the rows decide. *)
Lemma violation_new_unique t t' d rows columns w :
  valid_table t d rows ->
  t_primary_key t' = t_primary_key t -> t_columns t' = t_columns t -> t_checks t' = t_checks t ->
  t_foreign_keys t' = t_foreign_keys t ->
  Forall (fun u => u = (columns, w) \/ u ∈ uniqueness t) (uniqueness t') ->
  (columns, w) ∈ uniqueness t' ->
  violation t' d rows = if bool_decide (unique_rows columns w rows) then None else Some UniqueViolation.
Proof.
  intros Hv Hpk Hcol Hchk Hfks Huni Hnew. pose proof Hv as [Hk Ht Hc Hu Hf].
  assert (existsb (fun p => has_null t' p.2) (map_to_list rows) = false) as Hnull.
  { pose proof (proj2 (violation_none t d rows) Hv) as Hn. unfold violation in Hn.
    destruct (existsb (fun p => has_null t p.2) _) eqn:He; [done|]. rewrite <- He.
    unfold has_null. by rewrite Hcol. }
  assert (map_Forall (fun _ r => row_typed t' r) rows) as Ht'.
  { intros k r Hr. unfold row_typed. rewrite Hcol. by eapply Ht. }
  unfold violation. rewrite Hnull, (bool_decide_eq_true_2 _ Ht'). cbn [negb].
  rewrite Hchk, (bool_decide_eq_true_2 _ Hc). cbn [negb].
  case_bool_decide as Hb.
  - rewrite Hfks, Hpk. repeat (rewrite bool_decide_eq_true_2; [cbn [negb]|done]).
    rewrite Forall_forall in Hb. by rewrite (bool_decide_eq_true_2 _ (Hb _ Hnew)).
  - cbn. rewrite bool_decide_eq_false_2; [done|]. intros Huniq. apply Hb.
    rewrite Forall_forall in Huni, Hu |- *. intros u Hin. destruct (Huni u Hin) as [->|?]; auto.
Qed.

(** A row stays typed when one column and its cell change together. *)
Lemma row_typed_change t t' r r' n :
  row_typed t r -> delete n (t_columns t') = delete n (t_columns t) -> delete n r' = delete n r ->
  match t_columns t' !! n, r' !! n with
  | Some c, Some v => cell_ok c v = true
  | None, None => True
  | _, _ => False
  end -> row_typed t' r'.
Proof.
  intros Ht Hc Hr Hn m. destruct (decide (m = n)) as [->|Hne].
  - destruct (t_columns t' !! n), (r' !! n); done.
  - specialize (Ht m). rewrite <- (lookup_delete_ne (t_columns t') n), Hc, lookup_delete_ne by done.
    by rewrite <- (lookup_delete_ne r' n), Hr, lookup_delete_ne by done.
Qed.

(** The cell of a typed row under a column. *)
Lemma row_typed_cell t r n c :
  row_typed t r -> t_columns t !! n = Some c -> exists v, r !! n = Some v /\ cell_ok c v = true.
Proof. intros Ht Hc. specialize (Ht n). rewrite Hc in Ht. destruct (r !! n); naive_solver. Qed.

Lemma row_typed_absent t r n : row_typed t r -> t_columns t !! n = None -> r !! n = None.
Proof. intros Ht Hc. specialize (Ht n). rewrite Hc in Ht. by destruct (r !! n). Qed.

(** ** Statements on one column *)

(** [t'] constrains its rows no more than [t], apart from the type of the
    unconstrained column [n]. *)
Definition weaker (n : string) (t t' : table_def) : bool :=
  bool_decide (t_primary_key t' = t_primary_key t) &&
  forallb (fun u => bool_decide (u ∈ uniqueness t)) (uniqueness t') &&
  bool_decide (map_Forall (fun m c => t_checks t !! m = Some c) (t_checks t')) &&
  forallb (fun fk => bool_decide (fk ∈ t_foreign_keys t)) (t_foreign_keys t') &&
  bool_decide (delete n (t_columns t') = delete n (t_columns t)) &&
  bool_decide (n ∉ constrained t').

Definition keeps_table (o : ddl) : bool :=
  match o with CreateTable _ _ _ _ | DropTable _ => false | _ => true end.

Lemma forallb_subset {A} `{EqDecision A} (l l' : list A) :
  forallb (fun x => bool_decide (x ∈ l)) l' = true -> l' ⊆ l.
Proof.
  rewrite forallb_forall. intros Hl x Hx%list_elem_of_In. by apply Hl, bool_decide_eq_true in Hx.
Qed.

Lemma column_step now o S S' t t' d rows h n :
  keeps_table o = true -> valid S d -> schema_step o S = inr S' ->
  S !! target o = Some t -> S' !! target o = Some t' -> d !! target o = Some rows ->
  rows_step now o rows = Some (h <$> rows) -> weaker n t t' = true ->
  (forall k r, rows !! k = Some r -> row_typed t r -> delete n (h r) = delete n r /\
     match t_columns t' !! n, h r !! n with
     | Some c, Some v => cell_ok c v = true
     | None, None => True
     | _, _ => False
     end) ->
  ddl_spec now o (S, d) = inr (S', <[target o := h <$> rows]> d).
Proof.
  intros Ho Hv HS Ht Ht' Hd Hr Hw Hh. unfold weaker in Hw. bools.
  rewrite (ddl_spec_rows now o S S' t' d rows (h <$> rows)) by (done || by destruct o).
  rewrite (proj2 (violation_none _ _ _)); [done|].
  destruct (valid_lookup S d _ t Hv Ht) as (rows0 & Hd0 & Hvt). rewrite Hd in Hd0. injection Hd0 as <-.
  apply (valid_table_rewrite t); [done|done|by apply forallb_subset| |by apply forallb_subset|].
  - intros m. destruct (t_checks t' !! m) as [c|] eqn:Hc; cbn; [|by destruct (t_checks t !! m)].
    match goal with Hm : map_Forall _ (t_checks t') |- _ => by rewrite (Hm m c Hc) end.
  - intros k r Hk. assert (row_typed t r) as Htr by by eapply (valid_typed _ _ _ Hvt).
    destruct (Hh k r Hk Htr) as [Hdel Hn]. split.
    + intros m Hm. assert (m <> n) as Hne by (intros ->; done).
      by rewrite <- (lookup_delete_ne (h r) n), Hdel, lookup_delete_ne.
    + by eapply row_typed_change.
Qed.

(** Statements that change no row. *)
Lemma schema_only_step now o S S' t t' d rows :
  keeps_table o = true -> valid S d -> schema_step o S = inr S' ->
  S !! target o = Some t -> S' !! target o = Some t' -> d !! target o = Some rows ->
  rows_step now o rows = Some rows -> weaker EmptyString t t' = true ->
  t_columns t !! EmptyString = None -> t_columns t' !! EmptyString = None ->
  ddl_spec now o (S, d) = inr (S', d).
Proof.
  intros Ho Hv HS Ht Ht' Hd Hr Hw Hn Hn'.
  rewrite (column_step now o S S' t t' d rows id EmptyString); try done.
  - by rewrite map_fmap_id, insert_id.
  - by rewrite map_fmap_id.
  - intros k r _ Htr. split; [done|]. cbn. rewrite Hn', (row_typed_absent t r) by done. done.
Qed.

(** A new unique constraint or unique index. *)
Lemma unique_step now o S S' t t' d rows columns w :
  keeps_table o = true -> valid S d -> schema_step o S = inr S' ->
  S !! target o = Some t -> S' !! target o = Some t' -> d !! target o = Some rows ->
  rows_step now o rows = Some rows ->
  t_primary_key t' = t_primary_key t -> t_columns t' = t_columns t -> t_checks t' = t_checks t ->
  t_foreign_keys t' = t_foreign_keys t ->
  Forall (fun u => u = (columns, w) \/ u ∈ uniqueness t) (uniqueness t') ->
  (columns, w) ∈ uniqueness t' ->
  ddl_spec now o (S, d) =
    if bool_decide (unique_rows columns w rows) then inr (S', d) else inl UniqueViolation.
Proof.
  intros Ho Hv HS Ht Ht' Hd Hr Hpk Hcol Hchk Hfks Huni Hin.
  destruct (valid_lookup S d _ t Hv Ht) as (rows0 & Hd0 & Hvt). rewrite Hd in Hd0. injection Hd0 as <-.
  rewrite (ddl_spec_rows now o S S' t' d rows rows) by (done || by destruct o).
  rewrite (violation_new_unique t t' d rows columns w) by done.
  case_bool_decide; [by rewrite insert_id|done].
Qed.

(** The schema after statements, and a table of it. *)
Definition schema_then (o : ddl) (S : schema) : schema :=
  match schema_step o S with inr S' => S' | inl _ => ∅ end.
Definition table_at (S : schema) (table : string) : table_def :=
  default (TableDef ∅ EmptyString ∅ [] ∅ ∅) (S !! table).

Definition runs_on (o : ddl) (S : schema) : bool :=
  match schema_step o S with inr _ => true | inl _ => false end.

Lemma schema_then_ok o S : runs_on o S = true -> schema_step o S = inr (schema_then o S).
Proof. unfold runs_on, schema_then. by destruct (schema_step o S). Qed.

Lemma table_at_ok S table : bool_decide (is_Some (S !! table)) = true -> S !! table = Some (table_at S table).
Proof. rewrite bool_decide_eq_true. intros [t Ht]. unfold table_at. by rewrite Ht. Qed.

(** A decision procedure for [valid]. *)
Definition valid_data (S : schema) (d : data) : bool :=
  bool_decide (same_keys (fun _ t rows => violation t d rows = None) S d).

Lemma valid_data_ok S d : valid_data S d = true <-> valid S d.
Proof.
  unfold valid_data. rewrite bool_decide_eq_true. unfold valid, same_keys, map_relation.
  split; intros Hv n; specialize (Hv n); destruct (S !! n), (d !! n); cbn in *;
    try apply violation_none; done.
Qed.
