(* ===== verification/Migrations.v ===== *)
(** * The migrations ([migrations/versions], [migrations/env.py])

    Each [upgrade] and [downgrade] function as the sequence of its operations,
    with their effect on any data; the history of the revisions; the
    choice of the database URL and the transaction of [env.py].  Alembic, which
    decides which of these functions a command runs, is the interface
    [Alembic]. *)
From S2P Require Import Prelude PyStr Sha256 Uuid Schema.

Local Open Scope string_scope.
Local Open Scope list_scope.
Local Open Scope Z_scope.

(** ** [0001_core_records] *)

Definition upgrade_0001 : list ddl := [
  CreateTable "conversations" [
      ("id", Column Uuid false None);
      ("channel", Column (String_ 32) false None);
      ("channel_account_id", Column (String_ 255) false None);
      ("external_conversation_id", Column (String_ 255) false None);
      ("status", Column (String_ 32) false (Some (DText (u "active"))));
      ("created_at", Column DateTime false (Some DNow));
      ("updated_at", Column DateTime false (Some DNow))]
    "id"
    [UniqueConstraint "uq_conversation_channel_identity"
       ["channel"; "channel_account_id"; "external_conversation_id"]];
  CreateTable "messages" [
      ("id", Column Uuid false None);
      ("conversation_id", Column Uuid false None);
      ("external_message_id", Column (String_ 255) true None);
      ("direction", Column (String_ 16) false None);
      ("kind", Column (String_ 32) false None);
      ("content_text", Column Text true None);
      ("trace_id", Column (String_ 128) false None);
      ("created_at", Column DateTime false (Some DNow))]
    "id"
    [ForeignKeyConstraint (ForeignKey "conversation_id" "conversations" "id" Cascade);
     UniqueConstraint "uq_messages_external_message_id" ["external_message_id"]];
  CreateIndex "ix_messages_conversation_created" "messages"
    (Index ["conversation_id"; "created_at"] false None);
  CreateIndex "ix_messages_trace_id" "messages" (Index ["trace_id"] false None);
  CreateTable "tool_runs" [
      ("id", Column Uuid false None);
      ("conversation_id", Column Uuid false None);
      ("tool_name", Column (String_ 100) false None);
      ("success", Column Boolean false None);
      ("error_code", Column (String_ 100) true None);
      ("latency_ms", Column Integer false None);
      ("input_data", Column JSONB false None);
      ("output_data", Column JSONB true None);
      ("trace_id", Column (String_ 128) false None);
      ("created_at", Column DateTime false (Some DNow))]
    "id"
    [CheckConstraint "ck_tool_runs_latency_nonnegative" (CGe "latency_ms" 0);
     ForeignKeyConstraint (ForeignKey "conversation_id" "conversations" "id" Cascade)];
  CreateIndex "ix_tool_runs_trace_id" "tool_runs" (Index ["trace_id"] false None);
  CreateTable "delivery_attempts" [
      ("id", Column Uuid false None);
      ("conversation_id", Column Uuid false None);
      ("idempotency_key", Column (String_ 255) false None);
      ("provider_message_id", Column (String_ 255) true None);
      ("status", Column (String_ 32) false None);
      ("error_code", Column (String_ 100) true None);
      ("error_message", Column (String_ 500) true None);
      ("trace_id", Column (String_ 128) false None);
      ("created_at", Column DateTime false (Some DNow));
      ("updated_at", Column DateTime false (Some DNow))]
    "id"
    [ForeignKeyConstraint (ForeignKey "conversation_id" "conversations" "id" Cascade);
     UniqueConstraint "uq_delivery_attempts_idempotency_key" ["idempotency_key"]];
  CreateIndex "ix_delivery_attempts_provider_message_id" "delivery_attempts"
    (Index ["provider_message_id"] false None);
  CreateIndex "ix_delivery_attempts_trace_id" "delivery_attempts" (Index ["trace_id"] false None);
  CreateTable "handoffs" [
      ("id", Column Uuid false None);
      ("conversation_id", Column Uuid false None);
      ("status", Column (String_ 32) false (Some (DText (u "requested"))));
      ("reason", Column (String_ 500) false None);
      ("trace_id", Column (String_ 128) false None);
      ("created_at", Column DateTime false (Some DNow));
      ("resolved_at", Column DateTime true None)]
    "id"
    [ForeignKeyConstraint (ForeignKey "conversation_id" "conversations" "id" Cascade)];
  CreateIndex "ix_handoffs_status_created" "handoffs" (Index ["status"; "created_at"] false None);
  CreateTable "trace_events" [
      ("id", Column Uuid false None);
      ("trace_id", Column (String_ 128) false None);
      ("event_name", Column (String_ 100) false None);
      ("duration_ms", Column Integer true None);
      ("attributes", Column JSONB false None);
      ("created_at", Column DateTime false (Some DNow))]
    "id"
    [CheckConstraint "ck_trace_events_duration_nonnegative"
       (COr (CIsNull "duration_ms") (CGe "duration_ms" 0))];
  CreateIndex "ix_trace_events_trace_created" "trace_events"
    (Index ["trace_id"; "created_at"] false None)].

Definition downgrade_0001 : list ddl := [
  DropTable "trace_events"; DropTable "handoffs"; DropTable "delivery_attempts";
  DropTable "tool_runs"; DropTable "messages"; DropTable "conversations"].

(** ** [0002_delivery_status_events] *)

Definition upgrade_0002 : list ddl := [
  CreateTable "delivery_status_events" [
      ("id", Column Uuid false None);
      ("delivery_attempt_id", Column Uuid false None);
      ("provider_message_id", Column (String_ 255) true None);
      ("status", Column (String_ 32) false None);
      ("error_code", Column (String_ 100) true None);
      ("error_message", Column (String_ 500) true None);
      ("trace_id", Column (String_ 128) false None);
      ("occurred_at", Column DateTime false None);
      ("created_at", Column DateTime false (Some DNow))]
    "id"
    [ForeignKeyConstraint (ForeignKey "delivery_attempt_id" "delivery_attempts" "id" Cascade);
     UniqueConstraint "uq_delivery_status_provider_state" ["provider_message_id"; "status"]];
  CreateIndex "ix_delivery_status_attempt_occurred" "delivery_status_events"
    (Index ["delivery_attempt_id"; "occurred_at"] false None)].

Definition downgrade_0002 : list ddl := [DropTable "delivery_status_events"].

(** ** [0003_handoff_workflow] *)

Definition open_handoff : cond := CIn "status" [u "requested"; u "claimed"].

Definition upgrade_0003 : list ddl := [
  AlterColumn "conversations" "status" None (Some (DText (u "piki_active")));
  Update "conversations" "status" (ELiteral (u "piki_active")) (Some (CEq "status" (u "active")));
  AddColumn "handoffs" "idempotency_key" (Column (String_ 255) true None);
  Update "handoffs" "idempotency_key" (ECastVarchar "id") None;
  AlterColumn "handoffs" "idempotency_key" (Some false) None;
  CreateUniqueConstraint "uq_handoffs_conversation_idempotency" "handoffs"
    ["conversation_id"; "idempotency_key"];
  CreateIndex "uq_handoffs_one_open_per_conversation" "handoffs"
    (Index ["conversation_id"] true (Some open_handoff))].

Definition downgrade_0003 : list ddl := [
  DropIndex "uq_handoffs_one_open_per_conversation" "handoffs";
  DropUniqueConstraint "uq_handoffs_conversation_idempotency" "handoffs";
  DropColumn "handoffs" "idempotency_key";
  Update "conversations" "status" (ELiteral (u "active")) (Some (CEq "status" (u "piki_active")));
  AlterColumn "conversations" "status" None (Some (DText (u "active")))].

(** ** [0004_message_processing_outbox] *)

Definition upgrade_0004 : list ddl := [
  AddColumn "messages" "processing_status" (Column (String_ 32) true None);
  AddColumn "messages" "processing_attempts" (Column Integer false (Some (DText (u "0"))));
  AddColumn "messages" "processing_available_at" (Column DateTime true None);
  AddColumn "messages" "processing_claimed_at" (Column DateTime true None);
  AddColumn "messages" "processing_error_code" (Column (String_ 100) true None);
  CreateIndex "ix_messages_processing_available" "messages"
    (Index ["processing_status"; "processing_available_at"; "created_at"] false None)].

Definition downgrade_0004 : list ddl := [
  DropIndex "ix_messages_processing_available" "messages";
  DropColumn "messages" "processing_error_code";
  DropColumn "messages" "processing_claimed_at";
  DropColumn "messages" "processing_available_at";
  DropColumn "messages" "processing_attempts";
  DropColumn "messages" "processing_status"].

(** ** The history *)

Record Revision := {
  revision : string;
  down_revision : option string;
  upgrade : list ddl;
  downgrade : list ddl
}.

Definition core_records : Revision := {|
  revision := "0001_core_records"; down_revision := None;
  upgrade := upgrade_0001; downgrade := downgrade_0001 |}.
Definition delivery_status_events : Revision := {|
  revision := "0002_delivery_status_events"; down_revision := Some "0001_core_records";
  upgrade := upgrade_0002; downgrade := downgrade_0002 |}.
Definition handoff_workflow : Revision := {|
  revision := "0003_handoff_workflow"; down_revision := Some "0002_delivery_status_events";
  upgrade := upgrade_0003; downgrade := downgrade_0003 |}.
Definition message_processing_outbox : Revision := {|
  revision := "0004_message_processing_outbox"; down_revision := Some "0003_handoff_workflow";
  upgrade := upgrade_0004; downgrade := downgrade_0004 |}.

Definition versions : list Revision :=
  [core_records; delivery_status_events; handoff_workflow; message_processing_outbox].

(** The schema after the first [k] migrations of an empty database. *)
Definition schema_at (k : nat) : schema :=
  match ddl_specs 0 (take k versions ≫= upgrade) (∅, ∅) with inr c => c.1 | inl _ => ∅ end.
