(* ===== verification/MigrationLaws.v ===== *)
(** * What the migrations do to the data

    The effect of each [upgrade] and [downgrade] on any valid data of the
    revision before it, as a function on the rows. *)
From S2P Require Import Prelude PyStr Sha256 Uuid Schema Migrations.

Local Open Scope string_scope.
Local Open Scope list_scope.
Local Open Scope Z_scope.

(** ** The effects *)

Definition empty_tables (names : list string) : data := list_to_map ((fun n => (n, ∅)) <$> names).

Definition rename_status (from to : str) (r : row) : row :=
  if bool_decide (r !! "status" = Some (VStr from)) then <["status" := VStr to]> r else r.

(** The key of a handoff becomes the text of its identifier. *)
Definition upgraded_0003 (d : data) : data :=
  alter (map_imap (fun k r => Some (<["idempotency_key" := VStr (uuid_text k)]> r))) "handoffs"
    (alter (fmap (rename_status (u "active") (u "piki_active"))) "conversations" d).
Definition downgraded_0003 (d : data) : data :=
  alter (fmap (rename_status (u "piki_active") (u "active"))) "conversations"
    (alter (fmap (delete "idempotency_key")) "handoffs" d).

(** The cells of the queue of a message that was never enqueued. *)
Definition idle_cells : list (string * value) := [
  ("processing_error_code", VNull); ("processing_claimed_at", VNull);
  ("processing_available_at", VNull); ("processing_attempts", VInt 0); ("processing_status", VNull)].
Definition upgraded_0004 (d : data) : data :=
  alter (fmap (union (list_to_map idle_cells))) "messages" d.
Definition downgraded_0004 (d : data) : data :=
  alter (fmap (fun r => foldl (fun r c => delete c r) r idle_cells.*1)) "messages" d.

(** The condition of [0003]: no conversation has two open handoffs. *)
Definition one_open_handoff (d : data) : bool :=
  bool_decide (unique_rows ["conversation_id"] (Some open_handoff) (default ∅ (d !! "handoffs"))).

(** ** Running the statements *)

(** Closes a decidable goal on the schemas by evaluating its decision. *)
Ltac closed := refine (bool_decide_eq_true_1 _ _); vm_compute; reflexivity.

Lemma upgrade_0001_run now :
  ddl_specs now upgrade_0001 (∅, ∅) =
    inr (schema_at 1, empty_tables ["conversations"; "messages"; "tool_runs"; "delivery_attempts";
                                    "handoffs"; "trace_events"]).
Proof. closed. Qed.

Lemma specs_cons now o ops c c' :
  ddl_spec now o c = inr c' -> ddl_specs now (o :: ops) c = ddl_specs now ops c'.
Proof. intros Ho. cbn. by rewrite Ho. Qed.

Lemma create_step now table columns key constraints S S' d :
  schema_step (CreateTable table columns key constraints) S = inr S' ->
  ddl_spec now (CreateTable table columns key constraints) (S, d) = inr (S', <[table := ∅]> d).
Proof. intros HS. unfold ddl_spec. cbn [fst snd]. by rewrite HS. Qed.

Lemma drop_step now table S S' d :
  schema_step (DropTable table) S = inr S' ->
  ddl_spec now (DropTable table) (S, d) = inr (S', delete table d).
Proof. intros HS. unfold ddl_spec. cbn [fst snd]. by rewrite HS. Qed.

(** An ALTER COLUMN that every stored cell satisfies. *)
Lemma alter_step now o S S' t t' d rows n c c' :
  keeps_table o = true -> valid S d -> schema_step o S = inr S' ->
  S !! target o = Some t -> S' !! target o = Some t' -> d !! target o = Some rows ->
  rows_step now o rows = Some rows -> weaker n t t' = true ->
  t_columns t !! n = Some c -> t_columns t' !! n = Some c' ->
  (forall v, cell_ok c v = true -> cell_ok c' v = true) ->
  ddl_spec now o (S, d) = inr (S', d).
Proof.
  intros Ho Hv HS Ht Ht' Hd Hr Hw Hc Hc' Hcell.
  rewrite (column_step now o S S' t t' d rows id n); try done.
  - by rewrite map_fmap_id, insert_id.
  - by rewrite map_fmap_id.
  - intros k r _ Htr. split; [done|]. cbn. rewrite Hc'.
    destruct (row_typed_cell t r n c Htr Hc) as (v & -> & Hok). by apply Hcell.
Qed.

Lemma selected_eq c s r : selected (Some (CEq c s)) r = bool_decide (r !! c = Some (VStr s)).
Proof.
  unfold selected. apply bool_decide_ext. cbn [holds]. destruct (r !! c) as [[]|]; try (split; congruence).
  split; [|by intros [= ->]; rewrite bool_decide_eq_true_2]. by intros [= ->%bool_decide_eq_true].
Qed.

(** The UPDATE of the status of the conversations, in either direction. *)
Lemma rename_step now S S' t t' c d rows from to :
  valid S d ->
  schema_step (Update "conversations" "status" (ELiteral to) (Some (CEq "status" from))) S = inr S' ->
  S !! "conversations" = Some t -> S' !! "conversations" = Some t' -> d !! "conversations" = Some rows ->
  weaker "status" t t' = true -> t_columns t !! "status" = Some c -> t_columns t' !! "status" = Some c ->
  cell_ok c (VStr to) = true ->
  ddl_spec now (Update "conversations" "status" (ELiteral to) (Some (CEq "status" from))) (S, d) =
    inr (S', <["conversations" := rename_status from to <$> rows]> d).
Proof.
  intros Hv HS Ht Ht' Hd Hw Hc Hc' Hto.
  apply (column_step now (Update "conversations" "status" (ELiteral to) (Some (CEq "status" from)))
    S S' t t' d rows (rename_status from to) "status"); try done.
  - cbn [rows_step]. f_equal. apply map_fmap_ext. intros k r _. unfold rename_status. by rewrite selected_eq.
  - intros k r _ Htr. unfold rename_status. rewrite Hc'.
    destruct (row_typed_cell t r "status" c Htr Hc) as (v & Hcell & Hok).
    case_bool_decide; [|rewrite Hcell; done]. by rewrite delete_insert_eq, lookup_insert_eq.
Qed.

Lemma specs_nil now S S' d d' : S = S' -> d = d' -> ddl_specs now [] (S, d) = inr (S', d').
Proof. by intros -> ->. Qed.

(** The next statement: first what becomes of the data, then the rest, with the
    validity [H] of the result. *)
Tactic Notation "run_step" ident(H) constr(d') :=
  match goal with
  | Hv : valid ?S ?d |- ddl_specs ?now (?o :: ?ops) (?S, ?d) = _ =>
      let H1 := fresh in
      assert (ddl_spec now o (S, d) = inr (schema_then o S, d')) as H1;
      [|refine (eq_trans (specs_cons now o ops (S, d) _ H1) _);
        assert (valid (schema_then o S) d') as H
          by exact (ddl_spec_valid now o (S, d) (schema_then o S, d') H1 Hv); clear H1 Hv]
  end.

Ltac run_end := apply specs_nil; [closed|try reflexivity].

(** A statement on a table, with the table before and after it. *)
Ltac step_goal lem :=
  match goal with
  | |- ddl_spec ?now ?o (?S, ?d) = inr (?S', _) =>
      eapply (lem now o S S' (table_at S (target o)) (table_at S' (target o)) d)
  end.

Ltac by_vm := vm_compute; reflexivity.

(** Closes the conditions of a step: the validity [H] of the data before it,
    lookups in the data, and evaluations of the schema. *)
Ltac step_side H :=
  lazymatch goal with
  | |- valid _ _ => exact H
  | |- keeps_table _ = true => reflexivity
  | |- rows_step _ _ _ = _ => reflexivity
  | |- schema_step _ _ = inr _ => apply schema_then_ok; by_vm
  | |- <[_ := _]> _ !! _ = Some _ => apply lookup_insert_eq
  | |- _ !! _ = Some (table_at _ _) => apply table_at_ok; by_vm
  | |- t_columns _ !! _ = _ => closed
  | |- weaker _ _ _ = true => by_vm
  | |- _ !! _ = Some _ => match goal with Hd : _ !! _ = Some _ |- _ => exact Hd end
  | |- t_primary_key _ = _ => closed
  | |- _ = _ :> table_def => closed
  end.

Lemma upgrade_0002_run now d :
  valid (schema_at 1) d ->
  ddl_specs now upgrade_0002 (schema_at 1, d) = inr (schema_at 2, <["delivery_status_events" := ∅]> d).
Proof.
  intros Hv. unfold upgrade_0002.
  run_step H1 (<["delivery_status_events" := ∅]> d). { apply create_step, schema_then_ok; by_vm. }
  run_step H2 (<["delivery_status_events" := ∅]> d). { step_goal schema_only_step; step_side H1. }
  run_end.
Qed.

(** *** Statements on a column *)

Lemma add_step now table name c S S' t t' d rows v :
  valid S d -> schema_step (AddColumn table name c) S = inr S' ->
  S !! table = Some t -> S' !! table = Some t' -> d !! table = Some rows ->
  weaker name t t' = true -> t_columns t' !! name = Some c ->
  default_cell now c = Some v -> cell_ok c v = true ->
  ddl_spec now (AddColumn table name c) (S, d) = inr (S', <[table := insert name v <$> rows]> d).
Proof.
  intros Hv HS Ht Ht' Hd Hw Hc Hdef Hok.
  apply (column_step now (AddColumn table name c) S S' t t' d rows (insert name v) name); try done.
  - cbn. by rewrite Hdef.
  - intros k r _ _. by rewrite Hc, delete_insert_eq, lookup_insert_eq.
Qed.

Lemma drop_column_step now table name S S' t t' d rows :
  valid S d -> schema_step (DropColumn table name) S = inr S' ->
  S !! table = Some t -> S' !! table = Some t' -> d !! table = Some rows ->
  weaker name t t' = true -> t_columns t' !! name = None ->
  ddl_spec now (DropColumn table name) (S, d) = inr (S', <[table := delete name <$> rows]> d).
Proof.
  intros Hv HS Ht Ht' Hd Hw Hc.
  apply (column_step now (DropColumn table name) S S' t t' d rows (delete name) name); try done.
  intros k r _ _. by rewrite Hc, delete_delete_eq, lookup_delete_eq.
Qed.

Lemma alter_some {A} (f : A -> A) (m : gmap string A) k x :
  m !! k = Some x -> alter f k m = <[k := f x]> m.
Proof.
  intros Hk. apply map_eq. intros j. destruct (decide (j = k)) as [->|Hne].
  - by rewrite lookup_alter_eq, lookup_insert_eq, Hk.
  - by rewrite lookup_alter_ne, lookup_insert_ne.
Qed.

Ltac add_column_step H :=
  match goal with
  | |- ddl_spec ?now (AddColumn ?table ?name ?c) (?S, ?d) = inr (?S', _) =>
      eapply (add_step now table name c S S' (table_at S table) (table_at S' table) d);
      first [step_side H | reflexivity]
  end.

Ltac drop_column_step H :=
  match goal with
  | |- ddl_spec ?now (DropColumn ?table ?name) (?S, ?d) = inr (?S', _) =>
      eapply (drop_column_step now table name S S' (table_at S table) (table_at S' table) d);
      step_side H
  end.

(** The later rows of a table replace the earlier ones. *)
Lemma step_replace now o S S' k x y (d : data) :
  ddl_spec now o (S, <[k := x]> d) = inr (S', <[k := y]> (<[k := x]> d)) ->
  ddl_spec now o (S, <[k := x]> d) = inr (S', <[k := y]> d).
Proof. by rewrite insert_insert_eq. Qed.

Ltac replacing :=
  match goal with
  | |- ddl_spec ?now ?o (?S, <[?k := ?x]> ?d) = inr (?S', <[?k := ?y]> ?d) =>
      refine (step_replace now o S S' k x y d _)
  end.

Ltac rename_status_step H c :=
  match goal with
  | |- ddl_spec ?now _ (?S, ?d) = inr (?S', _) =>
      eapply (rename_step now S S' (table_at S "conversations") (table_at S' "conversations") c d);
      first [step_side H | reflexivity]
  end.

Lemma upgrade_0004_run now d :
  valid (schema_at 3) d -> ddl_specs now upgrade_0004 (schema_at 3, d) = inr (schema_at 4, upgraded_0004 d).
Proof.
  intros Hv. unfold upgrade_0004.
  destruct (valid_lookup _ _ "messages" _ Hv (table_at_ok (schema_at 3) "messages" ltac:(by_vm)))
    as (rows & Hd & _).
  pose (r1 := insert "processing_status" VNull <$> rows).
  pose (r2 := insert "processing_attempts" (VInt 0) <$> r1).
  pose (r3 := insert "processing_available_at" VNull <$> r2).
  pose (r4 := insert "processing_claimed_at" VNull <$> r3).
  pose (r5 := insert "processing_error_code" VNull <$> r4).
  run_step H1 (<["messages" := r1]> d). { add_column_step Hv. }
  run_step H2 (<["messages" := r2]> d). { replacing; add_column_step H1. }
  run_step H3 (<["messages" := r3]> d). { replacing; add_column_step H2. }
  run_step H4 (<["messages" := r4]> d). { replacing; add_column_step H3. }
  run_step H5 (<["messages" := r5]> d). { replacing; add_column_step H4. }
  run_step H6 (<["messages" := r5]> d). { step_goal schema_only_step; step_side H5. }
  run_end. unfold upgraded_0004. rewrite (alter_some _ _ _ rows) by done. f_equal.
  subst r1 r2 r3 r4 r5. rewrite <- !map_fmap_compose. apply map_fmap_ext. intros k r _. cbn.
  by rewrite <- !insert_union_l, (left_id_L ∅ (∪)).
Qed.

Lemma downgrade_0004_run now d :
  valid (schema_at 4) d ->
  ddl_specs now downgrade_0004 (schema_at 4, d) = inr (schema_at 3, downgraded_0004 d).
Proof.
  intros Hv. unfold downgrade_0004.
  destruct (valid_lookup _ _ "messages" _ Hv (table_at_ok (schema_at 4) "messages" ltac:(by_vm)))
    as (rows & Hd & _).
  pose (r1 := delete "processing_error_code" <$> rows).
  pose (r2 := delete "processing_claimed_at" <$> r1).
  pose (r3 := delete "processing_available_at" <$> r2).
  pose (r4 := delete "processing_attempts" <$> r3).
  pose (r5 := delete "processing_status" <$> r4).
  run_step H0 d. { step_goal schema_only_step; step_side Hv. }
  run_step H1 (<["messages" := r1]> d). { drop_column_step H0. }
  run_step H2 (<["messages" := r2]> d). { replacing; drop_column_step H1. }
  run_step H3 (<["messages" := r3]> d). { replacing; drop_column_step H2. }
  run_step H4 (<["messages" := r4]> d). { replacing; drop_column_step H3. }
  run_step H5 (<["messages" := r5]> d). { replacing; drop_column_step H4. }
  run_end. unfold downgraded_0004. rewrite (alter_some _ _ _ rows) by done. f_equal.
  subst r1 r2 r3 r4 r5. rewrite <- !map_fmap_compose. done.
Qed.

(** *** The keys of the handoffs *)

Definition keyed (r : row) : row := <["idempotency_key" := eval_expr (ECastVarchar "id") r]> r.

Lemma unique_rows_fmap columns w (h : row -> row) (rows : gmap Z row) :
  (forall r, agree_on (columns ++ from_option cond_columns [] w) (h r) r) ->
  unique_rows columns w (h <$> rows) <-> unique_rows columns w rows.
Proof.
  intros Hh. unfold unique_rows. split.
  - intros Hu i r Hr j s Hs Hc.
    apply (Hu i (h r) ltac:(by rewrite lookup_fmap, Hr) j (h s) ltac:(by rewrite lookup_fmap, Hs)).
    by rewrite (row_conflict_agree columns w (h r) r (h s) s).
  - intros Hu i r'. rewrite lookup_fmap, fmap_Some. intros (r & Hr & ->) j s'.
    rewrite lookup_fmap, fmap_Some. intros (s & Hs & ->).
    rewrite (row_conflict_agree columns w (h r) r (h s) s) by done. by apply (Hu i r Hr j s).
Qed.

(** The identifier of a row, and its text. *)
Lemma row_id t d rows k r :
  valid_table t d rows -> rows !! k = Some r -> t_primary_key t = "id" ->
  t_columns t !! "id" = Some (Column Uuid false None) ->
  r !! "id" = Some (VUuid k) /\ 0 <= k < 2 ^ 128.
Proof.
  intros Hv Hr Hpk Hc. pose proof (valid_keyed _ _ _ Hv k r Hr) as Hk. cbn in Hk. rewrite Hpk in Hk.
  destruct (row_typed_cell t r "id" _ (valid_typed _ _ _ Hv k r Hr) Hc) as (v & Hid & Hok).
  rewrite Hk in Hid. injection Hid as <-. unfold cell_ok, col_type, has_type in Hok. bools. done.
Qed.

Lemma keyed_cell r k : r !! "id" = Some (VUuid k) -> keyed r = <["idempotency_key" := VStr (uuid_text k)]> r.
Proof. intros Hk. unfold keyed, eval_expr. by rewrite Hk. Qed.

(** The keys are unique, like the identifiers. *)
Lemma keys_unique t d rows columns :
  valid_table t d rows -> t_primary_key t = "id" -> t_columns t !! "id" = Some (Column Uuid false None) ->
  (forall k r, rows !! k = Some r -> r !! "idempotency_key" = Some (VStr (uuid_text k))) ->
  "idempotency_key" ∈ columns -> unique_rows columns None rows.
Proof.
  intros Hv Hpk Hc Hkeys Hin i r Hr j s Hs Hcf. unfold row_conflict in Hcf. cbn [selected] in Hcf.
  rewrite !andb_true_r, forallb_forall in Hcf. apply list_elem_of_In, Hcf in Hin.
  unfold same_cell in Hin. rewrite (Hkeys i r Hr), (Hkeys j s Hs) in Hin. bools.
  apply (uuid_text_inj i j); [by eapply row_id|by eapply row_id|congruence].
Qed.

(** The rows of the handoffs of a valid database are [keyed] by their identifiers. *)
Lemma keyed_rows t d rows k r :
  valid_table t d (keyed <$> rows) -> t_primary_key t = "id" ->
  t_columns t !! "id" = Some (Column Uuid false None) ->
  (keyed <$> rows) !! k = Some r -> r !! "idempotency_key" = Some (VStr (uuid_text k)).
Proof.
  intros Hv Hpk Hc Hr. destruct (row_id t d _ k r Hv Hr Hpk Hc) as [Hid _].
  rewrite lookup_fmap, fmap_Some in Hr. destruct Hr as (r0 & _ & ->).
  unfold keyed in *. rewrite lookup_insert_ne in Hid by done. rewrite lookup_insert_eq.
  unfold eval_expr. by rewrite Hid.
Qed.

(** *** The migrations that create and drop tables *)

Ltac drop_table_step := apply drop_step, schema_then_ok; by_vm.

Lemma downgrade_0002_run now d :
  valid (schema_at 2) d ->
  ddl_specs now downgrade_0002 (schema_at 2, d) = inr (schema_at 1, delete "delivery_status_events" d).
Proof.
  intros Hv. unfold downgrade_0002.
  run_step H1 (delete "delivery_status_events" d). { drop_table_step. }
  run_end.
Qed.

Lemma schema_at_0 : schema_at 0 = ∅.
Proof. closed. Qed.

(** Dropping every table of a valid database leaves nothing. *)
Lemma downgrade_0001_run now d :
  valid (schema_at 1) d -> ddl_specs now downgrade_0001 (schema_at 1, d) = inr (∅, ∅).
Proof.
  intros Hv. unfold downgrade_0001.
  pose (d1 := delete "trace_events" d). pose (d2 := delete "handoffs" d1).
  pose (d3 := delete "delivery_attempts" d2). pose (d4 := delete "tool_runs" d3).
  pose (d5 := delete "messages" d4). pose (d6 := delete "conversations" d5).
  run_step H1 d1. { drop_table_step. }
  run_step H2 d2. { drop_table_step. }
  run_step H3 d3. { drop_table_step. }
  run_step H4 d4. { drop_table_step. }
  run_step H5 d5. { drop_table_step. }
  run_step H6 d6. { drop_table_step. }
  run_end. apply map_eq. intros n. specialize (H6 n).
  match type of H6 with option_relation _ _ _ (?S !! n) _ => assert (S = ∅) as HS by closed end.
  rewrite HS, lookup_empty in H6. rewrite lookup_empty. destruct (d6 !! n); [destruct H6|reflexivity].
Qed.
