(* ===== verification/MigrationHandoffs.v ===== *)
(** * The migration [0003_handoff_workflow]

    The only migration that rewrites rows, and the only one that data can make
    fail. *)
From S2P Require Import Prelude PyStr Sha256 Uuid Schema Migrations MigrationLaws.

Local Open Scope string_scope.
Local Open Scope list_scope.
Local Open Scope Z_scope.

Lemma keyed_null (rows : gmap Z row) : (keyed <$> (insert "idempotency_key" VNull <$> rows)) = keyed <$> rows.
Proof.
  rewrite <- map_fmap_compose. apply map_fmap_ext. intros k r _. cbn. unfold keyed, eval_expr.
  by rewrite lookup_insert_ne, insert_insert_eq by done.
Qed.

Lemma uuid_fits c n : col_type c = String_ 255 -> cell_ok c (VStr (uuid_text n)) = true.
Proof. intros Hc. unfold cell_ok, has_type. by rewrite Hc, uuid_text_length. Qed.

Lemma keyed_step now S S' t t' c d rows :
  valid S d -> schema_step (Update "handoffs" "idempotency_key" (ECastVarchar "id") None) S = inr S' ->
  S !! "handoffs" = Some t -> S' !! "handoffs" = Some t' -> d !! "handoffs" = Some rows ->
  weaker "idempotency_key" t t' = true ->
  t_columns t !! "id" = Some (Column Uuid false None) ->
  t_columns t' !! "idempotency_key" = Some c -> col_type c = String_ 255 ->
  ddl_spec now (Update "handoffs" "idempotency_key" (ECastVarchar "id") None) (S, d) =
    inr (S', <["handoffs" := keyed <$> rows]> d).
Proof.
  intros Hv HS Ht Ht' Hd Hw Hid Hc Hty.
  apply (column_step now (Update "handoffs" "idempotency_key" (ECastVarchar "id") None)
    S S' t t' d rows keyed "idempotency_key"); try done.
  intros k r _ Htr. unfold keyed. rewrite delete_insert_eq, lookup_insert_eq, Hc. split; [done|].
  destruct (row_typed_cell t r "id" _ Htr Hid) as (v & Hcell & Hok). unfold eval_expr. rewrite Hcell.
  unfold cell_ok, col_type, has_type in Hok. destruct v; try done. by apply uuid_fits.
Qed.

Lemma not_null_step now S S' t t' d rows :
  valid S d -> schema_step (AlterColumn "handoffs" "idempotency_key" (Some false) None) S = inr S' ->
  S !! "handoffs" = Some t -> S' !! "handoffs" = Some t' -> d !! "handoffs" = Some (keyed <$> rows) ->
  weaker "idempotency_key" t t' = true -> t_primary_key t = "id" ->
  t_columns t !! "id" = Some (Column Uuid false None) ->
  t_columns t' !! "idempotency_key" = Some (Column (String_ 255) false None) ->
  ddl_spec now (AlterColumn "handoffs" "idempotency_key" (Some false) None) (S, d) = inr (S', d).
Proof.
  intros Hv HS Ht Ht' Hd Hw Hpk Hid Hc.
  rewrite (column_step now (AlterColumn "handoffs" "idempotency_key" (Some false) None)
    S S' t t' d (keyed <$> rows) id "idempotency_key"); try done.
  - by rewrite map_fmap_id, insert_id.
  - by rewrite map_fmap_id.
  - intros k r Hr _. split; [done|]. rewrite Hc. destruct (valid_lookup S d _ t Hv Ht) as (rows0 & Hd0 & Hvt).
    rewrite Hd in Hd0. injection Hd0 as <-.
    change (id r) with r. rewrite (keyed_rows t d rows k r) by done. by apply uuid_fits.
Qed.

(** The two unique constraints of [0003], on rows that have their keys. *)
Lemma unique_key_step now S S' t t' d rows :
  valid S d ->
  schema_step (CreateUniqueConstraint "uq_handoffs_conversation_idempotency" "handoffs"
    ["conversation_id"; "idempotency_key"]) S = inr S' ->
  S !! "handoffs" = Some t -> S' !! "handoffs" = Some t' -> d !! "handoffs" = Some (keyed <$> rows) ->
  t_primary_key t = "id" -> t_columns t !! "id" = Some (Column Uuid false None) ->
  t_primary_key t' = t_primary_key t -> t_columns t' = t_columns t -> t_checks t' = t_checks t ->
  t_foreign_keys t' = t_foreign_keys t ->
  Forall (fun u => u = (["conversation_id"; "idempotency_key"], None) \/ u ∈ uniqueness t) (uniqueness t') ->
  (["conversation_id"; "idempotency_key"], None) ∈ uniqueness t' ->
  ddl_spec now (CreateUniqueConstraint "uq_handoffs_conversation_idempotency" "handoffs"
    ["conversation_id"; "idempotency_key"]) (S, d) = inr (S', d).
Proof.
  intros Hv HS Ht Ht' Hd Hpk Hid Hpk' Hcol Hchk Hfks Huni Hin.
  rewrite (unique_step now _ S S' t t' d (keyed <$> rows) ["conversation_id"; "idempotency_key"] None)
    by done.
  destruct (valid_lookup S d _ t Hv Ht) as (rows0 & Hd0 & Hvt). rewrite Hd in Hd0. injection Hd0 as <-.
  rewrite bool_decide_eq_true_2; [done|]. eapply keys_unique; [done..| |set_solver].
  intros k r. by eapply keyed_rows.
Qed.

(** The rows of the handoffs, by their identifiers. *)
Lemma keyed_imap t d rows :
  valid_table t d rows -> t_primary_key t = "id" -> t_columns t !! "id" = Some (Column Uuid false None) ->
  keyed <$> rows = map_imap (fun k r => Some (<["idempotency_key" := VStr (uuid_text k)]> r)) rows.
Proof.
  intros Hv Hpk Hid. apply map_eq. intros k. rewrite lookup_fmap, map_lookup_imap.
  destruct (rows !! k) as [r|] eqn:Hr; [|done]. cbn. f_equal. apply keyed_cell. by eapply row_id.
Qed.

(** The key plays no part in who has an open handoff. *)
Lemma keyed_agree r :
  agree_on (["conversation_id"] ++ from_option cond_columns [] (Some open_handoff)) (keyed r) r.
Proof. intros n Hn. unfold keyed. rewrite lookup_insert_ne; [done|]. set_solver. Qed.

Lemma upgrade_0003_run now d :
  valid (schema_at 2) d ->
  ddl_specs now upgrade_0003 (schema_at 2, d) =
    if one_open_handoff d then inr (schema_at 3, upgraded_0003 d) else inl UniqueViolation.
Proof.
  intros Hv. unfold upgrade_0003.
  destruct (valid_lookup _ _ "conversations" _ Hv (table_at_ok (schema_at 2) "conversations" ltac:(by_vm)))
    as (convs & Hc & _).
  destruct (valid_lookup _ _ "handoffs" _ Hv (table_at_ok (schema_at 2) "handoffs" ltac:(by_vm)))
    as (rows & Hh & Hvh).
  pose (d1 := <["conversations" := rename_status (u "active") (u "piki_active") <$> convs]> d).
  assert (d1 !! "handoffs" = Some rows) as Hh1 by (unfold d1; by rewrite lookup_insert_ne).
  pose (r1 := insert "idempotency_key" VNull <$> rows).
  assert (upgraded_0003 d = <["handoffs" := keyed <$> rows]> d1) as Hup.
  { unfold upgraded_0003. rewrite (alter_some _ d "conversations" convs Hc). fold d1.
    rewrite (alter_some _ d1 "handoffs" rows Hh1). f_equal. symmetry. eapply keyed_imap; [exact Hvh|closed..]. }
  run_step H1 d. {
    match goal with |- ddl_spec _ ?o (?S, ?d) = inr (?S', _) =>
      eapply (alter_step now o S S' (table_at S (target o)) (table_at S' (target o)) d convs "status"
        (Column (String_ 32) false (Some (DText (u "active"))))
        (Column (String_ 32) false (Some (DText (u "piki_active")))));
      first [step_side Hv | by intros []] end. }
  run_step H2 d1. { rename_status_step H1 (Column (String_ 32) false (Some (DText (u "piki_active")))). }
  run_step H3 (<["handoffs" := r1]> d1). { add_column_step H2. }
  run_step H4 (<["handoffs" := keyed <$> rows]> d1).
  { replacing. unfold r1. rewrite <- keyed_null.
    match goal with |- ddl_spec _ _ (?S, ?d) = inr (?S', _) =>
      eapply (keyed_step now S S' (table_at S "handoffs") (table_at S' "handoffs")
        (Column (String_ 255) true None) d); first [step_side H3 | reflexivity] end. }
  run_step H5 (<["handoffs" := keyed <$> rows]> d1).
  { match goal with |- ddl_spec _ _ (?S, ?d) = inr (?S', _) =>
      eapply (not_null_step now S S' (table_at S "handoffs") (table_at S' "handoffs") d rows);
      step_side H4 end. }
  run_step H6 (<["handoffs" := keyed <$> rows]> d1).
  { match goal with |- ddl_spec _ _ (?S, ?d) = inr (?S', _) =>
      eapply (unique_key_step now S S' (table_at S "handoffs") (table_at S' "handoffs") d rows);
      first [step_side H5 | closed] end. }
  match goal with |- ddl_specs now [?o] (?S, ?d) = _ =>
    assert (ddl_spec now o (S, d) = if one_open_handoff d1 then inr (schema_then o S, d)
      else inl UniqueViolation) as Hlast end.
  { match goal with |- ddl_spec _ ?o (?S, ?d) = _ =>
      rewrite (unique_step now o S (schema_then o S) (table_at S "handoffs")
        (table_at (schema_then o S) "handoffs") d (keyed <$> rows) ["conversation_id"] (Some open_handoff));
      [|first [step_side H6 | closed]..] end.
    unfold one_open_handoff. rewrite Hh1. cbn [default].
    by rewrite (bool_decide_ext _ _ (unique_rows_fmap ["conversation_id"] (Some open_handoff) keyed rows
      keyed_agree)). }
  cbn [ddl_specs]. rewrite Hlast, Hup. unfold one_open_handoff. rewrite Hh1, Hh.
  destruct (bool_decide _); [|reflexivity].
  refine (f_equal (fun S => inr (S, <["handoffs" := keyed <$> rows]> d1)) _). closed.
Qed.

Lemma downgrade_0003_run now d :
  valid (schema_at 3) d ->
  ddl_specs now downgrade_0003 (schema_at 3, d) = inr (schema_at 2, downgraded_0003 d).
Proof.
  intros Hv. unfold downgrade_0003.
  destruct (valid_lookup _ _ "conversations" _ Hv (table_at_ok (schema_at 3) "conversations" ltac:(by_vm)))
    as (convs & Hc & _).
  destruct (valid_lookup _ _ "handoffs" _ Hv (table_at_ok (schema_at 3) "handoffs" ltac:(by_vm)))
    as (rows & Hh & _).
  pose (d1 := <["handoffs" := delete "idempotency_key" <$> rows]> d).
  assert (d1 !! "conversations" = Some convs) as Hc1 by (unfold d1; by rewrite lookup_insert_ne).
  pose (d2 := <["conversations" := rename_status (u "piki_active") (u "active") <$> convs]> d1).
  assert (downgraded_0003 d = d2) as ->.
  { unfold downgraded_0003. rewrite (alter_some _ d "handoffs" rows Hh). fold d1.
    by rewrite (alter_some _ d1 "conversations" convs Hc1). }
  run_step H1 d. { step_goal schema_only_step; step_side Hv. }
  run_step H2 d. { step_goal schema_only_step; step_side H1. }
  run_step H3 d1. { drop_column_step H2. }
  run_step H4 d2. { rename_status_step H3 (Column (String_ 32) false (Some (DText (u "piki_active")))). }
  assert (d2 !! "conversations" = Some (rename_status (u "piki_active") (u "active") <$> convs)) as Hc2
    by apply lookup_insert_eq.
  run_step H5 d2.
  { match goal with |- ddl_spec _ ?o (?S, ?d) = inr (?S', _) =>
      eapply (alter_step now o S S' (table_at S (target o)) (table_at S' (target o)) d _ "status"
        (Column (String_ 32) false (Some (DText (u "piki_active"))))
        (Column (String_ 32) false (Some (DText (u "active")))));
      first [step_side H4 | by intros []] end. }
  run_end.
Qed.

(** ** Round trips *)

Lemma foldl_delete_lookup (l : list string) (r : row) n :
  foldl (fun r c => delete c r) r l !! n = if decide (n ∈ l) then None else r !! n.
Proof.
  revert r. induction l as [|c l IH]; intros r; cbn; [by rewrite decide_False by set_solver|].
  rewrite IH. destruct (decide (n ∈ l)) as [Hl|Hl]; [by rewrite decide_True by set_solver|].
  destruct (decide (n = c)) as [->|Hne].
  - rewrite decide_True by set_solver. apply lookup_delete_eq.
  - rewrite decide_False by set_solver. by rewrite lookup_delete_ne.
Qed.

Lemma alter_alter_same {A} (f g : A -> A) (m : gmap string A) k :
  (forall x, m !! k = Some x -> f (g x) = x) -> alter f k (alter g k m) = m.
Proof.
  intros Hfg. apply map_eq. intros j. destruct (decide (j = k)) as [->|Hne].
  - rewrite !lookup_alter_eq. destruct (m !! k) as [x|] eqn:Hx; [|done]. cbn. by rewrite Hfg.
  - by rewrite !lookup_alter_ne.
Qed.

Lemma fmap_same (f : row -> row) (rows : gmap Z row) :
  (forall k r, rows !! k = Some r -> f r = r) -> f <$> rows = rows.
Proof. intros Hf. rewrite <- (map_fmap_id rows) at 2. by apply map_fmap_ext. Qed.

Definition no_status (s : str) (d : data) : Prop :=
  forall rows k r, d !! "conversations" = Some rows -> rows !! k = Some r ->
    r !! "status" <> Some (VStr s).

Lemma rename_back from to r :
  r !! "status" <> Some (VStr to) -> rename_status to from (rename_status from to r) = r.
Proof.
  intros Hr. unfold rename_status. destruct (decide (r !! "status" = Some (VStr from))) as [Hf|Hf].
  - rewrite (bool_decide_eq_true_2 _ Hf), lookup_insert_eq, bool_decide_eq_true_2 by done.
    rewrite insert_insert_eq. by apply insert_id.
  - by rewrite (bool_decide_eq_false_2 _ Hf), bool_decide_eq_false_2.
Qed.

(** A column that a table of a valid database does not have. *)
Lemma absent_cell S table n d rows k r :
  valid S d -> bool_decide (is_Some (S !! table)) = true ->
  t_columns (table_at S table) !! n = None ->
  d !! table = Some rows -> rows !! k = Some r -> r !! n = None.
Proof.
  intros Hv Ht Hn Hd Hr. destruct (valid_lookup S d table _ Hv (table_at_ok S table Ht)) as (rows0 & Hd0 & Hvt).
  rewrite Hd in Hd0. injection Hd0 as <-. eapply row_typed_absent; [|exact Hn].
  by eapply (valid_typed _ _ _ Hvt).
Qed.

Lemma back_0003 d :
  valid (schema_at 2) d -> no_status (u "piki_active") d -> downgraded_0003 (upgraded_0003 d) = d.
Proof.
  intros Hv Hs. unfold downgraded_0003, upgraded_0003.
  rewrite alter_alter_same; [apply alter_alter_same|].
  - intros rows Hd. rewrite <- map_fmap_compose. apply fmap_same. intros k r Hr. cbn.
    apply rename_back. by eapply Hs.
  - intros rows Hd. rewrite lookup_alter_ne in Hd by done. apply map_eq. intros k.
    rewrite lookup_fmap, map_lookup_imap. destruct (rows !! k) as [r|] eqn:Hr; [|done]. cbn. f_equal.
    apply delete_insert_id. eapply (absent_cell (schema_at 2) "handoffs"); [done|by_vm|closed|done..].
Qed.

Lemma idle_absent d rows k r n :
  valid (schema_at 3) d -> d !! "messages" = Some rows -> rows !! k = Some r ->
  n ∈ idle_cells.*1 -> r !! n = None.
Proof.
  intros Hv Hd Hr Hn.
  assert (Forall (fun n => t_columns (table_at (schema_at 3) "messages") !! n = None) idle_cells.*1) as Hall
    by closed.
  rewrite Forall_forall in Hall. eapply (absent_cell (schema_at 3) "messages"); [done|by_vm|by apply Hall|done..].
Qed.

Lemma back_0004 d : valid (schema_at 3) d -> downgraded_0004 (upgraded_0004 d) = d.
Proof.
  intros Hv. unfold downgraded_0004, upgraded_0004. apply alter_alter_same. intros rows Hd.
  rewrite <- map_fmap_compose. apply fmap_same. intros k r Hr. cbn [compose]. apply map_eq. intros n.
  rewrite foldl_delete_lookup. case_decide as Hn; [symmetry; by eapply idle_absent|].
  rewrite lookup_union_r; [done|]. apply not_elem_of_list_to_map_1, Hn.
Qed.

Lemma versions_inv k r :
  versions !! k = Some r ->
  (k = 0%nat /\ r = core_records) \/ (k = 1%nat /\ r = delivery_status_events) \/
  (k = 2%nat /\ r = handoff_workflow) \/ (k = 3%nat /\ r = message_processing_outbox).
Proof.
  intros Hr. destruct k as [|[|[|[|k]]]]; [apply Some_inj in Hr; subst r; auto 10..|].
  by destruct k.
Qed.

Section properties.

(** C16. A migration is undone exactly.  Whatever valid data a database holds at
    the revision before a migration, after its [upgrade] its [downgrade]
    succeeds and gives the same schema and the same rows back.  The migration of
    the handoffs renames the status "active" of conversations to "piki_active"
    and back, so it also needs that no conversation had the new name before. *)
Theorem migration_roundtrip k r now now' d c :
  versions !! k = Some r -> valid (schema_at k) d ->
  (k = 2%nat -> no_status (u "piki_active") d) ->
  ddl_specs now (upgrade r) (schema_at k, d) = inr c ->
  ddl_specs now' (downgrade r) c = inr (schema_at k, d).
Proof.
  intros Hr Hv Hs Hup. pose proof (ddl_specs_valid _ _ _ _ Hup Hv) as Hc.
  apply versions_inv in Hr as [[-> ->]|[[-> ->]|[[-> ->]|[-> ->]]]];
    cbn [upgrade downgrade core_records delivery_status_events handoff_workflow message_processing_outbox] in *.
  - rewrite schema_at_0 in *. assert (d = ∅) as ->.
    { apply map_eq. intros n. specialize (Hv n). rewrite lookup_empty in *. destruct (d !! n); [destruct Hv|reflexivity]. }
    rewrite upgrade_0001_run in Hup. injection Hup as <-.
    exact (downgrade_0001_run now' _ Hc).
  - rewrite upgrade_0002_run in Hup by exact Hv. injection Hup as <-.
    refine (eq_trans (downgrade_0002_run now' _ Hc) (f_equal (fun d => inr (schema_at 1, d)) _)).
    apply delete_insert_id. specialize (Hv "delivery_status_events").
    assert (schema_at 1 !! "delivery_status_events" = None) as Hn by closed. rewrite Hn in Hv.
    destruct (d !! _); [destruct Hv|reflexivity].
  - rewrite upgrade_0003_run in Hup by exact Hv. destruct (one_open_handoff d); [|discriminate Hup]. injection Hup as <-.
    refine (eq_trans (downgrade_0003_run now' _ Hc) (f_equal (fun d => inr (schema_at 2, d)) _)).
    apply back_0003; auto.
  - rewrite upgrade_0004_run in Hup by exact Hv. injection Hup as <-.
    refine (eq_trans (downgrade_0004_run now' _ Hc) (f_equal (fun d => inr (schema_at 3, d)) _)).
    exact (back_0004 d Hv).
Qed.
End properties.

(** ** Evaluations *)

(** A database at the second revision: a conversation, its open handoff. *)
Definition sample_conversation_row : row := list_to_map [
  ("id", VUuid 7); ("channel", VStr (u "web")); ("channel_account_id", VStr (u "console"));
  ("external_conversation_id", VStr (u "c-1")); ("status", VStr (u "active"));
  ("created_at", VTime 0); ("updated_at", VTime 0)].
Definition sample_handoff_row (id : Z) : row := list_to_map [
  ("id", VUuid id); ("conversation_id", VUuid 7); ("status", VStr (u "requested"));
  ("reason", VStr (u "human")); ("trace_id", VStr (u "t")); ("created_at", VTime 0);
  ("resolved_at", VNull)].
Definition sample_data (handoffs : list Z) : data :=
  <["conversations" := {[7 := sample_conversation_row]}]>
  (<["handoffs" := list_to_map ((fun id => (id, sample_handoff_row id)) <$> handoffs)]>
  (empty_tables ["messages"; "tool_runs"; "delivery_attempts"; "trace_events"; "delivery_status_events"])).

Lemma sample_data_valid handoffs :
  valid_data (schema_at 2) (sample_data handoffs) = true -> valid (schema_at 2) (sample_data handoffs).
Proof. apply valid_data_ok. Qed.

Lemma migration_roundtrip_witness :
  ddl_specs 1 downgrade_0003 (schema_at 3, upgraded_0003 (sample_data [8])) =
    inr (schema_at 2, sample_data [8]).
Proof.
  pose proof (sample_data_valid [8] ltac:(by_vm)) as Hv.
  refine (migration_roundtrip 2 handoff_workflow 0 1 (sample_data [8]) _ eq_refl Hv _ _).
  - intros _ rows k r Hd Hr. unfold sample_data in Hd. rewrite lookup_insert_eq in Hd. injection Hd as <-.
    apply lookup_singleton_Some in Hr as [_ <-]. vm_compute. discriminate.
  - assert (one_open_handoff (sample_data [8]) = true) as Ho by by_vm.
    exact (eq_trans (upgrade_0003_run 0 _ Hv)
      (f_equal (fun b : bool => if b then inr (schema_at 3, upgraded_0003 (sample_data [8]))
                                else inl UniqueViolation) Ho)).
Defined.
