(* ===== verification/Contracts.v ===== *)
(** * Domain contracts ([src/piki/domain/contracts.py])

    The pydantic models shared by every component: one record per model, its
    [Contract] instance with the declared bounds and the validator. *)
From S2P Require Import Prelude PyStr Errors.

Local Open Scope Z_scope.

(** A [datetime]: microseconds since the epoch, and whether it has a [tzinfo]. *)
Record datetime := Datetime { dt_us : Z; dt_aware : bool }.
#[export] Instance datetime_eq_dec : EqDecision datetime.
Proof. solve_decision. Defined.

(** [datetime.now(UTC)] at the clock value [t]. *)
Definition utc (t : Z) : datetime := Datetime t true.

Definition second : Z := 1000000.

(** JSON values: request bodies, decoded payloads, [metadata] dictionaries. *)
Inductive json :=
| JNull
| JBool (b : bool)
| JInt (n : Z)
| JFloat (literal : str)
| JStr (s : str)
| JArr (l : list json)
| JObj (fields : list (str * json)).

(** [d.get(key)] on a decoded object. *)
Fixpoint obj_get (key : str) (fields : list (str * json)) : option json :=
  match fields with
  | [] => None
  | (k, v) :: rest => if bool_decide (k = key) then Some v else obj_get key rest
  end.

(** ** Inbound messages *)

Inductive Channel := WHATSAPP | WEB.
#[export] Instance Channel_eq_dec : EqDecision Channel.
Proof. solve_decision. Defined.
#[export] Program Instance Channel_enum : StrEnum Channel := {|
  enum_all := [WHATSAPP; WEB];
  enum_value c := match c with WHATSAPP => u "whatsapp" | WEB => u "web" end
|}.
Solve All Obligations with enum_laws.

Inductive MessageKind := MK_TEXT | MK_IMAGE | MK_INTERACTIVE | MK_UNSUPPORTED.
#[export] Instance MessageKind_eq_dec : EqDecision MessageKind.
Proof. solve_decision. Defined.
#[export] Program Instance MessageKind_enum : StrEnum MessageKind := {|
  enum_all := [MK_TEXT; MK_IMAGE; MK_INTERACTIVE; MK_UNSUPPORTED];
  enum_value c :=
    match c with
    | MK_TEXT => u "text"
    | MK_IMAGE => u "image"
    | MK_INTERACTIVE => u "interactive"
    | MK_UNSUPPORTED => u "unsupported"
    end
|}.
Solve All Obligations with enum_laws.

Record InboundMessage := {
  im_message_id : str;
  im_channel : Channel;
  im_conversation_id : str;
  im_sender_id : str;
  im_kind : MessageKind;
  im_text : option str;
  im_received_at : datetime;
  im_metadata : gmap str str
}.

#[export] Instance InboundMessage_contract : Contract InboundMessage := {|
  fields_ok m :=
    len_in 1 255 (im_message_id m) && len_in 1 255 (im_conversation_id m) &&
    len_in 1 255 (im_sender_id m) && opt_len_in 0 4096 (im_text m);
  model_validator m := first_error [
    (negb (dt_aware (im_received_at m)), u "received_at must include a timezone");
    (bool_decide (im_kind m = MK_TEXT) &&
       negb (truthy_opt (im_text m) && truthy_opt (option_map strip (im_text m))),
     u "text messages require non-empty text")]
|}.

(** ** Tool results *)

Record ToolResult (DataT : Type) := {
  tr_success : bool;
  tr_data : option DataT;
  tr_error_code : option ToolErrorCode;
  tr_user_safe_message : option str;
  tr_latency_ms : Z;
  tr_trace_id : str
}.
Arguments tr_success {_}. Arguments tr_data {_}. Arguments tr_error_code {_}.
Arguments tr_user_safe_message {_}. Arguments tr_latency_ms {_}. Arguments tr_trace_id {_}.

#[export] Instance ToolResult_contract {DataT} : Contract (ToolResult DataT) := {|
  fields_ok r :=
    opt_len_in 0 500 (tr_user_safe_message r) && (0 <=? tr_latency_ms r) &&
    len_in 1 128 (tr_trace_id r);
  model_validator r := first_error [
    (tr_success r && bool_decide (is_Some (tr_error_code r)),
     u "successful tool results cannot contain an error code");
    (negb (tr_success r) && negb (bool_decide (is_Some (tr_error_code r))),
     u "failed tool results require an error code");
    (negb (tr_success r) && negb (truthy_opt (tr_user_safe_message r)),
     u "failed tool results require a user-safe message")]
|}.

(** ** Evidence and context packets *)

Inductive EvidenceSource := BUENPICK_INTERNAL_API | CONVERSATION | POLICY.
#[export] Instance EvidenceSource_eq_dec : EqDecision EvidenceSource.
Proof. solve_decision. Defined.
#[export] Program Instance EvidenceSource_enum : StrEnum EvidenceSource := {|
  enum_all := [BUENPICK_INTERNAL_API; CONVERSATION; POLICY];
  enum_value c :=
    match c with
    | BUENPICK_INTERNAL_API => u "buenpick_internal_api"
    | CONVERSATION => u "conversation"
    | POLICY => u "policy"
    end
|}.
Solve All Obligations with enum_laws.

Record EvidenceItem := {
  ev_label : str;
  ev_value : str;
  ev_source : EvidenceSource;
  ev_source_reference : option str
}.
#[export] Instance EvidenceItem_eq_dec : EqDecision EvidenceItem.
Proof. solve_decision. Defined.

#[export] Instance EvidenceItem_contract : Contract EvidenceItem := {|
  fields_ok e :=
    len_in 1 100 (ev_label e) && len_in 1 2000 (ev_value e) &&
    opt_len_in 0 255 (ev_source_reference e);
  model_validator _ := None
|}.

Inductive ActionOutcome := AO_succeeded | AO_failed | AO_skipped.
#[export] Instance ActionOutcome_eq_dec : EqDecision ActionOutcome.
Proof. solve_decision. Defined.

Definition outcome_text (o : ActionOutcome) : str :=
  match o with
  | AO_succeeded => u "succeeded"
  | AO_failed => u "failed"
  | AO_skipped => u "skipped"
  end.

Record PerformedAction := {
  pa_name : str;
  pa_outcome : ActionOutcome;
  pa_reference : option str
}.
#[export] Instance PerformedAction_eq_dec : EqDecision PerformedAction.
Proof. solve_decision. Defined.

#[export] Instance PerformedAction_contract : Contract PerformedAction := {|
  fields_ok a := len_in 1 100 (pa_name a) && opt_len_in 0 255 (pa_reference a);
  model_validator _ := None
|}.

Inductive ResponseMode := DETERMINISTIC | JINJA | JINJA_LLM | NON_COMMERCIAL_LLM.
#[export] Instance ResponseMode_eq_dec : EqDecision ResponseMode.
Proof. solve_decision. Defined.
#[export] Program Instance ResponseMode_enum : StrEnum ResponseMode := {|
  enum_all := [DETERMINISTIC; JINJA; JINJA_LLM; NON_COMMERCIAL_LLM];
  enum_value c :=
    match c with
    | DETERMINISTIC => u "deterministic"
    | JINJA => u "jinja"
    | JINJA_LLM => u "jinja_llm"
    | NON_COMMERCIAL_LLM => u "non_commercial_llm"
    end
|}.
Solve All Obligations with enum_laws.

Record ContextPacket := {
  cp_task : str;
  cp_query : str;
  cp_confirmed_data : list EvidenceItem;
  cp_unavailable_data : list str;
  cp_actions_performed : list PerformedAction;
  cp_writing_rules : list str;
  cp_response_mode : ResponseMode;
  cp_active_pick_id : option str;
  cp_trace_id : str
}.

#[export] Instance ContextPacket_contract : Contract ContextPacket := {|
  fields_ok p :=
    len_in 1 500 (cp_task p) && len_in 1 4096 (cp_query p) &&
    opt_len_in 0 255 (cp_active_pick_id p) && len_in 1 128 (cp_trace_id p);
  model_validator _ := None
|}.

(** ** Delivery *)

Inductive DeliveryKind := DK_TEXT | DK_IMAGE | DK_INTERACTIVE | DK_TEMPLATE.
#[export] Instance DeliveryKind_eq_dec : EqDecision DeliveryKind.
Proof. solve_decision. Defined.

Inductive CustomerServiceWindow := CSW_OPEN | CSW_CLOSED | CSW_UNKNOWN.
#[export] Instance CustomerServiceWindow_eq_dec : EqDecision CustomerServiceWindow.
Proof. solve_decision. Defined.

Record InteractiveOption := { io_id : str; io_title : str }.

#[export] Instance InteractiveOption_contract : Contract InteractiveOption := {|
  fields_ok o := len_in 1 256 (io_id o) && len_in 1 20 (io_title o);
  model_validator _ := None
|}.

(** [pydantic.HttpUrl]: a value is the text of a URL that pydantic parsed, with
    the scheme http or https, a host, and at most 2083 characters. *)
Definition http_url_ok (url : str) : bool :=
  let rest :=
    if startswith (u "https://") url then Some (removeprefix (u "https://") url)
    else if startswith (u "http://") url then Some (removeprefix (u "http://") url)
    else None in
  (py_len url <=? 2083) &&
  match rest with
  | Some (c :: _) => negb (bool_decide (c ∈ u "/?#"))
  | _ => false
  end.
Definition opt_http_url_ok (url : option str) : bool :=
  match url with Some url => http_url_ok url | None => true end.

Record DeliveryRequest := {
  dr_idempotency_key : str;
  dr_conversation_id : str;
  dr_kind : DeliveryKind;
  dr_text : option str;
  dr_media_url : option str;
  dr_interactive_options : list InteractiveOption;
  dr_template_name : option str;
  dr_template_language : option str;
  dr_template_parameters : list str;
  dr_customer_service_window : CustomerServiceWindow;
  dr_trace_id : str
}.

#[export] Instance DeliveryRequest_contract : Contract DeliveryRequest := {|
  fields_ok r :=
    len_in 1 255 (dr_idempotency_key r) && len_in 1 255 (dr_conversation_id r) &&
    opt_len_in 0 4096 (dr_text r) && opt_http_url_ok (dr_media_url r) &&
    (Z.of_nat (length (dr_interactive_options r)) <=? 3) &&
    opt_len_in 1 512 (dr_template_name r) && opt_len_in 2 35 (dr_template_language r) &&
    (Z.of_nat (length (dr_template_parameters r)) <=? 10) &&
    len_in 1 128 (dr_trace_id r);
  model_validator r :=
    let no_options := bool_decide (length (dr_interactive_options r) = O) in
    first_error [
    (bool_decide (dr_kind r = DK_TEXT) && negb (truthy_opt (dr_text r)),
     u "text delivery requires text");
    (bool_decide (dr_kind r = DK_IMAGE) && negb (bool_decide (is_Some (dr_media_url r))),
     u "image delivery requires media_url");
    (bool_decide (dr_kind r = DK_INTERACTIVE) &&
       (negb (truthy_opt (dr_text r)) || no_options),
     u "interactive delivery requires text and options");
    (bool_decide (dr_kind r = DK_TEMPLATE) &&
       (negb (bool_decide (is_Some (dr_template_name r))) ||
        negb (bool_decide (is_Some (dr_template_language r)))),
     u "template delivery requires name and language");
    (negb (bool_decide (dr_kind r = DK_INTERACTIVE)) && negb no_options,
     u "interactive options require interactive delivery");
    (negb (bool_decide (dr_kind r = DK_TEMPLATE)) &&
       (truthy_opt (dr_template_name r) || truthy_opt (dr_template_language r) ||
        negb (bool_decide (dr_template_parameters r = []))),
     u "template fields require template delivery")]
|}.

Inductive DeliveryStatus :=
| DS_UNKNOWN | DS_ACCEPTED | DS_SENT | DS_DELIVERED | DS_READ | DS_FAILED.
#[export] Instance DeliveryStatus_eq_dec : EqDecision DeliveryStatus.
Proof. solve_decision. Defined.
#[export] Program Instance DeliveryStatus_enum : StrEnum DeliveryStatus := {|
  enum_all := [DS_UNKNOWN; DS_ACCEPTED; DS_SENT; DS_DELIVERED; DS_READ; DS_FAILED];
  enum_value c :=
    match c with
    | DS_UNKNOWN => u "unknown"
    | DS_ACCEPTED => u "accepted"
    | DS_SENT => u "sent"
    | DS_DELIVERED => u "delivered"
    | DS_READ => u "read"
    | DS_FAILED => u "failed"
    end
|}.
Solve All Obligations with enum_laws.

Record DeliveryResult := {
  dres_status : DeliveryStatus;
  dres_provider_message_id : option str;
  dres_error_code : option str;
  dres_error_message : option str;
  dres_trace_id : str;
  dres_metadata : list (str * json)
}.

Definition error_status (s : DeliveryStatus) : bool :=
  bool_decide (s ∈ [DS_FAILED; DS_UNKNOWN]).
Definition provider_status (s : DeliveryStatus) : bool :=
  bool_decide (s ∈ [DS_ACCEPTED; DS_SENT; DS_DELIVERED; DS_READ]).

#[export] Instance DeliveryResult_contract : Contract DeliveryResult := {|
  fields_ok r :=
    opt_len_in 0 255 (dres_provider_message_id r) && opt_len_in 0 100 (dres_error_code r) &&
    opt_len_in 0 500 (dres_error_message r) && len_in 1 128 (dres_trace_id r);
  model_validator r := first_error [
    (error_status (dres_status r) && negb (truthy_opt (dres_error_code r)),
     u "failed or unknown delivery requires an error code");
    (negb (error_status (dres_status r)) && bool_decide (is_Some (dres_error_code r)),
     u "successful delivery status cannot contain an error code");
    (provider_status (dres_status r) && negb (truthy_opt (dres_provider_message_id r)),
     u "provider delivery status requires a message ID")]
|}.
