(* ===== verification/Grounding.v ===== *)
(** * Grounding ([src/piki/composition/grounding.py])

    The blocking validator of composed text and the factual fallback.  The
    regular expressions of the file are terms of [PyRegex.re]. *)
From S2P Require Import Prelude PyStr PyRegex Errors Contracts.

Local Open Scope Z_scope.

(** ** Data *)

Inductive GroundingFailure :=
| EMPTY | INTERNAL_LEAK | UNSUPPORTED_HIGH_RISK_FACT | UNAVAILABLE_CONTENT_CLAIM
| INTERNAL_REFERENCE | EVIDENCE_FREE_COMMERCIAL_CLAIM.
#[export] Instance GroundingFailure_eq_dec : EqDecision GroundingFailure.
Proof. solve_decision. Defined.
#[export] Program Instance GroundingFailure_enum : StrEnum GroundingFailure := {|
  enum_all := [EMPTY; INTERNAL_LEAK; UNSUPPORTED_HIGH_RISK_FACT; UNAVAILABLE_CONTENT_CLAIM;
               INTERNAL_REFERENCE; EVIDENCE_FREE_COMMERCIAL_CLAIM];
  enum_value c :=
    match c with
    | EMPTY => u "empty"
    | INTERNAL_LEAK => u "internal_leak"
    | UNSUPPORTED_HIGH_RISK_FACT => u "unsupported_high_risk_fact"
    | UNAVAILABLE_CONTENT_CLAIM => u "unavailable_content_claim"
    | INTERNAL_REFERENCE => u "internal_reference"
    | EVIDENCE_FREE_COMMERCIAL_CLAIM => u "evidence_free_commercial_claim"
    end
|}.
Solve All Obligations with enum_laws.

Record GroundingResult := {
  gr_safe : bool;
  gr_text : option str;
  gr_failures : list GroundingFailure
}.

#[export] Instance GroundingResult_contract : Contract GroundingResult := {|
  fields_ok _ := true;
  model_validator r := first_error [
    (xorb (gr_safe r) (bool_decide (is_Some (gr_text r)) && bool_decide (gr_failures r = [])),
     u "safe grounding results require text and no failures");
    (negb (gr_safe r) && bool_decide (gr_failures r = []),
     u "blocked grounding results require a failure")]
|}.

(** ** Patterns *)

Definition INTERNAL_PATTERNS : list str :=
  [u "DATOS CONFIRMADOS"; u "DATOS NO DISPONIBLES"; u "ACCIONES REALIZADAS";
   u "REGLAS DE REDACCIÓN"; u "SYSTEM PROMPT"; u "TRACE_ID"; u "BUENPICK_INTERNAL_API";
   u "<TOOLS>"; u "TOOL_RESULT"].

Section patterns.
Context `{UCD}.

(** http or https, the scheme separator, and everything up to white space, an
    angle bracket or a quote; case insensitive. *)
Definition url_re : re :=
  rseq [lit_i (u "http"); ROpt (RChar (icase 115)); lit (u "://");
        RPlus (RChar (fun c => negb (c_space c || one_of [60; 62; 34; 39] c)))].

(** An optional ARS, the dollar sign, a digit, lazily more digits or dots, an
    optional decimal part, before white space, the end or punctuation. *)
Definition price_re : re :=
  rseq [ROpt (rseq [lit_i (u "ARS"); RStar (RChar c_space)]);
        lit (u "$"); RStar (RChar c_space); RChar c_digit;
        RRep false 0 None (RChar (fun c => c_digit c || (c =? 46)));
        ROpt (RSeq (lit (u ",")) (RRep true 1 (Some 2%nat) (RChar c_digit)));
        RLook (ralt [RChar c_space; REnd; RChar (one_of (u ").,;:!?"))])].

(** A time of day between word boundaries. *)
Definition time_re : re :=
  rseq [RWordB;
        RAlt (RSeq (RChar (one_of (u "01"))) (RChar c_digit))
             (RSeq (lit (u "2")) (RChar (fun c => (48 <=? c) && (c <=? 51))));
        lit (u ":"); RChar (fun c => (48 <=? c) && (c <=? 53)); RChar c_digit; RWordB].

(** Digits with groups separated by a dot or a comma, between word
    boundaries. *)
Definition number_re : re :=
  rseq [RWordB; RPlus (RChar c_digit);
        RStar (RSeq (RChar (one_of (u ".,"))) (RPlus (RChar c_digit))); RWordB].

Definition HIGH_RISK_PATTERNS : list re := [url_re; price_re; time_re; number_re].

Definition spaces_re : re := RPlus (RChar c_space).
Definition word_re : re := RPlus (RChar cp_word).

(** A verb that states what a bag holds; case insensitive. *)
Definition CONTENT_CLAIM : re :=
  rseq [RWordB;
        ralt [lit_i (u "incluye"); lit_i (u "contiene"); lit_i (u "trae");
              rseq [lit_i (u "viene"); spaces_re; lit_i (u "con")];
              rseq [lit_i (u "est"); RChar (one_of_i (u "áa")); spaces_re;
                    lit_i (u "compuest"); RChar (one_of_i (u "oa"))]];
        RWordB].

(** encontre, with or without the accent. *)
Definition encontre_re : re := RSeq (lit_i (u "encontr")) (RChar (one_of_i (u "eé"))).

(** At most [n] words, each after white space. *)
Definition words_re (n : nat) : re := RRep true 0 (Some n) (RSeq spaces_re word_re).

Definition EVIDENCE_FREE_AVAILABILITY : re :=
  rseq [RWordB;
        RAlt
          (rseq [lit_i (u "no"); spaces_re;
                 ralt [lit_i (u "tengo"); lit_i (u "hay"); encontre_re];
                 words_re 3; spaces_re;
                 ralt [lit_i (u "rescate"); lit_i (u "pick");
                       rseq [lit_i (u "opci"); RChar (one_of_i (u "oó")); lit_i (u "n")]]])
          (rseq [RAlt (lit_i (u "hay")) encontre_re; words_re 5; spaces_re;
                 RAlt (RSeq (lit_i (u "disponible")) (ROpt (RChar (icase 115))))
                      (rseq [lit_i (u "para"); spaces_re; lit_i (u "rescatar")])]);
        RWordB].
End patterns.

(** ** Operations *)

Section grounding.
Context `{UCD}.

Definition normalized (value : str) : str := join (u " ") (split (casefold value)).

(** [any(pattern in upper_value for pattern in _INTERNAL_PATTERNS)]. *)
Definition has_internal_pattern (upper_value : str) : bool :=
  existsb (fun pattern => contains pattern upper_value) INTERNAL_PATTERNS.

Definition safe_fallback_value (value : str) : str :=
  let compact := join (u " ") (split value) in
  if has_internal_pattern (upper compact)
  then u "[dato omitido por seguridad]"
  else compact.

Definition is_api (item : EvidenceItem) : bool :=
  bool_decide (ev_source item = BUENPICK_INTERNAL_API).

Definition evidence_corpus (packet : ContextPacket) : str :=
  normalized (join [10] (map ev_value (cp_confirmed_data packet))).

Definition has_api_evidence (packet : ContextPacket) : bool :=
  existsb is_api (cp_confirmed_data packet).

(** The token of a match, as compared with the evidence. *)
Definition match_token (m : str) : str := normalized (rstrip_chars (u ".,;:!?)") m).

Definition unsupported_token (corpus token : str) : bool :=
  truthy token && negb (contains token corpus).

(** [failures.add(f)]. *)
Definition add_failure (f : GroundingFailure) (failures : list GroundingFailure) :=
  if bool_decide (f ∈ failures) then failures else f :: failures.

Definition add_if (b : bool) (f : GroundingFailure) (failures : list GroundingFailure) :=
  if b then add_failure f failures else failures.

(** The loop over the high-risk patterns and their matches. *)
Definition high_risk_loop (candidate corpus : str) (failures : list GroundingFailure) :=
  foldl (fun failures pattern =>
    foldl (fun failures m =>
      add_if (unsupported_token corpus (match_token m)) UNSUPPORTED_HIGH_RISK_FACT failures)
      failures (finditer pattern candidate))
    failures HIGH_RISK_PATTERNS.

Definition leaks_reference (candidate corpus : str) (item : EvidenceItem) : bool :=
  match ev_source_reference item with
  | Some reference =>
      truthy reference && contains (normalized reference) (normalized candidate) &&
      negb (contains (normalized reference) corpus)
  | None => false
  end.

(** The loop over the confirmed items' references. *)
Definition reference_loop (candidate corpus : str) (items : list EvidenceItem)
    (failures : list GroundingFailure) :=
  foldl (fun failures item =>
    add_if (leaks_reference candidate corpus item) INTERNAL_REFERENCE failures)
    failures items.

Definition claims_unavailable_content (candidate : str) (packet : ContextPacket) : bool :=
  let unavailable := normalized (join [10] (cp_unavailable_data packet)) in
  contains (u "contenido") unavailable && search CONTENT_CLAIM candidate.

(** [GroundingValidator.validate]: the failures found, then the result. *)
Definition collect_failures (candidate : str) (packet : ContextPacket)
    : list GroundingFailure :=
  let failures := add_if (negb (truthy candidate)) EMPTY [] in
  let failures := add_if (has_internal_pattern (upper candidate)) INTERNAL_LEAK failures in
  let corpus := evidence_corpus packet in
  let failures :=
    add_if (negb (has_api_evidence packet) && search EVIDENCE_FREE_AVAILABILITY candidate)
      EVIDENCE_FREE_COMMERCIAL_CLAIM failures in
  let failures := high_risk_loop candidate corpus failures in
  let failures :=
    add_if (claims_unavailable_content candidate packet) UNAVAILABLE_CONTENT_CLAIM failures in
  reference_loop candidate corpus (cp_confirmed_data packet) failures.

Definition validate (text : str) (packet : ContextPacket) : res GroundingResult :=
  let candidate := strip text in
  let failures := collect_failures candidate packet in
  if bool_decide (failures = [])
  then construct {| gr_safe := true; gr_text := Some candidate; gr_failures := [] |}
  else construct {| gr_safe := false; gr_text := None;
                    gr_failures := sorted_by enum_value failures |}.

Definition fallback_line (item : EvidenceItem) : str :=
  u "- " ++ safe_fallback_value (ev_label item) ++ u ": " ++
  safe_fallback_value (ev_value item).

Definition factual_fallback (packet : ContextPacket) : str :=
  let api_evidence := filter (fun item => is_api item = true) (cp_confirmed_data packet) in
  if bool_decide (api_evidence = []) then
    if bool_decide (cp_response_mode packet = NON_COMMERCIAL_LLM)
    then u "Soy Piki, el asistente de BuenPick. Te ayudo a descubrir alimentos para rescatar y a consultar información confirmada por BuenPick."
    else u "No pude confirmar la información necesaria en este momento. Probemos de nuevo en un rato."
  else
    let lines := u "Esto es lo que pude confirmar:" :: map fallback_line (take 8 api_evidence) in
    let lines := if bool_decide (cp_unavailable_data packet = []) then lines
                 else lines ++ [u "Hay datos que todavía no pude confirmar."] in
    prefix_to 4096 (join [10] lines).
End grounding.

(** ** The failures a text deserves *)

Section grounding_spec.
Context `{UCD}.

(** When each failure is due, stated without the validator's loops. *)
Definition failure_due (candidate : str) (packet : ContextPacket) (f : GroundingFailure) : Prop :=
  match f with
  | EMPTY => candidate = []
  | INTERNAL_LEAK =>
      exists pattern, pattern ∈ INTERNAL_PATTERNS /\ contains pattern (upper candidate) = true
  | EVIDENCE_FREE_COMMERCIAL_CLAIM =>
      (forall item, item ∈ cp_confirmed_data packet ->
         ev_source item <> BUENPICK_INTERNAL_API) /\
      search EVIDENCE_FREE_AVAILABILITY candidate = true
  | UNSUPPORTED_HIGH_RISK_FACT =>
      exists pattern m, pattern ∈ HIGH_RISK_PATTERNS /\ m ∈ finditer pattern candidate /\
        match_token m <> [] /\ contains (match_token m) (evidence_corpus packet) = false
  | UNAVAILABLE_CONTENT_CLAIM =>
      contains (u "contenido") (normalized (join [10] (cp_unavailable_data packet))) = true /\
      search CONTENT_CLAIM candidate = true
  | INTERNAL_REFERENCE =>
      exists item reference, item ∈ cp_confirmed_data packet /\
        ev_source_reference item = Some reference /\ reference <> [] /\
        contains (normalized reference) (normalized candidate) = true /\
        contains (normalized reference) (evidence_corpus packet) = false
  end.

Lemma elem_of_add_if b g f l : f ∈ add_if b g l <-> f ∈ l \/ (b = true /\ f = g).
Proof.
  unfold add_if, add_failure. destruct b; [case_bool_decide|]; set_solver.
Qed.

Lemma NoDup_add_if b g l : NoDup l -> NoDup (add_if b g l).
Proof.
  unfold add_if, add_failure. destruct b; [case_bool_decide|]; try done.
  by constructor.
Qed.

Lemma elem_of_foldl_add {A} (p : A -> bool) g f xs l :
  f ∈ foldl (fun l x => add_if (p x) g l) l xs <->
  f ∈ l \/ (f = g /\ exists x, x ∈ xs /\ p x = true).
Proof.
  revert l. induction xs as [|x xs IH]; intros l; simpl; [set_solver|].
  rewrite IH, elem_of_add_if. set_solver.
Qed.

Lemma NoDup_foldl_add {A} (p : A -> bool) g xs l :
  NoDup l -> NoDup (foldl (fun l x => add_if (p x) g l) l xs).
Proof.
  revert l. induction xs as [|x xs IH]; intros l Hl; simpl; [done|].
  by apply IH, NoDup_add_if.
Qed.

Lemma has_internal_pattern_true s :
  has_internal_pattern s = true <->
  exists pattern, pattern ∈ INTERNAL_PATTERNS /\ contains pattern s = true.
Proof.
  unfold has_internal_pattern. rewrite existsb_exists.
  by setoid_rewrite list_elem_of_In.
Qed.

Lemma has_api_evidence_false packet :
  has_api_evidence packet = false <->
  forall item, item ∈ cp_confirmed_data packet -> ev_source item <> BUENPICK_INTERNAL_API.
Proof.
  unfold has_api_evidence. rewrite <- not_true_iff_false, existsb_exists.
  setoid_rewrite <- list_elem_of_In. unfold is_api.
  setoid_rewrite bool_decide_eq_true. naive_solver.
Qed.

Lemma elem_of_high_risk_loop f candidate corpus l :
  f ∈ high_risk_loop candidate corpus l <->
  f ∈ l \/ (f = UNSUPPORTED_HIGH_RISK_FACT /\
    exists pattern m, pattern ∈ HIGH_RISK_PATTERNS /\ m ∈ finditer pattern candidate /\
      unsupported_token corpus (match_token m) = true).
Proof.
  unfold high_risk_loop. generalize HIGH_RISK_PATTERNS as ps. intros ps.
  revert l. induction ps as [|p ps IH]; intros l; simpl; [set_solver|].
  rewrite IH, elem_of_foldl_add. set_solver.
Qed.

Lemma NoDup_high_risk_loop candidate corpus l :
  NoDup l -> NoDup (high_risk_loop candidate corpus l).
Proof.
  unfold high_risk_loop. generalize HIGH_RISK_PATTERNS as ps. intros ps.
  revert l. induction ps as [|p ps IH]; intros l Hl; simpl; [done|].
  by apply IH, NoDup_foldl_add.
Qed.

Lemma leaks_reference_true candidate corpus item :
  leaks_reference candidate corpus item = true <->
  exists reference, ev_source_reference item = Some reference /\ reference <> [] /\
    contains (normalized reference) (normalized candidate) = true /\
    contains (normalized reference) corpus = false.
Proof.
  unfold leaks_reference. destruct (ev_source_reference item) as [r|].
  - rewrite !andb_true_iff, negb_true_iff, truthy_true. naive_solver.
  - naive_solver.
Qed.

Lemma unsupported_token_true corpus t :
  unsupported_token corpus t = true <-> t <> [] /\ contains t corpus = false.
Proof. unfold unsupported_token. by rewrite andb_true_iff, negb_true_iff, truthy_true. Qed.

Lemma collect_failures_due candidate packet f :
  f ∈ collect_failures candidate packet <-> failure_due candidate packet f.
Proof.
  unfold collect_failures, reference_loop, claims_unavailable_content.
  rewrite elem_of_foldl_add, elem_of_add_if, elem_of_high_risk_loop, !elem_of_add_if.
  rewrite !andb_true_iff, !negb_true_iff, has_internal_pattern_true, has_api_evidence_false,
    truthy_false, elem_of_nil.
  setoid_rewrite leaks_reference_true. setoid_rewrite unsupported_token_true.
  assert (forall items, (exists x, x ∈ items /\ exists reference,
      ev_source_reference x = Some reference /\ reference <> [] /\
      contains (normalized reference) (normalized candidate) = true /\
      contains (normalized reference) (evidence_corpus packet) = false) <->
    (exists item reference, item ∈ items /\
      ev_source_reference item = Some reference /\ reference <> [] /\
      contains (normalized reference) (normalized candidate) = true /\
      contains (normalized reference) (evidence_corpus packet) = false)) as ->
    by (intros; split; [intros (x & ? & r & ?); by exists x, r
                       |intros (x & r & ? & ?); eauto]).
  destruct f; simpl; intuition congruence.
Qed.

Lemma collect_failures_nodup candidate packet : NoDup (collect_failures candidate packet).
Proof.
  unfold collect_failures, reference_loop.
  apply NoDup_foldl_add, NoDup_add_if, NoDup_high_risk_loop. do 3 apply NoDup_add_if.
  constructor.
Qed.

(** The validator's result, whatever the failures are. *)
Lemma validate_eq text packet :
  validate text packet =
    Ok (if bool_decide (collect_failures (strip text) packet = [])
        then {| gr_safe := true; gr_text := Some (strip text); gr_failures := [] |}
        else {| gr_safe := false; gr_text := None;
                gr_failures := sorted_by enum_value (collect_failures (strip text) packet) |}).
Proof.
  unfold validate. case_bool_decide as Hf; apply construct_good; [done|].
  set (fs := sorted_by _ _).
  assert (fs <> []) as Hfs.
  { intros Heq. apply Hf, Permutation_nil. rewrite <- Heq. subst fs. by rewrite sorted_by_perm. }
  unfold contract_ok. simpl. by rewrite bool_decide_eq_false_2.
Qed.

(** A validated text: what the caller may rely on. *)
Lemma validate_safe text packet r :
  validate text packet = Ok r -> gr_safe r = true ->
  gr_text r = Some (strip text) /\ gr_failures r = [] /\
  forall f, ~ failure_due (strip text) packet f.
Proof.
  rewrite validate_eq. case_bool_decide as Hf; intros [= <-]; [|done].
  intros _. split_and!; try done. intros f. rewrite <- collect_failures_due, Hf. set_solver.
Qed.
End grounding_spec.

(** ** The factual fallback *)

Definition clean `{UCD} (s : str) : Prop := has_internal_pattern (upper s) = false.

Section fallback.
Context `{UL : UCDLaws}.

Lemma has_internal_pattern_false s :
  has_internal_pattern s = false <->
  forall pattern, pattern ∈ INTERNAL_PATTERNS -> contains pattern s = false.
Proof.
  rewrite <- not_true_iff_false, has_internal_pattern_true.
  setoid_rewrite <- not_true_iff_false. naive_solver.
Qed.

(** A character no marker contains separates clean texts. *)
Lemma clean_sep c s t :
  0 <= c < 128 -> (forall pattern, pattern ∈ INTERNAL_PATTERNS -> ascii_upper c ∉ pattern) ->
  clean s -> clean t -> clean (s ++ c :: t).
Proof.
  unfold clean. intros Hc Hsep Hs Ht.
  rewrite upper_app, upper_ascii_cons by done.
  rewrite has_internal_pattern_false in *. intros p Hp.
  specialize (Hs p Hp). specialize (Ht p Hp). specialize (Hsep p Hp). unfold contains in *.
  apply not_true_iff_false. intros Hin.
  apply infix_avoid in Hin as [Hl|Hr]; congruence.
Qed.

Lemma clean_space s : clean s -> clean (32 :: s).
Proof.
  unfold clean. rewrite upper_ascii_cons by lia. rewrite !has_internal_pattern_false.
  intros Hs p Hp. pose proof (Hs p Hp) as Hl.
  unfold contains in *. cbn [is_infix]. rewrite Hl, orb_false_r.
  change (ascii_upper 32) with 32.
  revert Hp. clear. unfold INTERNAL_PATTERNS.
  rewrite !elem_of_cons, elem_of_nil. by intros Hp; destruct_or! Hp; subst.
Qed.

Lemma clean_prefix n s : clean s -> clean (prefix_to n s).
Proof.
  unfold clean. rewrite !has_internal_pattern_false. intros Hs p Hp.
  specialize (Hs p Hp). apply not_true_iff_false. intros Hin.
  rewrite (prefix_to_app n s), upper_app in Hs. unfold contains in *.
  by rewrite infix_app_l in Hs.
Qed.

Lemma clean_literal s : latin1_str s = true -> @clean latin1_ucd s -> clean s.
Proof. unfold clean. intros Hl. intros Hc. by rewrite (@upper_latin1_str _ UL). Qed.

Lemma not_in_markers c :
  forallb (fun p => negb (bool_decide (c ∈ p))) INTERNAL_PATTERNS = true ->
  forall pattern, pattern ∈ INTERNAL_PATTERNS -> c ∉ pattern.
Proof.
  rewrite forallb_forall. intros Hall p Hp%list_elem_of_In%Hall. by bools.
Qed.

Lemma clean_join lines : Forall clean lines -> clean (join [10] lines).
Proof.
  induction lines as [|l lines IH]; intros Hall; [by vm_compute|].
  apply Forall_cons in Hall as [Hl Hall]. destruct lines as [|l' lines]; [done|].
  apply clean_sep; [lia| |done|by apply IH].
  by apply not_in_markers; vm_compute.
Qed.

Lemma safe_fallback_value_clean v : clean (safe_fallback_value v).
Proof.
  unfold safe_fallback_value. destruct (has_internal_pattern _) eqn:Hp; [|done].
  by apply clean_literal; vm_compute.
Qed.

Lemma fallback_line_clean item : clean (fallback_line item).
Proof.
  unfold fallback_line.
  change (clean ([] ++ 45 :: ((32 :: safe_fallback_value (ev_label item)) ++
                  58 :: (32 :: safe_fallback_value (ev_value item))))).
  apply clean_sep; [lia|by apply not_in_markers; vm_compute|by vm_compute|].
  apply clean_sep; [lia|by apply not_in_markers; vm_compute| |];
    apply clean_space, safe_fallback_value_clean.
Qed.

Lemma factual_fallback_clean packet : clean (factual_fallback packet).
Proof.
  unfold factual_fallback. case_bool_decide.
  - case_bool_decide; by apply clean_literal; vm_compute.
  - apply clean_prefix, clean_join.
    assert (Forall clean (u "Esto es lo que pude confirmar:" ::
      map fallback_line (take 8 (filter (fun item => is_api item = true)
        (cp_confirmed_data packet))))) as Hlines.
    { constructor; [by apply clean_literal; vm_compute|].
      apply Forall_map, Forall_true. apply fallback_line_clean. }
    case_bool_decide; [done|]. apply Forall_app. split; [done|].
    constructor; [by apply clean_literal; vm_compute|constructor].
Qed.
End fallback.

Lemma factual_fallback_length `{UCD} packet : 1 <= py_len (factual_fallback packet) <= 4096.
Proof.
  unfold factual_fallback. case_bool_decide; [case_bool_decide; by vm_compute|].
  assert (forall more, 30 <= py_len (join [10] (u "Esto es lo que pude confirmar:" :: more)))
    as Hj by (intros more; exact (join_head_len [10] (u "Esto es lo que pude confirmar:") more)).
  rewrite py_len_prefix_eq by lia.
  case_bool_decide; rewrite <- ?app_comm_cons;
    match goal with |- context [py_len (join _ (_ :: ?m))] => specialize (Hj m) end; lia.
Qed.

(** ** Properties *)

(** C30. The validator always answers, and it is sound and complete: the text
    is blocked with exactly the failures it deserves, each once and in the order
    of their values, and it is safe, stripped and otherwise unchanged, exactly
    when it deserves none. *)
Theorem validate_exact `{UCD} text packet :
  exists r, validate text packet = Ok r /\ NoDup (gr_failures r) /\
    (forall f, f ∈ gr_failures r <-> failure_due (strip text) packet f) /\
    Sorted.StronglySorted (fun a b => str_leb (enum_value a) (enum_value b) = true)
      (gr_failures r) /\
    (gr_safe r = true <-> forall f, ~ failure_due (strip text) packet f) /\
    gr_text r = (if gr_safe r then Some (strip text) else None).
Proof.
  rewrite validate_eq. eexists. split; [reflexivity|].
  setoid_rewrite <- collect_failures_due.
  pose proof (collect_failures_nodup (strip text) packet) as Hnd.
  case_bool_decide as Hf; cbn [gr_failures gr_safe gr_text].
  - rewrite Hf in *. split_and!; try done; [constructor|set_solver].
  - split_and!; [by rewrite sorted_by_perm|intros f; by rewrite sorted_by_perm
      |apply sorted_by_sorted| |done].
    split; [done|]. intros Hn. destruct Hf. apply elem_of_nil_inv. exact Hn.
Qed.

(** C31. The factual fallback never leaks an internal marker, has between 1 and
    4096 characters, and says nothing that evidence of another source than the
    internal API could change. *)
Theorem factual_fallback_safe `{UCDLaws} packet items :
  filter (fun item => is_api item = true) items =
    filter (fun item => is_api item = true) (cp_confirmed_data packet) ->
  clean (factual_fallback packet) /\ 1 <= py_len (factual_fallback packet) <= 4096 /\
  factual_fallback {| cp_task := cp_task packet; cp_query := cp_query packet;
      cp_confirmed_data := items; cp_unavailable_data := cp_unavailable_data packet;
      cp_actions_performed := cp_actions_performed packet;
      cp_writing_rules := cp_writing_rules packet;
      cp_response_mode := cp_response_mode packet;
      cp_active_pick_id := cp_active_pick_id packet; cp_trace_id := cp_trace_id packet |}
    = factual_fallback packet.
Proof.
  intros Hitems. split; [apply factual_fallback_clean|].
  split; [apply factual_fallback_length|].
  unfold factual_fallback. cbn. by rewrite Hitems.
Qed.

Definition sample_packet (mode : ResponseMode) (values : list str) : ContextPacket := {|
  cp_task := u "responder"; cp_query := u "precio?";
  cp_confirmed_data := (fun v => {| ev_label := u "precio"; ev_value := v;
    ev_source := BUENPICK_INTERNAL_API; ev_source_reference := Some (u "pick-1") |}) <$> values;
  cp_unavailable_data := []; cp_actions_performed := []; cp_writing_rules := [];
  cp_response_mode := mode; cp_active_pick_id := None; cp_trace_id := u "t" |}.

Lemma factual_fallback_safe_witness :
  let packet := sample_packet JINJA [u "$2.500,00"] in
  let noise := {| ev_label := u "x"; ev_value := u "y"; ev_source := POLICY;
                  ev_source_reference := None |} in
  @clean latin1_ucd (@factual_fallback latin1_ucd packet) /\
  1 <= py_len (@factual_fallback latin1_ucd packet) <= 4096 /\
  @factual_fallback latin1_ucd
    {| cp_task := u "responder"; cp_query := u "precio?";
       cp_confirmed_data := noise :: cp_confirmed_data packet; cp_unavailable_data := [];
       cp_actions_performed := []; cp_writing_rules := []; cp_response_mode := JINJA;
       cp_active_pick_id := None; cp_trace_id := u "t" |}
    = @factual_fallback latin1_ucd packet.
Proof.
  intros packet noise.
  apply (@factual_fallback_safe latin1_ucd latin1_laws packet
           (noise :: cp_confirmed_data packet)).
  reflexivity.
Defined.

(** The high-risk check compares by substring, so an invented quantity
    passes when its digits happen to lie inside a confirmed price: with the
    price $2.500,00 as only evidence, 500 units are accepted while 700 are
    not. *)
Theorem substring_evidence_accepted :
  let packet := sample_packet JINJA_LLM [u "$2.500,00"] in
  (gr_safe <$> match @validate latin1_ucd (u "Quedan 500 unidades") packet with
               | Ok r => Some r | Raise _ => None end) = Some true /\
  (gr_safe <$> match @validate latin1_ucd (u "Quedan 700 unidades") packet with
               | Ok r => Some r | Raise _ => None end) = Some false.
Proof. split; vm_compute; reflexivity. Qed.
