(* ===== verification/Pydantic.v ===== *)
(** * Validation of decoded JSON

    What the payload models of the integrations use of pydantic: fields of type
    [str], [T | None] and [tuple[T, ...]], literals and nested models, each a
    partial function from decoded JSON, [None] standing for the
    [ValidationError].  The lax integer coercion of the library is the parameter
    [LaxInt]. *)
From S2P Require Import Prelude PyStr Errors Contracts.

Local Open Scope Z_scope.

(** The lax conversion of a decoded JSON value to [int]. *)
Class LaxInt := {
  lax_int : json -> option Z;
  lax_int_int n : lax_int (JInt n) = Some n
}.
Definition lax_int_default : LaxInt := {|
  lax_int j := match j with JInt n => Some n | JBool b => Some (Z.b2z b) | _ => None end;
  lax_int_int n := eq_refl
|}.

Section fields.
Definition as_str (j : json) : option str := match j with JStr s => Some s | _ => None end.

(** A required field, a field of type [T | None] with default [None], a tuple
    field with default [()], and a required tuple field. *)
Definition field {A} (parse : json -> option A) (key : str) (o : list (str * json)) : option A :=
  obj_get key o ≫= parse.
Definition opt_field {A} (parse : json -> option A) (key : str) (o : list (str * json))
    : option (option A) :=
  match obj_get key o with
  | None | Some JNull => Some None
  | Some j => Some <$> parse j
  end.
Definition as_tuple {A} (parse : json -> option A) (j : json) : option (list A) :=
  match j with JArr l => mapM parse l | _ => None end.
Definition tuple_field {A} (parse : json -> option A) (key : str) (o : list (str * json))
    : option (list A) :=
  match obj_get key o with None => Some [] | Some j => as_tuple parse j end.
Definition as_obj {A} (parse : list (str * json) -> option A) (j : json) : option A :=
  match j with JObj o => parse o | _ => None end.
Definition literal (allowed : list str) (j : json) : option str :=
  s ← as_str j; if bool_decide (s ∈ allowed) then Some s else None.

Lemma tuple_field_elem {A} (parse : json -> option A) key o l x :
  tuple_field parse key o = Some l -> x ∈ l -> exists j, parse j = Some x.
Proof.
  unfold tuple_field, as_tuple. destruct (obj_get key o) as [[]|]; try done; [|set_solver].
  intros Hl%mapM_Some Hx. destruct (Forall2_elem_r _ _ _ _ Hl Hx) as (j & _ & Hj). eauto.
Qed.

Lemma field_tuple_elem {A} (parse : json -> option A) key o l x :
  field (as_tuple parse) key o = Some l -> x ∈ l -> exists j, parse j = Some x.
Proof.
  unfold field. intros (j & _ & Hj)%bind_Some Hx. unfold as_tuple in Hj.
  destruct j; try done. apply mapM_Some in Hj.
  destruct (Forall2_elem_r _ _ _ _ Hj Hx) as (j & _ & Hj'). eauto.
Qed.
End fields.
