(* ===== verification/Sql.v ===== *)
(** * The database engine as an interface

    PostgreSQL is not code of the repository: the statements the repositories
    execute go through the class [SqlEngine], whose laws state the documented
    meaning of INSERT with and without ON CONFLICT DO NOTHING, UPDATE ... WHERE
    and SELECT ... WHERE ... ORDER BY on a table with a primary key.  The
    contents of a table are a finite map from primary keys to rows, so nothing
    depends on a physical order.  [map_engine] is an engine with these laws. *)
From S2P Require Import Prelude.
From Stdlib Require Import Sorting.Sorted.

Local Open Scope Z_scope.

(** Outcome of an INSERT: a new row, nothing because of the arbiter constraint
    of ON CONFLICT DO NOTHING, or the violation of another constraint. *)
Inductive insert_outcome := Inserted | Skipped | Violation.
#[export] Instance insert_outcome_eq_dec : EqDecision insert_outcome.
Proof. solve_decision. Defined.

Section specification.
Context {R : Type}.

(** Some stored row conflicts with the proposed row. *)
Definition conflicts (c : R -> R -> bool) (r : R) (m : gmap Z R) : bool :=
  existsb (fun p => c r p.2) (map_to_list m).

(** INSERT of [r] under key [k]: [arbiter] is the ON CONFLICT target,
    [unique] the other unique constraints, [fk] whether the foreign keys of
    [r] exist. *)
Definition insert_spec (arbiter unique : R -> R -> bool) (fk : bool) (k : Z) (r : R)
    (m : gmap Z R) : insert_outcome * gmap Z R :=
  if conflicts arbiter r m then (Skipped, m)
  else if bool_decide (is_Some (m !! k)) || conflicts unique r m || negb fk
  then (Violation, m)
  else (Inserted, <[k := r]> m).

Definition update_spec (p : Z -> R -> bool) (f : R -> R) (m : gmap Z R) : gmap Z R :=
  map_imap (fun k r => Some (if p k r then f r else r)) m.

Definition select_spec (p : Z -> R -> bool) (m : gmap Z R) : list (Z * R) :=
  filter (fun kr => p kr.1 kr.2 = true) (map_to_list m).

(** A total order relation on rows, as ORDER BY gives. *)
Definition row_order (le : Z * R -> Z * R -> bool) : Prop :=
  (forall x y, le x y = true \/ le y x = true) /\
  (forall x y z, le x y = true -> le y z = true -> le x z = true).

(** *** Lemmas *)

Lemma conflicts_true c r m :
  conflicts c r m = true <-> exists k s, m !! k = Some s /\ c r s = true.
Proof.
  unfold conflicts. rewrite existsb_exists. setoid_rewrite <- list_elem_of_In. split.
  - intros ([k s] & Hin%elem_of_map_to_list & Hc). eauto.
  - intros (k & s & Hk & Hc). exists (k, s). by rewrite elem_of_map_to_list.
Qed.

Lemma conflicts_false c r m :
  conflicts c r m = false <-> forall k s, m !! k = Some s -> c r s = false.
Proof.
  rewrite <- not_true_iff_false, conflicts_true. split.
  - intros Hn k s Hk. apply not_true_iff_false. intros Hc. apply Hn. eauto.
  - intros Hall (k & s & Hk & Hc). by rewrite (Hall k s Hk) in Hc.
Qed.

Lemma update_spec_lookup p f m k :
  update_spec p f m !! k = (fun r => if p k r then f r else r) <$> m !! k.
Proof.
  unfold update_spec. rewrite map_lookup_imap. by destruct (m !! k).
Qed.

(** An UPDATE selected by the primary key and a condition on the row. *)
Lemma update_spec_key (p : Z -> R -> bool) f m k r :
  m !! k = Some r -> p k r = true ->
  (forall k' r', m !! k' = Some r' -> p k' r' = true -> k' = k) ->
  update_spec p f m = <[k := f r]> m.
Proof.
  intros Hk Hp Hu. apply map_eq. intros k'. rewrite update_spec_lookup.
  destruct (decide (k' = k)) as [->|Hne]; [by rewrite Hk, lookup_insert_eq; simpl; rewrite Hp|].
  rewrite lookup_insert_ne by done. destruct (m !! k') as [r'|] eqn:Hk'; simpl; [|done].
  destruct (p k' r') eqn:Hp'; [|done]. by rewrite (Hu _ _ Hk' Hp') in Hne.
Qed.

Lemma elem_of_select_spec p m k r :
  (k, r) ∈ select_spec p m <-> m !! k = Some r /\ p k r = true.
Proof.
  unfold select_spec. rewrite list_elem_of_filter, elem_of_map_to_list. naive_solver.
Qed.

Lemma NoDup_select_spec p m : NoDup (select_spec p m).*1.
Proof.
  unfold select_spec. eapply sublist_NoDup; [apply (NoDup_fst_map_to_list m)|].
  apply fmap_sublist, sublist_filter.
Qed.
End specification.

(** The interface. *)
Class SqlEngine := {
  table : Type -> Type;
  rows {R} : table R -> gmap Z R;
  sql_insert {R} :
    (R -> R -> bool) -> (R -> R -> bool) -> bool -> Z -> R -> table R ->
    insert_outcome * table R;
  sql_update {R} : (Z -> R -> bool) -> (R -> R) -> table R -> table R;
  sql_select {R} :
    (Z -> R -> bool) -> (Z * R -> Z * R -> bool) -> table R -> list (Z * R);
  sql_insert_law {R} a un fk k r (t : table R) :
    ((sql_insert a un fk k r t).1, rows (sql_insert a un fk k r t).2)
      = insert_spec a un fk k r (rows t);
  sql_update_law {R} p f (t : table R) : rows (sql_update p f t) = update_spec p f (rows t);
  sql_select_law {R} p le (t : table R) : sql_select p le t ≡ₚ select_spec p (rows t);
  sql_select_sorted {R} p le (t : table R) :
    row_order le -> StronglySorted (fun x y => le x y = true) (sql_select p le t)
}.

(** No constraint. *)
Definition no_constraint {R} (_ _ : R) : bool := false.

(** No ORDER BY clause: any order is allowed. *)
Definition unordered {R} (_ _ : Z * R) : bool := true.

Section engine.
Context `{SqlEngine} {R : Type}.
Implicit Types (t : table R).

(** The three ways an INSERT can end. *)
Lemma insert_cases a un fk k r t :
  let '(o, t') := sql_insert a un fk k r t in
  (o = Skipped /\ rows t' = rows t /\ conflicts a r (rows t) = true) \/
  (o = Violation /\ rows t' = rows t /\ conflicts a r (rows t) = false) \/
  (o = Inserted /\ rows t' = <[k := r]> (rows t) /\ rows t !! k = None /\
   conflicts a r (rows t) = false /\ conflicts un r (rows t) = false /\ fk = true).
Proof.
  pose proof (sql_insert_law a un fk k r t) as Hl.
  destruct (sql_insert a un fk k r t) as [o t']. simpl in Hl. unfold insert_spec in Hl.
  destruct (conflicts a r (rows t)) eqn:Ha; [left; naive_solver|].
  destruct (_ || _ || _) eqn:Hb; [right; left; naive_solver|].
  right; right. bools. simplify_eq/=. split_and!; try done.
  by apply eq_None_not_Some.
Qed.

Lemma insert_skipped a un fk k r t :
  conflicts a r (rows t) = true ->
  (sql_insert a un fk k r t).1 = Skipped /\ rows (sql_insert a un fk k r t).2 = rows t.
Proof.
  intros Hc. pose proof (insert_cases a un fk k r t) as Hi.
  destruct (sql_insert a un fk k r t) as [o t']. simpl.
  destruct Hi as [(-> & -> & _)|[(_ & _ & Hf)|(_ & _ & _ & Hf & _)]]; [done|congruence..].
Qed.

Lemma insert_done a un k r t :
  rows t !! k = None -> conflicts a r (rows t) = false -> conflicts un r (rows t) = false ->
  (sql_insert a un true k r t).1 = Inserted /\
  rows (sql_insert a un true k r t).2 = <[k := r]> (rows t).
Proof.
  intros Hk Ha Hu. pose proof (sql_insert_law a un true k r t) as Hl.
  unfold insert_spec in Hl. rewrite Ha, Hu, Hk in Hl. by simplify_eq/=.
Qed.

Lemma elem_of_select p le t k r :
  (k, r) ∈ sql_select p le t <-> rows t !! k = Some r /\ p k r = true.
Proof. rewrite sql_select_law. apply elem_of_select_spec. Qed.

Lemma select_nil p le t :
  sql_select p le t = [] <-> forall k r, rows t !! k = Some r -> p k r = false.
Proof.
  split.
  - intros Hn k r Hk. apply not_true_iff_false. intros Hp.
    assert ((k, r) ∈ sql_select p le t) as Hin by by apply elem_of_select.
    rewrite Hn in Hin. set_solver.
  - intros Hall. apply elem_of_nil_inv. intros [k r] [Hk Hp]%elem_of_select.
    by rewrite (Hall k r Hk) in Hp.
Qed.

Lemma select_NoDup p le t : NoDup (sql_select p le t).*1.
Proof. rewrite sql_select_law. apply NoDup_select_spec. Qed.

(** When the condition holds of exactly one row, SELECT returns that row. *)
Lemma select_unique p le t k r :
  rows t !! k = Some r -> p k r = true ->
  (forall k' r', rows t !! k' = Some r' -> p k' r' = true -> k' = k) ->
  sql_select p le t = [(k, r)].
Proof.
  intros Hk Hp Hu.
  assert (forall x, x ∈ sql_select p le t <-> x = (k, r)) as Hin.
  { intros [k' r']. rewrite elem_of_select. split; [|naive_solver].
    intros [Hk' Hp']. pose proof (Hu _ _ Hk' Hp') as ->. congruence. }
  pose proof (select_NoDup p le t) as Hnd.
  destruct (sql_select p le t) as [|x [|y l]].
  - exfalso. specialize (Hin (k, r)). set_solver.
  - f_equal. apply Hin. set_solver.
  - exfalso. pose proof (proj1 (Hin x) ltac:(set_solver)) as ->.
    pose proof (proj1 (Hin y) ltac:(set_solver)) as ->.
    apply NoDup_cons in Hnd as [Hnd _]. simpl in Hnd. set_solver.
Qed.

(** The first row of an ordered SELECT precedes every selected row. *)
Lemma select_head_least p le t x l :
  row_order le -> sql_select p le t = x :: l ->
  forall y, y ∈ sql_select p le t -> le x y = true.
Proof.
  intros Hle Hs. pose proof (sql_select_sorted p le t Hle) as Hsort. rewrite Hs in *.
  apply StronglySorted_inv in Hsort as [_ Hall]. intros y [->|Hy]%elem_of_cons.
  - by destruct (proj1 Hle x x).
  - rewrite Forall_forall in Hall. by apply Hall.
Qed.
End engine.

(** ** An engine *)

Fixpoint order_insert {A} (le : A -> A -> bool) (x : A) (l : list A) : list A :=
  match l with
  | [] => [x]
  | y :: l' => if le x y then x :: l else y :: order_insert le x l'
  end.
Definition order_sort {A} (le : A -> A -> bool) (l : list A) : list A :=
  foldr (order_insert le) [] l.

Lemma order_insert_perm {A} (le : A -> A -> bool) x l : order_insert le x l ≡ₚ x :: l.
Proof.
  induction l as [|y l IH]; simpl; [done|]. destruct (le x y); [done|].
  rewrite IH. constructor.
Qed.

Lemma order_sort_perm {A} (le : A -> A -> bool) l : order_sort le l ≡ₚ l.
Proof. induction l as [|x l IH]; simpl; [done|]. by rewrite order_insert_perm, IH. Qed.

Lemma order_sort_sorted {R} (le : Z * R -> Z * R -> bool) l :
  row_order le -> StronglySorted (fun x y => le x y = true) (order_sort le l).
Proof.
  intros [Htot Htrans]. induction l as [|x l IH]; simpl; [constructor|].
  induction IH as [|y l' Hs IHs Hall]; simpl; [repeat constructor|].
  destruct (le x y) eqn:Hxy.
  - constructor; [by constructor|]. constructor; [done|].
    eapply Forall_impl; [exact Hall|]. intros z Hz. by eapply Htrans.
  - constructor; [done|]. rewrite (order_insert_perm le x l').
    constructor; [|done]. destruct (Htot x y); congruence.
Qed.

Program Definition map_engine : SqlEngine := {|
  table := gmap Z;
  rows R t := t;
  sql_insert R a un fk k r t := insert_spec a un fk k r t;
  sql_update R p f t := update_spec p f t;
  sql_select R p le t := order_sort le (select_spec p t)
|}.
Next Obligation. intros. by destruct (insert_spec _ _ _ _ _ _). Qed.
Next Obligation. done. Qed.
Next Obligation. intros. apply order_sort_perm. Qed.
Next Obligation. intros. by apply order_sort_sorted. Qed.
