(* ===== verification/Redis.v ===== *)
(** * The Redis server as an interface

    Redis is not code of the repository.  [RedisServer] is what the stores rely
    on: a data set of string keys with a value and an expiry instant, and the
    documented effect of the six commands they send.  A command may fail at
    the client ([None]); its effect on the data set is then uncertain.  The Lua
    script the lock sends is a term of a small script syntax, since its text is
    code of the repository. *)
From S2P Require Import Prelude PyStr.

Local Open Scope Z_scope.

(** Conditions and statements of the scripts sent with EVAL. *)
Inductive lua :=
| LuaIfGetEq (then_ else_ : lua)  (* if redis.call('get', KEYS[1]) == ARGV[1] *)
| LuaReturnDel                    (* return redis.call('del', KEYS[1]) *)
| LuaReturn (n : Z).              (* return n *)

Inductive command :=
| CSet (key value : str) (ex : Z) (nx : bool)
| CGet (key : str)
| CGetDel (key : str)
| CDel (key : str)
| CEval (script : lua) (key arg : str)
| CPing.

Inductive reply :=
| RepOk
| RepNil
| RepStr (s : str)
| RepInt (n : Z).

(** The truth value of a reply of SET: [True], or [None] when NX failed. *)
Definition reply_truthy (r : reply) : bool :=
  match r with RepOk => true | RepNil => false | RepStr s => truthy s | RepInt n => negb (n =? 0) end.

(** Value and expiry instant (microseconds) of each key. *)
Abbreviation dataset := (gmap str (str * Z)).

(** The value of a key at an instant. *)
Definition live (now : Z) (m : dataset) (key : str) : option str :=
  match m !! key with
  | Some (v, expiry) => if now <? expiry then Some v else None
  | None => None
  end.

Definition reply_of (o : option str) : reply :=
  match o with Some v => RepStr v | None => RepNil end.

Definition del_reply (now : Z) (m : dataset) (key : str) : reply :=
  RepInt (if bool_decide (is_Some (live now m key)) then 1 else 0).

Fixpoint eval_lua (now : Z) (s : lua) (key arg : str) (m : dataset) : reply * dataset :=
  match s with
  | LuaIfGetEq t e =>
      if bool_decide (live now m key = Some arg)
      then eval_lua now t key arg m else eval_lua now e key arg m
  | LuaReturnDel => (del_reply now m key, delete key m)
  | LuaReturn n => (RepInt n, m)
  end.

(** The documented effect of a command at an instant. *)
Definition redis_spec (now : Z) (c : command) (m : dataset) : reply * dataset :=
  match c with
  | CSet key value ex nx =>
      if nx && bool_decide (is_Some (live now m key)) then (RepNil, m)
      else (RepOk, <[key := (value, now + ex * 1000000)]> m)
  | CGet key => (reply_of (live now m key), m)
  | CGetDel key => (reply_of (live now m key), delete key m)
  | CDel key => (del_reply now m key, delete key m)
  | CEval script key arg => eval_lua now script key arg m
  | CPing => (RepStr (u "PONG"), m)
  end.

Class RedisServer := {
  srv : Type;
  dump : srv -> dataset;
  redis_exec : Z -> command -> srv -> option reply * srv;
  redis_exec_ok now c s r s' :
    redis_exec now c s = (Some r, s') -> (r, dump s') = redis_spec now c (dump s);
  redis_exec_err now c s s' :
    redis_exec now c s = (None, s') ->
    dump s' = dump s \/ dump s' = (redis_spec now c (dump s)).2
}.

(** A server with a schedule of failures; a failing command has no effect. *)
Record scheduled := Scheduled { sch_data : dataset; sch_faults : list bool }.

Program Definition scheduled_server : RedisServer := {|
  srv := scheduled;
  dump := sch_data;
  redis_exec now c s :=
    if default false (head (sch_faults s))
    then (None, Scheduled (sch_data s) (tail (sch_faults s)))
    else let '(r, m) := redis_spec now c (sch_data s) in
         (Some r, Scheduled m (tail (sch_faults s)))
|}.
Next Obligation.
  intros now c s r s'. cbn. destruct (default false _); [done|].
  destruct (redis_spec now c (sch_data s)) as [r' m]. by intros [= <- <-].
Qed.
Next Obligation.
  intros now c s s'. cbn. destruct (default false _); [intros [= <-]; auto|].
  by destruct (redis_spec now c (sch_data s)).
Qed.

(** ** Lemmas on the data set *)

Lemma live_insert now m k v e :
  live now (<[k := (v, e)]> m) k = if now <? e then Some v else None.
Proof. unfold live. by rewrite lookup_insert_eq. Qed.

Lemma live_insert_ne now m k k' v e :
  k <> k' -> live now (<[k := (v, e)]> m) k' = live now m k'.
Proof. intros. unfold live. by rewrite lookup_insert_ne. Qed.

Lemma live_delete now m k : live now (delete k m) k = None.
Proof. unfold live. by rewrite lookup_delete_eq. Qed.

Lemma live_delete_ne now m k k' : k <> k' -> live now (delete k m) k' = live now m k'.
Proof. intros. unfold live. by rewrite lookup_delete_ne. Qed.

(** A key never comes back to life by waiting. *)
Lemma live_mono t t' m k v : t <= t' -> live t' m k = Some v -> live t m k = Some v.
Proof.
  unfold live. destruct (m !! k) as [[w e]|]; [|done].
  destruct (t' <? e) eqn:?; [|done]. intros ? [= <-]. bools.
  by rewrite (proj2 (Z.ltb_lt t e)) by lia.
Qed.

#[export] Hint Rewrite live_insert live_delete : piki_redis.
