(* ===== verification/Events.v ===== *)
(** * Lifecycle events ([src/piki/observability/events.py])

    The record of an event with its bounds, and the line [StructlogEventSink]
    logs for it, which determines the record. *)
From S2P Require Import Prelude PyStr Errors Contracts.

Local Open Scope Z_scope.

Inductive LifecycleEvent :=
| EV_MESSAGE_RECEIVED | EV_INTENT_RESOLVED | EV_TOOL_STARTED | EV_TOOL_FINISHED
| EV_CONTEXT_BUILT | EV_TEMPLATE_RENDERED | EV_LLM_STARTED | EV_LLM_FINISHED
| EV_GROUNDING_CHECKED | EV_DELIVERY_ATTEMPTED | EV_DELIVERY_SUCCEEDED | EV_DELIVERY_FAILED.
#[export] Instance LifecycleEvent_eq_dec : EqDecision LifecycleEvent.
Proof. solve_decision. Defined.
#[export] Program Instance LifecycleEvent_enum : StrEnum LifecycleEvent := {|
  enum_all := [EV_MESSAGE_RECEIVED; EV_INTENT_RESOLVED; EV_TOOL_STARTED; EV_TOOL_FINISHED;
               EV_CONTEXT_BUILT; EV_TEMPLATE_RENDERED; EV_LLM_STARTED; EV_LLM_FINISHED;
               EV_GROUNDING_CHECKED; EV_DELIVERY_ATTEMPTED; EV_DELIVERY_SUCCEEDED; EV_DELIVERY_FAILED];
  enum_value e :=
    match e with
    | EV_MESSAGE_RECEIVED => u "message_received"
    | EV_INTENT_RESOLVED => u "intent_resolved"
    | EV_TOOL_STARTED => u "tool_started"
    | EV_TOOL_FINISHED => u "tool_finished"
    | EV_CONTEXT_BUILT => u "context_built"
    | EV_TEMPLATE_RENDERED => u "template_rendered"
    | EV_LLM_STARTED => u "llm_started"
    | EV_LLM_FINISHED => u "llm_finished"
    | EV_GROUNDING_CHECKED => u "grounding_checked"
    | EV_DELIVERY_ATTEMPTED => u "delivery_attempted"
    | EV_DELIVERY_SUCCEEDED => u "delivery_succeeded"
    | EV_DELIVERY_FAILED => u "delivery_failed"
    end
|}.
Solve All Obligations with enum_laws.

Inductive EventOutcome := EO_STARTED | EO_SUCCEEDED | EO_FAILED | EO_BLOCKED.
#[export] Instance EventOutcome_eq_dec : EqDecision EventOutcome.
Proof. solve_decision. Defined.
#[export] Program Instance EventOutcome_enum : StrEnum EventOutcome := {|
  enum_all := [EO_STARTED; EO_SUCCEEDED; EO_FAILED; EO_BLOCKED];
  enum_value o :=
    match o with
    | EO_STARTED => u "started"
    | EO_SUCCEEDED => u "succeeded"
    | EO_FAILED => u "failed"
    | EO_BLOCKED => u "blocked"
    end
|}.
Solve All Obligations with enum_laws.

Record LifecycleRecord := {
  lr_event : LifecycleEvent;
  lr_trace_id : str;
  lr_component : str;
  lr_outcome : EventOutcome;
  lr_duration_ms : Z;
  lr_error_code : option str;
  lr_confirmed_count : option Z;
  lr_unavailable_count : option Z
}.
#[export] Instance LifecycleRecord_eq_dec : EqDecision LifecycleRecord.
Proof. solve_decision. Defined.

Definition opt_nonneg (o : option Z) : bool :=
  match o with Some n => 0 <=? n | None => true end.

#[export] Instance LifecycleRecord_contract : Contract LifecycleRecord := {|
  fields_ok r :=
    len_in 1 128 (lr_trace_id r) && len_in 1 100 (lr_component r) &&
    (0 <=? lr_duration_ms r) && opt_len_in 0 100 (lr_error_code r) &&
    opt_nonneg (lr_confirmed_count r) && opt_nonneg (lr_unavailable_count r);
  model_validator _ := None
|}.

(** [max(0, int((now - started_at) * 1000))], instants in microseconds. *)
Definition duration_ms (now started_at : Z) : Z := Z.max 0 ((now - started_at) / 1000).

(** ** [StructlogEventSink] *)

(** [model_dump(mode="json", exclude={"event"}, exclude_none=True)]. *)
Definition optional_field {A} (name : str) (f : A -> json) (o : option A) : list (str * json) :=
  match o with Some a => [(name, f a)] | None => [] end.
Definition record_values (r : LifecycleRecord) : list (str * json) :=
  [(u "trace_id", JStr (lr_trace_id r)); (u "component", JStr (lr_component r));
   (u "outcome", JStr (enum_value (lr_outcome r))); (u "duration_ms", JInt (lr_duration_ms r))] ++
  optional_field (u "error_code") JStr (lr_error_code r) ++
  optional_field (u "confirmed_count") JInt (lr_confirmed_count r) ++
  optional_field (u "unavailable_count") JInt (lr_unavailable_count r).

(** The event and the values of one log line. *)
Definition structlog_emit (r : LifecycleRecord) : str * list (str * json) :=
  (enum_value (lr_event r), record_values r).

(** [RecordingEventSink] and [NullEventSink], on the recorded list. *)
Definition recording_emit (records : list LifecycleRecord) (r : LifecycleRecord)
    : list LifecycleRecord := records ++ [r].
Definition null_emit (records : list LifecycleRecord) (_ : LifecycleRecord)
    : list LifecycleRecord := records.

(** The line of an event determines its record: nothing of it is lost. *)
Lemma structlog_emit_inj r s : structlog_emit r = structlog_emit s -> r = s.
Proof.
  unfold structlog_emit, record_values. destruct r as [e t c o d er cc uc], s as [e' t' c' o' d' er' cc' uc'].
  cbn [lr_event lr_trace_id lr_component lr_outcome lr_duration_ms lr_error_code lr_confirmed_count
       lr_unavailable_count app].
  pose proof (enum_value_inj e e') as Hev. pose proof (enum_value_inj o o') as Hout. revert Hev Hout.
  generalize (enum_value e) (enum_value e') (enum_value o) (enum_value o').
  intros ve ve' vo vo' Hev Hout He. injection He as He Ht Hc Ho Hd Hrest.
  apply Hev in He. apply Hout in Ho. subst.
  destruct er, cc, uc, er', cc', uc'; cbn in Hrest; first [discriminate Hrest | injection Hrest; intros; by subst | done].
Qed.
