(* ===== verification/Logging.v ===== *)
(** * Logging ([src/piki/core/logging.py])

    [configure_logging]: the level the two loggers are given, from the text of
    the setting [log_level], which no validator restricts.  The level is looked
    up among the attributes of the module [logging], so the text can also name
    an attribute that is no level.  What structlog does with a line (the
    processors, the rendering) is not modelled: a line is the event and its
    values. *)
From S2P Require Import Prelude PyStr Errors Contracts Events.

Local Open Scope Z_scope.

(** The attributes of [logging] whose name has no lower-case letter, the only
    ones the upper-cased text of a level can name. *)
Inductive attribute := LevelNumber (n : Z) | FormatText | StyleTable.
Definition logging_attributes : list (str * attribute) := [
  (u "NOTSET", LevelNumber 0); (u "DEBUG", LevelNumber 10); (u "INFO", LevelNumber 20);
  (u "WARN", LevelNumber 30); (u "WARNING", LevelNumber 30); (u "ERROR", LevelNumber 40);
  (u "CRITICAL", LevelNumber 50); (u "FATAL", LevelNumber 50);
  (u "BASIC_FORMAT", FormatText); (u "_STYLES", StyleTable)].

(** [getattr(logging, name, default)]. *)
Definition logging_getattr (name : str) (fallback : attribute) : attribute :=
  match list_find (fun entry => entry.1 = name) logging_attributes with
  | Some (_, entry) => entry.2
  | None => fallback
  end.

Definition numeric_level `{UCD} (level : str) : attribute :=
  logging_getattr (upper level) (LevelNumber 20).

(** A logger: the level under which its methods write nothing. *)
Record Logger := { min_level : Z }.

(** [basicConfig] refuses a level that is neither a number nor the name of a
    level. *)
Definition configure_logging `{UCD} (level : str) : res Logger :=
  match numeric_level level with
  | LevelNumber n => Ok {| min_level := n |}
  | FormatText => Raise (ValueError (u "Unknown level"))
  | StyleTable => Raise TypeError
  end.

Definition writes (logger : Logger) (level : Z) : bool := min_level logger <=? level.

(** The level of [logger.info]. *)
Definition INFO : Z := 20.

(** The lines of a sequence of lifecycle events under a configuration. *)
Definition lifecycle_lines (logger : Logger) (records : list LifecycleRecord)
    : list (str * list (str * json)) :=
  if writes logger INFO then structlog_emit <$> records else [].

(** ** Properties *)

(** The names of the levels above INFO, and of the attributes that are no
    level. *)
Definition quiet_names : list str := [u "WARN"; u "WARNING"; u "ERROR"; u "CRITICAL"; u "FATAL"].
Definition other_names : list str := [u "BASIC_FORMAT"; u "_STYLES"].

(** What an upper-cased text stands for, as a test of the text. *)
Definition level_ok (name : str) : bool :=
  match logging_getattr name (LevelNumber 20) with
  | LevelNumber n =>
      bool_decide (name ∉ other_names) && bool_decide (n ∈ [0; 10; 20; 30; 40; 50]) &&
      Bool.eqb (20 <? n) (bool_decide (name ∈ quiet_names))
  | _ => bool_decide (name ∈ other_names) && bool_decide (name ∉ quiet_names)
  end.

Lemma unknown_name name fallback :
  name ∉ logging_attributes.*1 -> logging_getattr name fallback = fallback.
Proof.
  intros Hn. unfold logging_getattr. destruct (list_find _ _) as [[i entry]|] eqn:Hf; [|done].
  apply list_find_Some in Hf as (Hi%list_elem_of_lookup_2 & <- & _). destruct Hn. by apply list_elem_of_fmap_2.
Qed.

Lemma level_ok_all name : level_ok name = true.
Proof.
  destruct (decide (name ∈ logging_attributes.*1)) as [Hin|Hn].
  - assert (forallb level_ok logging_attributes.*1 = true) as Hall by (vm_compute; reflexivity).
    rewrite forallb_forall in Hall. by apply Hall, list_elem_of_In.
  - unfold level_ok. rewrite (unknown_name _ _ Hn).
    assert (forall l, l ⊆ logging_attributes.*1 -> name ∉ l) as Hl by (intros l Hsub Hin; auto).
    assert (other_names ⊆ logging_attributes.*1 /\ quiet_names ⊆ logging_attributes.*1) as [Ho Hq]
      by (split; apply (bool_decide_eq_true_1 _); vm_compute; reflexivity).
    rewrite (bool_decide_eq_true_2 (name ∉ other_names)), (bool_decide_eq_false_2 (name ∈ quiet_names));
      [reflexivity|auto..].
Qed.

Section properties.
Context `{UCD}.

(** Configuring the logging fails exactly for the two attributes that are no
    level; a text that names nothing gives INFO; and the lifecycle events are
    written, each of them, exactly when the text does not name a level above
    INFO. *)
Theorem configure_logging_exact level :
  ((exists e, configure_logging level = Raise e) <-> upper level ∈ other_names) /\
  (upper level ∉ logging_attributes.*1 -> configure_logging level = Ok {| min_level := INFO |}) /\
  (forall logger records, configure_logging level = Ok logger ->
     min_level logger ∈ [0; 10; 20; 30; 40; 50] /\
     lifecycle_lines logger records =
       if bool_decide (upper level ∈ quiet_names) then [] else structlog_emit <$> records).
Proof.
  pose proof (level_ok_all (upper level)) as Hok. unfold level_ok in Hok.
  split_and!; [|intros Hn; unfold configure_logging, numeric_level; by rewrite unknown_name|];
    unfold configure_logging, numeric_level;
    destruct (logging_getattr (upper level) (LevelNumber 20)) as [n| |]; bools; try naive_solver.
  intros logger records [= <-]. split; [done|]. unfold lifecycle_lines, writes, INFO.
  cbn [min_level]. match goal with He : Bool.eqb _ _ = true |- _ => apply Bool.eqb_prop in He; rewrite <- He end.
  rewrite Z.leb_antisym. by destruct (20 <? n).
Qed.
End properties.

Section concrete.
#[local] Existing Instance latin1_ucd.

Example lower_case_level : configure_logging (u "warning") = Ok {| min_level := 30 |}.
Proof. by vm_compute. Qed.
Example unknown_level : configure_logging (u "verbose") = Ok {| min_level := INFO |}.
Proof. by vm_compute. Qed.
Example attribute_level : configure_logging (u "basic_format") = Raise (ValueError (u "Unknown level")).
Proof. by vm_compute. Qed.
End concrete.
