(* ===== verification/Models.v ===== *)
(** * Tables ([src/piki/db/models.py])

    One record per mapped class (the primary key [id] is the key of the table,
    so it is not a field), the unique constraints as conflict predicates, the
    widths of the [String(n)] columns, and the database as its five tables.
    Columns hold the strings the code writes into them. *)
From S2P Require Import Prelude PyStr Sql.

Local Open Scope Z_scope.

Record ConversationRecord := {
  c_channel : str;
  c_channel_account_id : str;
  c_external_conversation_id : str;
  c_status : str;
  c_created_at : Z;
  c_updated_at : Z
}.
#[export] Instance ConversationRecord_eq_dec : EqDecision ConversationRecord.
Proof. solve_decision. Defined.

(** [uq_conversation_channel_identity]. *)
Definition uq_conversation_channel_identity (r s : ConversationRecord) : bool :=
  bool_decide (c_channel r = c_channel s) &&
  bool_decide (c_channel_account_id r = c_channel_account_id s) &&
  bool_decide (c_external_conversation_id r = c_external_conversation_id s).

Record MessageRecord := {
  m_conversation_id : Z;
  m_external_message_id : option str;
  m_direction : str;
  m_kind : str;
  m_content_text : option str;
  m_trace_id : str;
  m_processing_status : option str;
  m_processing_attempts : Z;
  m_processing_available_at : option Z;
  m_processing_claimed_at : option Z;
  m_processing_error_code : option str;
  m_created_at : Z
}.
#[export] Instance MessageRecord_eq_dec : EqDecision MessageRecord.
Proof. solve_decision. Defined.

(** Equality of two nullable columns in a unique constraint: NULLs differ. *)
Definition sql_eq (a b : option str) : bool :=
  match a, b with Some x, Some y => bool_decide (x = y) | _, _ => false end.

(** [uq_messages_external_message_id]. *)
Definition uq_messages_external_message_id (r s : MessageRecord) : bool :=
  sql_eq (m_external_message_id r) (m_external_message_id s).

Record HandoffRecord := {
  h_conversation_id : Z;
  h_idempotency_key : str;
  h_status : str;
  h_reason : str;
  h_trace_id : str;
  h_created_at : Z;
  h_resolved_at : option Z
}.
#[export] Instance HandoffRecord_eq_dec : EqDecision HandoffRecord.
Proof. solve_decision. Defined.

(** [uq_handoffs_conversation_idempotency]. *)
Definition uq_handoffs_conversation_idempotency (r s : HandoffRecord) : bool :=
  (h_conversation_id r =? h_conversation_id s) &&
  bool_decide (h_idempotency_key r = h_idempotency_key s).

(** The predicate of the partial index: status IN (requested, claimed). *)
Definition handoff_open (r : HandoffRecord) : bool :=
  bool_decide (h_status r ∈ [u "requested"; u "claimed"]).

(** [uq_handoffs_one_open_per_conversation], a partial unique index. *)
Definition uq_handoffs_one_open_per_conversation (r s : HandoffRecord) : bool :=
  handoff_open r && handoff_open s && (h_conversation_id r =? h_conversation_id s).

Record DeliveryAttemptRecord := {
  a_conversation_id : Z;
  a_idempotency_key : str;
  a_provider_message_id : option str;
  a_status : str;
  a_error_code : option str;
  a_error_message : option str;
  a_trace_id : str;
  a_created_at : Z;
  a_updated_at : Z
}.
#[export] Instance DeliveryAttemptRecord_eq_dec : EqDecision DeliveryAttemptRecord.
Proof. solve_decision. Defined.

(** [uq_delivery_attempts_idempotency_key]. *)
Definition uq_delivery_attempts_idempotency_key (r s : DeliveryAttemptRecord) : bool :=
  bool_decide (a_idempotency_key r = a_idempotency_key s).

Record DeliveryStatusEventRecord := {
  se_delivery_attempt_id : Z;
  se_provider_message_id : option str;
  se_status : str;
  se_error_code : option str;
  se_error_message : option str;
  se_trace_id : str;
  se_occurred_at : Z;
  se_created_at : Z
}.
#[export] Instance DeliveryStatusEventRecord_eq_dec : EqDecision DeliveryStatusEventRecord.
Proof. solve_decision. Defined.

(** [uq_delivery_status_provider_state]. *)
Definition uq_delivery_status_provider_state (r s : DeliveryStatusEventRecord) : bool :=
  sql_eq (se_provider_message_id r) (se_provider_message_id s) &&
  bool_decide (se_status r = se_status s).

(** ** Column widths *)

Definition fits (n : Z) (s : str) : bool := py_len s <=? n.
Definition fits_opt (n : Z) (o : option str) : bool :=
  match o with Some s => fits n s | None => true end.

Definition conversation_fits (r : ConversationRecord) : bool :=
  fits 32 (c_channel r) && fits 255 (c_channel_account_id r) &&
  fits 255 (c_external_conversation_id r) && fits 32 (c_status r).

Definition message_fits (r : MessageRecord) : bool :=
  fits_opt 255 (m_external_message_id r) && fits 16 (m_direction r) && fits 32 (m_kind r) &&
  fits 128 (m_trace_id r) && fits_opt 32 (m_processing_status r) &&
  fits_opt 100 (m_processing_error_code r).

Definition handoff_fits (r : HandoffRecord) : bool :=
  fits 255 (h_idempotency_key r) && fits 32 (h_status r) && fits 500 (h_reason r) &&
  fits 128 (h_trace_id r).

Definition attempt_fits (r : DeliveryAttemptRecord) : bool :=
  fits 255 (a_idempotency_key r) && fits_opt 255 (a_provider_message_id r) &&
  fits 32 (a_status r) && fits_opt 100 (a_error_code r) && fits_opt 500 (a_error_message r) &&
  fits 128 (a_trace_id r).

Definition status_event_fits (r : DeliveryStatusEventRecord) : bool :=
  fits_opt 255 (se_provider_message_id r) && fits 32 (se_status r) &&
  fits_opt 100 (se_error_code r) && fits_opt 500 (se_error_message r) &&
  fits 128 (se_trace_id r).

(** ** The database *)

Record Db `{SqlEngine} := mkDb {
  db_conversations : table ConversationRecord;
  db_messages : table MessageRecord;
  db_handoffs : table HandoffRecord;
  db_attempts : table DeliveryAttemptRecord;
  db_events : table DeliveryStatusEventRecord
}.

(** A table of the database: how to read it, write it, and the width check of
    its rows. *)
Class InDb `{SqlEngine} (R : Type) := {
  tbl : Db -> table R;
  set_tbl : table R -> Db -> Db;
  row_fits : R -> bool;
  tbl_set t d : tbl (set_tbl t d) = t
}.

Section tables.
Context `{SqlEngine}.

#[export, program] Instance conversations_table : InDb ConversationRecord := {|
  tbl := db_conversations;
  set_tbl t d := mkDb _ t (db_messages d) (db_handoffs d) (db_attempts d) (db_events d);
  row_fits := conversation_fits
|}.
Solve All Obligations with done.
#[export, program] Instance messages_table : InDb MessageRecord := {|
  tbl := db_messages;
  set_tbl t d := mkDb _ (db_conversations d) t (db_handoffs d) (db_attempts d) (db_events d);
  row_fits := message_fits
|}.
Solve All Obligations with done.
#[export, program] Instance handoffs_table : InDb HandoffRecord := {|
  tbl := db_handoffs;
  set_tbl t d := mkDb _ (db_conversations d) (db_messages d) t (db_attempts d) (db_events d);
  row_fits := handoff_fits
|}.
Solve All Obligations with done.
#[export, program] Instance attempts_table : InDb DeliveryAttemptRecord := {|
  tbl := db_attempts;
  set_tbl t d := mkDb _ (db_conversations d) (db_messages d) (db_handoffs d) t (db_events d);
  row_fits := attempt_fits
|}.
Solve All Obligations with done.
#[export, program] Instance events_table : InDb DeliveryStatusEventRecord := {|
  tbl := db_events;
  set_tbl t d := mkDb _ (db_conversations d) (db_messages d) (db_handoffs d) (db_attempts d) t;
  row_fits := status_event_fits
|}.
Solve All Obligations with done.

(** The foreign keys [conversation_id] and [delivery_attempt_id]. *)
Definition conversation_exists (id : Z) (d : Db) : bool :=
  bool_decide (is_Some (rows (db_conversations d) !! id)).
Definition attempt_exists (id : Z) (d : Db) : bool :=
  bool_decide (is_Some (rows (db_attempts d) !! id)).
End tables.

Lemma sql_eq_true a b : sql_eq a b = true <-> exists s, a = Some s /\ b = Some s.
Proof.
  unfold sql_eq. destruct a, b; rewrite ?bool_decide_eq_true; naive_solver.
Qed.

Lemma uq_handoffs_idempotency_true r s :
  uq_handoffs_conversation_idempotency r s = true <->
  h_conversation_id r = h_conversation_id s /\ h_idempotency_key r = h_idempotency_key s.
Proof.
  unfold uq_handoffs_conversation_idempotency.
  by rewrite andb_true_iff, Z.eqb_eq, bool_decide_eq_true.
Qed.

Lemma uq_handoffs_open_true r s :
  uq_handoffs_one_open_per_conversation r s = true <->
  handoff_open r = true /\ handoff_open s = true /\ h_conversation_id r = h_conversation_id s.
Proof.
  unfold uq_handoffs_one_open_per_conversation.
  rewrite !andb_true_iff, Z.eqb_eq. naive_solver.
Qed.
