(* ===== verification/Integrity.v ===== *)
(** * Integrity of the database

    What the constraints of [db/models.py] say of a database of records: every
    row fits the widths of its columns, no two rows of a table conflict, every
    foreign key has its row.  [Constrained] is a table with its constraints; an
    INSERT that tests them and an UPDATE that keeps the constrained columns keep
    the whole database within them. *)
From S2P Require Import Prelude PyStr Sql Models.

Local Open Scope Z_scope.

(** No two rows conflict. *)
Definition unique_by {R} (c : R -> R -> bool) (m : gmap Z R) : Prop :=
  map_Forall (fun i r => map_Forall (fun j s => c r s = true -> i = j) m) m.

Record table_ok {R} (ok : R -> bool) (uniques : list (R -> R -> bool)) (parent : R -> bool)
    (m : gmap Z R) : Prop := {
  ok_fits : map_Forall (fun _ r => ok r = true) m;
  ok_unique : Forall (fun c => unique_by c m) uniques;
  ok_parent : map_Forall (fun _ r => parent r = true) m
}.

Section integrity.
Context `{SqlEngine}.

(** The constraints of the five tables. *)
Record integrity (d : Db) : Prop := {
  integrity_conversations : table_ok conversation_fits [uq_conversation_channel_identity]
    (fun _ => true) (rows (db_conversations d));
  integrity_messages : table_ok message_fits [uq_messages_external_message_id]
    (fun m => conversation_exists (m_conversation_id m) d) (rows (db_messages d));
  integrity_handoffs : table_ok handoff_fits
    [uq_handoffs_conversation_idempotency; uq_handoffs_one_open_per_conversation]
    (fun h => conversation_exists (h_conversation_id h) d) (rows (db_handoffs d));
  integrity_attempts : table_ok attempt_fits [uq_delivery_attempts_idempotency_key]
    (fun a => conversation_exists (a_conversation_id a) d) (rows (db_attempts d));
  integrity_events : table_ok status_event_fits [uq_delivery_status_provider_state]
    (fun e => attempt_exists (se_delivery_attempt_id e) d) (rows (db_events d))
}.

(** A table of the database with its constraints. *)
Class Constrained (R : Type) `{!InDb R} := {
  uniques : list (R -> R -> bool);
  parent : R -> Db -> bool;
  uniques_sym : Forall (fun c => forall r s, c r s = c s r) uniques;
  integrity_tbl d : integrity d -> table_ok row_fits uniques (fun r => parent r d) (rows (tbl d));
  integrity_set tb d :
    integrity d -> dom (rows (tbl d)) ⊆ dom (rows tb) ->
    table_ok row_fits uniques (fun r => parent r d) (rows tb) -> integrity (set_tbl tb d)
}.
End integrity.

(** ** Tables *)

Section table.
Context {R : Type} (ok : R -> bool) (uniques : list (R -> R -> bool)) (parent : R -> bool).
Hypothesis symmetric_ : Forall (fun c => forall r s, c r s = c s r) uniques.
Implicit Types (m : gmap Z R).

Lemma table_ok_insert m k r :
  table_ok ok uniques parent m -> ok r = true -> parent r = true ->
  Forall (fun c => conflicts c r m = false) uniques ->
  table_ok ok uniques parent (<[k := r]> m).
Proof.
  intros [Hf Hu Hp] Hok Hpar Hc. split; [by apply map_Forall_insert_2| |by apply map_Forall_insert_2].
  rewrite Forall_forall in *. intros c Hin. specialize (Hu c Hin). specialize (Hc c Hin).
  rewrite conflicts_false in Hc. specialize (symmetric_ c Hin).
  intros i r1 Hr1 j r2 Hr2 Hconf. destruct (decide (i = k)) as [->|Hi], (decide (j = k)) as [->|Hj];
    rewrite ?lookup_insert_eq, ?lookup_insert_ne in * by done; simplify_eq; [done|..].
  - by rewrite (Hc j r2 Hr2) in Hconf.
  - by rewrite symmetric_, (Hc i r1 Hr1) in Hconf.
  - by apply (Hu i r1 Hr1 j r2 Hr2).
Qed.

(** An UPDATE that keeps the columns of the constraints. *)
Lemma table_ok_update m (p : Z -> R -> bool) (f : R -> R) :
  table_ok ok uniques parent m ->
  (forall k r, m !! k = Some r -> p k r = true -> ok (f r) = true) ->
  (forall r, parent (f r) = parent r) ->
  Forall (fun c => forall r s, c (f r) s = true -> c r s = true) uniques ->
  table_ok ok uniques parent (update_spec p f m).
Proof.
  intros [Hf Hu Hp] Hok Hpar Hc.
  assert (forall k r, update_spec p f m !! k = Some r -> exists r0, m !! k = Some r0 /\
    ((r = f r0 /\ p k r0 = true) \/ r = r0)) as Hl.
  { intros k r. rewrite update_spec_lookup. destruct (m !! k) as [r0|]; [|done]. cbn.
    intros [= <-]. exists r0. split; [done|]. destruct (p k r0); auto. }
  split.
  - intros k r (r0 & Hr0 & [[-> Hpk]| ->])%Hl; [by eapply Hok|by eapply Hf].
  - rewrite Forall_forall in *. intros c Hin i r1 (r1' & H1 & E1)%Hl j r2 (r2' & H2 & E2)%Hl Hconf.
    specialize (symmetric_ c Hin). specialize (Hc c Hin). apply (Hu c Hin i r1' H1 j r2' H2).
    assert (c r1' r2 = true) as Hconf'.
    { destruct E1 as [[-> _]| ->]; [by apply Hc|done]. }
    destruct E2 as [[-> _]| ->]; [|done]. rewrite symmetric_. apply Hc. by rewrite symmetric_.
  - intros k r (r0 & Hr0 & [[-> _]| ->])%Hl; [rewrite Hpar|]; by eapply Hp.
Qed.

Lemma table_ok_parent (parent' : R -> bool) m :
  (forall r, parent r = true -> parent' r = true) ->
  table_ok ok uniques parent m -> table_ok ok uniques parent' m.
Proof. intros Hp [Hf Hu Hpar]. split; [done|done|]. intros k r Hr. by eapply Hp, Hpar. Qed.
End table.

(** ** The five tables *)

Lemma sql_eq_sym a b : sql_eq a b = sql_eq b a.
Proof. destruct a, b; cbn; try done. by apply bool_decide_ext. Qed.
Lemma bool_decide_sym {A} `{EqDecision A} (x y : A) : bool_decide (x = y) = bool_decide (y = x).
Proof. by apply bool_decide_ext. Qed.

Ltac symmetric_uniques :=
  repeat (apply Forall_cons; split); [..|apply Forall_nil; exact I]; intros r s;
  unfold uq_conversation_channel_identity, uq_messages_external_message_id,
    uq_handoffs_conversation_idempotency, uq_handoffs_one_open_per_conversation,
    uq_delivery_attempts_idempotency_key, uq_delivery_status_provider_state;
  rewrite ?(andb_comm (handoff_open r));
  repeat match goal with |- _ && _ = _ && _ => f_equal end;
  first [reflexivity | apply sql_eq_sym | apply bool_decide_sym | apply Z.eqb_sym].

(** A table with more keys has the rows that foreign keys need. *)
Ltac parents_grow :=
  intros r; unfold conversation_exists, attempt_exists; cbn;
  rewrite !bool_decide_eq_true, <- !elem_of_dom; set_solver.

Section instances.
Context `{SqlEngine}.

Ltac replaced := intros tb d []; intros; split; cbn; first [assumption
  | eapply table_ok_parent; [|eassumption]; parents_grow].

#[export, program] Instance conversations_constrained : Constrained ConversationRecord := {|
  uniques := [uq_conversation_channel_identity]; parent _ _ := true |}.
Next Obligation. symmetric_uniques. Qed.
Next Obligation. by intros d []. Qed.
Next Obligation. replaced. Qed.

#[export, program] Instance messages_constrained : Constrained MessageRecord := {|
  uniques := [uq_messages_external_message_id];
  parent m := conversation_exists (m_conversation_id m) |}.
Next Obligation. symmetric_uniques. Qed.
Next Obligation. by intros d []. Qed.
Next Obligation. replaced. Qed.

#[export, program] Instance handoffs_constrained : Constrained HandoffRecord := {|
  uniques := [uq_handoffs_conversation_idempotency; uq_handoffs_one_open_per_conversation];
  parent h := conversation_exists (h_conversation_id h) |}.
Next Obligation. symmetric_uniques. Qed.
Next Obligation. by intros d []. Qed.
Next Obligation. replaced. Qed.

#[export, program] Instance attempts_constrained : Constrained DeliveryAttemptRecord := {|
  uniques := [uq_delivery_attempts_idempotency_key];
  parent a := conversation_exists (a_conversation_id a) |}.
Next Obligation. symmetric_uniques. Qed.
Next Obligation. by intros d []. Qed.
Next Obligation. replaced. Qed.

#[export, program] Instance events_constrained : Constrained DeliveryStatusEventRecord := {|
  uniques := [uq_delivery_status_provider_state];
  parent e := attempt_exists (se_delivery_attempt_id e) |}.
Next Obligation. symmetric_uniques. Qed.
Next Obligation. by intros d []. Qed.
Next Obligation. replaced. Qed.
End instances.
