(* ===== verification/ModelSchema.v ===== *)
(** * The mapped classes against the migrations

    The metadata of [db/models.py] as a schema, and the records of [Models] as
    rows of it: [row_of] writes a record as the row of its table, [database_rows]
    a whole database.  The widths, the unique constraints and the foreign keys
    that [Models] states on records are those the server checks on rows. *)
From S2P Require Import Prelude PyStr Sha256 Uuid Schema Migrations MigrationLaws.
From S2P Require Import Sql Models Integrity.

Local Open Scope string_scope.
Local Open Scope list_scope.
Local Open Scope Z_scope.

(** ** The metadata *)

Definition uuid_column := Column Uuid false None.
Definition created_column := Column DateTime false (Some DNow).
Definition string_column (n : Z) := Column (String_ n) false None.
Definition optional_string (n : Z) := Column (String_ n) true None.
Definition optional_time := Column DateTime true None.

Definition conversation_columns : list (string * column) := [
  ("id", uuid_column);
  ("channel", string_column 32);
  ("channel_account_id", string_column 255);
  ("external_conversation_id", string_column 255);
  ("status", Column (String_ 32) false (Some (DText (u "piki_active"))));
  ("created_at", created_column);
  ("updated_at", created_column)].
Definition conversation_table : table_def :=
  create_table conversation_columns "id" [
    UniqueConstraint "uq_conversation_channel_identity"
      ["channel"; "channel_account_id"; "external_conversation_id"]].

Definition message_columns : list (string * column) := [
  ("id", uuid_column);
  ("conversation_id", uuid_column);
  ("external_message_id", optional_string 255);
  ("direction", string_column 16);
  ("kind", string_column 32);
  ("content_text", Column Text true None);
  ("trace_id", string_column 128);
  ("processing_status", optional_string 32);
  ("processing_attempts", Column Integer false (Some (DText (u "0"))));
  ("processing_available_at", optional_time);
  ("processing_claimed_at", optional_time);
  ("processing_error_code", optional_string 100);
  ("created_at", created_column)].
Definition message_table : table_def :=
  with_indexes (fun _ => list_to_map [
    ("ix_messages_conversation_created", Index ["conversation_id"; "created_at"] false None);
    ("ix_messages_trace_id", Index ["trace_id"] false None);
    ("ix_messages_processing_available",
       Index ["processing_status"; "processing_available_at"; "created_at"] false None)])
  (create_table message_columns "id" [
    UniqueConstraint "uq_messages_external_message_id" ["external_message_id"];
    ForeignKeyConstraint (ForeignKey "conversation_id" "conversations" "id" Cascade)]).

Definition handoff_columns : list (string * column) := [
  ("id", uuid_column);
  ("conversation_id", uuid_column);
  ("idempotency_key", string_column 255);
  ("status", Column (String_ 32) false (Some (DText (u "requested"))));
  ("reason", string_column 500);
  ("trace_id", string_column 128);
  ("created_at", created_column);
  ("resolved_at", optional_time)].
Definition handoff_table : table_def :=
  with_indexes (fun _ => list_to_map [
    ("ix_handoffs_status_created", Index ["status"; "created_at"] false None);
    ("uq_handoffs_one_open_per_conversation",
       Index ["conversation_id"] true (Some (CIn "status" [u "requested"; u "claimed"])))])
  (create_table handoff_columns "id" [
    UniqueConstraint "uq_handoffs_conversation_idempotency" ["conversation_id"; "idempotency_key"];
    ForeignKeyConstraint (ForeignKey "conversation_id" "conversations" "id" Cascade)]).

Definition attempt_columns : list (string * column) := [
  ("id", uuid_column);
  ("conversation_id", uuid_column);
  ("idempotency_key", string_column 255);
  ("provider_message_id", optional_string 255);
  ("status", string_column 32);
  ("error_code", optional_string 100);
  ("error_message", optional_string 500);
  ("trace_id", string_column 128);
  ("created_at", created_column);
  ("updated_at", created_column)].
Definition attempt_table : table_def :=
  with_indexes (fun _ => list_to_map [
    ("ix_delivery_attempts_provider_message_id", Index ["provider_message_id"] false None);
    ("ix_delivery_attempts_trace_id", Index ["trace_id"] false None)])
  (create_table attempt_columns "id" [
    UniqueConstraint "uq_delivery_attempts_idempotency_key" ["idempotency_key"];
    ForeignKeyConstraint (ForeignKey "conversation_id" "conversations" "id" Cascade)]).

Definition event_columns : list (string * column) := [
  ("id", uuid_column);
  ("delivery_attempt_id", uuid_column);
  ("provider_message_id", optional_string 255);
  ("status", string_column 32);
  ("error_code", optional_string 100);
  ("error_message", optional_string 500);
  ("trace_id", string_column 128);
  ("occurred_at", Column DateTime false None);
  ("created_at", created_column)].
Definition event_table : table_def :=
  with_indexes (fun _ => list_to_map [
    ("ix_delivery_status_attempt_occurred", Index ["delivery_attempt_id"; "occurred_at"] false None)])
  (create_table event_columns "id" [
    UniqueConstraint "uq_delivery_status_provider_state" ["provider_message_id"; "status"];
    ForeignKeyConstraint (ForeignKey "delivery_attempt_id" "delivery_attempts" "id" Cascade)]).

(** [Base.metadata]. *)
Definition metadata : schema := list_to_map [
  ("conversations", conversation_table); ("messages", message_table); ("handoffs", handoff_table);
  ("delivery_attempts", attempt_table); ("delivery_status_events", event_table)].

(** ** Records as rows *)

Definition opt_value {A} (f : A -> value) (o : option A) : value :=
  match o with Some a => f a | None => VNull end.

Definition conversation_cells (id : Z) (r : ConversationRecord) : list value := [
  VUuid id; VStr (c_channel r); VStr (c_channel_account_id r); VStr (c_external_conversation_id r);
  VStr (c_status r); VTime (c_created_at r); VTime (c_updated_at r)].
Definition message_cells (id : Z) (r : MessageRecord) : list value := [
  VUuid id; VUuid (m_conversation_id r); opt_value VStr (m_external_message_id r);
  VStr (m_direction r); VStr (m_kind r); opt_value VStr (m_content_text r); VStr (m_trace_id r);
  opt_value VStr (m_processing_status r); VInt (m_processing_attempts r);
  opt_value VTime (m_processing_available_at r); opt_value VTime (m_processing_claimed_at r);
  opt_value VStr (m_processing_error_code r); VTime (m_created_at r)].
Definition handoff_cells (id : Z) (r : HandoffRecord) : list value := [
  VUuid id; VUuid (h_conversation_id r); VStr (h_idempotency_key r); VStr (h_status r);
  VStr (h_reason r); VStr (h_trace_id r); VTime (h_created_at r); opt_value VTime (h_resolved_at r)].
Definition attempt_cells (id : Z) (r : DeliveryAttemptRecord) : list value := [
  VUuid id; VUuid (a_conversation_id r); VStr (a_idempotency_key r);
  opt_value VStr (a_provider_message_id r); VStr (a_status r); opt_value VStr (a_error_code r);
  opt_value VStr (a_error_message r); VStr (a_trace_id r); VTime (a_created_at r);
  VTime (a_updated_at r)].
Definition event_cells (id : Z) (r : DeliveryStatusEventRecord) : list value := [
  VUuid id; VUuid (se_delivery_attempt_id r); opt_value VStr (se_provider_message_id r);
  VStr (se_status r); opt_value VStr (se_error_code r); opt_value VStr (se_error_message r);
  VStr (se_trace_id r); VTime (se_occurred_at r); VTime (se_created_at r)].

(** The machine ranges, which the records leave out: 128 and 32 bits. *)
Definition uuid_range (n : Z) : bool := (0 <=? n) && (n <? 2 ^ 128).
Definition int_range (n : Z) : bool := (- 2 ^ 31 <=? n) && (n <? 2 ^ 31).

(** The cells of a row, column by column. *)
Fixpoint cells_ok (columns : list (string * column)) (cells : list value) : bool :=
  match columns, cells with
  | [], [] => true
  | c :: columns, v :: cells => cell_ok c.2 v && cells_ok columns cells
  | _, _ => false
  end.

(** A mapped class: its columns, and its records as lists of cells. *)
Class MappedRow (R : Type) := {
  mapped_columns : list (string * column);
  mapped_cells : Z -> R -> list value;
  in_range_row : Z -> R -> bool;
  mapped_fits : R -> bool;
  mapped_names : NoDup mapped_columns.*1;
  mapped_arity id r : length (mapped_cells id r) = length mapped_columns;
  mapped_ok id r : cells_ok mapped_columns (mapped_cells id r) = in_range_row id r && mapped_fits r;
  mapped_onto cells : cells_ok mapped_columns cells = true -> exists id r, cells = mapped_cells id r
}.

Definition row_of `{MappedRow R} (id : Z) (r : R) : row :=
  list_to_map (zip mapped_columns.*1 (mapped_cells id r)).

(** *** The five classes *)

Lemma cell_string n s : cell_ok (string_column n) (VStr s) = fits n s.
Proof. done. Qed.
Lemma cell_optional_string n o : cell_ok (optional_string n) (opt_value VStr o) = fits_opt n o.
Proof. by destruct o. Qed.
Lemma cell_optional_time o : cell_ok optional_time (opt_value VTime o) = true.
Proof. by destruct o. Qed.
Lemma cell_optional_text o : cell_ok (Column Text true None) (opt_value VStr o) = true.
Proof. by destruct o. Qed.

Lemma uuid_cell_inv v : cell_ok uuid_column v = true -> exists n, v = VUuid n.
Proof. destruct v; try done. eauto. Qed.
Lemma string_cell_inv n d v : cell_ok (Column (String_ n) false d) v = true -> exists s, v = VStr s.
Proof. destruct v; try done. eauto. Qed.
Lemma optional_string_inv n v : cell_ok (optional_string n) v = true -> exists o, v = opt_value VStr o.
Proof. destruct v; try done; [by exists None|by exists (Some s)]. Qed.
Lemma optional_text_inv v : cell_ok (Column Text true None) v = true -> exists o, v = opt_value VStr o.
Proof. destruct v; try done; [by exists None|by exists (Some s)]. Qed.
Lemma time_cell_inv d v : cell_ok (Column DateTime false d) v = true -> exists t, v = VTime t.
Proof. destruct v; try done. eauto. Qed.
Lemma optional_time_inv v : cell_ok optional_time v = true -> exists o, v = opt_value VTime o.
Proof. destruct v; try done; [by exists None|by exists (Some t)]. Qed.
Lemma integer_cell_inv d v : cell_ok (Column Integer false d) v = true -> exists n, v = VInt n.
Proof. destruct v; try done. eauto. Qed.

Lemma cells_cons_inv c columns l :
  cells_ok (c :: columns) l = true ->
  exists v l', l = v :: l' /\ cell_ok c.2 v = true /\ cells_ok columns l' = true.
Proof. destruct l as [|v l]; [done|]. cbn. intros [? ?]%andb_true_iff. eauto. Qed.

(** Reads the cells of a row off the columns of its table. *)
Ltac read_cells :=
  repeat match goal with
  | H : cells_ok (_ :: _) ?l = true |- _ =>
      apply cells_cons_inv in H as (? & ? & -> & ? & ?); cbn [snd] in *
  | H : cells_ok [] ?l = true |- _ => destruct l; [clear H|discriminate H]
  | H : cell_ok _ _ = true |- _ =>
      first [ apply uuid_cell_inv in H as [? ->] | apply string_cell_inv in H as [? ->]
            | apply optional_string_inv in H as [? ->] | apply optional_text_inv in H as [? ->]
            | apply time_cell_inv in H as [? ->] | apply optional_time_inv in H as [? ->]
            | apply integer_cell_inv in H as [? ->] ]
  end.

(** The conditions on the cells are those on the record. *)
Ltac compare_cells :=
  intros id r; cbn [cells_ok snd]; rewrite ?cell_optional_string, ?cell_optional_time, ?cell_optional_text;
  apply eq_true_iff_eq; rewrite !andb_true_iff; tauto.

#[export, program] Instance conversation_row : MappedRow ConversationRecord := {|
  mapped_columns := conversation_columns;
  mapped_cells := conversation_cells;
  in_range_row id _ := uuid_range id;
  mapped_fits := conversation_fits
|}.
Next Obligation. refine (bool_decide_eq_true_1 _ _). by vm_compute. Qed.
Next Obligation. done. Qed.
Next Obligation. unfold conversation_columns, conversation_cells, conversation_fits, fits. compare_cells. Qed.
Next Obligation.
  intros cells Hc. unfold conversation_columns in Hc. read_cells.
  eexists _, (Build_ConversationRecord _ _ _ _ _ _). reflexivity.
Qed.

#[export, program] Instance message_row : MappedRow MessageRecord := {|
  mapped_columns := message_columns;
  mapped_cells := message_cells;
  in_range_row id r :=
    uuid_range id && uuid_range (m_conversation_id r) && int_range (m_processing_attempts r);
  mapped_fits := message_fits
|}.
Next Obligation. refine (bool_decide_eq_true_1 _ _). by vm_compute. Qed.
Next Obligation. done. Qed.
Next Obligation. unfold message_columns, message_cells, message_fits, fits. compare_cells. Qed.
Next Obligation.
  intros cells Hc. unfold message_columns in Hc. read_cells.
  eexists _, (Build_MessageRecord _ _ _ _ _ _ _ _ _ _ _ _). reflexivity.
Qed.

#[export, program] Instance handoff_row_mapped : MappedRow HandoffRecord := {|
  mapped_columns := handoff_columns;
  mapped_cells := handoff_cells;
  in_range_row id r := uuid_range id && uuid_range (h_conversation_id r);
  mapped_fits := handoff_fits
|}.
Next Obligation. refine (bool_decide_eq_true_1 _ _). by vm_compute. Qed.
Next Obligation. done. Qed.
Next Obligation. unfold handoff_columns, handoff_cells, handoff_fits, fits. compare_cells. Qed.
Next Obligation.
  intros cells Hc. unfold handoff_columns in Hc. read_cells.
  eexists _, (Build_HandoffRecord _ _ _ _ _ _ _). reflexivity.
Qed.

#[export, program] Instance attempt_row : MappedRow DeliveryAttemptRecord := {|
  mapped_columns := attempt_columns;
  mapped_cells := attempt_cells;
  in_range_row id r := uuid_range id && uuid_range (a_conversation_id r);
  mapped_fits := attempt_fits
|}.
Next Obligation. refine (bool_decide_eq_true_1 _ _). by vm_compute. Qed.
Next Obligation. done. Qed.
Next Obligation. unfold attempt_columns, attempt_cells, attempt_fits, fits. compare_cells. Qed.
Next Obligation.
  intros cells Hc. unfold attempt_columns in Hc. read_cells.
  eexists _, (Build_DeliveryAttemptRecord _ _ _ _ _ _ _ _ _). reflexivity.
Qed.

#[export, program] Instance event_row_mapped : MappedRow DeliveryStatusEventRecord := {|
  mapped_columns := event_columns;
  mapped_cells := event_cells;
  in_range_row id r := uuid_range id && uuid_range (se_delivery_attempt_id r);
  mapped_fits := status_event_fits
|}.
Next Obligation. refine (bool_decide_eq_true_1 _ _). by vm_compute. Qed.
Next Obligation. done. Qed.
Next Obligation. unfold event_columns, event_cells, status_event_fits, fits. compare_cells. Qed.
Next Obligation.
  intros cells Hc. unfold event_columns in Hc. read_cells.
  eexists _, (Build_DeliveryStatusEventRecord _ _ _ _ _ _ _ _). reflexivity.
Qed.

(** ** Rows of a table *)

Section rows.
Context `{MappedRow R}.

Lemma cells_ok_length columns cells : cells_ok columns cells = true -> length columns = length cells.
Proof.
  revert cells. induction columns as [|c columns IH]; intros [|v cells]; try done.
  cbn. intros [_ Hc]%andb_true_iff. by rewrite (IH cells).
Qed.

(** A typed row is the row of its cells. *)
Lemma typed_cells columns (t : table_def) (r : row) :
  NoDup columns.*1 -> t_columns t = list_to_map columns ->
  row_typed t r <-> exists cells, cells_ok columns cells = true /\ r = list_to_map (zip columns.*1 cells).
Proof.
  intros Hnd Ht. unfold row_typed, same_keys, map_relation. rewrite Ht. clear Ht. revert r.
  induction columns as [|[n c] columns IH]; cbn in *; intros r.
  - split.
    + intros Hr. exists []. split; [done|]. apply map_eq. intros m. specialize (Hr m).
      rewrite lookup_empty in *. by destruct (r !! m).
    + intros (cells & Hc & ->) m. by rewrite !lookup_empty.
  - apply NoDup_cons in Hnd as [Hn Hnd]. specialize (IH Hnd). split.
    + intros Hr. destruct (IH (delete n r)) as [(cells & Hc & He) _].
      { intros m. destruct (decide (m = n)) as [->|Hne].
        - rewrite lookup_delete_eq, not_elem_of_list_to_map_1; done.
        - specialize (Hr m). by rewrite lookup_insert_ne, <- (lookup_delete_ne r n m) in Hr. }
      pose proof (Hr n) as Hn'. rewrite lookup_insert_eq in Hn'. destruct (r !! n) as [v|] eqn:Hv; [|done].
      exists (v :: cells). cbn. split; [by rewrite Hn', Hc|]. rewrite <- He. by rewrite insert_delete_id.
    + intros (cells & Hc & ->) m. destruct cells as [|v l]; [done|].
      apply andb_true_iff in Hc as [Hv Hl]. cbn.
      destruct (decide (m = n)) as [->|Hne]; [by rewrite !lookup_insert_eq|].
      rewrite !lookup_insert_ne by done. apply IH. eauto.
Qed.

(** The rows a table accepts are the records within the widths and the ranges. *)
Lemma typed_row_record (t : table_def) (r : row) :
  t_columns t = list_to_map mapped_columns ->
  row_typed t r <-> exists id x, r = row_of id x /\ in_range_row id x = true /\ mapped_fits x = true.
Proof.
  intros Ht. rewrite (typed_cells mapped_columns t r mapped_names Ht). split.
  - intros (cells & Hc & ->). destruct (mapped_onto cells Hc) as (id & x & ->).
    rewrite mapped_ok in Hc. apply andb_true_iff in Hc. exists id, x. done.
  - intros (id & x & -> & Hr & Hf). exists (mapped_cells id x). by rewrite mapped_ok, Hr, Hf.
Qed.

Lemma zip_inj (names : list string) (l l' : list value) :
  NoDup names -> length l = length names -> length l' = length names ->
  (list_to_map (zip names l) : row) = list_to_map (zip names l') -> l = l'.
Proof.
  intros Hnd Hl Hl' He. revert l l' Hl Hl' He.
  induction Hnd as [|n names Hn Hnd IH]; intros [|v l] [|v' l'] Hl Hl' He; try done.
  cbn in *. pose proof (f_equal (lookup n) He) as Hv. rewrite !lookup_insert_eq in Hv.
  injection Hv as ->. f_equal. apply IH; [lia..|]. apply (f_equal (delete n)) in He.
  rewrite !delete_insert_id in He; [done|..].
  all: apply not_elem_of_list_to_map_1; rewrite fst_zip by lia; done.
Qed.

Lemma typed_row_of (t : table_def) id x :
  t_columns t = list_to_map mapped_columns ->
  row_typed t (row_of id x) <-> in_range_row id x = true /\ mapped_fits x = true.
Proof.
  intros Ht. rewrite (typed_cells mapped_columns t _ mapped_names Ht). rewrite <- andb_true_iff, <- mapped_ok.
  split; [|by exists (mapped_cells id x)]. intros (cells & Hc & He).
  replace (mapped_cells id x) with cells; [done|]. unfold row_of in He.
  apply (zip_inj mapped_columns.*1); [apply mapped_names|..|done];
    rewrite length_fmap; [symmetry; by apply cells_ok_length|apply mapped_arity].
Qed.
End rows.

(** ** Tables *)

(** A table of the metadata against its class: its unique constraints and its
    foreign keys, as conditions on records. *)
Class MappedTable (R : Type) `{MappedRow R} := {
  mapped_table : table_def;
  mapped_uniques : list (list string * option cond * (R -> R -> bool));
  mapped_parents : list (string * string * (R -> Z));
  mapped_table_columns : t_columns mapped_table = list_to_map mapped_columns;
  mapped_table_checks : t_checks mapped_table = ∅;
  mapped_table_uniques : uniqueness mapped_table = mapped_uniques.*1;
  mapped_table_parents :
    t_foreign_keys mapped_table = (fun p => ForeignKey p.1.1 p.1.2 "id" Cascade) <$> mapped_parents;
  mapped_key id r : row_of id r !! t_primary_key mapped_table = Some (VUuid id);
  mapped_conflicts i j r s :
    Forall (fun p => row_conflict p.1.1 p.1.2 (row_of i r) (row_of j s) = p.2 r s) mapped_uniques;
  mapped_refers id r :
    Forall (fun p => row_of id r !! p.1.1 = Some (VUuid (p.2 r))) mapped_parents
}.

Definition rows_of `{MappedRow R} (m : gmap Z R) : gmap Z row :=
  map_imap (fun id r => Some (row_of id r)) m.

Lemma map_Forall_equiv {A} (P Q : Z -> A -> Prop) (m : gmap Z A) :
  (forall k x, P k x <-> Q k x) -> map_Forall P m <-> map_Forall Q m.
Proof. intros Hpq. split; intros Hm k x Hx; by apply Hpq, Hm. Qed.

Lemma map_Forall_conj {A} (P Q : Z -> A -> Prop) (m : gmap Z A) :
  map_Forall (fun k x => P k x /\ Q k x) m <-> map_Forall P m /\ map_Forall Q m.
Proof.
  split; [intros Hm; split; intros k x Hx; by apply Hm|].
  intros [HP HQ] k x Hx. split; [by apply HP|by apply HQ].
Qed.

Section tables.
Context `{MappedTable R}.

Lemma lookup_rows_of (m : gmap Z R) k r :
  rows_of m !! k = Some r <-> exists x, m !! k = Some x /\ r = row_of k x.
Proof.
  unfold rows_of. rewrite map_lookup_imap. destruct (m !! k); cbn; naive_solver.
Qed.

Lemma rows_of_forall (P : Z -> row -> Prop) (m : gmap Z R) :
  map_Forall P (rows_of m) <-> map_Forall (fun k x => P k (row_of k x)) m.
Proof.
  split.
  - intros HP k x Hx. apply HP, lookup_rows_of. eauto.
  - intros HP k r (x & Hx & ->)%lookup_rows_of. by apply HP.
Qed.

Lemma rows_of_unique columns w (c : R -> R -> bool) (m : gmap Z R) :
  (forall i j r s, row_conflict columns w (row_of i r) (row_of j s) = c r s) ->
  unique_rows columns w (rows_of m) <-> unique_by c m.
Proof.
  intros Hc. split; intros Hu.
  - intros i r Hr j s Hs Hrs. apply (Hu i (row_of i r)) with (row_of j s); [apply lookup_rows_of; eauto..|].
    by rewrite Hc.
  - intros i r' (r & Hr & ->)%lookup_rows_of j s' (s & Hs & ->)%lookup_rows_of Hrs.
    rewrite Hc in Hrs. by apply (Hu i r Hr j s Hs).
Qed.

Lemma refers_uuid d (r : row) n table k action :
  r !! n = Some (VUuid k) ->
  refers d r (ForeignKey n table "id" action) = bool_decide (is_Some (d !! table ≫= lookup k)).
Proof. intros Hr. unfold refers. cbn. by rewrite Hr. Qed.

(** The foreign keys of a record. *)
Definition record_parents (d : data) (r : R) : bool :=
  forallb (fun p => bool_decide (is_Some (d !! p.1.2 ≫= lookup (p.2 r)))) mapped_parents.

(** The rows of a table against the records they row_of. *)
Lemma valid_rows_of (d : data) (m : gmap Z R) :
  valid_table mapped_table d (rows_of m) <->
  table_ok mapped_fits mapped_uniques.*2
    (record_parents d) m /\
  map_Forall (fun id r => in_range_row id r = true) m.
Proof.
  assert (map_Forall (fun _ r => row_typed mapped_table r) (rows_of m) <->
    map_Forall (fun id r => in_range_row id r = true) m /\ map_Forall (fun _ r => mapped_fits r = true) m) as Ht.
  { rewrite rows_of_forall, <- map_Forall_conj. apply map_Forall_equiv. intros k x.
    apply typed_row_of, mapped_table_columns. }
  assert (Forall (fun u => unique_rows u.1 u.2 (rows_of m)) (uniqueness mapped_table) <->
    Forall (fun c => unique_by c m) mapped_uniques.*2) as Hu.
  { rewrite mapped_table_uniques, !Forall_fmap. pose proof mapped_conflicts as Hc.
    rewrite !Forall_forall. split; intros Hu p Hp; specialize (Hu p Hp); cbn in *;
      (eapply rows_of_unique; [|exact Hu]); intros; specialize (Hc i j r s);
      rewrite Forall_forall in Hc; by apply Hc. }
  assert (map_Forall (fun _ r => Forall (fun fk => refers d r fk = true) (t_foreign_keys mapped_table)) (rows_of m)
    <-> map_Forall (fun _ r => record_parents d r = true) m) as Hp.
  { rewrite rows_of_forall. apply map_Forall_equiv. intros k x. unfold record_parents.
    rewrite mapped_table_parents, Forall_fmap. pose proof (mapped_refers k x) as Hr.
    induction Hr as [|p ps Hp _ IH]; cbn; [by rewrite Forall_nil|].
    rewrite Forall_cons, andb_true_iff, <- IH. cbn. by rewrite (refers_uuid d _ _ _ _ _ Hp). }
  split.
  - intros [_ ?%Ht _ ?%Hu ?%Hp]. destruct_and?. split; [by split|done].
  - intros [[? ?%Hu ?%Hp] ?]. split; [| |by rewrite mapped_table_checks|done|done].
    + apply rows_of_forall. intros k x _. apply mapped_key.
    + by apply Ht.
Qed.
End tables.

(** *** The five tables *)

Section cells.
Variables (r s : row) (n : string).

Lemma same_text a b :
  r !! n = Some (VStr a) -> s !! n = Some (VStr b) -> same_cell r s n = bool_decide (a = b).
Proof.
  intros Hr Hs. unfold same_cell. rewrite Hr, Hs, (bool_decide_eq_false_2 (VStr a = VNull)) by done.
  rewrite andb_true_r. apply bool_decide_ext. split; congruence.
Qed.

Lemma same_uuid a b :
  r !! n = Some (VUuid a) -> s !! n = Some (VUuid b) -> same_cell r s n = (a =? b).
Proof.
  intros Hr Hs. unfold same_cell. rewrite Hr, Hs, (bool_decide_eq_false_2 (VUuid a = VNull)) by done.
  rewrite andb_true_r. apply eq_true_iff_eq. rewrite bool_decide_eq_true, Z.eqb_eq. split; congruence.
Qed.

Lemma same_optional_text a b :
  r !! n = Some (opt_value VStr a) -> s !! n = Some (opt_value VStr b) -> same_cell r s n = sql_eq a b.
Proof.
  destruct a as [a|], b as [b|]; cbn; [apply same_text|..]; intros Hr Hs; unfold same_cell; rewrite Hr, Hs.
  - by rewrite bool_decide_eq_false_2.
  - by rewrite bool_decide_eq_false_2.
  - by rewrite (bool_decide_eq_true_2 (VNull = VNull)), andb_false_r.
Qed.

Lemma selected_in texts a :
  r !! n = Some (VStr a) -> selected (Some (CIn n texts)) r = bool_decide (a ∈ texts).
Proof.
  intros Hr. unfold selected. cbn. rewrite Hr. apply bool_decide_ext. split.
  - intros [= Ha]. by apply bool_decide_eq_true in Ha.
  - intros Ha. by rewrite bool_decide_eq_true_2.
Qed.
End cells.

(** The conditions of an instance: evaluations of the table, then the cells of
    the constrained columns. *)
Ltac by_table := refine (bool_decide_eq_true_1 _ _); vm_compute; reflexivity.

#[export] Program Instance conversation_mapped : MappedTable ConversationRecord := {|
  mapped_table := conversation_table;
  mapped_uniques := [(["channel"; "channel_account_id"; "external_conversation_id"], None,
                      uq_conversation_channel_identity)];
  mapped_parents := []
|}.
Next Obligation. by_table. Qed.
Next Obligation. by_table. Qed.
Next Obligation. by_table. Qed.
Next Obligation. by_table. Qed.
Next Obligation. reflexivity. Qed.
Next Obligation.
  intros i j r s. apply Forall_singleton. unfold row_conflict. cbn [forallb fst snd selected].
  rewrite (same_text _ _ _ (c_channel r) (c_channel s)) by reflexivity.
  rewrite (same_text _ _ _ (c_channel_account_id r) (c_channel_account_id s)) by reflexivity.
  rewrite (same_text _ _ _ (c_external_conversation_id r) (c_external_conversation_id s)) by reflexivity.
  by rewrite !andb_true_r, andb_assoc.
Qed.
Next Obligation. intros. apply Forall_nil. exact I. Qed.

#[export] Program Instance message_mapped : MappedTable MessageRecord := {|
  mapped_table := message_table;
  mapped_uniques := [(["external_message_id"], None, uq_messages_external_message_id)];
  mapped_parents := [("conversation_id", "conversations", m_conversation_id)]
|}.
Next Obligation. by_table. Qed.
Next Obligation. by_table. Qed.
Next Obligation. by_table. Qed.
Next Obligation. by_table. Qed.
Next Obligation. reflexivity. Qed.
Next Obligation.
  intros i j r s. apply Forall_singleton. unfold row_conflict. cbn [forallb fst snd selected].
  rewrite (same_optional_text _ _ _ (m_external_message_id r) (m_external_message_id s)) by reflexivity.
  by rewrite !andb_true_r.
Qed.
Next Obligation. intros. apply Forall_singleton. reflexivity. Qed.

#[export] Program Instance handoff_mapped : MappedTable HandoffRecord := {|
  mapped_table := handoff_table;
  mapped_uniques := [(["conversation_id"; "idempotency_key"], None, uq_handoffs_conversation_idempotency);
                     (["conversation_id"], Some open_handoff, uq_handoffs_one_open_per_conversation)];
  mapped_parents := [("conversation_id", "conversations", h_conversation_id)]
|}.
Next Obligation. by_table. Qed.
Next Obligation. by_table. Qed.
Next Obligation. by_table. Qed.
Next Obligation. by_table. Qed.
Next Obligation. reflexivity. Qed.
Next Obligation.
  intros i j r s. unfold row_conflict. repeat apply Forall_cons_2; [..|by apply Forall_nil]; cbn [forallb fst snd].
  - cbn [selected]. rewrite (same_uuid _ _ _ (h_conversation_id r) (h_conversation_id s)) by reflexivity.
    rewrite (same_text _ _ _ (h_idempotency_key r) (h_idempotency_key s)) by reflexivity.
    by rewrite !andb_true_r.
  - unfold open_handoff. rewrite (same_uuid _ _ _ (h_conversation_id r) (h_conversation_id s)) by reflexivity.
    rewrite (selected_in _ _ _ (h_status r)), (selected_in _ _ _ (h_status s)) by reflexivity.
    unfold uq_handoffs_one_open_per_conversation, handoff_open. rewrite andb_true_r.
    by rewrite <- andb_assoc, andb_comm.
Qed.
Next Obligation. intros. apply Forall_singleton. reflexivity. Qed.

#[export] Program Instance attempt_mapped : MappedTable DeliveryAttemptRecord := {|
  mapped_table := attempt_table;
  mapped_uniques := [(["idempotency_key"], None, uq_delivery_attempts_idempotency_key)];
  mapped_parents := [("conversation_id", "conversations", a_conversation_id)]
|}.
Next Obligation. by_table. Qed.
Next Obligation. by_table. Qed.
Next Obligation. by_table. Qed.
Next Obligation. by_table. Qed.
Next Obligation. reflexivity. Qed.
Next Obligation.
  intros i j r s. apply Forall_singleton. unfold row_conflict. cbn [forallb fst snd selected].
  rewrite (same_text _ _ _ (a_idempotency_key r) (a_idempotency_key s)) by reflexivity.
  by rewrite !andb_true_r.
Qed.
Next Obligation. intros. apply Forall_singleton. reflexivity. Qed.

#[export] Program Instance event_mapped : MappedTable DeliveryStatusEventRecord := {|
  mapped_table := event_table;
  mapped_uniques := [(["provider_message_id"; "status"], None, uq_delivery_status_provider_state)];
  mapped_parents := [("delivery_attempt_id", "delivery_attempts", se_delivery_attempt_id)]
|}.
Next Obligation. by_table. Qed.
Next Obligation. by_table. Qed.
Next Obligation. by_table. Qed.
Next Obligation. by_table. Qed.
Next Obligation. reflexivity. Qed.
Next Obligation.
  intros i j r s. apply Forall_singleton. unfold row_conflict. cbn [forallb fst snd selected].
  rewrite (same_optional_text _ _ _ (se_provider_message_id r) (se_provider_message_id s)) by reflexivity.
  rewrite (same_text _ _ _ (se_status r) (se_status s)) by reflexivity.
  by rewrite !andb_true_r.
Qed.
Next Obligation. intros. apply Forall_singleton. reflexivity. Qed.

(** ** The whole database *)

Section database.
Context `{SqlEngine}.

(** The database as the server stores it. *)
Definition database_rows (d : Db) : data := list_to_map [
  ("conversations", rows_of (rows (db_conversations d))); ("messages", rows_of (rows (db_messages d)));
  ("handoffs", rows_of (rows (db_handoffs d))); ("delivery_attempts", rows_of (rows (db_attempts d)));
  ("delivery_status_events", rows_of (rows (db_events d)))].

(** Every identifier has 128 bits and every counter 32. *)
Record machine_ranges (d : Db) : Prop := {
  range_conversations : map_Forall (fun id r => in_range_row id r = true) (rows (db_conversations d));
  range_messages : map_Forall (fun id r => in_range_row id r = true) (rows (db_messages d));
  range_handoffs : map_Forall (fun id r => in_range_row id r = true) (rows (db_handoffs d));
  range_attempts : map_Forall (fun id r => in_range_row id r = true) (rows (db_attempts d));
  range_events : map_Forall (fun id r => in_range_row id r = true) (rows (db_events d))
}.

Lemma same_keys_insert {A B} (P : string -> A -> B -> Prop) (m : gmap string A) (n : gmap string B) k a b :
  m !! k = None -> n !! k = None ->
  same_keys P (<[k := a]> m) (<[k := b]> n) <-> P k a b /\ same_keys P m n.
Proof.
  intros Hm Hn. unfold same_keys, map_relation. split.
  - intros Hs. split; [by specialize (Hs k); rewrite !lookup_insert_eq in Hs|].
    intros j. specialize (Hs j). destruct (decide (j = k)) as [->|Hj]; [by rewrite Hm, Hn|].
    by rewrite !lookup_insert_ne in Hs.
  - intros [Hk Hs] j. destruct (decide (j = k)) as [->|Hj]; [by rewrite !lookup_insert_eq|].
    rewrite !lookup_insert_ne by done. apply Hs.
Qed.

Lemma valid_split d :
  valid metadata (database_rows d) <->
  valid_table conversation_table (database_rows d) (rows_of (rows (db_conversations d))) /\
  valid_table message_table (database_rows d) (rows_of (rows (db_messages d))) /\
  valid_table handoff_table (database_rows d) (rows_of (rows (db_handoffs d))) /\
  valid_table attempt_table (database_rows d) (rows_of (rows (db_attempts d))) /\
  valid_table event_table (database_rows d) (rows_of (rows (db_events d))).
Proof.
  unfold valid. unfold metadata. generalize (database_rows d) at 1 3 4 5 6 7. intros D.
  unfold database_rows. cbn [list_to_map foldr fst snd].
  assert (forall P : string -> table_def -> gmap Z row -> Prop, same_keys P ∅ ∅ <-> True) as He.
  { intros P. split; [done|]. intros _ j. by rewrite !lookup_empty. }
  rewrite !same_keys_insert, He by reflexivity. tauto.
Qed.
Lemma table_ok_ext {R} (ok : R -> bool) us (p q : R -> bool) m :
  (forall r, p r = q r) -> table_ok ok us p m <-> table_ok ok us q m.
Proof. intros Hpq. split; apply table_ok_parent; intros r Hr; congruence. Qed.

(** A foreign key of the rows and one of the records. *)
Lemma stored_parent `{MappedRow R} (t : string) (m : gmap Z R) (d : data) k :
  d !! t = Some (rows_of m) ->
  bool_decide (is_Some (d !! t ≫= lookup k)) && true = bool_decide (is_Some (m !! k)).
Proof.
  intros Hd. rewrite andb_true_r. apply bool_decide_ext. rewrite Hd. cbn. unfold rows_of.
  rewrite map_lookup_imap. destruct (m !! k); cbn; split; eauto; by intros [? ?].
Qed.

Lemma valid_records `{MappedTable R} (d : Db) (m : gmap Z R) t us (p : R -> bool) :
  t = mapped_table -> us = mapped_uniques.*2 -> (forall r, record_parents (database_rows d) r = p r) ->
  valid_table t (database_rows d) (rows_of m) <->
  table_ok mapped_fits us p m /\ map_Forall (fun id r => in_range_row id r = true) m.
Proof. intros -> -> Hp. rewrite valid_rows_of. by rewrite (table_ok_ext _ _ _ _ _ Hp). Qed.

Lemma conversation_parent d k :
  bool_decide (is_Some (database_rows d !! "conversations" ≫= lookup k)) && true = conversation_exists k d.
Proof. by apply stored_parent. Qed.
Lemma attempt_parent d k :
  bool_decide (is_Some (database_rows d !! "delivery_attempts" ≫= lookup k)) && true = attempt_exists k d.
Proof. by apply stored_parent. Qed.

Lemma schema_validity d : valid metadata (database_rows d) <-> integrity d /\ machine_ranges d.
Proof.
  rewrite valid_split.
  rewrite (valid_records d _ conversation_table [uq_conversation_channel_identity] (fun _ => true)) by done.
  rewrite (valid_records d _ message_table [uq_messages_external_message_id]
    (fun m => conversation_exists (m_conversation_id m) d)) by solve [done | intros; apply conversation_parent].
  rewrite (valid_records d _ handoff_table
    [uq_handoffs_conversation_idempotency; uq_handoffs_one_open_per_conversation]
    (fun h => conversation_exists (h_conversation_id h) d)) by solve [done | intros; apply conversation_parent].
  rewrite (valid_records d _ attempt_table [uq_delivery_attempts_idempotency_key]
    (fun a => conversation_exists (a_conversation_id a) d)) by solve [done | intros; apply conversation_parent].
  rewrite (valid_records d _ event_table [uq_delivery_status_provider_state]
    (fun e => attempt_exists (se_delivery_attempt_id e) d)) by solve [done | intros; apply attempt_parent].
  split.
  - intros. destruct_and!. by split; split.
  - intros [[] []]. by split_and!.
Qed.
(** The constraints the classes state on records are those of the migrated
    tables: the rows of a database satisfy the metadata (types, widths, NOT
    NULL, unique constraints and indexes, foreign keys) exactly when the records
    have their integrity and every identifier and counter its machine range. *)
Theorem integrity_is_schema_validity d :
  valid metadata (database_rows d) <-> integrity d /\ machine_ranges d.
Proof. apply schema_validity. Qed.
End database.

(** The tables of the first migration that no class maps. *)
Definition unmapped : schema :=
  filter (fun p => p.1 ∈ ["tool_runs"; "trace_events"]) (schema_at 1).

(** The four migrations, run on an empty database, build the tables of the
    mapped classes, with the same columns, types, defaults, constraints and
    indexes, and the two tables of the first migration that no class maps. *)
Theorem head_schema_is_metadata : schema_at 4 = metadata ∪ unmapped.
Proof. closed. Qed.
