(* ===== verification/World.v ===== *)
(** * The world and the effect monad

    [World] is the state the program acts on: the database, the Redis server,
    the emitted lifecycle events, the log of outgoing requests and sleeps, the
    next row identifier and the tick that indexes the environment.  [Env] is
    the environment: clocks, availability of the database, answers of remote
    services, random tokens, each a function of the tick or of the log, so that
    a theorem over every [Env] is a theorem over every schedule of outages and
    answers.  A computation is a function of the world that returns or raises.

    [session] is [Database.session] ([src/piki/db/session.py]): commit on
    return, roll back on any exception; a commit that fails is rolled back. *)
From S2P Require Import Prelude PyStr Errors Contracts Events Sql Redis Models.

Local Open Scope Z_scope.

(** ** Outgoing requests *)

Inductive service := SVC_META | SVC_BUENPICK | SVC_LLM.
#[export] Instance service_eq_dec : EqDecision service.
Proof. solve_decision. Defined.

Record HttpRequest := {
  hq_service : service;
  hq_path : str;
  hq_params : list (str * str);
  hq_body : option json
}.

(** What the HTTP client gives back: a response with its status and decoded
    JSON body ([None]: not JSON), a timeout, or another request error. *)
Inductive HttpOutcome :=
| HResponse (status : Z) (body : option json)
| HTimeout
| HRequestError.

(** [response.is_error]. *)
Definition is_error (status : Z) : bool := (400 <=? status) && (status <=? 599).

Inductive io :=
| IoHttp (request : HttpRequest)
| IoSleep (microseconds : Z).

(** ** Environment *)

Class Env := {
  clock : nat -> Z;                           (* wall clock, microseconds *)
  perf_counter : nat -> Z;                    (* monotonic clock, microseconds *)
  db_up : nat -> bool;                        (* the database answers *)
  transport : list io -> HttpRequest -> HttpOutcome;
  token_urlsafe : nat -> str                  (* secrets.token_urlsafe(32) *)
}.

Record World `{SqlEngine} `{RedisServer} := mkWorld {
  w_db : Db;
  w_redis : srv;
  w_lifecycle : list LifecycleRecord;
  w_io : list io;
  w_next_id : Z;
  w_tick : nat
}.

Definition M `{SqlEngine} `{RedisServer} (A : Type) : Type := World -> res A * World.

Section monad.
Context `{SqlEngine} `{RedisServer} `{Env}.

#[global] Instance M_ret : MRet M := fun A a w => (Ok a, w).
#[global] Instance M_bind : MBind M := fun A B f m w =>
  match m w with
  | (Ok a, w') => f a w'
  | (Raise e, w') => (Raise e, w')
  end.

Definition raise {A} (e : exn) : M A := fun w => (Raise e, w).
Definition lift {A} (r : res A) : M A := fun w => (r, w).

(** [try: m except ...: h]; [h e = None] when no clause matches. *)
Definition try_except {A} (m : M A) (h : exn -> option (M A)) : M A := fun w =>
  match m w with
  | (Ok a, w') => (Ok a, w')
  | (Raise e, w') => match h e with Some m' => m' w' | None => (Raise e, w') end
  end.

(** [try: m finally: f]; an exception of [f] replaces the outcome. *)
Definition try_finally {A} (m : M A) (f : M unit) : M A := fun w =>
  let '(r, w1) := m w in
  match f w1 with
  | (Ok _, w2) => (r, w2)
  | (Raise e, w2) => (Raise e, w2)
  end.

Fixpoint m_map {A B} (f : A -> M B) (l : list A) : M (list B) :=
  match l with
  | [] => mret []
  | x :: l' => y ← f x; ys ← m_map f l'; mret (y :: ys)
  end.

(** *** World access *)

Definition tick (w : World) : World :=
  mkWorld _ _ (w_db w) (w_redis w) (w_lifecycle w) (w_io w) (w_next_id w) (S (w_tick w)).
Definition with_db (d : Db) (w : World) : World :=
  mkWorld _ _ d (w_redis w) (w_lifecycle w) (w_io w) (w_next_id w) (w_tick w).
Definition with_redis (s : srv) (w : World) : World :=
  mkWorld _ _ (w_db w) s (w_lifecycle w) (w_io w) (w_next_id w) (w_tick w).
Definition log_event (r : LifecycleRecord) (w : World) : World :=
  mkWorld _ _ (w_db w) (w_redis w) (r :: w_lifecycle w) (w_io w) (w_next_id w) (w_tick w).
Definition log_io (i : io) (w : World) : World :=
  mkWorld _ _ (w_db w) (w_redis w) (w_lifecycle w) (i :: w_io w) (w_next_id w) (w_tick w).

(** [datetime.now(UTC)] and [func.now()], as microseconds. *)
Definition now : M Z := fun w => (Ok (clock (w_tick w)), tick w).

(** [time.perf_counter()], [time.monotonic()]. *)
Definition perf : M Z := fun w => (Ok (perf_counter (w_tick w)), tick w).

(** [uuid4()]: an identifier not used before. *)
Definition uuid4 : M Z := fun w =>
  (Ok (w_next_id w),
   mkWorld _ _ (w_db w) (w_redis w) (w_lifecycle w) (w_io w) (w_next_id w + 1) (w_tick w)).

Definition new_token : M str := fun w => (Ok (token_urlsafe (w_tick w)), tick w).

(** One statement sent to the database; it may read the server's clock. *)
Definition stmt {A} (f : Z -> Db -> res A * Db) : M A := fun w =>
  if db_up (w_tick w)
  then let '(r, d) := f (clock (w_tick w)) (w_db w) in (r, tick (with_db d w))
  else (Raise OperationalError, tick w).

(** [async with self._database.session()]. *)
Definition session {A} (body : M A) : M A := fun w =>
  match body w with
  | (Ok a, w') =>
      if db_up (w_tick w') then (Ok a, tick w')
      else (Raise OperationalError, tick (with_db (w_db w) w'))
  | (Raise e, w') => (Raise e, with_db (w_db w) w')
  end.

(** One command sent to Redis. *)
Definition redis (c : command) : M reply := fun w =>
  let '(r, s) := redis_exec (clock (w_tick w)) c (w_redis w) in
  (match r with Some x => Ok x | None => Raise RedisError end, tick (with_redis s w)).

(** One HTTP request, and one awaited sleep. *)
Definition http (q : HttpRequest) : M HttpOutcome := fun w =>
  (Ok (transport (w_io w) q), tick (log_io (IoHttp q) w)).
Definition sleep (microseconds : Z) : M unit := fun w =>
  (Ok tt, tick (log_io (IoSleep microseconds) w)).

(** *** [LifecycleObserver.emit] *)

Definition emit_record (r : LifecycleRecord) : M unit := fun w =>
  match construct r with
  | Ok r' => (Ok tt, log_event r' w)
  | Raise e => (Raise e, w)
  end.

Definition emit (event : LifecycleEvent) (trace_id component : str) (outcome : EventOutcome)
    (started_at : option Z) (error_code : option str)
    (confirmed_count unavailable_count : option Z) : M unit :=
  duration ← match started_at with
             | None => mret 0
             | Some s => t ← perf; mret (duration_ms t s)
             end;
  emit_record {| lr_event := event; lr_trace_id := trace_id; lr_component := component;
                 lr_outcome := outcome; lr_duration_ms := duration;
                 lr_error_code := error_code; lr_confirmed_count := confirmed_count;
                 lr_unavailable_count := unavailable_count |}.

(** [LifecycleObserver.started_at]. *)
Definition started_at : M Z := perf.
End monad.

(** ** Reasoning *)

Section reasoning.
Context `{SqlEngine} `{RedisServer} `{Env}.

Lemma bind_run {A B} (f : A -> M B) (m : M A) w :
  (m ≫= f) w = match m w with
               | (Ok a, w') => f a w'
               | (Raise e, w') => (Raise e, w')
               end.
Proof. done. Qed.

(** A run from its answer. *)
Lemma run_fst {A} (m : M A) w r : (m w).1 = r -> m w = (r, (m w).2).
Proof. by destruct (m w); intros <-. Qed.

Lemma bind_ok_inv {A B} (f : A -> M B) (m : M A) w b w' :
  (m ≫= f) w = (Ok b, w') -> exists a w1, m w = (Ok a, w1) /\ f a w1 = (Ok b, w').
Proof. rewrite bind_run. destruct (m w) as [[a|e] w1]; [eauto|done]. Qed.

Lemma bind_ok_run {A B} (f : A -> M B) (m : M A) w a w1 :
  m w = (Ok a, w1) -> (m ≫= f) w = f a w1.
Proof. intros Hm. by rewrite bind_run, Hm. Qed.

Lemma bind_raise_run {A B} (f : A -> M B) (m : M A) w e w1 :
  m w = (Raise e, w1) -> (m ≫= f) w = (Raise e, w1).
Proof. intros Hm. by rewrite bind_run, Hm. Qed.

(** *** Relations kept by a computation

    [keeps R m]: every run of [m] relates its initial and final worlds by
    [R], whatever the environment answers.  With [R w w' := I w -> I w'] it
    says that [m] preserves the invariant [I]. *)
Section keeps.
Context (R : relation World) `{!PreOrder R}.

Definition keeps {A} (m : M A) : Prop := forall w, R w (m w).2.

Lemma keeps_ret {A} (a : A) : keeps (mret a).
Proof. intros w. cbn. done. Qed.

Lemma keeps_raise {A} e : keeps (raise (A:=A) e).
Proof. intros w. cbn. done. Qed.

Lemma keeps_lift {A} (r : res A) : keeps (lift r).
Proof. intros w. cbn. done. Qed.

Lemma keeps_bind {A B} (m : M A) (f : A -> M B) :
  keeps m -> (forall a, keeps (f a)) -> keeps (m ≫= f).
Proof.
  intros Hm Hf w. rewrite bind_run. specialize (Hm w).
  destruct (m w) as [[a|e] w']; cbn in *; [|done].
  etrans; [exact Hm|apply Hf].
Qed.

Lemma keeps_try {A} (m : M A) (h : exn -> option (M A)) :
  keeps m -> (forall e m', h e = Some m' -> keeps m') -> keeps (try_except m h).
Proof.
  intros Hm Hh w. unfold try_except. specialize (Hm w).
  destruct (m w) as [[a|e] w']; cbn in *; [done|].
  destruct (h e) as [m'|] eqn:He; [|done]. etrans; [exact Hm|by eapply Hh].
Qed.

Lemma keeps_finally {A} (m : M A) (f : M unit) :
  keeps m -> keeps f -> keeps (try_finally m f).
Proof.
  intros Hm Hf w. unfold try_finally. specialize (Hm w).
  destruct (m w) as [r w1]. specialize (Hf w1).
  destruct (f w1) as [[[]|e] w2]; cbn in *; by etrans.
Qed.

Lemma keeps_map {A B} (f : A -> M B) l : (forall a, keeps (f a)) -> keeps (m_map f l).
Proof.
  intros Hf. induction l as [|x l IH]; cbn [m_map]; [apply keeps_ret|].
  apply keeps_bind; [done|]. intros y. apply keeps_bind; [done|]. intros ys. apply keeps_ret.
Qed.

Lemma keeps_if {A} (b : bool) (m1 m2 : M A) :
  keeps m1 -> keeps m2 -> keeps (if b then m1 else m2).
Proof. by destruct b. Qed.
End keeps.
End reasoning.

#[export] Hint Resolve keeps_ret keeps_raise keeps_lift keeps_if : piki.

(** Inversion of a run of a bind, and stepping a run whose first part is known. *)
Ltac m_inv H :=
  let a := fresh "a" in let w1 := fresh "w" in let H1 := fresh "Hrun" in
  apply bind_ok_inv in H as (a & w1 & H1 & H).

Tactic Notation "m_inv" hyp(H) "as" simple_intropattern(p) ident(w1) ident(H1) :=
  apply bind_ok_inv in H as (p & w1 & H1 & H).

Ltac m_step := erewrite bind_ok_run; [|eassumption || reflexivity].
