(* ===== verification/Session.v ===== *)
(** * Statements

    The statements the repositories build with SQLAlchemy, on any table of the
    database: INSERT with an ON CONFLICT DO NOTHING or DO UPDATE target, UPDATE ... WHERE
    ... RETURNING id, SELECT, and the result accessors [one] and
    [one_or_none]. *)
From S2P Require Import Prelude PyStr Errors Contracts Events Sql Redis Models World.

Local Open Scope Z_scope.

Section statements.
Context `{SqlEngine} `{RedisServer} `{Env} {R : Type} `{!InDb R}.

(** INSERT ... RETURNING: the stored row, or [None] when the conflict target
    made the statement do nothing. [mk] builds the row from the server's
    clock, [fk] tests its foreign keys. *)
Definition insert_row (arbiter unique : R -> R -> bool) (fk : Db -> bool) (k : Z) (mk : Z -> R)
    : M (option R) :=
  stmt (fun t d =>
    let r := mk t in
    if negb (row_fits r) then (Raise DataError, d)
    else match sql_insert arbiter unique (fk d) k r (tbl d) with
         | (Inserted, tb) => (Ok (Some r), set_tbl tb d)
         | (Skipped, _) => (Ok None, d)
         | (Violation, _) => (Raise IntegrityError, d)
         end).

(** INSERT ... ON CONFLICT (arbiter) DO UPDATE SET f ... RETURNING id: the
    stored row, or the rows in conflict, updated. *)
Definition upsert_returning (arbiter unique : R -> R -> bool) (fk : Db -> bool) (k : Z)
    (mk : Z -> R) (f : Z -> R -> R) : M (list Z) :=
  stmt (fun t d =>
    let r := mk t in
    if negb (row_fits r) then (Raise DataError, d)
    else match sql_insert arbiter unique (fk d) k r (tbl d) with
         | (Inserted, tb) => (Ok [k], set_tbl tb d)
         | (Violation, _) => (Raise IntegrityError, d)
         | (Skipped, _) =>
             let hit := sql_select (fun _ s => arbiter r s) unordered (tbl d) in
             if existsb (fun ks => negb (row_fits (f t ks.2))) hit then (Raise DataError, d)
             else (Ok hit.*1, set_tbl (sql_update (fun _ s => arbiter r s) (f t) (tbl d)) d)
         end).

(** UPDATE ... WHERE p ... RETURNING id. *)
Definition update_returning (p : Z -> R -> bool) (f : Z -> R -> R) : M (list Z) :=
  stmt (fun t d =>
    let hit := sql_select p unordered (tbl d) in
    if existsb (fun kr => negb (row_fits (f t kr.2))) hit then (Raise DataError, d)
    else (Ok hit.*1, set_tbl (sql_update p (f t) (tbl d)) d)).

Definition select (p : Z -> R -> bool) (le : Z * R -> Z * R -> bool) : M (list (Z * R)) :=
  stmt (fun _ d => (Ok (sql_select p le (tbl d)), d)).
End statements.

(** [.one_or_none()] and [.one()]. *)
Definition one_or_none {A} (l : list A) : res (option A) :=
  match l with
  | [] => Ok None
  | [x] => Ok (Some x)
  | _ => Raise MultipleResultsFound
  end.

Definition one {A} (l : list A) : res A :=
  match l with
  | [] => Raise NoResultFound
  | [x] => Ok x
  | _ => Raise MultipleResultsFound
  end.

Lemma one_inv {A} (l : list A) a : one l = Ok a -> l = [a].
Proof. destruct l as [|x [|]]; simpl; naive_solver. Qed.
Lemma one_or_none_some {A} (l : list A) a : one_or_none l = Ok (Some a) -> l = [a].
Proof. destruct l as [|x [|]]; simpl; naive_solver. Qed.
Lemma one_or_none_none {A} (l : list A) : one_or_none l = Ok None -> l = [].
Proof. destruct l as [|x [|]]; simpl; naive_solver. Qed.

Lemma fst_one_inv {A B} (l : list (A * B)) k : [k] = l.*1 -> exists r, l = [(k, r)].
Proof. destruct l as [|[k' r] [|]]; simpl; intros; simplify_eq; eauto. Qed.

Section reasoning.
Context `{SqlEngine} `{RedisServer} `{Env}.

(** *** Relations on the database kept by a computation *)
Section keeps_db.
Context (Rd : relation Db) `{!PreOrder Rd}.

Definition db_rel : relation World := fun w w' => Rd (w_db w) (w_db w').

#[export] Instance db_rel_preorder : PreOrder db_rel.
Proof.
  split.
  - intros w. unfold db_rel. done.
  - intros w1 w2 w3. unfold db_rel. apply transitivity.
Qed.

Abbreviation keeps_db m := (keeps db_rel m).

Lemma keeps_db_session {A} (body : M A) : keeps_db body -> keeps_db (session body).
Proof.
  intros Hb w. unfold session. specialize (Hb w). unfold db_rel in *.
  destruct (body w) as [[a|e] w']; cbn in *; [|done].
  by destruct (db_up _).
Qed.

Lemma keeps_db_stmt {A} (f : Z -> Db -> res A * Db) :
  (forall t d, Rd d (f t d).2) -> keeps_db (stmt f).
Proof.
  intros Hf w. unfold stmt, db_rel. destruct (db_up _); cbn; [|done].
  specialize (Hf (clock (w_tick w)) (w_db w)). by destruct (f _ _).
Qed.

Lemma keeps_db_now : keeps_db now.
Proof. intros w. unfold db_rel. done. Qed.
Lemma keeps_db_perf : keeps_db perf.
Proof. intros w. unfold db_rel. done. Qed.
Lemma keeps_db_started_at : keeps_db started_at.
Proof. apply keeps_db_perf. Qed.
Lemma keeps_db_uuid4 : keeps_db uuid4.
Proof. intros w. unfold db_rel. done. Qed.
Lemma keeps_db_token : keeps_db new_token.
Proof. intros w. unfold db_rel. done. Qed.
Lemma keeps_db_http q : keeps_db (http q).
Proof. intros w. unfold db_rel. done. Qed.
Lemma keeps_db_sleep t : keeps_db (sleep t).
Proof. intros w. unfold db_rel. done. Qed.
Lemma keeps_db_redis c : keeps_db (redis c).
Proof.
  intros w. unfold redis, db_rel. by destruct (redis_exec _ _ _) as [[r|] s]; cbn.
Qed.
Lemma keeps_db_emit_record r : keeps_db (emit_record r).
Proof. intros w. unfold emit_record, db_rel. by destruct (construct r). Qed.
Lemma keeps_db_emit ev tr co ou st er cc uc : keeps_db (emit ev tr co ou st er cc uc).
Proof.
  unfold emit. apply keeps_bind; [apply _| |intros; apply keeps_db_emit_record].
  destruct st; [|apply keeps_ret, _].
  apply keeps_bind; [apply _|apply keeps_db_perf|]. intros. apply keeps_ret, _.
Qed.

Lemma keeps_db_select {R} `{!InDb R} (p : Z -> R -> bool) le : keeps_db (select p le).
Proof. apply keeps_db_stmt. intros. cbn. done. Qed.
End keeps_db.

(** *** Running statements *)

Lemma stmt_up {A} (f : Z -> Db -> res A * Db) w :
  db_up (w_tick w) = true ->
  stmt f w = let '(r, d) := f (clock (w_tick w)) (w_db w) in (r, tick (with_db d w)).
Proof. intros Hup. unfold stmt. by rewrite Hup. Qed.

Lemma lift_ok_inv {A} (r : res A) w a w' : lift r w = (Ok a, w') -> r = Ok a /\ w' = w.
Proof. unfold lift. naive_solver. Qed.
Lemma ret_ok_inv {A} (b a : A) w w' :
  (mret b : M A) w = (Ok a, w') -> a = b /\ w' = w.
Proof. by intros [= <- <-]. Qed.

Lemma now_inv w a w' : now w = (Ok a, w') -> w_db w' = w_db w.
Proof. by intros [= <- <-]. Qed.
Lemma uuid4_inv w a w' : uuid4 w = (Ok a, w') -> w_db w' = w_db w.
Proof. by intros [= <- <-]. Qed.

Lemma session_ok {A} (body : M A) w a w' :
  body w = (Ok a, w') -> db_up (w_tick w') = true -> session body w = (Ok a, tick w').
Proof. intros Hb Hup. unfold session. by rewrite Hb, Hup. Qed.

Lemma session_ok_inv {A} (body : M A) w a w' :
  session body w = (Ok a, w') -> exists w1, body w = (Ok a, w1) /\ w' = tick w1.
Proof.
  unfold session. destruct (body w) as [[b|e] w1] eqn:Hb; [|done].
  destruct (db_up _); [|done]. intros [= -> <-]. eauto.
Qed.

Lemma session_raise_db {A} (body : M A) w e w' :
  session body w = (Raise e, w') -> w_db w' = w_db w.
Proof.
  unfold session. destruct (body w) as [[b|e'] w1] eqn:Hb.
  - destruct (db_up _); [done|]. by intros [= <- <-].
  - by intros [= <- <-].
Qed.

Lemma with_db_same (w : World) : with_db (w_db w) w = w.
Proof. by destruct w. Qed.

(** *** Runs while the database answers *)

Lemma select_up {R} `{!InDb R} (p : Z -> R -> bool) le w :
  db_up (w_tick w) = true ->
  select p le w = (Ok (sql_select p le (tbl (w_db w))), tick w).
Proof. intros Hup. unfold select. rewrite stmt_up by done. by rewrite with_db_same. Qed.

Lemma insert_skip_up {R} `{!InDb R} (a un : R -> R -> bool) fk k mk w :
  db_up (w_tick w) = true -> (forall t, row_fits (mk t) = true) ->
  (forall t, conflicts a (mk t) (rows (tbl (w_db w))) = true) ->
  exists d, insert_row a un fk k mk w = (Ok None, tick (with_db d w)) /\ d = w_db w.
Proof.
  intros Hup Hfit Hc. unfold insert_row. rewrite stmt_up by done. rewrite Hfit. cbn [negb].
  pose proof (insert_skipped a un (fk (w_db w)) k (mk (clock (w_tick w))) _ (Hc _)) as [Ho _].
  destruct (sql_insert _ _ _ _ _ _) as [o tb]. cbn in Ho. subst o. eauto.
Qed.

Lemma session_up {A} (body : M A) w a w' :
  (forall n, db_up n = true) -> body w = (Ok a, w') -> session body w = (Ok a, tick w').
Proof. intros Hup Hb. by apply session_ok. Qed.

Lemma emit_counts_up ev tr co ou st er cc uc w :
  1 <= py_len tr <= 128 -> 1 <= py_len co <= 100 -> opt_len_in 0 100 er = true ->
  opt_nonneg cc = true -> opt_nonneg uc = true ->
  exists w', emit ev tr co ou st er cc uc w = (Ok tt, w') /\ w_db w' = w_db w.
Proof.
  intros Htr Hco Her Hcc Huc.
  assert (forall d w, 0 <= d -> exists w',
    emit_record {| lr_event := ev; lr_trace_id := tr; lr_component := co; lr_outcome := ou;
                   lr_duration_ms := d; lr_error_code := er; lr_confirmed_count := cc;
                   lr_unavailable_count := uc |} w = (Ok tt, w') /\ w_db w' = w_db w) as Hrec.
  { intros d w0 Hd. unfold emit_record. rewrite construct_good; [eauto|].
    unfold contract_ok. cbn. rewrite Her, Hcc, Huc, !andb_true_r, !andb_true_iff, !len_in_spec,
      Z.leb_le. done. }
  unfold emit. destruct st as [s|]; rewrite bind_run; cbn; [|by apply (Hrec 0 w)].
  apply (Hrec _ (tick w)). unfold duration_ms. lia.
Qed.

Lemma emit_up ev tr co ou st er w :
  1 <= py_len tr <= 128 -> 1 <= py_len co <= 100 -> opt_len_in 0 100 er = true ->
  exists w', emit ev tr co ou st er None None w = (Ok tt, w') /\ w_db w' = w_db w.
Proof. intros. by apply emit_counts_up. Qed.

Lemma select_ok_inv {R} `{!InDb R} (p : Z -> R -> bool) le w l w' :
  select p le w = (Ok l, w') ->
  l = sql_select p le (tbl (w_db w)) /\ w_db w' = w_db w.
Proof.
  unfold select, stmt. destruct (db_up _); [|done]. by intros [= <- <-].
Qed.

(** A SELECT that found exactly one row, and one that found none. *)
Lemma select_one_inv {R} `{!InDb R} (p : Z -> R -> bool) le d k r :
  sql_select p le (tbl d) = [(k, r)] ->
  rows (tbl d) !! k = Some r /\ p k r = true /\
  forall k' r', rows (tbl d) !! k' = Some r' -> p k' r' = true -> k' = k.
Proof.
  intros Hs. assert ((k, r) ∈ sql_select p le (tbl d)) as Hin by (rewrite Hs; set_solver).
  apply elem_of_select in Hin as [Hk Hp]. split_and!; [done|done|].
  intros k' r' Hk' Hp'. assert ((k', r') ∈ sql_select p le (tbl d)) as Hin
    by by apply elem_of_select. rewrite Hs in Hin. apply list_elem_of_singleton in Hin. naive_solver.
Qed.

Lemma insert_ok_inv {R} `{!InDb R} (a un : R -> R -> bool) fk k mk w o w' :
  insert_row a un fk k mk w = (Ok o, w') ->
  (exists r t, r = mk t /\ o = Some r /\ row_fits r = true /\ fk (w_db w) = true /\
     rows (tbl (w_db w)) !! k = None /\ conflicts a r (rows (tbl (w_db w))) = false /\
     conflicts un r (rows (tbl (w_db w))) = false /\
     exists tb, w_db w' = set_tbl tb (w_db w) /\ rows tb = <[k := r]> (rows (tbl (w_db w)))) \/
  (o = None /\ w_db w' = w_db w /\
     exists t, conflicts a (mk t) (rows (tbl (w_db w))) = true).
Proof.
  unfold insert_row, stmt. destruct (db_up _); [|done]. cbn zeta.
  destruct (negb (row_fits _)) eqn:Hf; [done|]. bools.
  pose proof (insert_cases a un (fk (w_db w)) k (mk (clock (w_tick w))) (tbl (w_db w))) as Hc.
  destruct (sql_insert _ _ _ _ _ _) as [oc tb].
  destruct Hc as [(-> & Hr & Hc)|[(-> & Hr & Hc)|(-> & Hr & Hk & Ha & Hu & Hfk)]]; [|done|].
  - intros [= <- <-]. right. eauto.
  - intros [= <- <-]. left. do 2 eexists. split_and!; try done. eauto.
Qed.

Lemma insert_up {R} `{!InDb R} (a un : R -> R -> bool) fk k mk w :
  db_up (w_tick w) = true -> row_fits (mk (clock (w_tick w))) = true ->
  conflicts a (mk (clock (w_tick w))) (rows (tbl (w_db w))) = false ->
  conflicts un (mk (clock (w_tick w))) (rows (tbl (w_db w))) = false ->
  rows (tbl (w_db w)) !! k = None -> fk (w_db w) = true ->
  exists tb, insert_row a un fk k mk w =
      (Ok (Some (mk (clock (w_tick w)))), tick (with_db (set_tbl tb (w_db w)) w)) /\
    rows tb = <[k := mk (clock (w_tick w))]> (rows (tbl (w_db w))).
Proof.
  intros Hup Hfit Ha Hu Hk Hfk. unfold insert_row. rewrite stmt_up by done. rewrite Hfit, Hfk.
  cbn [negb]. pose proof (insert_done a un k _ _ Hk Ha Hu) as [Ho Hr].
  destruct (sql_insert _ _ _ _ _ _) as [o tb]. cbn in Ho, Hr. subst o. eauto.
Qed.

Lemma upsert_ok_inv {R} `{!InDb R} (a un : R -> R -> bool) fk k mk f w ids w' :
  upsert_returning a un fk k mk f w = (Ok ids, w') ->
  exists t tb, w_db w' = set_tbl tb (w_db w) /\
    ((ids = [k] /\ row_fits (mk t) = true /\ fk (w_db w) = true /\
    rows (tbl (w_db w)) !! k = None /\ conflicts a (mk t) (rows (tbl (w_db w))) = false /\
    rows tb = <[k := mk t]> (rows (tbl (w_db w)))) \/
     (ids = (sql_select (fun _ s => a (mk t) s) unordered (tbl (w_db w))).*1 /\
    rows tb = update_spec (fun _ s => a (mk t) s) (f t) (rows (tbl (w_db w))))).
Proof.
  unfold upsert_returning, stmt. destruct (db_up _); [|done]. cbn zeta.
  destruct (negb (row_fits _)) eqn:Hf; [done|]. bools.
  pose proof (insert_cases a un (fk (w_db w)) k (mk (clock (w_tick w))) (tbl (w_db w))) as Hc.
  destruct (sql_insert _ _ _ _ _ _) as [oc tb].
  destruct Hc as [(-> & _ & _)|[(-> & _ & _)|(-> & Hr & Hk & Ha & _ & Hfk)]]; [|done|].
  - destruct (existsb _ _); [done|]. intros [= <- <-]. do 2 eexists. split; [done|]. right.
    split; [done|]. apply sql_update_law.
  - intros [= <- <-]. do 2 eexists. split; [done|]. left. done.
Qed.

(** The statement on a fresh key, and on a key held by one row. *)
Lemma upsert_new_up {R} `{!InDb R} (a un : R -> R -> bool) fk k mk f w :
  db_up (w_tick w) = true -> row_fits (mk (clock (w_tick w))) = true ->
  conflicts a (mk (clock (w_tick w))) (rows (tbl (w_db w))) = false ->
  conflicts un (mk (clock (w_tick w))) (rows (tbl (w_db w))) = false ->
  rows (tbl (w_db w)) !! k = None -> fk (w_db w) = true ->
  exists tb, upsert_returning a un fk k mk f w =
      (Ok [k], tick (with_db (set_tbl tb (w_db w)) w)) /\
    rows tb = <[k := mk (clock (w_tick w))]> (rows (tbl (w_db w))).
Proof.
  intros Hup Hfit Ha Hu Hk Hfk. unfold upsert_returning. rewrite stmt_up by done.
  rewrite Hfit, Hfk. cbn [negb]. pose proof (insert_done a un k _ _ Hk Ha Hu) as [Ho Hr].
  destruct (sql_insert _ _ _ _ _ _) as [o tb]. cbn in Ho, Hr. subst o. eauto.
Qed.

Lemma upsert_old_up {R} `{!InDb R} (a un : R -> R -> bool) fk k mk f w k0 r0 :
  db_up (w_tick w) = true -> row_fits (mk (clock (w_tick w))) = true ->
  rows (tbl (w_db w)) !! k0 = Some r0 -> a (mk (clock (w_tick w))) r0 = true ->
  (forall k' r', rows (tbl (w_db w)) !! k' = Some r' -> a (mk (clock (w_tick w))) r' = true ->
     k' = k0) ->
  row_fits (f (clock (w_tick w)) r0) = true ->
  exists tb, upsert_returning a un fk k mk f w =
      (Ok [k0], tick (with_db (set_tbl tb (w_db w)) w)) /\
    rows tb = <[k0 := f (clock (w_tick w)) r0]> (rows (tbl (w_db w))).
Proof.
  intros Hup Hfit Hk Ha Hu Hfit'. unfold upsert_returning. rewrite stmt_up by done.
  rewrite Hfit. cbn [negb].
  pose proof (insert_skipped a un (fk (w_db w)) k (mk (clock (w_tick w))) (tbl (w_db w))) as Hs.
  destruct (sql_insert _ _ _ _ _ _) as [o tb].
  destruct Hs as [Ho _]; [apply conflicts_true; eauto|]. cbn in Ho. subst o.
  rewrite (select_unique _ _ _ k0 r0) by done. cbn. rewrite Hfit'. cbn.
  eexists. split; [done|]. rewrite sql_update_law. by apply update_spec_key.
Qed.

(** UPDATE of the row of a primary key. *)
Lemma update_up {R} `{!InDb R} (p : Z -> R -> bool) f w k r :
  db_up (w_tick w) = true -> rows (tbl (w_db w)) !! k = Some r -> p k r = true ->
  (forall k' r', rows (tbl (w_db w)) !! k' = Some r' -> p k' r' = true -> k' = k) ->
  row_fits (f (clock (w_tick w)) r) = true ->
  exists tb, update_returning p f w = (Ok [k], tick (with_db (set_tbl tb (w_db w)) w)) /\
    rows tb = <[k := f (clock (w_tick w)) r]> (rows (tbl (w_db w))).
Proof.
  intros Hup Hk Hp Hu Hfit. unfold update_returning. rewrite stmt_up by done.
  rewrite (select_unique _ _ _ k r) by done. cbn. rewrite Hfit. cbn.
  eexists. split; [done|]. rewrite sql_update_law. by apply update_spec_key.
Qed.

Lemma update_ok_inv {R} `{!InDb R} (p : Z -> R -> bool) f w ids w' :
  update_returning p f w = (Ok ids, w') ->
  exists t tb, ids = (sql_select p unordered (tbl (w_db w))).*1 /\
    w_db w' = set_tbl tb (w_db w) /\ rows tb = update_spec p (f t) (rows (tbl (w_db w))).
Proof.
  unfold update_returning, stmt. destruct (db_up _); [|done].
  destruct (existsb _ _); [done|]. intros [= <- <-].
  do 2 eexists. split_and!; [done|done|]. apply sql_update_law.
Qed.
End reasoning.

(** [keeps_db R m]: every run of [m] relates its initial and final databases
    by [R]. *)
Abbreviation keeps_db R m := (keeps (db_rel R) m).

#[export] Hint Resolve keeps_db_now keeps_db_perf keeps_db_started_at keeps_db_uuid4 keeps_db_token keeps_db_http
  keeps_db_sleep keeps_db_redis keeps_db_emit_record keeps_db_emit keeps_db_select
  keeps_db_session : piki.

(** Splits [keeps_db] of a program along its binds, matches and sessions. *)
Ltac keeps_step :=
  first
    [ progress intros
    | solve [auto with piki]
    | solve [first [apply keeps_db_uuid4 | apply keeps_db_now | apply keeps_db_perf
                   | apply keeps_db_started_at | apply keeps_db_token | apply keeps_db_http
                   | apply keeps_db_sleep | apply keeps_db_redis | apply keeps_db_select
                   | apply keeps_db_emit | apply keeps_db_emit_record]; apply _]
    | apply keeps_bind; [apply _| |]
    | apply keeps_try; [apply _| |]
    | apply keeps_finally; [apply _| |]
    | apply keeps_db_session; [apply _|]
    | apply keeps_map; [apply _|]
    | apply keeps_ret, _ | apply keeps_raise, _ | apply keeps_lift, _
    | match goal with |- keeps _ (match ?x with _ => _ end) => destruct x eqn:? end
      | progress simplify_eq/= ].
Ltac keeps_auto := repeat keeps_step.
