(* ===== verification/State.v ===== *)
(** * Shared parts of the Redis stores ([src/piki/state])

    The scope of a conversation and its digest, commands that catch
    [RedisError], the JSON codec of the stored models as an interface, and the
    frame of a key: what it means for a computation to leave the value of a key
    alone until it expires. *)
From S2P Require Import Prelude PyStr Errors Sha256 Contracts Events Sql Redis Models.
From S2P Require Import World Session.

Local Open Scope Z_scope.

Record ConversationScope := {
  sc_channel : Channel;
  sc_channel_account_id : str;
  sc_conversation_id : str
}.
#[export] Instance ConversationScope_eq_dec : EqDecision ConversationScope.
Proof. solve_decision. Defined.
#[export] Instance ConversationScope_contract : Contract ConversationScope := {|
  fields_ok s := len_in 1 255 (sc_channel_account_id s) && len_in 1 255 (sc_conversation_id s);
  model_validator _ := None
|}.

(** The separator of the parts of an identity, the control character 0x1f. *)
Definition unit_separator : str := [31].

Definition scope_identity (scope : ConversationScope) : str :=
  join unit_separator
    [enum_value (sc_channel scope); sc_channel_account_id scope; sc_conversation_id scope].

Definition conversation_scope_digest (scope : ConversationScope) : str :=
  hexdigest (sha256 (encode (scope_identity scope))).

(** [f] of pydantic's JSON serialisation of a model: [model_dump_json] and
    [model_validate_json], the second undoing the first on valid instances.
    [None] stands for the [ValidationError]. *)
Class JsonCodec (A : Type) `{Contract A} := {
  model_dump_json : A -> str;
  model_validate_json : str -> option A;
  codec_roundtrip a : contract_ok a = true -> model_validate_json (model_dump_json a) = Some a;
  codec_valid s a : model_validate_json s = Some a -> contract_ok a = true
}.

Section commands.
Context `{SqlEngine} `{RedisServer} `{Env}.

(** [try: reply = await command; except RedisError: ...]; [None] is the
    failure. *)
Definition redis_try (c : command) : M (option reply) :=
  try_except (r ← redis c; mret (Some r))
    (fun e => match e with RedisError => Some (mret None) | _ => None end).

(** The text a GET or GETDEL answers: [None] for a missing key. *)
Definition reply_text (r : reply) : option str :=
  match r with RepStr s => Some s | _ => None end.

(** The effect of a command on the data set, and its reply. *)
Lemma redis_try_run c w :
  exists o w', redis_try c w = (Ok o, w') /\ w_db w' = w_db w /\ w_tick w' = S (w_tick w) /\
    match o with
    | Some r => (r, dump (w_redis w')) = redis_spec (clock (w_tick w)) c (dump (w_redis w))
    | None => dump (w_redis w') = dump (w_redis w) \/
              dump (w_redis w') = (redis_spec (clock (w_tick w)) c (dump (w_redis w))).2
    end.
Proof.
  unfold redis_try, try_except. rewrite bind_run. unfold redis.
  destruct (redis_exec (clock (w_tick w)) c (w_redis w)) as [[r|] s] eqn:Hx.
  - apply redis_exec_ok in Hx. cbn. eauto 10.
  - apply redis_exec_err in Hx. cbn. eauto 10.
Qed.

(** *** Keys left alone

    [key_frame k v e]: while the server's clock stays before [e], a
    computation that starts with the value [v] of the key [k], due at [e],
    ends with it. *)
Definition key_frame (k v : str) (e : Z) : relation World := fun w w' =>
  (w_tick w <= w_tick w')%nat /\
  ((forall n, (w_tick w <= n < w_tick w')%nat -> clock n < e) ->
   dump (w_redis w) !! k = Some (v, e) -> dump (w_redis w') !! k = Some (v, e)).

#[export] Instance key_frame_preorder k v e : PreOrder (key_frame k v e).
Proof.
  split.
  - intros w. split; [lia|auto].
  - intros w1 w2 w3 [Ht1 H12] [Ht2 H23]. split; [lia|]. intros Hc Hk.
    apply H23; [intros n Hn; apply Hc; lia|]. apply H12; [intros n Hn; apply Hc; lia|done].
Qed.

(** Commands that leave the live value of a key alone. *)
Definition spares (k v : str) (c : command) : Prop :=
  match c with
  | CSet key _ _ nx => key <> k \/ nx = true
  | CGet _ | CPing => True
  | CGetDel key | CDel key => key <> k
  | CEval script key arg => key <> k \/ (script = LuaIfGetEq LuaReturnDel (LuaReturn 0) /\ arg <> v)
  end.

Lemma redis_spec_spares now c m k v e :
  spares k v c -> now < e -> m !! k = Some (v, e) -> (redis_spec now c m).2 !! k = Some (v, e).
Proof.
  intros Hs Hnow Hk. assert (live now m k = Some v) as Hl.
  { unfold live. rewrite Hk. by rewrite (proj2 (Z.ltb_lt _ _) Hnow). }
  destruct c as [key value ex nx|key|key|key|script key arg|]; cbn in *; [| | | | |done].
  - destruct (decide (key = k)) as [->|Hne].
    + destruct Hs as [Hf| ->]; [done|]. rewrite Hl. by rewrite bool_decide_true by eauto.
    + destruct (nx && _); cbn; [done|]. by rewrite lookup_insert_ne.
  - done.
  - by rewrite lookup_delete_ne.
  - by rewrite lookup_delete_ne.
  - destruct (decide (key = k)) as [->|Hne].
    + destruct Hs as [|[-> Harg]]; [done|]. cbn. rewrite Hl, bool_decide_false by congruence. done.
    + assert (forall s m', m' !! k = Some (v, e) -> (eval_lua now s key arg m').2 !! k = Some (v, e))
        as Heval.
      { induction s; intros m' Hm'; cbn; [case_bool_decide; auto| |done].
        by rewrite lookup_delete_ne. }
      by apply Heval.
Qed.

Lemma keeps_key_try k v e c : spares k v c -> keeps (key_frame k v e) (redis_try c).
Proof.
  intros Hs w. destruct (redis_try_run c w) as (o & w' & -> & _ & Ht & Ho). cbn.
  split; [lia|]. intros Hc Hk. assert (clock (w_tick w) < e) as Hnow by (apply Hc; lia).
  destruct o as [r|].
  - replace (dump (w_redis w')) with ((redis_spec (clock (w_tick w)) c (dump (w_redis w))).2)
      by by rewrite <- Ho. by apply redis_spec_spares.
  - destruct Ho as [-> | ->]; [done|]. by apply redis_spec_spares.
Qed.

(** *** Keys kept absent *)

(** Commands that do not write a key. *)
Definition no_write (k : str) (c : command) : Prop :=
  match c with CSet key _ _ _ => key <> k | _ => True end.

(** A missing key stays missing. *)
Definition absent_frame (k : str) : relation World := fun w w' =>
  dump (w_redis w) !! k = None -> dump (w_redis w') !! k = None.

#[export] Instance absent_frame_preorder k : PreOrder (absent_frame k).
Proof. split; unfold absent_frame; intros ?; naive_solver. Qed.

Lemma redis_spec_absent now c m k :
  no_write k c -> m !! k = None -> (redis_spec now c m).2 !! k = None.
Proof.
  intros Hs Hk. destruct c as [key value ex nx|key|key|key|script key arg|]; cbn in *; [| | | | |done].
  - destruct (nx && _); cbn; [done|]. by rewrite lookup_insert_ne.
  - done.
  - rewrite lookup_delete_None. auto.
  - rewrite lookup_delete_None. auto.
  - revert m Hk. induction script; intros m Hk; cbn; [case_bool_decide; auto| |done].
    rewrite lookup_delete_None. auto.
Qed.

Lemma keeps_absent_try k c : no_write k c -> keeps (absent_frame k) (redis_try c).
Proof.
  intros Hs w Hk. destruct (redis_try_run c w) as (o & w' & -> & _ & _ & Ho). cbn.
  destruct o as [r|].
  - replace (dump (w_redis w')) with ((redis_spec (clock (w_tick w)) c (dump (w_redis w))).2)
      by by rewrite <- Ho. by apply redis_spec_absent.
  - destruct Ho as [-> | ->]; [done|]. by apply redis_spec_absent.
Qed.

Lemma keeps_key_token k v e : keeps (key_frame k v e) new_token.
Proof. intros w. split; [cbn; lia|done]. Qed.
Lemma keeps_key_now k v e : keeps (key_frame k v e) now.
Proof. intros w. split; [cbn; lia|done]. Qed.
End commands.

(** ** The keys of different stores and scopes *)

Lemma digest_length scope : length (conversation_scope_digest scope) = 64%nat.
Proof. unfold conversation_scope_digest. by rewrite hexdigest_length, sha256_length. Qed.

(** A codec for any countable model, on which the stores are evaluated. *)
Definition countable_parse {A} `{Contract A} `{Countable A} (s : str) : option A :=
  match s with
  | [Z.pos p] => match countable.decode p with
                 | Some a => if contract_ok a then Some a else None
                 | None => None
                 end
  | _ => None
  end.

Program Definition countable_codec {A} `{Contract A} `{Countable A} : JsonCodec A := {|
  model_dump_json a := [Z.pos (countable.encode a)];
  model_validate_json := countable_parse
|}.
Next Obligation. intros A ? ? ? a Hok. unfold countable_parse. by rewrite countable.decode_encode, Hok. Qed.
Next Obligation.
  intros A ? ? ? s a. unfold countable_parse. destruct s as [|[|p|p] [|]]; try done.
  destruct (countable.decode p) as [b|]; [|done]. destruct (contract_ok b) eqn:Hok; [|done].
  by intros [= <-].
Qed.

#[export] Instance datetime_countable : Countable datetime.
Proof.
  apply (inj_countable' (fun d => (dt_us d, dt_aware d)) (fun p => Datetime p.1 p.2)). by intros [].
Defined.
