(* ===== verification/Traffic.v ===== *)
(** * What a computation sends

    The requests of a computation are in the traffic of its world.  [no_io]
    relates worlds with the same traffic, [no_posts] worlds with the same number
    of requests to the Graph API of Meta, which is the provider of
    [integrations/meta/delivery.py]; the statements of a session and the
    commands of Redis send nothing. *)
From S2P Require Import Prelude PyStr Errors Contracts Events Sql Redis Models World Session State.

Local Open Scope Z_scope.

(** The requests to the provider. *)
Definition is_post (i : io) : bool :=
  match i with IoHttp q => bool_decide (hq_service q = SVC_META) | IoSleep _ => false end.
Definition count_posts (l : list io) : nat := length (filter (fun i => is_post i = true) l).

Lemma count_posts_cons i l : count_posts (i :: l) = ((if is_post i then 1 else 0) + count_posts l)%nat.
Proof. unfold count_posts. rewrite filter_cons. by destruct (is_post i). Qed.

Section silent.
Context `{SqlEngine} `{RedisServer} `{Env}.

Definition posts (w : World) : nat := count_posts (w_io w).

Definition no_io : relation World := fun w w' => w_io w' = w_io w.
#[export] Instance no_io_preorder : PreOrder no_io.
Proof. split; unfold no_io; [done|]. intros x y z Hxy Hyz. congruence. Qed.

Lemma no_io_stmt {A} (f : Z -> Db -> res A * Db) : keeps no_io (stmt f).
Proof. intros w. unfold no_io, stmt. destruct (db_up _); [|done]. by destruct (f _ _). Qed.

Lemma no_io_session {A} (body : M A) : keeps no_io body -> keeps no_io (session body).
Proof.
  intros Hb w. specialize (Hb w). unfold no_io, session in *. destruct (body w) as [[a|e] w1]; [|done].
  by destruct (db_up _).
Qed.

Lemma no_io_uuid4 : keeps no_io uuid4.
Proof. by intros w. Qed.

Lemma no_io_redis_try c : keeps no_io (redis_try c).
Proof.
  intros w. unfold no_io, redis_try, try_except. rewrite bind_run. unfold redis.
  by destruct (redis_exec _ _ _) as [[r|] s].
Qed.

Lemma no_io_emit ev tr co ou st er cc uc : keeps no_io (emit ev tr co ou st er cc uc).
Proof.
  unfold emit. apply keeps_bind; [apply _| |].
  - destruct st; [|apply keeps_ret, _]. apply keeps_bind; [apply _|by intros w|]. intros. apply keeps_ret, _.
  - intros d w. unfold no_io, emit_record. by destruct (construct _).
Qed.

(** *** The provider is left alone *)

Definition no_posts : relation World := fun w w' => posts w' = posts w.
#[export] Instance no_posts_preorder : PreOrder no_posts.
Proof. split; unfold no_posts; [done|]. intros x y z Hxy Hyz. congruence. Qed.

Lemma no_io_posts {A} (m : M A) : keeps no_io m -> keeps no_posts m.
Proof. intros Hm w. unfold no_posts, posts. by rewrite (Hm w). Qed.

Lemma http_posts q : hq_service q <> SVC_META -> keeps no_posts (http q).
Proof.
  intros Hq w. unfold no_posts, posts, http. cbn [snd w_io tick log_io]. rewrite count_posts_cons.
  cbn [is_post]. by rewrite bool_decide_eq_false_2.
Qed.

Lemma http_post w q : (posts w <= posts (http q w).2 <= S (posts w))%nat.
Proof.
  unfold posts, http. cbn [snd w_io tick log_io]. rewrite count_posts_cons. destruct (is_post _); lia.
Qed.

Lemma sleep_posts t : keeps no_posts (sleep t).
Proof. by intros w. Qed.

(** A computation that sends the provider one request at most. *)
Definition one_post {A} (m : M A) : Prop :=
  forall w, (posts w <= posts (m w).2 <= S (posts w))%nat.
End silent.

Ltac io_step := first
  [ apply no_io_stmt | apply no_io_uuid4 | apply no_io_redis_try | apply no_io_emit
  | apply no_io_session | apply keeps_ret, _ | apply keeps_raise, _ | apply keeps_lift, _
  | by intros w
  | apply keeps_bind; [apply _| |intros ?]
  | match goal with |- keeps _ (match ?x with _ => _ end) => destruct x end ].
