(* ===== verification/Sample.v ===== *)
(** * A concrete environment

    The engine, server, clocks and rows on which the properties of the other
    files are evaluated. *)
From S2P Require Import Prelude PyStr Errors Contracts Events Sql Redis Models World.

Local Open Scope Z_scope.

Definition sample_env : Env := {|
  clock n := 1700000000000000 + Z.of_nat n;
  perf_counter n := 1000 * Z.of_nat n;
  db_up _ := true;
  transport _ _ := HTimeout;
  token_urlsafe _ := replicate 43 65
|}.

Definition sample_conversation : ConversationRecord := {|
  c_channel := u "whatsapp"; c_channel_account_id := u "phone-1";
  c_external_conversation_id := u "5491"; c_status := u "piki_active";
  c_created_at := 0; c_updated_at := 0
|}.

Section sample.
#[local] Existing Instances map_engine scheduled_server sample_env.

Definition sample_db : Db :=
  mkDb map_engine {[1 := sample_conversation]} ∅ ∅ ∅ ∅.
Definition sample_world : World :=
  mkWorld map_engine scheduled_server sample_db (Scheduled ∅ []) [] [] 100 0.
End sample.

Definition sample_request : DeliveryRequest := {|
  dr_idempotency_key := u "reply:1"; dr_conversation_id := u "5491"; dr_kind := DK_TEXT;
  dr_text := Some (u "hola"); dr_media_url := None; dr_interactive_options := [];
  dr_template_name := None; dr_template_language := None; dr_template_parameters := [];
  dr_customer_service_window := CSW_OPEN; dr_trace_id := u "trace-1"
|}.

Definition sample_result : DeliveryResult := {|
  dres_status := DS_ACCEPTED; dres_provider_message_id := Some (u "wamid.1");
  dres_error_code := None; dres_error_message := None; dres_trace_id := u "trace-1";
  dres_metadata := []
|}.
