(* ===== verification/Health.v ===== *)
(** * The health checks ([src/piki/api/health.py], [src/piki/api/app.py])

    The two pings under their timeout, the probes around them, the report and
    the two endpoints.  [asyncio.timeout] is read as: an operation that takes
    longer than the timeout ends with [TimeoutError]. *)
From Stdlib Require Import QArith.
From S2P Require Import Prelude PyStr Errors Contracts Events Sql Redis Models World Session Sample.

Local Open Scope Z_scope.

Inductive HealthStatus := HS_OK | HS_DEGRADED.
#[export] Instance HealthStatus_eq_dec : EqDecision HealthStatus.
Proof. solve_decision. Defined.
#[export] Program Instance HealthStatus_enum : StrEnum HealthStatus := {|
  enum_all := [HS_OK; HS_DEGRADED];
  enum_value s := match s with HS_OK => u "ok" | HS_DEGRADED => u "degraded" end
|}.
Solve All Obligations with enum_laws.

Record ProbeResult := { pr_status : HealthStatus; pr_detail : str }.
Record HealthReport := {
  hr_status : HealthStatus; hr_service : str; hr_version : str;
  hr_checks : list (str * ProbeResult)
}.

Section health.
Context `{SqlEngine} `{RedisServer} `{Env}.
Variables (service version : str) (timeout_seconds : Q).

(** [async with asyncio.timeout(seconds)], on the monotonic clock. *)
Definition in_time (started finished : Z) : bool :=
  Qle_bool (inject_Z (finished - started)) (timeout_seconds * 1000000).
Definition within_timeout (operation : M unit) : M unit :=
  started ← perf;
  operation;;
  finished ← perf;
  if in_time started finished then mret tt else raise TimeoutError.

(** [SELECT 1] on a connection of the engine. *)
Definition _database_ping : M unit := stmt (fun _ d => (Ok tt, d)).
Definition _redis_ping : M unit := redis CPing;; mret tt.

Definition _probe (name : str) (operation : M unit) : M (str * ProbeResult) :=
  try_except (within_timeout operation;; mret (name, {| pr_status := HS_OK; pr_detail := u "reachable" |}))
    (fun _ => Some (mret (name, {| pr_status := HS_DEGRADED; pr_detail := u "unreachable" |}))).

Definition check : M HealthReport :=
  postgres ← _probe (u "postgres") _database_ping;
  redis ← _probe (u "redis") _redis_ping;
  let checks := [postgres; redis] in
  let status := if forallb (fun result => bool_decide (pr_status result.2 = HS_OK)) checks
                then HS_OK else HS_DEGRADED in
  mret {| hr_status := status; hr_service := service; hr_version := version; hr_checks := checks |}.

(** [GET /health], [GET /health/live]. *)
Definition live : HealthReport :=
  {| hr_status := HS_OK; hr_service := service; hr_version := version;
     hr_checks := [(u "process", {| pr_status := HS_OK; pr_detail := u "running" |})] |}.

(** [GET /health/ready]: the status code of the response and the report in its
    body. *)
Definition ready : M (Z * HealthReport) :=
  report ← check;
  mret (if bool_decide (hr_status report = HS_DEGRADED) then (503, report) else (200, report)).
End health.

(** ** Properties *)

Section properties.
Context `{SqlEngine} `{RedisServer} `{Env}.
Variables (service version : str) (timeout_seconds : Q).

(** The result of a probe whose ping ended like this. *)
Definition probed (ping : res unit) : ProbeResult :=
  match ping with
  | Ok _ => {| pr_status := HS_OK; pr_detail := u "reachable" |}
  | Raise _ => {| pr_status := HS_DEGRADED; pr_detail := u "unreachable" |}
  end.

Lemma probe_run name operation w :
  let '(r, w') := within_timeout timeout_seconds operation w in
  _probe timeout_seconds name operation w = (Ok (name, probed r), w').
Proof.
  destruct (within_timeout timeout_seconds operation w) as [r w'] eqn:Hr.
  unfold _probe, try_except. rewrite bind_run, Hr. by destruct r as [[]|e].
Qed.

(** What the pings leave: tables and keys. *)
Definition same_data : relation World := fun w w' =>
  w_db w' = w_db w /\ dump (w_redis w') = dump (w_redis w).

Lemma database_ping_run w :
  let '(r, w') := _database_ping w in
  (r = Ok tt <-> db_up (w_tick w) = true) /\ same_data w w'.
Proof. unfold _database_ping, stmt. destruct (db_up (w_tick w)); cbn; (split; [naive_solver|by split]). Qed.

Lemma redis_ping_run w :
  let '(r, w') := _redis_ping w in same_data w w'.
Proof.
  unfold _redis_ping. rewrite bind_run. unfold redis.
  destruct (redis_exec (clock (w_tick w)) CPing (w_redis w)) as [[x|] s] eqn:Hx; split; cbn; try done.
  - by apply redis_exec_ok in Hx as [= _ ->].
  - by apply redis_exec_err in Hx as [->| ->].
Qed.

(** A ping is in time exactly when it returned and took no longer than the
    timeout. *)
Lemma within_timeout_run operation w :
  let '(r, w1) := operation (tick w) in
  let '(r', w2) := within_timeout timeout_seconds operation w in
  (r' = Ok tt <-> r = Ok tt /\ in_time timeout_seconds (perf_counter (w_tick w)) (perf_counter (w_tick w1)) = true) /\
  w_db w2 = w_db w1 /\ w_redis w2 = w_redis w1.
Proof.
  destruct (operation (tick w)) as [r w1] eqn:Ho. unfold within_timeout. rewrite bind_run. unfold perf at 1.
  cbv beta iota zeta. rewrite bind_run, Ho. destruct r as [[]|e]; [|split; [naive_solver|done]].
  rewrite bind_run. unfold perf at 1. cbv beta iota zeta. destruct (in_time _ _ _); split; by naive_solver.
Qed.

(** The readiness endpoint never fails and changes nothing: it answers 200
    exactly when PostgreSQL and Redis both answered their ping in time, the
    status of the report saying the same, and 503 otherwise, naming the
    service that did not. *)
Theorem readiness_exact w : exists code report w1 w2,
  let db := (within_timeout timeout_seconds _database_ping w).1 in
  let cache := (within_timeout timeout_seconds _redis_ping w1).1 in
  ready service version timeout_seconds w = (Ok (code, report), w2) /\ same_data w w2 /\
  hr_checks report = [(u "postgres", probed db); (u "redis", probed cache)] /\
  (code = 200 \/ code = 503) /\ (code = 200 <-> db = Ok tt /\ cache = Ok tt) /\
  (hr_status report = HS_OK <-> code = 200) /\
  (code = 200 -> db_up (S (w_tick w)) = true).
Proof.
  pose proof (within_timeout_run _database_ping w) as Hd. pose proof (database_ping_run (tick w)) as Hdp.
  pose proof (probe_run (u "postgres") _database_ping w) as Hpd.
  destruct (_database_ping (tick w)) as [d0 wd]. destruct (within_timeout _ _database_ping w) as [db w1] eqn:Hdw.
  pose proof (within_timeout_run _redis_ping w1) as Hr. pose proof (redis_ping_run (tick w1)) as Hrp.
  pose proof (probe_run (u "redis") _redis_ping w1) as Hpr.
  destruct (_redis_ping (tick w1)) as [r0 wr]. destruct (within_timeout _ _redis_ping w1) as [cache w2] eqn:Hrw.
  destruct Hd as (Hd & Hd1 & Hd2), Hr as (Hr & Hr1 & Hr2), Hdp as (Hup & Hdb & Hdr), Hrp as [Hrd Hrr].
  assert (same_data w w2) as Hsame.
  { split; [by rewrite Hr1, Hrd; cbn; rewrite Hd1, Hdb|]. rewrite Hr2, Hrr. cbn. by rewrite Hd2, Hdr. }
  unfold ready, check. rewrite !bind_run, Hpd, bind_run, Hpr.
  assert (db = Ok tt -> db_up (S (w_tick w)) = true) as Hdb200 by naive_solver.
  clear Hd Hr Hup Hpd Hpr.
  destruct db as [[]|e], cache as [[]|e']; do 2 eexists; exists w1, w2; rewrite Hrw; cbn [fst];
    (split; [reflexivity|]); (split; [exact Hsame|]); cbn; split_and!; naive_solver.
Qed.
End properties.

Section concrete.
#[local] Existing Instances map_engine scheduled_server sample_env.

(** Redis does not answer its ping. *)
Example cache_unreachable :
  fst <$> (match (ready (u "Piki") (u "0.1.0") (3 # 2) (mkWorld map_engine scheduled_server sample_db
    (Scheduled ∅ [true]) [] [] 100 0)).1 with Ok r => Some r | Raise _ => None end) = Some 503.
Proof. vm_compute. reflexivity. Qed.
End concrete.
