(* ===== verification/MetaWebhook.v ===== *)
(** * Meta webhooks ([src/piki/integrations/meta/webhook.py])

    The payload models Meta sends and their validation from decoded JSON, the
    challenge and signature checks, and the normalisation into inbound messages
    and delivery status updates.  The integer coercion of pydantic is the
    parameter [Pydantic.LaxInt]. *)
From S2P Require Import Prelude PyStr Errors Contracts Sha256 Pydantic.

Local Open Scope Z_scope.

(** ** Payload models *)

Record MetaMetadata := { mm_display_phone_number : str; mm_phone_number_id : str }.
Record MetaText := { mt_body : str }.
Record MetaImage := {
  mi_id : str; mi_mime_type : option str; mi_sha256 : option str; mi_caption : option str }.
Record MetaReply := { mr_id : str; mr_title : str; mr_description : option str }.
Record MetaInteractive := {
  mx_type : str; mx_button_reply : option MetaReply; mx_list_reply : option MetaReply }.
Record MetaMessage := {
  mg_id : str;
  mg_from : str;
  mg_timestamp : str;
  mg_type : str;
  mg_text : option MetaText;
  mg_image : option MetaImage;
  mg_interactive : option MetaInteractive
}.
Record MetaErrorData := { me_details : option str }.
Record MetaStatusError := {
  mse_code : Z; mse_title : option str; mse_message : option str;
  mse_error_data : option MetaErrorData }.
Record MetaStatus := {
  ms_id : str; ms_status : str; ms_timestamp : str; ms_recipient_id : str;
  ms_errors : list MetaStatusError }.
Record MetaValue := {
  mv_metadata : MetaMetadata; mv_messages : list MetaMessage; mv_statuses : list MetaStatus }.
Record MetaChange := { mc_value : MetaValue }.
Record MetaEntry := { me_id : str; me_changes : list MetaChange }.
Record MetaWebhookPayload := { mp_entry : list MetaEntry }.

(** ** Validation ([model_validate]); [None] is the [ValidationError] *)

Section validation.
Context `{LaxInt}.

Definition parse_metadata : json -> option MetaMetadata := as_obj (fun o =>
  d ← field as_str (u "display_phone_number") o;
  p ← field as_str (u "phone_number_id") o;
  Some {| mm_display_phone_number := d; mm_phone_number_id := p |}).

Definition parse_text : json -> option MetaText := as_obj (fun o =>
  b ← field as_str (u "body") o; Some {| mt_body := b |}).

Definition parse_image : json -> option MetaImage := as_obj (fun o =>
  i ← field as_str (u "id") o;
  m ← opt_field as_str (u "mime_type") o;
  s ← opt_field as_str (u "sha256") o;
  c ← opt_field as_str (u "caption") o;
  Some {| mi_id := i; mi_mime_type := m; mi_sha256 := s; mi_caption := c |}).

Definition parse_reply : json -> option MetaReply := as_obj (fun o =>
  i ← field as_str (u "id") o;
  t ← field as_str (u "title") o;
  d ← opt_field as_str (u "description") o;
  Some {| mr_id := i; mr_title := t; mr_description := d |}).

Definition parse_interactive : json -> option MetaInteractive := as_obj (fun o =>
  t ← field as_str (u "type") o;
  b ← opt_field parse_reply (u "button_reply") o;
  l ← opt_field parse_reply (u "list_reply") o;
  Some {| mx_type := t; mx_button_reply := b; mx_list_reply := l |}).

Definition parse_message : json -> option MetaMessage := as_obj (fun o =>
  i ← field as_str (u "id") o;
  f ← field as_str (u "from") o;
  ts ← field as_str (u "timestamp") o;
  ty ← field as_str (u "type") o;
  t ← opt_field parse_text (u "text") o;
  im ← opt_field parse_image (u "image") o;
  x ← opt_field parse_interactive (u "interactive") o;
  Some {| mg_id := i; mg_from := f; mg_timestamp := ts; mg_type := ty; mg_text := t;
          mg_image := im; mg_interactive := x |}).

Definition parse_error_data : json -> option MetaErrorData := as_obj (fun o =>
  d ← opt_field as_str (u "details") o; Some {| me_details := d |}).

Definition parse_status_error : json -> option MetaStatusError := as_obj (fun o =>
  c ← field lax_int (u "code") o;
  t ← opt_field as_str (u "title") o;
  m ← opt_field as_str (u "message") o;
  d ← opt_field parse_error_data (u "error_data") o;
  Some {| mse_code := c; mse_title := t; mse_message := m; mse_error_data := d |}).

Definition status_literals : list str := [u "sent"; u "delivered"; u "read"; u "failed"].

Definition parse_status : json -> option MetaStatus := as_obj (fun o =>
  i ← field as_str (u "id") o;
  s ← field (literal status_literals) (u "status") o;
  ts ← field as_str (u "timestamp") o;
  r ← field as_str (u "recipient_id") o;
  es ← tuple_field parse_status_error (u "errors") o;
  Some {| ms_id := i; ms_status := s; ms_timestamp := ts; ms_recipient_id := r;
          ms_errors := es |}).

Definition parse_value : json -> option MetaValue := as_obj (fun o =>
  _ ← field (literal [u "whatsapp"]) (u "messaging_product") o;
  m ← field parse_metadata (u "metadata") o;
  ms ← tuple_field parse_message (u "messages") o;
  ss ← tuple_field parse_status (u "statuses") o;
  Some {| mv_metadata := m; mv_messages := ms; mv_statuses := ss |}).

Definition parse_change : json -> option MetaChange := as_obj (fun o =>
  _ ← field (literal [u "messages"]) (u "field") o;
  v ← field parse_value (u "value") o;
  Some {| mc_value := v |}).

Definition parse_entry : json -> option MetaEntry := as_obj (fun o =>
  i ← field as_str (u "id") o;
  cs ← field (as_tuple parse_change) (u "changes") o;
  Some {| me_id := i; me_changes := cs |}).

(** [MetaWebhookPayload.model_validate(payload)], [payload] a dict. *)
Definition parse_payload (o : list (str * json)) : option MetaWebhookPayload :=
  _ ← field (literal [u "whatsapp_business_account"]) (u "object") o;
  es ← field (as_tuple parse_entry) (u "entry") o;
  Some {| mp_entry := es |}.
End validation.

(** ** Normalised events *)

Record MetaStatusUpdate := {
  su_provider_message_id : str;
  su_phone_number_id : str;
  su_recipient_id : str;
  su_status : DeliveryStatus;
  su_occurred_at : datetime;
  su_error_code : option str;
  su_error_message : option str
}.

#[export] Instance MetaStatusUpdate_contract : Contract MetaStatusUpdate := {|
  fields_ok s :=
    len_in 1 255 (su_provider_message_id s) && len_in 1 255 (su_phone_number_id s) &&
    len_in 1 255 (su_recipient_id s) && opt_len_in 0 100 (su_error_code s) &&
    opt_len_in 0 500 (su_error_message s);
  model_validator s := first_error [
    (bool_decide (su_status s = DS_FAILED) && negb (bool_decide (is_Some (su_error_code s))),
     u "failed Meta status requires an error code");
    (negb (bool_decide (su_status s = DS_FAILED)) && bool_decide (is_Some (su_error_code s)),
     u "non-failed Meta status cannot contain an error code")]
|}.

Record MetaWebhookEvents := {
  we_messages : list InboundMessage;
  we_statuses : list MetaStatusUpdate
}.

Record WebhookIngestResult := {
  wr_accepted_messages : Z;
  wr_duplicate_messages : Z;
  wr_accepted_statuses : Z;
  wr_duplicate_statuses : Z;
  wr_ignored_statuses : Z
}.
#[export] Instance WebhookIngestResult_contract : Contract WebhookIngestResult := {|
  fields_ok r :=
    (0 <=? wr_accepted_messages r) && (0 <=? wr_duplicate_messages r) &&
    (0 <=? wr_accepted_statuses r) && (0 <=? wr_duplicate_statuses r) &&
    (0 <=? wr_ignored_statuses r);
  model_validator _ := None
|}.

(** ** Challenge and signature *)

Definition verify_challenge (mode provided_token : option str) (expected_token : str)
    : res bool :=
  match provided_token with
  | Some provided =>
      if bool_decide (mode = Some (u "subscribe")) then compare_digest provided expected_token
      else Ok false
  | None => Ok false
  end.

Definition verify_signature (raw_body : list Z) (signature_header : option str)
    (app_secret : str) : res bool :=
  match signature_header with
  | None => Ok false
  | Some header =>
      if negb (startswith (u "sha256=") header) then Ok false
      else
        let provided_digest := removeprefix (u "sha256=") header in
        if negb (py_len provided_digest =? 64) then Ok false
        else compare_digest provided_digest
               (hexdigest (hmac_sha256 (encode app_secret) raw_body))
  end.

(** ** Normalisation *)

Section normalise.
Context `{LaxInt} `{UCD}.

(** [datetime.fromtimestamp(n, tz=UTC)]: instants of the years 1 to 9999;
    beyond them a [ValueError] (or an [OSError], caught alike), and an
    [OverflowError] outside the range of the platform's [time_t]. *)
Definition fromtimestamp (n : Z) : res datetime :=
  if (n <? - 2 ^ 63) || (2 ^ 63 <=? n) then Raise OverflowError
  else if (-62135596800 <=? n) && (n <=? 253402300799) then Ok (utc (n * second))
  else Raise (ValueError (u "year is out of range")).

Definition _timestamp (value : str) : res datetime :=
  match py_int value with
  | None => Raise (MetaWebhookError (u "invalid Meta timestamp"))
  | Some n =>
      match fromtimestamp n with
      | Raise (ValueError _) => Raise (MetaWebhookError (u "invalid Meta timestamp"))
      | r => r
      end
  end.

(** [metadata[key] = value] when [value] is a non-empty string. *)
Definition set_truthy (key : str) (value : option str) (m : gmap str str) : gmap str str :=
  match value with
  | Some v => if truthy v then <[key := v]> m else m
  | None => m
  end.

Definition _message_metadata (message : MetaMessage) (phone_number_id : str)
    : MessageKind * option str * gmap str str :=
  let metadata : gmap str str :=
    <[u "meta_message_type" := mg_type message]> {[u "phone_number_id" := phone_number_id]} in
  let unsupported := (MK_UNSUPPORTED, None, metadata) in
  let interactive :=
    match mg_interactive message with
    | Some x =>
        if bool_decide (mg_type message = u "interactive") then
          match (match mx_button_reply x with Some r => Some r | None => mx_list_reply x end) with
          | Some reply =>
              (MK_INTERACTIVE, Some (mr_title reply),
               <[u "interaction_type" := mx_type x]>
                 (<[u "interaction_id" := mr_id reply]> metadata))
          | None => unsupported
          end
        else unsupported
    | None => unsupported
    end in
  let image :=
    match mg_image message with
    | Some i =>
        if bool_decide (mg_type message = u "image") then
          (MK_IMAGE, mi_caption i,
           set_truthy (u "media_sha256") (mi_sha256 i)
             (set_truthy (u "mime_type") (mi_mime_type i)
               (<[u "media_id" := mi_id i]> metadata)))
        else interactive
    | None => interactive
    end in
  match mg_text message with
  | Some t =>
      if bool_decide (mg_type message = u "text") then (MK_TEXT, Some (mt_body t), metadata)
      else image
  | None => image
  end.

(** [except ValidationError as e: raise MetaWebhookError(msg) from e]. *)
Definition revalidate {A} (msg : str) (r : res A) : res A :=
  match r with
  | Raise (ValidationError _) => Raise (MetaWebhookError msg)
  | _ => r
  end.

Definition normalize_message (phone_number_id : str) (message : MetaMessage)
    : res InboundMessage :=
  let '(kind, text, metadata) := _message_metadata message phone_number_id in
  revalidate (u "invalid normalized Meta message") (
    received_at ← _timestamp (mg_timestamp message);
    construct {| im_message_id := mg_id message; im_channel := WHATSAPP;
                 im_conversation_id := mg_from message; im_sender_id := mg_from message;
                 im_kind := kind; im_text := text; im_received_at := received_at;
                 im_metadata := metadata |}).

Definition status_map (s : str) : res DeliveryStatus :=
  if bool_decide (s = u "sent") then Ok DS_SENT
  else if bool_decide (s = u "delivered") then Ok DS_DELIVERED
  else if bool_decide (s = u "read") then Ok DS_READ
  else if bool_decide (s = u "failed") then Ok DS_FAILED
  else Raise KeyError.

Definition status_error_message (e : MetaStatusError) : option str :=
  let details := mse_error_data e ≫= me_details in
  if truthy_opt details then details
  else if truthy_opt (mse_message e) then mse_message e else mse_title e.

Definition normalize_status (phone_number_id : str) (status : MetaStatus)
    : res MetaStatusUpdate :=
  let status_error := head (ms_errors status) in
  let error_message := status_error ≫= status_error_message in
  revalidate (u "invalid normalized Meta status") (
    state ← status_map (ms_status status);
    occurred_at ← _timestamp (ms_timestamp status);
    construct {| su_provider_message_id := ms_id status; su_phone_number_id := phone_number_id;
                 su_recipient_id := ms_recipient_id status; su_status := state;
                 su_occurred_at := occurred_at;
                 su_error_code := str_of_Z ∘ mse_code <$> status_error;
                 su_error_message := error_message |}).

(** [expected is not None and actual != expected]. *)
Definition unexpected (expected : option str) (actual : str) : bool :=
  match expected with Some e => negb (bool_decide (actual = e)) | None => false end.

Definition normalize_change (expected_phone_number_id : option str) (change : MetaChange)
    : res (list InboundMessage * list MetaStatusUpdate) :=
  let phone_number_id := mm_phone_number_id (mv_metadata (mc_value change)) in
  if unexpected expected_phone_number_id phone_number_id
  then Raise (MetaWebhookError (u "unexpected Meta phone number ID"))
  else
    ms ← res_map (normalize_message phone_number_id) (mv_messages (mc_value change));
    ss ← res_map (normalize_status phone_number_id) (mv_statuses (mc_value change));
    Ok (ms, ss).

Definition normalize_entry (expected_waba_id expected_phone_number_id : option str)
    (entry : MetaEntry) : res (list (list InboundMessage * list MetaStatusUpdate)) :=
  if unexpected expected_waba_id (me_id entry)
  then Raise (MetaWebhookError (u "unexpected Meta WABA ID"))
  else res_map (normalize_change expected_phone_number_id) (me_changes entry).

Definition normalize_webhook (payload : list (str * json))
    (expected_waba_id expected_phone_number_id : option str) : res MetaWebhookEvents :=
  match parse_payload payload with
  | None => Raise (MetaWebhookError (u "invalid Meta webhook payload"))
  | Some parsed =>
      changes ← res_map (normalize_entry expected_waba_id expected_phone_number_id)
                  (mp_entry parsed);
      Ok {| we_messages := concat changes ≫= fst; we_statuses := concat changes ≫= snd |}
  end.
End normalise.

(** ** Lemmas *)

Lemma compare_digest_true a b : compare_digest a b = Ok true -> a = b.
Proof. unfold compare_digest. destruct (_ && _); [|done]. intros [= ?]. by bools. Qed.

Lemma startswith_split p s : startswith p s = true -> s = p ++ removeprefix p s.
Proof.
  intros Hp. unfold removeprefix. unfold startswith in *. rewrite Hp.
  apply is_prefix_spec in Hp as [t ->]. by rewrite drop_app_length.
Qed.

Lemma startswith_app p s : startswith p (p ++ s) = true.
Proof. apply is_prefix_spec. eauto. Qed.

Lemma removeprefix_app p s : removeprefix p (p ++ s) = s.
Proof. unfold removeprefix. rewrite (startswith_app p s : is_prefix p (p ++ s) = true). by rewrite drop_app_length. Qed.

Lemma revalidate_ok {A} msg (r : res A) a : revalidate msg r = Ok a <-> r = Ok a.
Proof. destruct r as [|[]]; simpl; naive_solver. Qed.

Section normalise_lemmas.
Context `{LaxInt} `{UCD}.

(** The only exceptions of the normalisation. *)
Definition webhook_exn (e : exn) : Prop :=
  (exists msg, e = MetaWebhookError msg) \/ e = OverflowError.

Lemma timestamp_raises s e : _timestamp s = Raise e -> webhook_exn e.
Proof.
  unfold _timestamp, fromtimestamp. destruct (py_int s) as [n|]; [|intros [= <-]; left; eauto].
  destruct (_ || _); [intros [= <-]; by right|].
  destruct (_ && _); [done|]. intros [= <-]. left; eauto.
Qed.

Lemma timestamp_ok s d : _timestamp s = Ok d -> dt_aware d = true.
Proof.
  unfold _timestamp, fromtimestamp. destruct (py_int s) as [n|]; [|done].
  destruct (_ || _); [done|]. destruct (_ && _); [|done]. by intros [= <-].
Qed.

Lemma construct_raises_webhook {A} `{Contract A} msg (a : A) e :
  revalidate msg (construct a) = Raise e -> webhook_exn e.
Proof.
  destruct (construct a) as [b|e'] eqn:Hc; [done|].
  apply construct_raises in Hc as (_ & m & ->). intros [= <-]. left; eauto.
Qed.

Lemma revalidate_bind_raises {A B} msg (m : res A) (f : A -> res B) e :
  (forall e', m = Raise e' -> webhook_exn e') ->
  (forall a, revalidate msg (f a) = Raise e -> webhook_exn e) ->
  revalidate msg (m ≫= f) = Raise e -> webhook_exn e.
Proof.
  intros Hm Hf. destruct m as [a|e']; cbn; [apply Hf|].
  destruct (Hm e' eq_refl) as [[msg' ->]| ->]; intros [= <-]; [left; eauto|by right].
Qed.

Lemma normalize_message_raises p m e : normalize_message p m = Raise e -> webhook_exn e.
Proof.
  unfold normalize_message. destruct (_message_metadata m p) as [[k t] md].
  apply revalidate_bind_raises; [apply timestamp_raises|].
  intros a. apply construct_raises_webhook.
Qed.

Lemma message_metadata_phone p m : (_message_metadata m p).2 !! u "phone_number_id" = Some p.
Proof.
  assert (forall k o (md : gmap str str), k <> u "phone_number_id" ->
            md !! u "phone_number_id" = Some p ->
            set_truthy k o md !! u "phone_number_id" = Some p) as Hset.
  { intros k [v|] md Hk Hmd; simpl; [|done]. destruct (truthy v); [|done].
    by rewrite lookup_insert_ne. }
  assert (forall k v (md : gmap str str), k <> u "phone_number_id" ->
            md !! u "phone_number_id" = Some p ->
            <[k := v]> md !! u "phone_number_id" = Some p) as Hins.
  { intros. by rewrite lookup_insert_ne. }
  unfold _message_metadata.
  repeat case_match; cbn [snd];
    repeat match goal with
    | |- set_truthy _ _ _ !! _ = _ => apply Hset; [by vm_compute|]
    | |- <[_ := _]> _ !! _ = _ => apply Hins; [by vm_compute|]
    end; by rewrite lookup_singleton_eq.
Qed.

Lemma normalize_message_ok p m im :
  normalize_message p m = Ok im ->
  contract_ok im = true /\ im_metadata im !! u "phone_number_id" = Some p /\
  im_message_id im = mg_id m /\ im_sender_id im = mg_from m /\ im_channel im = WHATSAPP.
Proof.
  unfold normalize_message. pose proof (message_metadata_phone p m) as Hp.
  destruct (_message_metadata m p) as [[k t] md].
  rewrite revalidate_ok, res_bind_ok. intros (d & _ & Hc).
  apply construct_ok in Hc as [Hc ->]. done.
Qed.

Lemma parse_status_literal j s : parse_status j = Some s -> ms_status s ∈ status_literals.
Proof.
  unfold parse_status, as_obj. destruct j; try done. cbn -[status_literals u].
  intros (i & _ & Hs)%bind_Some. apply bind_Some in Hs as (l & Hl & Hs).
  assert (l ∈ status_literals) as Hin.
  { unfold field in Hl. apply bind_Some in Hl as (j & _ & Hl).
    unfold literal in Hl. apply bind_Some in Hl as (s' & _ & Hl).
    case_bool_decide; naive_solver. }
  by repeat (apply bind_Some in Hs as (? & _ & Hs)); simplify_eq/=.
Qed.

Lemma status_map_total s : s ∈ status_literals -> exists d, status_map s = Ok d.
Proof.
  unfold status_literals, status_map. rewrite !elem_of_cons.
  intros Hs. repeat case_bool_decide; eauto. exfalso.
  destruct Hs as [?|[?|[?|[?|?]]]]; try done. set_solver.
Qed.

Lemma normalize_status_raises p s e :
  ms_status s ∈ status_literals -> normalize_status p s = Raise e -> webhook_exn e.
Proof.
  intros [d Hd]%status_map_total. unfold normalize_status. rewrite Hd.
  apply (revalidate_bind_raises _ (_timestamp _)); [apply timestamp_raises|].
  intros a. apply construct_raises_webhook.
Qed.

Lemma normalize_status_ok p s su :
  normalize_status p s = Ok su ->
  contract_ok su = true /\ su_phone_number_id su = p /\
  su_provider_message_id su = ms_id s /\ status_map (ms_status s) = Ok (su_status su) /\
  dt_aware (su_occurred_at su) = true.
Proof.
  unfold normalize_status. rewrite revalidate_ok, res_bind_ok.
  intros (st & Hst & Hb). apply res_bind_ok in Hb as (d & Hd & Hc).
  apply construct_ok in Hc as [Hc ->]. apply timestamp_ok in Hd. done.
Qed.
End normalise_lemmas.

(** ** What a payload contains, and the events made of it *)

Definition change_phone (c : MetaChange) : str := mm_phone_number_id (mv_metadata (mc_value c)).
Definition changes_of (p : MetaWebhookPayload) : list MetaChange := mp_entry p ≫= me_changes.
Definition payload_messages (p : MetaWebhookPayload) : list (str * MetaMessage) :=
  changes_of p ≫= fun c => pair (change_phone c) <$> mv_messages (mc_value c).
Definition payload_statuses (p : MetaWebhookPayload) : list (str * MetaStatus) :=
  changes_of p ≫= fun c => pair (change_phone c) <$> mv_statuses (mc_value c).

(** Every entry and every change carries the expected identifiers. *)
Definition addressed (waba phone : option str) (p : MetaWebhookPayload) : Prop :=
  Forall (fun e => unexpected waba (me_id e) = false) (mp_entry p) /\
  Forall (fun c => unexpected phone (change_phone c) = false) (changes_of p).

Section normalise_spec.
Context `{LaxInt} `{UCD}.

Lemma payload_status_literal o p s :
  parse_payload o = Some p -> s ∈ payload_statuses p -> ms_status s.2 ∈ status_literals.
Proof.
  unfold parse_payload. intros (a & _ & Hp)%bind_Some. apply bind_Some in Hp as (es & Hes & [= <-]).
  unfold payload_statuses, changes_of. cbn [mp_entry].
  intros (c & Hs & (e & Hc & He)%list_elem_of_bind)%list_elem_of_bind.
  apply list_elem_of_fmap in Hs as (s' & -> & Hs). cbn [snd].
  destruct (field_tuple_elem _ _ _ _ _ Hes He) as [je Hje].
  unfold parse_entry, as_obj in Hje. destruct je as [| | | | | |oe]; try done.
  apply bind_Some in Hje as (i & _ & Hje). apply bind_Some in Hje as (cs & Hcs & [= <-]).
  destruct (field_tuple_elem _ _ _ _ _ Hcs Hc) as [jc Hjc].
  unfold parse_change, as_obj in Hjc. destruct jc as [| | | | | |oc]; try done.
  apply bind_Some in Hjc as (l & _ & Hjc). apply bind_Some in Hjc as (v & Hv & [= <-]).
  unfold field in Hv. apply bind_Some in Hv as (jv & _ & Hv).
  unfold parse_value, as_obj in Hv. destruct jv as [| | | | | |ov]; try done.
  repeat (apply bind_Some in Hv as (? & ? & Hv)). simplify_eq/=.
  edestruct (@tuple_field_elem MetaStatus) as [j Hj]; [|exact Hs|by eapply parse_status_literal].
  eassumption.
Qed.

Lemma normalize_change_ok phone c r :
  normalize_change phone c = Ok r <->
  unexpected phone (change_phone c) = false /\
  Forall2 (fun m im => normalize_message (change_phone c) m = Ok im)
    (mv_messages (mc_value c)) r.1 /\
  Forall2 (fun s su => normalize_status (change_phone c) s = Ok su)
    (mv_statuses (mc_value c)) r.2.
Proof.
  unfold normalize_change. fold (change_phone c).
  destruct (unexpected _ _); [naive_solver|]. rewrite res_bind_ok.
  setoid_rewrite res_bind_ok. setoid_rewrite res_map_ok. destruct r as [ms ss]. naive_solver.
Qed.

Lemma changes_ok phone cs rs :
  res_map (normalize_change phone) cs = Ok rs ->
  Forall (fun c => unexpected phone (change_phone c) = false) cs /\
  Forall2 (fun pm im => normalize_message pm.1 pm.2 = Ok im)
    (cs ≫= fun c => pair (change_phone c) <$> mv_messages (mc_value c)) (rs ≫= fst) /\
  Forall2 (fun ps su => normalize_status ps.1 ps.2 = Ok su)
    (cs ≫= fun c => pair (change_phone c) <$> mv_statuses (mc_value c)) (rs ≫= snd).
Proof.
  intros Hr%res_map_ok. induction Hr as [|c r cs rs Hc _ (IH1 & IH2 & IH3)];
    [repeat constructor|].
  apply normalize_change_ok in Hc as (Hp & Hm & Hs). rewrite !bind_cons.
  split_and!; [by constructor|apply Forall2_app..]; try done; by apply Forall2_fmap_l.
Qed.

Lemma changes_complete phone cs ms ss :
  Forall (fun c => unexpected phone (change_phone c) = false) cs ->
  Forall2 (fun pm im => normalize_message pm.1 pm.2 = Ok im)
    (cs ≫= fun c => pair (change_phone c) <$> mv_messages (mc_value c)) ms ->
  Forall2 (fun ps su => normalize_status ps.1 ps.2 = Ok su)
    (cs ≫= fun c => pair (change_phone c) <$> mv_statuses (mc_value c)) ss ->
  exists rs, res_map (normalize_change phone) cs = Ok rs /\ rs ≫= fst = ms /\ rs ≫= snd = ss.
Proof.
  setoid_rewrite res_map_ok. intros Hp. revert ms ss.
  induction Hp as [|c cs Hc _ IH]; intros ms ss; rewrite ?bind_cons.
  { intros ->%Forall2_nil_inv_l ->%Forall2_nil_inv_l. exists []. by split_and!; [constructor|..]. }
  intros (m1 & m2 & Hm1 & Hm2 & ->)%Forall2_app_inv_l (s1 & s2 & Hs1 & Hs2 & ->)%Forall2_app_inv_l.
  destruct (IH _ _ Hm2 Hs2) as (rs & Hrs & <- & <-). exists ((m1, s1) :: rs).
  split_and!; [|done..]. constructor; [|done]. apply normalize_change_ok.
  split_and!; [done|by apply Forall2_fmap_l in Hm1|by apply Forall2_fmap_l in Hs1].
Qed.

Lemma entries_ok waba phone p rs :
  (exists es, res_map (normalize_entry waba phone) (mp_entry p) = Ok es /\ concat es = rs) <->
  Forall (fun e => unexpected waba (me_id e) = false) (mp_entry p) /\
  res_map (normalize_change phone) (changes_of p) = Ok rs.
Proof.
  rewrite res_map_ok. apply res_map_concat. intros e r. unfold normalize_entry.
  destruct (unexpected _ _); [naive_solver|]. rewrite res_map_ok. naive_solver.
Qed.

Lemma normalize_raises waba phone p e :
  (forall s, s ∈ payload_statuses p -> ms_status s.2 ∈ status_literals) ->
  res_map (normalize_entry waba phone) (mp_entry p) = Raise e -> webhook_exn e.
Proof.
  intros Hlit Hr. apply res_map_raise in Hr as (en & Hen & Hr). unfold normalize_entry in Hr.
  destruct (unexpected _ _); [simplify_eq; left; eauto|].
  apply res_map_raise in Hr as (c & Hc & Hr). unfold normalize_change in Hr.
  destruct (unexpected _ _); [simplify_eq; left; eauto|].
  apply res_bind_raise in Hr as [(m & _ & Hr)%res_map_raise|(ms & _ & Hr)];
    [by eapply normalize_message_raises|].
  apply res_bind_raise in Hr as [(s & Hs & Hr)%res_map_raise|(ss & _ & Hr)]; [|done].
  eapply normalize_status_raises; [|exact Hr]. apply (Hlit (change_phone c, s)).
  apply list_elem_of_bind. exists c. split; [by apply list_elem_of_fmap_2|].
  apply list_elem_of_bind. eauto.
Qed.
End normalise_spec.

Lemma normalize_webhook_spec `{LaxInt} `{UCD} payload waba phone ev :
  normalize_webhook payload waba phone = Ok ev <->
  exists p, parse_payload payload = Some p /\ addressed waba phone p /\
    Forall2 (fun pm im => normalize_message pm.1 pm.2 = Ok im)
      (payload_messages p) (we_messages ev) /\
    Forall2 (fun ps su => normalize_status ps.1 ps.2 = Ok su)
      (payload_statuses p) (we_statuses ev).
Proof.
  unfold normalize_webhook, addressed. destruct (parse_payload payload) as [p|]; [|naive_solver].
  rewrite res_bind_ok. split.
  - intros (es & Hes & [= <-]). exists p. split; [done|].
    destruct (proj1 (entries_ok waba phone p (concat es))) as [Hw Hcs]; [eauto|].
    by apply changes_ok in Hcs as (Hp & Hm & Hs).
  - intros (p' & [= <-] & [Hw Hp] & Hm & Hs).
    destruct (changes_complete _ _ _ _ Hp Hm Hs) as (rs & Hrs & Hm' & Hs').
    destruct (proj2 (entries_ok waba phone p rs)) as (es & Hes & Hc); [done|].
    exists es. split; [done|]. rewrite Hc, Hm', Hs'. by destruct ev.
Qed.

(** A status that was normalised carries no empty error code. *)
Lemma normalized_status_code `{LaxInt} `{UCD} phone status su :
  normalize_status phone status = Ok su -> contract_ok su = true /\ su_error_code su <> Some [].
Proof.
  unfold normalize_status, revalidate. case_match eqn:Hr; [|by case_match]. intros [= <-].
  apply res_bind_ok in Hr as (state & _ & Hr). apply res_bind_ok in Hr as (t & _ & Hr).
  apply construct_ok in Hr as [Hok ->]. split; [done|]. cbn [su_error_code].
  destruct (head (ms_errors status)) as [err|]; [|done]. cbn. intros [= He]. by apply str_of_Z_nonempty in He.
Qed.

Lemma webhook_status_code `{LaxInt} `{UCD} payload waba phone ev su :
  normalize_webhook payload waba phone = Ok ev -> su ∈ we_statuses ev ->
  contract_ok su = true /\ su_error_code su <> Some [].
Proof.
  intros (p & _ & _ & _ & Hs)%normalize_webhook_spec Hin.
  apply list_elem_of_lookup in Hin as (i & Hi). eapply Forall2_lookup_r in Hs as (ps & _ & Hn); [|exact Hi].
  by eapply normalized_status_code.
Qed.

(** ** Properties *)

(** C29. [normalize_webhook] is all or nothing: it returns events exactly when
    the payload validates, every entry and change carries the expected
    identifiers, and every message and status normalises; then the events are
    those of the payload, in order, none dropped and none invented. *)
Theorem normalize_webhook_exact `{LaxInt} `{UCD} payload waba phone ev :
  normalize_webhook payload waba phone = Ok ev <->
  exists p, parse_payload payload = Some p /\ addressed waba phone p /\
    Forall2 (fun pm im => normalize_message pm.1 pm.2 = Ok im)
      (payload_messages p) (we_messages ev) /\
    Forall2 (fun ps su => normalize_status ps.1 ps.2 = Ok su)
      (payload_statuses p) (we_statuses ev).
Proof. apply normalize_webhook_spec. Qed.

(** Whatever the payload, [normalize_webhook] raises only
    [MetaWebhookError], which the route turns into a 400, or [OverflowError];
    never a [KeyError] of the status map nor a [ValidationError]. *)
Theorem normalize_webhook_raises `{LaxInt} `{UCD} payload waba phone e :
  normalize_webhook payload waba phone = Raise e ->
  (exists msg, e = MetaWebhookError msg) \/ e = OverflowError.
Proof.
  unfold normalize_webhook. destruct (parse_payload payload) as [p|] eqn:Hp.
  - intros [Hr|(es & _ & Hr)]%res_bind_raise; [|done].
    eapply normalize_raises; [|exact Hr]. intros s. by apply (payload_status_literal payload).
  - intros [= <-]. left; eauto.
Qed.

(** A message or status escapes with [OverflowError], not with the
    [MetaWebhookError] the handler expects, exactly when its timestamp is an
    integer outside the 64-bit range: the except clause of [_timestamp] misses
    the exception of [datetime.fromtimestamp]. *)
Theorem normalize_message_overflow `{UCD} phone m :
  normalize_message phone m = Raise OverflowError <->
  exists n, py_int (mg_timestamp m) = Some n /\ (n < - 2 ^ 63 \/ 2 ^ 63 <= n).
Proof.
  unfold normalize_message. destruct (_message_metadata m phone) as [[k t] md].
  unfold _timestamp, fromtimestamp.
  destruct (py_int (mg_timestamp m)) as [n|]; [|split; [done|naive_solver]].
  destruct (_ || _) eqn:Hr.
  - split; [|done]. intros _. exists n. split; [done|]. apply orb_true_iff in Hr as [?|?]; lia.
  - apply orb_false_iff in Hr as [H1%Z.ltb_ge H2%Z.leb_gt]. split; [|naive_solver lia].
    destruct (_ && _); cbn [mbind res_bind]; [|done].
    destruct (construct _) as [im|e'] eqn:Hc; [done|].
    by apply construct_raises in Hc as (_ & msg & ->).
Qed.

(** [verify_signature] accepts a body exactly when the header is
    [sha256=] followed by the hexadecimal HMAC-SHA256 of the body under the app
    secret; it raises [TypeError] exactly on a header whose 64 characters after
    the prefix are not all ASCII. *)
Theorem verify_signature_exact body header secret :
  let digest := hexdigest (hmac_sha256 (encode secret) body) in
  (verify_signature body header secret = Ok true <-> header = Some (u "sha256=" ++ digest)) /\
  (forall e, verify_signature body header secret = Raise e <->
     e = TypeError /\ exists d, header = Some (u "sha256=" ++ d) /\ py_len d = 64 /\
       is_ascii d = false).
Proof.
  set (digest := hexdigest _).
  assert (py_len digest = 64) as Hlen by (unfold digest, py_len; by rewrite hmac_digest_length).
  assert (is_ascii digest = true) as Hasc by apply hmac_digest_ascii.
  unfold verify_signature. fold digest. clearbody digest.
  destruct header as [h|]; [|naive_solver].
  destruct (startswith (u "sha256=") h) eqn:Hp.
  - apply startswith_split in Hp. set (d := removeprefix (u "sha256=") h) in *. clearbody d.
    subst h. cbn [negb]. destruct (py_len d =? 64) eqn:Hl; bools; cbn [negb].
    + unfold compare_digest. rewrite Hasc, andb_true_r. destruct (is_ascii d) eqn:Ha.
      * split; [|by intros e; split; [|intros (_ & d' & [= Hd] & _ & Hn)]; subst; congruence]. split.
        -- intros [= Hd]. bools. by subst.
        -- intros [= Hd]. by rewrite bool_decide_true.
      * split; [split; [done|]|].
        -- intros [= Hd]. congruence.
        -- intros e. split; [intros [= <-]; eauto|by intros [-> _]].
    + split; [split; [done|]|].
      * intros [= Hd]. congruence.
      * intros e. split; [done|]. intros (_ & d' & [= Hd] & ? & _). congruence.
  - cbn [negb]. split; [split; [done|]|].
    + intros Hh. exfalso. apply not_true_iff_false in Hp. apply Hp.
      injection Hh as ->. apply (startswith_app (u "sha256=") digest).
    + intros e. split; [done|]. intros (_ & d' & Hh & _). exfalso. apply not_true_iff_false in Hp.
      apply Hp. injection Hh as ->. apply (startswith_app (u "sha256=") d').
Qed.

(** ** A concrete payload *)

Definition sample_payload (timestamp : str) : list (str * json) :=
  [(u "object", JStr (u "whatsapp_business_account"));
   (u "entry", JArr [JObj [
     (u "id", JStr (u "waba-1"));
     (u "changes", JArr [JObj [
       (u "field", JStr (u "messages"));
       (u "value", JObj [
         (u "messaging_product", JStr (u "whatsapp"));
         (u "metadata", JObj [
           (u "display_phone_number", JStr (u "549"));
           (u "phone_number_id", JStr (u "phone-1"))]);
         (u "messages", JArr [JObj [
           (u "id", JStr (u "wamid.1")); (u "from", JStr (u "5491"));
           (u "timestamp", JStr timestamp); (u "type", JStr (u "text"));
           (u "text", JObj [(u "body", JStr (u "hola"))])]]);
         (u "statuses", JArr [JObj [
           (u "id", JStr (u "wamid.0")); (u "status", JStr (u "delivered"));
           (u "timestamp", JStr (u "1700000000")); (u "recipient_id", JStr (u "5491"))]])])]])]])].

Example normalize_sample :
  exists ev, @normalize_webhook lax_int_default latin1_ucd (sample_payload (u "1700000000"))
               (Some (u "waba-1")) (Some (u "phone-1")) = Ok ev /\
    (im_text <$> we_messages ev) = [Some (u "hola")] /\
    (su_status <$> we_statuses ev) = [DS_DELIVERED].
Proof. eexists. split; [vm_compute; reflexivity|]. by vm_compute. Qed.

Lemma normalize_webhook_raises_witness :
  @normalize_webhook lax_int_default latin1_ucd (sample_payload (u "9223372036854775808"))
    None None = Raise OverflowError /\
  ((exists msg, OverflowError = MetaWebhookError msg) \/ OverflowError = OverflowError).
Proof.
  split; [vm_compute; reflexivity|].
  apply (@normalize_webhook_raises lax_int_default latin1_ucd
           (sample_payload (u "9223372036854775808")) None None).
  vm_compute. reflexivity.
Defined.
