(* ===== verification/Delivery.v ===== *)
(** * Idempotent delivery ([src/piki/delivery/service.py])

    The delivery ledger: an attempt row per idempotency key, claimed before the
    provider is called and finalised after it, and the status callbacks of the
    provider.  [DeliveryStore] is the protocol of the same name; the section
    [postgres] is [PostgresDeliveryStore], the section [service]
    [IdempotentDeliveryService] over any store and any adapter. *)
From S2P Require Import Prelude PyStr Errors Contracts Events Sql Redis Models World.
From S2P Require Import Session MetaWebhook.

Local Open Scope Z_scope.

Inductive DeliveryAttemptState :=
| DA_PENDING | DA_UNKNOWN | DA_ACCEPTED | DA_SENT | DA_DELIVERED | DA_READ | DA_FAILED.
#[export] Instance DeliveryAttemptState_eq_dec : EqDecision DeliveryAttemptState.
Proof. solve_decision. Defined.
#[export] Program Instance DeliveryAttemptState_enum : StrEnum DeliveryAttemptState := {|
  enum_all := [DA_PENDING; DA_UNKNOWN; DA_ACCEPTED; DA_SENT; DA_DELIVERED; DA_READ; DA_FAILED];
  enum_value s :=
    match s with
    | DA_PENDING => u "pending"
    | DA_UNKNOWN => u "unknown"
    | DA_ACCEPTED => u "accepted"
    | DA_SENT => u "sent"
    | DA_DELIVERED => u "delivered"
    | DA_READ => u "read"
    | DA_FAILED => u "failed"
    end
|}.
Solve All Obligations with enum_laws.

Record DeliveryAttemptSnapshot := {
  snap_id : Z;
  snap_state : DeliveryAttemptState;
  snap_provider_message_id : option str;
  snap_error_code : option str;
  snap_error_message : option str;
  snap_trace_id : str
}.
#[export] Instance DeliveryAttemptSnapshot_contract : Contract DeliveryAttemptSnapshot := {|
  fields_ok s := len_in 1 128 (snap_trace_id s);
  model_validator _ := None
|}.

Record DeliveryClaim := { claim_created : bool; claim_attempt : DeliveryAttemptSnapshot }.

Inductive CallbackApplyStatus :=
| CB_APPLIED | CB_DUPLICATE | CB_IGNORED_REGRESSION | CB_MISSING_ATTEMPT.
#[export] Instance CallbackApplyStatus_eq_dec : EqDecision CallbackApplyStatus.
Proof. solve_decision. Defined.

(** [DeliveryAttemptState(s)]: a [ValueError] when [s] is no member. *)
Definition attempt_state (s : str) : res DeliveryAttemptState :=
  match enum_of s with Some x => Ok x | None => Raise (ValueError (u "DeliveryAttemptState")) end.

Definition delivery_status (s : str) : res DeliveryStatus :=
  match enum_of s with Some x => Ok x | None => Raise (ValueError (u "DeliveryStatus")) end.

Definition _snapshot (id : Z) (record : DeliveryAttemptRecord) : res DeliveryAttemptSnapshot :=
  state ← attempt_state (a_status record);
  construct {| snap_id := id; snap_state := state;
               snap_provider_message_id := a_provider_message_id record;
               snap_error_code := a_error_code record;
               snap_error_message := a_error_message record;
               snap_trace_id := a_trace_id record |}.

Definition allowed (current : DeliveryAttemptState) : list DeliveryAttemptState :=
  match current with
  | DA_ACCEPTED => [DA_SENT; DA_DELIVERED; DA_READ; DA_FAILED]
  | DA_SENT => [DA_DELIVERED; DA_READ; DA_FAILED]
  | DA_DELIVERED => [DA_READ]
  | _ => []
  end.
Definition _can_transition (current target : DeliveryAttemptState) : bool :=
  bool_decide (target ∈ allowed current).

(** [attempt.status = target.value] and the two error attributes. *)
Definition with_status (status : str) (error_code error_message : option str) (updated_at : Z)
    (r : DeliveryAttemptRecord) : DeliveryAttemptRecord :=
  {| a_conversation_id := a_conversation_id r;
     a_idempotency_key := a_idempotency_key r;
     a_provider_message_id := a_provider_message_id r;
     a_status := status;
     a_error_code := error_code;
     a_error_message := error_message;
     a_trace_id := a_trace_id r;
     a_created_at := a_created_at r;
     a_updated_at := updated_at |}.

(** The UPDATE the unit of work emits for a modified object: only the columns
    whose attribute changed are written to the row. *)
Definition changed {A} `{EqDecision A} (loaded assigned stored : A) : A :=
  if decide (loaded = assigned) then stored else assigned.
Definition flush_changes (loaded assigned stored : DeliveryAttemptRecord)
    : DeliveryAttemptRecord :=
  with_status (changed (a_status loaded) (a_status assigned) (a_status stored))
    (changed (a_error_code loaded) (a_error_code assigned) (a_error_code stored))
    (changed (a_error_message loaded) (a_error_message assigned) (a_error_message stored))
    (changed (a_updated_at loaded) (a_updated_at assigned) (a_updated_at stored)) stored.

(** ** [PostgresDeliveryStore] *)

Section postgres.
Context `{SqlEngine} `{RedisServer} `{Env}.

Definition claim (conversation_id : Z) (request : DeliveryRequest) : M DeliveryClaim :=
  attempt_id ← uuid4;
  session (
    created ← insert_row uq_delivery_attempts_idempotency_key no_constraint
      (conversation_exists conversation_id) attempt_id
      (fun t => {| a_conversation_id := conversation_id;
                   a_idempotency_key := dr_idempotency_key request;
                   a_provider_message_id := None;
                   a_status := enum_value DA_PENDING;
                   a_error_code := None; a_error_message := None;
                   a_trace_id := dr_trace_id request;
                   a_created_at := t; a_updated_at := t |});
    match created with
    | Some record =>
        attempt ← lift (_snapshot attempt_id record);
        mret {| claim_created := true; claim_attempt := attempt |}
    | None =>
        found ← select (fun _ r => bool_decide (a_idempotency_key r = dr_idempotency_key request))
                  unordered;
        existing ← lift (one found);
        attempt ← lift (_snapshot existing.1 existing.2);
        mret {| claim_created := false; claim_attempt := attempt |}
    end).

Definition finalize (attempt_id : Z) (result : DeliveryResult) : M unit :=
  session (
    ids ← update_returning
      (fun k r => (k =? attempt_id) && bool_decide (a_status r = enum_value DA_PENDING))
      (fun t r => {| a_conversation_id := a_conversation_id r;
                     a_idempotency_key := a_idempotency_key r;
                     a_provider_message_id := dres_provider_message_id result;
                     a_status := enum_value (dres_status result);
                     a_error_code := dres_error_code result;
                     a_error_message := dres_error_message result;
                     a_trace_id := a_trace_id r;
                     a_created_at := a_created_at r; a_updated_at := t |});
    updated_id ← lift (one_or_none ids);
    match updated_id with
    | None => raise (RuntimeError (u "delivery attempt is no longer pending"))
    | Some _ =>
        occurred_at ← now;
        event_id ← uuid4;
        _ ← insert_row no_constraint uq_delivery_status_provider_state
          (attempt_exists attempt_id) event_id
          (fun t => {| se_delivery_attempt_id := attempt_id;
                       se_provider_message_id := dres_provider_message_id result;
                       se_status := enum_value (dres_status result);
                       se_error_code := dres_error_code result;
                       se_error_message := dres_error_message result;
                       se_trace_id := dres_trace_id result;
                       se_occurred_at := occurred_at; se_created_at := t |});
        mret tt
    end).

(** The three statements of [_apply_callback]: the SELECT of the attempt, the
    INSERT of the status event, the UPDATE flushed when the session commits. *)
Definition callback_read (callback : MetaStatusUpdate)
    : M (option (Z * DeliveryAttemptRecord)) :=
  found ← select (fun _ r => bool_decide
      (a_provider_message_id r = Some (su_provider_message_id callback))) unordered;
  lift (one_or_none found).

Definition callback_event (callback : MetaStatusUpdate) (attempt_id : Z)
    (attempt : DeliveryAttemptRecord) : M (option DeliveryStatusEventRecord) :=
  event_id ← uuid4;
  insert_row uq_delivery_status_provider_state no_constraint
    (attempt_exists attempt_id) event_id
    (fun t => {| se_delivery_attempt_id := attempt_id;
                 se_provider_message_id := Some (su_provider_message_id callback);
                 se_status := enum_value (su_status callback);
                 se_error_code := su_error_code callback;
                 se_error_message := su_error_message callback;
                 se_trace_id := a_trace_id attempt;
                 se_occurred_at := dt_us (su_occurred_at callback); se_created_at := t |}).

Definition callback_write (callback : MetaStatusUpdate) (attempt_id : Z)
    (attempt : DeliveryAttemptRecord) : M CallbackApplyStatus :=
  current ← lift (attempt_state (a_status attempt));
  target ← lift (attempt_state (enum_value (su_status callback)));
  if negb (_can_transition current target) then mret CB_IGNORED_REGRESSION
  else
    updated_at ← now;
    _ ← update_returning (fun k _ => k =? attempt_id)
      (fun _ stored => flush_changes attempt
         (with_status (enum_value target) (su_error_code callback)
            (su_error_message callback) updated_at attempt) stored);
    mret CB_APPLIED.

Definition _apply_callback (callback : MetaStatusUpdate)
    : M (CallbackApplyStatus * option str) :=
  attempt ← callback_read callback;
  match attempt with
  | None => mret (CB_MISSING_ATTEMPT, None)
  | Some (attempt_id, record) =>
      event ← callback_event callback attempt_id record;
      match event with
      | None => mret (CB_DUPLICATE, Some (a_trace_id record))
      | Some _ =>
          status ← callback_write callback attempt_id record;
          mret (status, Some (a_trace_id record))
      end
  end.

Definition apply_callback (callback : MetaStatusUpdate) : M CallbackApplyStatus :=
  observed_at ← started_at;
  '(result, trace_id) ← session (_apply_callback callback);
  match result, trace_id with
  | CB_APPLIED, Some trace =>
      match su_status callback with
      | DS_DELIVERED =>
          emit EV_DELIVERY_SUCCEEDED trace (u "meta_delivery_callback") EO_SUCCEEDED
            (Some observed_at) None None None
      | DS_FAILED =>
          emit EV_DELIVERY_FAILED trace (u "meta_delivery_callback") EO_FAILED
            (Some observed_at) (su_error_code callback) None None
      | _ => mret tt
      end
  | _, _ => mret tt
  end;;
  mret result.
End postgres.

(** ** [IdempotentDeliveryService] *)

(** The protocol [DeliveryStore]. *)
Class DeliveryStore `{SqlEngine} `{RedisServer} := {
  store_claim : Z -> DeliveryRequest -> M DeliveryClaim;
  store_finalize : Z -> DeliveryResult -> M unit;
  store_apply_callback : MetaStatusUpdate -> M CallbackApplyStatus
}.

#[export] Instance PostgresDeliveryStore `{SqlEngine} `{RedisServer} `{Env} : DeliveryStore := {|
  store_claim := claim;
  store_finalize := finalize;
  store_apply_callback := apply_callback
|}.

Definition replay_metadata : list (str * json) := [(u "idempotent_replay", JBool true)].

Definition _existing_result (attempt : DeliveryAttemptSnapshot) : res DeliveryResult :=
  if bool_decide (snap_state attempt = DA_PENDING) then
    construct {| dres_status := DS_UNKNOWN; dres_provider_message_id := None;
                 dres_error_code := Some (u "DELIVERY_ALREADY_IN_PROGRESS");
                 dres_error_message := Some (u "Ya existe un intento de entrega en curso.");
                 dres_trace_id := snap_trace_id attempt; dres_metadata := replay_metadata |}
  else
    status ← delivery_status (enum_value (snap_state attempt));
    construct {| dres_status := status;
                 dres_provider_message_id := snap_provider_message_id attempt;
                 dres_error_code := snap_error_code attempt;
                 dres_error_message := snap_error_message attempt;
                 dres_trace_id := snap_trace_id attempt; dres_metadata := replay_metadata |}.

Section service.
Context `{SqlEngine} `{RedisServer} `{Env} `{!DeliveryStore}.
Variable adapter : DeliveryRequest -> M DeliveryResult.

Definition _emit_attempt (result : DeliveryResult) (started : Z) : M unit :=
  let failed := error_status (dres_status result) in
  emit EV_DELIVERY_ATTEMPTED (dres_trace_id result) (u "meta_delivery")
    (if failed then EO_FAILED else EO_SUCCEEDED) (Some started) (dres_error_code result)
    None None;;
  if failed then
    emit EV_DELIVERY_FAILED (dres_trace_id result) (u "meta_delivery") EO_FAILED None
      (dres_error_code result) None None
  else mret tt.

Definition send (conversation_id : Z) (request : DeliveryRequest) : M DeliveryResult :=
  observed_at ← started_at;
  c ← store_claim conversation_id request;
  if negb (claim_created c) then
    result ← lift (_existing_result (claim_attempt c));
    _emit_attempt result observed_at;;
    mret result
  else
    result ← adapter request;
    store_finalize (snap_id (claim_attempt c)) result;;
    _emit_attempt result observed_at;;
    mret result.
End service.
