(* ===== verification/DeliveryLaws.v ===== *)
(** * Laws of the delivery ledger

    The effect of [claim], [finalize] and [_apply_callback] on the tables, the
    lifecycle of an attempt, concurrent senders as a step relation, and the
    properties of [IdempotentDeliveryService.send]. *)
From S2P Require Import Prelude PyStr Errors Contracts Events Sql Redis Models World.
From S2P Require Import Session MetaWebhook Delivery.
From stdpp Require Import relations.

Local Open Scope Z_scope.

(** ** Effects on the tables *)

Section effects.
Context `{SqlEngine} `{RedisServer} `{Env}.

Abbreviation attempts d := (rows (db_attempts d)).
Abbreviation events d := (rows (db_events d)).

(** The tables outside the ledger are untouched. *)
Definition outside (d d' : Db) : Prop :=
  db_conversations d' = db_conversations d /\ db_messages d' = db_messages d /\
  db_handoffs d' = db_handoffs d.

Definition pending_row (cid : Z) (request : DeliveryRequest) (t : Z) : DeliveryAttemptRecord :=
  {| a_conversation_id := cid; a_idempotency_key := dr_idempotency_key request;
     a_provider_message_id := None; a_status := enum_value DA_PENDING;
     a_error_code := None; a_error_message := None; a_trace_id := dr_trace_id request;
     a_created_at := t; a_updated_at := t |}.

Definition finalized_row (result : DeliveryResult) (t : Z) (r : DeliveryAttemptRecord)
    : DeliveryAttemptRecord :=
  {| a_conversation_id := a_conversation_id r; a_idempotency_key := a_idempotency_key r;
     a_provider_message_id := dres_provider_message_id result;
     a_status := enum_value (dres_status result);
     a_error_code := dres_error_code result; a_error_message := dres_error_message result;
     a_trace_id := a_trace_id r; a_created_at := a_created_at r; a_updated_at := t |}.

Inductive claim_effect (cid : Z) (request : DeliveryRequest) (d : Db)
    : DeliveryClaim -> Db -> Prop :=
| claim_new id t snap d' :
    attempts d !! id = None ->
    (forall k r, attempts d !! k = Some r -> a_idempotency_key r <> dr_idempotency_key request) ->
    attempts d' = <[id := pending_row cid request t]> (attempts d) ->
    db_events d' = db_events d -> outside d d' ->
    _snapshot id (pending_row cid request t) = Ok snap ->
    claim_effect cid request d {| claim_created := true; claim_attempt := snap |} d'
| claim_old id r snap :
    attempts d !! id = Some r -> a_idempotency_key r = dr_idempotency_key request ->
    _snapshot id r = Ok snap ->
    claim_effect cid request d {| claim_created := false; claim_attempt := snap |} d.

(** The only attempt with the provider's message identifier. *)
Definition the_attempt (cb : MetaStatusUpdate) (d : Db) (id : Z) (r : DeliveryAttemptRecord)
    : Prop :=
  attempts d !! id = Some r /\ a_provider_message_id r = Some (su_provider_message_id cb) /\
  forall k s, attempts d !! k = Some s ->
    a_provider_message_id s = Some (su_provider_message_id cb) -> k = id.

(** The event the callback reports is already recorded. *)
Definition event_recorded (cb : MetaStatusUpdate) (d : Db) : Prop :=
  exists k e, events d !! k = Some e /\
    se_provider_message_id e = Some (su_provider_message_id cb) /\
    se_status e = enum_value (su_status cb).

Inductive callback_effect (cb : MetaStatusUpdate) (d : Db)
    : CallbackApplyStatus -> option str -> Db -> Prop :=
| callback_missing :
    (forall k r, attempts d !! k = Some r ->
       a_provider_message_id r <> Some (su_provider_message_id cb)) ->
    callback_effect cb d CB_MISSING_ATTEMPT None d
| callback_duplicate id r :
    the_attempt cb d id r -> event_recorded cb d ->
    callback_effect cb d CB_DUPLICATE (Some (a_trace_id r)) d
| callback_regression id r c k e d' :
    the_attempt cb d id r -> a_status r = enum_value c ->
    enum_of (enum_value (su_status cb)) ≫= (fun t => Some (_can_transition c t)) = Some false ->
    events d !! k = None ->
    se_provider_message_id e = Some (su_provider_message_id cb) ->
    se_status e = enum_value (su_status cb) -> se_delivery_attempt_id e = id ->
    db_attempts d' = db_attempts d -> events d' = <[k := e]> (events d) -> outside d d' ->
    callback_effect cb d CB_IGNORED_REGRESSION (Some (a_trace_id r)) d'
| callback_applied id r c target t k e d' :
    the_attempt cb d id r -> a_status r = enum_value c ->
    enum_value target = enum_value (su_status cb) -> _can_transition c target = true ->
    events d !! k = None ->
    se_provider_message_id e = Some (su_provider_message_id cb) ->
    se_status e = enum_value (su_status cb) -> se_delivery_attempt_id e = id ->
    attempts d' = <[id := with_status (enum_value target) (su_error_code cb)
                            (su_error_message cb) t r]> (attempts d) ->
    events d' = <[k := e]> (events d) -> outside d d' ->
    callback_effect cb d CB_APPLIED (Some (a_trace_id r)) d'.

(** *** The operations have these effects *)

Lemma flush_changes_loaded r assigned :
  a_conversation_id assigned = a_conversation_id r ->
  flush_changes r assigned r =
    with_status (a_status assigned) (a_error_code assigned) (a_error_message assigned)
      (a_updated_at assigned) r.
Proof.
  intros _. unfold flush_changes, changed.
  repeat case_decide; simplify_eq/=; unfold with_status; simpl; congruence.
Qed.

Lemma claim_run cid request w c w' :
  claim cid request w = (Ok c, w') -> claim_effect cid request (w_db w) c (w_db w').
Proof.
  intros Hr. unfold claim in Hr. m_inv Hr as id w1 Hid. apply uuid4_inv in Hid.
  apply session_ok_inv in Hr as (w2 & Hr & ->). cbn [tick w_db]. m_inv Hr as o w3 Hins.
  rewrite <- Hid. apply insert_ok_inv in Hins as
    [(r & t & -> & -> & Hfit & Hfk & Hk & Ha & Hu & tb & Hdb & Htb)|(-> & Hdb & t & Hc)].
  - m_inv Hr as snap w4 Hsnap. apply lift_ok_inv in Hsnap as [Hsnap ->].
    apply ret_ok_inv in Hr as [-> ->].
    rewrite Hdb. econstructor; [exact Hk| |exact Htb|done|done|exact Hsnap].
    intros k r Hkr. pose proof (proj1 (conflicts_false _ _ _) Ha k r Hkr) as Hf.
    unfold uq_delivery_attempts_idempotency_key in Hf. bools. cbn in Hf. congruence.
  - m_inv Hr as found w4 Hsel. apply select_ok_inv in Hsel as [-> Hdb'].
    m_inv Hr as [k r] w5 Hone. apply lift_ok_inv in Hone as [Hone%one_inv ->].
    m_inv Hr as snap w6 Hsnap. apply lift_ok_inv in Hsnap as [Hsnap ->].
    apply ret_ok_inv in Hr as [-> ->].
    apply select_one_inv in Hone as (Hk & Hp & _). bools. rewrite Hdb', Hdb in *.
    by eapply claim_old.
Qed.

Lemma finalize_run id result w a w' :
  finalize id result w = (Ok a, w') ->
  exists r t k e, attempts (w_db w) !! id = Some r /\ a_status r = enum_value DA_PENDING /\
    attempts (w_db w') = <[id := finalized_row result t r]> (attempts (w_db w)) /\
    events (w_db w) !! k = None /\ events (w_db w') = <[k := e]> (events (w_db w)) /\
    se_provider_message_id e = dres_provider_message_id result /\
    se_status e = enum_value (dres_status result) /\ se_delivery_attempt_id e = id /\
    outside (w_db w) (w_db w').
Proof.
  unfold finalize. intros Hr. apply session_ok_inv in Hr as (w1 & Hr & ->). cbn [tick w_db].
  m_inv Hr as ids w2 Hupd. m_inv Hr as o w3 Hone. apply lift_ok_inv in Hone as [Hone ->].
  destruct o as [k|]; [|done]. apply one_or_none_some in Hone as ->.
  apply update_ok_inv in Hupd as (t & tb & Hids & Hdb & Htb).
  apply fst_one_inv in Hids as [r Hsel].
  apply select_one_inv in Hsel as (Hk & Hp & Hu). bools. subst k.
  m_inv Hr as oc w4 Hnow. apply now_inv in Hnow. m_inv Hr as ev w5 Hev. apply uuid4_inv in Hev.
  m_inv Hr as o w6 Hins. apply ret_ok_inv in Hr as [_ ->].
  apply insert_ok_inv in Hins as
    [(e & t' & -> & -> & _ & _ & Hke & _ & _ & tb' & Hdb' & Htb')|(_ & _ & t' & Hc)]; cycle 1.
  { apply conflicts_true in Hc as (? & ? & _ & ?). done. }
  rewrite Hdb', Hev, Hnow, Hdb in *. exists r, t, ev. eexists.
  split_and!; [exact Hk|done| |exact Hke|exact Htb'|done|done|done|done]. cbn. rewrite Htb.
  apply (update_spec_key _ (finalized_row result t)); [exact Hk| |].
  - cbn. by rewrite Z.eqb_refl, bool_decide_true.
  - intros k' r' _ Hp'. by bools.
Qed.

Lemma apply_callback_run cb w st tr w' :
  _apply_callback cb w = (Ok (st, tr), w') -> callback_effect cb (w_db w) st tr (w_db w').
Proof.
  unfold _apply_callback. intros Hr. m_inv Hr as o w1 Hread.
  unfold callback_read in Hread. m_inv Hread as found w2 Hsel.
  apply select_ok_inv in Hsel as [-> Hdb2]. apply lift_ok_inv in Hread as [Hone ->].
  destruct o as [[id r]|]; cycle 1.
  { apply ret_ok_inv in Hr as [[= -> ->] ->]. rewrite Hdb2. apply callback_missing.
    apply one_or_none_none in Hone. intros k r Hk Hp.
    apply (proj1 (select_nil _ _ _) Hone k r) in Hk. by bools. }
  apply one_or_none_some, select_one_inv in Hone as (Hk & Hp & Hu). bools.
  assert (the_attempt cb (w_db w) id r) as Hthe.
  { split_and!; [done..|]. intros k s Hks Hps. eapply Hu; [exact Hks|].
    by rewrite bool_decide_true. }
  m_inv Hr as oe w3 Hev. unfold callback_event in Hev. m_inv Hev as eid w4 Hid.
  apply uuid4_inv in Hid. rewrite Hdb2 in Hid.
  apply insert_ok_inv in Hev as
    [(e & t & -> & -> & _ & _ & Hke & _ & _ & tb & Hdb & Htb)|(-> & Hdb & t & Hc)]; cycle 1.
  { apply ret_ok_inv in Hr as [[= -> ->] ->]. rewrite Hdb, Hid in *.
    eapply callback_duplicate; [exact Hthe|].
    apply conflicts_true in Hc as (k & e & He & Hc). exists k, e. split; [done|].
    unfold uq_delivery_status_provider_state in Hc. bools.
    apply sql_eq_true in H2 as (p & [= <-] & ?). cbn in *. split; congruence. }
  rewrite Hid in *. m_inv Hr as st' w5 Hw. apply ret_ok_inv in Hr as [[= -> ->] ->].
  unfold callback_write in Hw. m_inv Hw as c w6 Hc. apply lift_ok_inv in Hc as [Hc ->].
  m_inv Hw as target w7 Ht. apply lift_ok_inv in Ht as [Ht ->].
  unfold attempt_state in Hc, Ht. destruct (enum_of (a_status r)) eqn:Hcs; [|done].
  destruct (enum_of (enum_value (su_status cb))) eqn:Hts; [|done]. simplify_eq.
  destruct (_can_transition c target) eqn:Hcan; cbn [negb] in Hw; cycle 1.
  - apply ret_ok_inv in Hw as [-> ->]. rewrite Hdb.
    eapply (callback_regression _ _ id r c); [exact Hthe| | |exact Hke| | | |done|exact Htb|done];
      [by symmetry; apply enum_of_Some| |done|done|done].
    by rewrite Hts; cbn; rewrite Hcan.
  - m_inv Hw as t2 w8 Hnow. apply now_inv in Hnow. m_inv Hw as ids w9 Hupd.
    apply ret_ok_inv in Hw as [-> ->].
    apply update_ok_inv in Hupd as (t3 & tb3 & _ & Hdb3 & Htb3).
    rewrite Hdb3. rewrite Hnow, Hdb in *.
    eapply (callback_applied _ _ id r c target t2); [exact Hthe| | |done|exact Hke| | | | |exact Htb|done];
      [by symmetry; apply enum_of_Some|by apply enum_of_Some|done|done|done|].
    cbn [set_tbl attempts_table db_attempts]. rewrite Htb3.
    erewrite update_spec_key; [|exact Hk|by apply Z.eqb_refl|by intros k' r' _ Hp'; bools].
    by rewrite flush_changes_loaded.
Qed.
(** A run of each operation: its effect, or an exception and no effect. *)
Lemma claim_cases cid request w :
  match claim cid request w with
  | (Ok c, w') => claim_effect cid request (w_db w) c (w_db w')
  | (Raise _, w') => w_db w' = w_db w
  end.
Proof.
  destruct (claim cid request w) as [[c|e] w'] eqn:Hr; [by apply claim_run|].
  unfold claim in Hr. rewrite bind_run in Hr.
  destruct (uuid4 w) as [[id|e'] w1] eqn:Hid; [|done].
  apply uuid4_inv in Hid. by apply session_raise_db in Hr as ->.
Qed.

Lemma finalize_cases id result w :
  match finalize id result w with
  | (Ok _, w') => exists r t, attempts (w_db w) !! id = Some r /\
      a_status r = enum_value DA_PENDING /\
      attempts (w_db w') = <[id := finalized_row result t r]> (attempts (w_db w))
  | (Raise _, w') => w_db w' = w_db w
  end.
Proof.
  destruct (finalize id result w) as [[a|e] w'] eqn:Hr; [|by apply session_raise_db in Hr].
  apply finalize_run in Hr as (r & t & k & e & ? & ? & ? & _). eauto.
Qed.

Lemma emit_db ev tr co ou st er cc uc w :
  w_db (emit ev tr co ou st er cc uc w).2 = w_db w.
Proof. symmetry. exact (keeps_db_emit (=) ev tr co ou st er cc uc w). Qed.

(** Whatever it returns, [apply_callback] has the effect of one callback, or
    none when its transaction failed; its answer is that of the callback. *)
Lemma apply_callback_cases cb w :
  let '(r, w') := apply_callback cb w in
  (w_db w' = w_db w /\ exists e, r = Raise e) \/
  exists st tr, callback_effect cb (w_db w) st tr (w_db w') /\
    (r = Ok st \/ exists e, r = Raise e).
Proof.
  unfold apply_callback. rewrite bind_run. cbn [started_at perf]. rewrite bind_run.
  destruct (session _ _) as [[[st tr]|e] w1] eqn:Hs; cycle 1.
  { apply session_raise_db in Hs. left. eauto. }
  apply session_ok_inv in Hs as (w2 & Hs & ->). apply apply_callback_run in Hs.
  assert (forall m : M unit, (forall w0, w_db (m w0).2 = w_db w0) ->
    let '(r, w') := (m ≫= fun _ => mret st : M _) (tick w2) in
    w_db w' = w_db w2 /\ (r = Ok st \/ exists e, r = Raise e)) as Hm.
  { intros m Hm. specialize (Hm (tick w2)). rewrite bind_run.
    destruct (m (tick w2)) as [[]]; cbn; eauto. }
  cbv beta iota.
  enough (forall m : M unit, (forall w0, w_db (m w0).2 = w_db w0) ->
    let '(r, w') := (m ≫= fun _ => mret st : M _) (tick w2) in
    (w_db w' = w_db w /\ exists e, r = Raise e) \/
    exists st0 tr0, callback_effect cb (w_db w) st0 tr0 (w_db w') /\
      (r = Ok st0 \/ exists e, r = Raise e)) as Hgoal.
  { apply Hgoal. intros w0. repeat case_match; try apply emit_db; done. }
  intros m Hdb. specialize (Hm m Hdb). destruct (mbind _ m (tick w2)) as [r w'].
  destruct Hm as [-> Hr]. eauto.
Qed.
End effects.

(** ** The lifecycle of an attempt *)

(** The order of the statuses: pending before everything, then the transitions
    the callbacks may make. *)
Definition status_le (s t : str) : Prop :=
  s = t \/ s = enum_value DA_PENDING \/
  exists c c', s = enum_value c /\ t = enum_value c' /\ _can_transition c c' = true.

Lemma can_transition_trans a b c :
  _can_transition a b = true -> _can_transition b c = true -> _can_transition a c = true.
Proof. by destruct a, b, c. Qed.

Lemma can_transition_irrefl a b : _can_transition a b = true -> _can_transition b a = false.
Proof. by destruct a, b. Qed.

#[export] Instance status_le_preorder : PreOrder status_le.
Proof.
  split; [by left|].
  intros s1 s2 s3 [->|[->|(a & b & -> & -> & Hab)]]; [done|by right; left|].
  intros [<-|[Hp|(b' & c & Hb & -> & Hbc)]].
  - right; right. eauto.
  - apply enum_value_inj in Hp as ->. by destruct a.
  - apply enum_value_inj in Hb as <-. right; right. exists a, c. split_and!; try done.
    by eapply can_transition_trans.
Qed.

#[export] Instance status_le_antisym : AntiSymm eq status_le.
Proof.
  intros s1 s2 [->|[->|(a & b & -> & -> & Hab)]]; [done|..].
  - intros [<-|[->|(a & b & -> & Hb & Hab)]]; [done..|].
    apply enum_value_inj in Hb as <-. by destruct a.
  - intros [<-|[Hb|(b' & a' & Hb & Ha & Hba)]]; [done|..].
    + apply enum_value_inj in Hb as ->. by destruct a.
    + apply enum_value_inj in Hb as <-. apply enum_value_inj in Ha as <-.
      by rewrite (can_transition_irrefl _ _ Hab) in Hba.
Qed.

Definition row_progress (r r' : DeliveryAttemptRecord) : Prop :=
  a_conversation_id r' = a_conversation_id r /\ a_idempotency_key r' = a_idempotency_key r /\
  a_trace_id r' = a_trace_id r /\ a_created_at r' = a_created_at r /\
  status_le (a_status r) (a_status r').

#[export] Instance row_progress_preorder : PreOrder row_progress.
Proof.
  unfold row_progress. split.
  - intros r. split_and!; done.
  - intros r1 r2 r3 (?&?&?&?&?) (?&?&?&?&?). split_and!; try congruence. by etrans.
Qed.

(** No attempt is lost, and each keeps its identity and only moves forward. *)
Definition ledger_progress `{SqlEngine} (d d' : Db) : Prop :=
  forall id r, rows (db_attempts d) !! id = Some r ->
    exists r', rows (db_attempts d') !! id = Some r' /\ row_progress r r'.

Section lifecycle.
Context `{SqlEngine} `{RedisServer} `{Env}.

#[export] Instance ledger_progress_preorder : PreOrder ledger_progress.
Proof.
  split.
  - intros d id r Hr. by exists r.
  - intros d1 d2 d3 H12 H23 id r (r2 & Hr2 & ?)%H12.
    destruct (H23 _ _ Hr2) as (r3 & ? & ?). exists r3. split; [done|]. by etrans.
Qed.

Lemma ledger_progress_same d d' : db_attempts d' = db_attempts d -> ledger_progress d d'.
Proof. intros Hd id r Hr. rewrite Hd. by exists r. Qed.

Lemma ledger_progress_insert d d' id r r' :
  rows (db_attempts d) !! id = Some r -> row_progress r r' ->
  rows (db_attempts d') = <[id := r']> (rows (db_attempts d)) -> ledger_progress d d'.
Proof.
  intros Hr Hp Hd k s Hk. rewrite Hd. destruct (decide (k = id)) as [->|Hne].
  - rewrite lookup_insert_eq. simplify_eq. by exists r'.
  - rewrite lookup_insert_ne by done. by exists s.
Qed.

Lemma claim_effect_progress cid request d c d' :
  claim_effect cid request d c d' -> ledger_progress d d'.
Proof.
  intros [id t snap d'' Hk _ Hd _ _ _|]; [|done].
  intros k r Hr. rewrite Hd, lookup_insert_ne by congruence. by exists r.
Qed.

Lemma callback_effect_progress cb d st tr d' :
  callback_effect cb d st tr d' -> ledger_progress d d'.
Proof.
  intros [| |id r c k e d'' _ _ _ _ _ _ _ Hd|id r c target t k e d'' (Hr & _) Hc _ Hcan _ _ _ _ Hd];
    [done..|by apply ledger_progress_same|].
  eapply ledger_progress_insert; [exact Hr| |exact Hd].
  unfold row_progress. split_and!; try done. right; right. eauto.
Qed.

Lemma keeps_claim cid request : keeps_db ledger_progress (claim cid request).
Proof.
  intros w. unfold db_rel. pose proof (claim_cases cid request w) as Hc.
  destruct (claim _ _ _) as [[c|e] w']; cbn; [by eapply claim_effect_progress|by rewrite Hc].
Qed.

Lemma keeps_finalize id result : keeps_db ledger_progress (finalize id result).
Proof.
  intros w. unfold db_rel. pose proof (finalize_cases id result w) as Hf.
  destruct (finalize _ _ _) as [[c|e] w']; cbn; [|by rewrite Hf].
  destruct Hf as (r & t & Hr & Hs & Hd). eapply ledger_progress_insert; [exact Hr| |exact Hd].
  unfold row_progress. split_and!; try done. right; left. done.
Qed.

Lemma keeps_apply_callback cb : keeps_db ledger_progress (apply_callback cb).
Proof.
  intros w. unfold db_rel. pose proof (apply_callback_cases cb w) as Hc.
  destruct (apply_callback cb w) as [r w']. cbn.
  destruct Hc as [[-> _]|(st & tr & He & _)]; [done|].
  by eapply callback_effect_progress.
Qed.
End lifecycle.

#[export] Hint Resolve keeps_claim keeps_finalize keeps_apply_callback : piki.
