(* ===== verification/DeliveryProps.v ===== *)
(** * Senders, callbacks and their properties

    Concurrent senders sharing one ledger as a step relation whose steps are
    the transactions of [Delivery], a refinement of [send] to it, and the
    properties of the delivery component. *)
From S2P Require Import Prelude PyStr Errors Contracts Events Sql Redis Models World.
From S2P Require Import Session Traffic Sample Pydantic MetaWebhook Delivery DeliveryLaws.
From stdpp Require Import relations.

Local Open Scope Z_scope.

(** ** Concurrent senders

    A sender is a run of [send] cut at its transactions; between two steps of a
    sender any other step may happen, or the process may stop. *)

Inductive phase :=
| PhNew
| PhClaimed (id : Z)
| PhSent (id : Z) (result : DeliveryResult)
| PhDone (outcome : res DeliveryResult).

Record sender := Sender {
  sn_conversation : Z; sn_request : DeliveryRequest; sn_phase : phase }.
Definition sn_key (s : sender) : str := dr_idempotency_key (sn_request s).
Definition set_phase (p : phase) (s : sender) : sender :=
  Sender (sn_conversation s) (sn_request s) p.

Definition after_claim (r : res DeliveryClaim) : phase :=
  match r with
  | Ok c => if claim_created c then PhClaimed (snap_id (claim_attempt c))
            else PhDone (_existing_result (claim_attempt c))
  | Raise e => PhDone (Raise e)
  end.
Definition after_adapter (id : Z) (r : res DeliveryResult) : phase :=
  match r with Ok result => PhSent id result | Raise e => PhDone (Raise e) end.
Definition after_finalize (result : DeliveryResult) (r : res unit) : phase :=
  match r with Ok _ => PhDone (Ok result) | Raise e => PhDone (Raise e) end.

Section senders.
Context `{SqlEngine} `{RedisServer} `{Env}.

(** [cfg_calls] lists the idempotency key of every provider call made. *)
Record config := Config {
  cfg_world : World; cfg_senders : list sender; cfg_calls : list str }.

Definition same_ledger (w w' : World) : Prop :=
  db_attempts (w_db w') = db_attempts (w_db w).

Inductive step : config -> config -> Prop :=
| step_claim w ss calls i s r w' :
    ss !! i = Some s -> sn_phase s = PhNew ->
    claim (sn_conversation s) (sn_request s) w = (r, w') ->
    step (Config w ss calls) (Config w' (<[i := set_phase (after_claim r) s]> ss) calls)
| step_adapter w ss calls i s id r w' :
    ss !! i = Some s -> sn_phase s = PhClaimed id -> same_ledger w w' ->
    step (Config w ss calls)
      (Config w' (<[i := set_phase (after_adapter id r) s]> ss) (sn_key s :: calls))
| step_finalize w ss calls i s id result r w' :
    ss !! i = Some s -> sn_phase s = PhSent id result ->
    finalize id result w = (r, w') ->
    step (Config w ss calls)
      (Config w' (<[i := set_phase (after_finalize result r) s]> ss) calls)
| step_callback w ss calls cb :
    step (Config w ss calls) (Config (apply_callback cb w).2 ss calls)
| step_crash w ss calls i s e :
    ss !! i = Some s ->
    step (Config w ss calls) (Config w (<[i := set_phase (PhDone (Raise e)) s]> ss) calls)
| step_other w ss calls w' :
    same_ledger w w' -> step (Config w ss calls) (Config w' ss calls).

Abbreviation attempts w := (rows (db_attempts (w_db w))).

Definition has_key (w : World) (key : str) : Prop :=
  exists id r, attempts w !! id = Some r /\ a_idempotency_key r = key.

(** The invariant: no key called twice, a called or claimed key has its row,
    and a claim whose call is still to come is alone and not called yet. *)
Record calls_inv (c : config) : Prop := {
  inv_nodup : NoDup (cfg_calls c);
  inv_called key : key ∈ cfg_calls c -> has_key (cfg_world c) key;
  inv_claimed i s id :
    cfg_senders c !! i = Some s -> sn_phase s = PhClaimed id ->
    has_key (cfg_world c) (sn_key s) /\ sn_key s ∉ cfg_calls c;
  inv_alone i j s t id id' :
    cfg_senders c !! i = Some s -> cfg_senders c !! j = Some t ->
    sn_phase s = PhClaimed id -> sn_phase t = PhClaimed id' ->
    sn_key s = sn_key t -> i = j
}.

Lemma has_key_progress w w' key :
  ledger_progress (w_db w) (w_db w') -> has_key w key -> has_key w' key.
Proof.
  intros Hp (id & r & Hr & <-). destruct (Hp _ _ Hr) as (r' & Hr' & _ & Hk & _).
  exists id, r'. done.
Qed.

Lemma calls_inv_frame w w' ss ss' calls :
  calls_inv (Config w ss calls) -> ledger_progress (w_db w) (w_db w') ->
  (forall i s id, ss' !! i = Some s -> sn_phase s = PhClaimed id ->
     exists s' id', ss !! i = Some s' /\ sn_phase s' = PhClaimed id' /\ sn_key s' = sn_key s) ->
  calls_inv (Config w' ss' calls).
Proof.
  intros [Hn Hc Hcl Hal] Hp Hss. split; cbn in *.
  - done.
  - intros key Hkey. eapply has_key_progress; eauto.
  - intros i s id Hi Hs. destruct (Hss _ _ _ Hi Hs) as (s' & id' & Hi' & Hs' & <-).
    destruct (Hcl _ _ _ Hi' Hs'). split; [by eapply has_key_progress|done].
  - intros i j s t id id' Hi Hj Hs Ht Hk.
    destruct (Hss _ _ _ Hi Hs) as (s' & ? & Hi' & Hs' & Hks).
    destruct (Hss _ _ _ Hj Ht) as (t' & ? & Hj' & Ht' & Hkt).
    eapply Hal; eauto. congruence.
Qed.

(** A step that sends sender [i] to a phase other than claimed. *)
Lemma frame_set_phase (ss : list sender) i s p :
  (forall id, p <> PhClaimed id) ->
  forall j t id, <[i := set_phase p s]> ss !! j = Some t -> sn_phase t = PhClaimed id ->
    exists s' id', ss !! j = Some s' /\ sn_phase s' = PhClaimed id' /\ sn_key s' = sn_key t.
Proof.
  intros Hp j t id Hj Ht. destruct (decide (i = j)) as [->|Hne].
  - apply list_lookup_insert_Some in Hj as [(_ & <- & _)|(Hne & _)]; [|done].
    cbn in Ht. by destruct (Hp id).
  - rewrite list_lookup_insert_ne in Hj by done. eauto.
Qed.

Lemma snapshot_id id r snap : _snapshot id r = Ok snap -> snap_id snap = id.
Proof. unfold _snapshot. intros (st & _ & Hc)%res_bind_ok. by apply construct_ok in Hc as [_ ->]. Qed.

Lemma claim_progress cid request w : ledger_progress (w_db w) (w_db (claim cid request w).2).
Proof. apply keeps_claim. Qed.

(** A claim that created the row: nobody had the key. *)
Lemma calls_inv_claimed w ss calls i s snap w' :
  calls_inv (Config w ss calls) -> ss !! i = Some s ->
  claim (sn_conversation s) (sn_request s) w =
    (Ok {| claim_created := true; claim_attempt := snap |}, w') ->
  ledger_progress (w_db w) (w_db w') ->
  calls_inv (Config w' (<[i := set_phase (after_claim
    (Ok {| claim_created := true; claim_attempt := snap |})) s]> ss) calls).
Proof.
  intros [Hn Hc Hclm Hal] Hi Hr%claim_run Hp. cbn in *.
  inversion Hr as [id t snap' d' Hid Hfresh Hd _ _ Hsnap|]; subst.
  assert (~ has_key w (sn_key s)) as Hnk.
  { intros (k & r & Hk & Hkey). by eapply Hfresh. }
  assert (has_key w' (sn_key s)) as Hk'.
  { exists id, (pending_row (sn_conversation s) (sn_request s) t).
    by rewrite Hd, lookup_insert_eq. }
  assert (forall j t0 id0, ss !! j = Some t0 -> sn_phase t0 = PhClaimed id0 ->
            sn_key t0 <> sn_key s) as Hne.
  { intros j t0 id0 Hj Ht Heq. destruct (Hclm _ _ _ Hj Ht) as [Hh _]. by rewrite Heq in Hh. }
  split; cbn; [done|intros key Hkey; eapply has_key_progress; eauto| |].
  - intros j u' id' Hj Hu. apply list_lookup_insert_Some in Hj as [(_ & <- & _)|(_ & Hj)].
    + split; [done|]. intros Hin. by apply Hnk, Hc.
    + destruct (Hclm _ _ _ Hj Hu). split; [by eapply has_key_progress|done].
  - intros j1 j2 s1 s2 id1 id2 H1' H2' Hs1 Hs2 Hkk.
    apply list_lookup_insert_Some in H1' as [(-> & <- & _)|(_ & H1')];
    apply list_lookup_insert_Some in H2' as [(-> & <- & _)|(_ & H2')];
    [done|by destruct (Hne _ _ _ H2' Hs2)|by destruct (Hne _ _ _ H1' Hs1)|by eapply Hal].
Qed.

(** A call by the only sender that holds the key. *)
Lemma calls_inv_called w ss calls i s id r w' :
  calls_inv (Config w ss calls) -> ss !! i = Some s -> sn_phase s = PhClaimed id -> same_ledger w w' ->
  calls_inv (Config w' (<[i := set_phase (after_adapter id r) s]> ss) (sn_key s :: calls)).
Proof.
  intros Hinv Hi Hcl Hsame.
  assert (ledger_progress (w_db w) (w_db w')) as Hp by by apply ledger_progress_same.
  assert (calls_inv (Config w' (<[i := set_phase (after_adapter id r) s]> ss) calls)) as Hi'.
  { eapply calls_inv_frame; eauto. apply frame_set_phase. by destruct r. }
  destruct Hinv as [_ _ Hclm Hal]. cbn in *. destruct (Hclm _ _ _ Hi Hcl) as [Hh Hnin].
  destruct Hi' as [Hn Hc Hclm' Hal']. cbn in *. split; cbn; [by constructor| | |done].
  - intros key [->|Hk]%elem_of_cons; [by eapply has_key_progress|by apply Hc].
  - intros j t id' Hj Ht. destruct (Hclm' _ _ _ Hj Ht) as [Ha Hb]. split; [done|].
    apply not_elem_of_cons. split; [|done]. intros Heq.
    apply list_lookup_insert_Some in Hj as [(_ & <- & _)|(Hne & Hj)]; [by destruct r|].
    by destruct Hne; eapply Hal.
Qed.

Lemma step_calls_inv c c' : step c c' -> calls_inv c -> calls_inv c'.
Proof.
  intros [w ss calls i s r w' Hi Hnew Hr|w ss calls i s id r w' Hi Hcl Hsame
         |w ss calls i s id result r w' Hi Hph Hr|w ss calls cb|w ss calls i s e Hi
         |w ss calls w' Hsame] Hinv.
  - pose proof (claim_progress (sn_conversation s) (sn_request s) w) as Hp. rewrite Hr in Hp. cbn in Hp.
    destruct r as [[[] snap]|e]; [by eapply calls_inv_claimed|
      by eapply calls_inv_frame; eauto; apply frame_set_phase..].
  - by eapply calls_inv_called.
  - pose proof (keeps_finalize id result w) as Hp. rewrite Hr in Hp.
    eapply calls_inv_frame; eauto. apply frame_set_phase. by destruct r.
  - eapply calls_inv_frame; [exact Hinv|apply keeps_apply_callback|eauto].
  - eapply calls_inv_frame; [exact Hinv|done|by apply frame_set_phase].
  - eapply calls_inv_frame; [exact Hinv|by apply ledger_progress_same|eauto].
Qed.

Definition initial (c : config) : Prop :=
  cfg_calls c = [] /\ Forall (fun s => sn_phase s = PhNew) (cfg_senders c).

Lemma initial_calls_inv c : initial c -> calls_inv c.
Proof.
  intros [Hcalls Hnew]. rewrite Forall_lookup in Hnew. split.
  - rewrite Hcalls. constructor.
  - rewrite Hcalls. set_solver.
  - intros i s id Hi Hs. by rewrite (Hnew _ _ Hi) in Hs.
  - intros i j s t id id' Hi _ Hs. by rewrite (Hnew _ _ Hi) in Hs.
Qed.

Lemma steps_calls_inv c c' : rtc step c c' -> calls_inv c -> calls_inv c'.
Proof. induction 1; [done|]. intros. eauto using step_calls_inv. Qed.
End senders.

(** ** Well-formed ledgers *)

(** The result a replay of the attempt must give. *)
Definition stored_result (s : DeliveryStatus) (r : DeliveryAttemptRecord) : DeliveryResult :=
  {| dres_status := s; dres_provider_message_id := a_provider_message_id r;
     dres_error_code := a_error_code r; dres_error_message := a_error_message r;
     dres_trace_id := a_trace_id r; dres_metadata := replay_metadata |}.

Definition in_progress_result (trace : str) : DeliveryResult :=
  {| dres_status := DS_UNKNOWN; dres_provider_message_id := None;
     dres_error_code := Some (u "DELIVERY_ALREADY_IN_PROGRESS");
     dres_error_message := Some (u "Ya existe un intento de entrega en curso.");
     dres_trace_id := trace; dres_metadata := replay_metadata |}.

Definition replay (r : DeliveryAttemptRecord) : DeliveryResult :=
  match enum_of (a_status r) with
  | Some s => stored_result s r
  | None => in_progress_result (a_trace_id r)
  end.

(** The status is pending, or one a [DeliveryResult] made of the row accepts. *)
Definition row_wf (r : DeliveryAttemptRecord) : Prop :=
  1 <= py_len (a_trace_id r) <= 128 /\
  (a_status r = enum_value DA_PENDING \/
   exists s : DeliveryStatus, a_status r = enum_value s /\ contract_ok (stored_result s r) = true).

Definition callback_wf (cb : MetaStatusUpdate) : Prop :=
  contract_ok cb = true /\ su_error_code cb <> Some [].

(** A result is valid exactly when its lengths are and its shape matches its
    status. *)
Lemma result_ok_iff x :
  contract_ok x = true <->
  opt_len_in 0 255 (dres_provider_message_id x) = true /\
  opt_len_in 0 100 (dres_error_code x) = true /\
  opt_len_in 0 500 (dres_error_message x) = true /\
  1 <= py_len (dres_trace_id x) <= 128 /\
  (if error_status (dres_status x) then truthy_opt (dres_error_code x) = true
   else dres_error_code x = None /\ truthy_opt (dres_provider_message_id x) = true).
Proof.
  rewrite fields_and_validator. cbn [fields_ok model_validator DeliveryResult_contract].
  rewrite !andb_true_iff, len_in_spec, first_error_none, !Forall_cons. cbn [fst].
  destruct (dres_status x), (dres_error_code x) as [[]|], (dres_provider_message_id x) as [[]|];
    cbn; naive_solver.
Qed.

(** A valid result stays valid with another trace or other metadata. *)
Lemma result_ok_stored s r x :
  contract_ok x = true -> dres_status x = s -> a_provider_message_id r = dres_provider_message_id x ->
  a_error_code r = dres_error_code x -> a_error_message r = dres_error_message x ->
  1 <= py_len (a_trace_id r) <= 128 -> contract_ok (stored_result s r) = true.
Proof.
  rewrite !result_ok_iff. cbn. intros (?&?&?&?&Hs) <- -> -> -> Ht. done.
Qed.

Lemma callback_ok_stored cb r t s :
  callback_wf cb -> enum_value (su_status cb) = enum_value s ->
  su_status cb <> DS_UNKNOWN ->
  a_provider_message_id r = Some (su_provider_message_id cb) ->
  1 <= py_len (a_trace_id r) <= 128 ->
  contract_ok (stored_result s (with_status (enum_value s) (su_error_code cb)
    (su_error_message cb) t r)) = true.
Proof.
  intros [Hok Hne] Hs%enum_value_inj Hu Hp Ht. subst s. apply result_ok_iff.
  apply fields_and_validator in Hok as [Hf Hv]. cbn in Hf. bools.
  apply first_error_none in Hv. rewrite !Forall_cons in Hv. destruct Hv as (Hv1 & Hv2 & _).
  cbn [fst] in *. cbn -[py_len opt_len_in len_in]. rewrite Hp.
  match goal with H : len_in 1 255 (su_provider_message_id cb) = true |- _ =>
    apply len_in_spec in H end.
  assert (opt_len_in 0 255 (Some (su_provider_message_id cb)) = true) as ->.
  { apply len_in_spec. lia. }
  assert (truthy_opt (Some (su_provider_message_id cb)) = true) as Htr.
  { apply truthy_len. lia. }
  do 4 (split; [done|]).
  destruct (su_status cb), (su_error_code cb) as [[]|]; try done.
Qed.

Section ledger.
Context `{SqlEngine} `{RedisServer} `{Env}.

Abbreviation attempts d := (rows (db_attempts d)).

(** Keys are unique, rows well formed and of the width of their columns. *)
Record ledger_wf (d : Db) : Prop := {
  wf_keys i j r s : attempts d !! i = Some r -> attempts d !! j = Some s ->
    a_idempotency_key r = a_idempotency_key s -> i = j;
  wf_rows i r : attempts d !! i = Some r -> row_wf r
}.

Definition keeps_ledger_wf : relation Db := fun d d' => ledger_wf d -> ledger_wf d'.

#[export] Instance keeps_ledger_wf_preorder : PreOrder keeps_ledger_wf.
Proof. split; unfold keeps_ledger_wf; intros ?; naive_solver. Qed.

Lemma ledger_wf_insert d d' id r r' :
  ledger_wf d -> attempts d !! id = Some r -> a_idempotency_key r' = a_idempotency_key r ->
  row_wf r' -> attempts d' = <[id := r']> (attempts d) -> ledger_wf d'.
Proof.
  intros [Hk Hr] Hid Hkey Hwf Hd. split; rewrite Hd.
  - intros i j x y Hi Hj Hxy.
    apply lookup_insert_Some in Hi as [[<- <-]|[Hi Hi']];
    apply lookup_insert_Some in Hj as [[<- <-]|[Hj Hj']]; try done;
      [eapply Hk|eapply Hk|eapply Hk]; eauto; congruence.
  - intros i x [[<- <-]|[_ Hi]]%lookup_insert_Some; [done|by eapply Hr].
Qed.

Lemma pending_row_wf cid req t :
  contract_ok req = true -> row_wf (pending_row cid req t).
Proof.
  intros [Hf _]%fields_and_validator. cbn in Hf. bools. split; [by apply len_in_spec|by left].
Qed.

Lemma claim_keeps_wf cid req :
  contract_ok req = true -> keeps_db keeps_ledger_wf (claim cid req).
Proof.
  intros Hreq w [Hk Hr]. pose proof (claim_cases cid req w) as Hc.
  destruct (claim cid req w) as [[c|e] w']; cbn; [|by rewrite Hc].
  inversion Hc as [id t snap d' Hid Hfresh Hd _ _ _|id r snap _ _ _ Hd]; [|done].
  split; rewrite Hd.
  - intros i j x y Hi Hj Hxy.
    apply lookup_insert_Some in Hi as [[<- <-]|[Hi Hi']];
    apply lookup_insert_Some in Hj as [[<- <-]|[Hj Hj']]; try done; cbn in Hxy;
      [by destruct (Hfresh _ _ Hj')|by destruct (Hfresh _ _ Hi')|by eapply Hk].
  - intros i x [[<- <-]|[_ Hi]]%lookup_insert_Some; [by apply pending_row_wf|by eapply Hr].
Qed.

Lemma finalize_keeps_wf id result :
  contract_ok result = true -> keeps_db keeps_ledger_wf (finalize id result).
Proof.
  intros Hres w Hwf. pose proof (finalize_cases id result w) as Hf.
  destruct (finalize id result w) as [[c|e] w']; cbn; [|by rewrite Hf].
  destruct Hf as (r & t & Hr & _ & Hd).
  eapply (ledger_wf_insert _ _ id r (finalized_row result t r)); [exact Hwf|exact Hr|done| |exact Hd].
  destruct (wf_rows _ Hwf _ _ Hr) as [Ht _]. split; [exact Ht|]. right.
  exists (dres_status result). split; [done|].
  eapply result_ok_stored; [exact Hres|done..|exact Ht].
Qed.

Lemma callback_keeps_wf cb : callback_wf cb -> keeps_db keeps_ledger_wf (apply_callback cb).
Proof.
  intros Hcb w Hwf. pose proof (apply_callback_cases cb w) as Hcs.
  destruct (apply_callback cb w) as [r0 w']. cbn.
  destruct Hcs as [[-> _]|(st & tr & He & _)]; [done|].
  inversion He as [| |id r c k e d' _ _ _ _ _ _ _ Hd
                  |id r c target t k e d' (Hr & Hpid & _) Hc Htg Hcan _ _ _ _ Hd]; try congruence.
  - split; rewrite Hd; apply Hwf.
  - eapply (ledger_wf_insert _ _ id r (with_status _ _ _ _ r)); [done|exact Hr|done| |exact Hd].
    destruct (wf_rows _ Hwf _ _ Hr) as [Ht _]. split; [exact Ht|]. right.
    exists (su_status cb). split; [done|]. rewrite Htg.
    eapply callback_ok_stored; [done..| |exact Hpid|exact Ht]. intros Hu. rewrite Hu in Htg.
    assert (target = DA_UNKNOWN) as -> by by apply enum_value_inj. by destruct c.
Qed.

Lemma keeps_emit_attempt (R : relation Db) `{!PreOrder R} result t :
  keeps_db R (_emit_attempt result t).
Proof. unfold _emit_attempt. cbv zeta. keeps_auto. Qed.

Lemma send_keeps (R : relation Db) `{!PreOrder R} adapter cid req :
  keeps_db R (claim cid req) -> keeps_db R (adapter req) ->
  (forall id w result w', adapter req w = (Ok result, w') -> keeps_db R (finalize id result)) ->
  keeps_db R (send adapter cid req).
Proof.
  intros Hc Ha Hf. unfold send. apply keeps_bind; [apply _|auto with piki|]. intros t.
  apply keeps_bind; [apply _|exact Hc|]. intros c. apply keeps_if; unfold _emit_attempt;
    [keeps_auto|].
  intros w. rewrite bind_run. specialize (Ha w).
  destruct (adapter req w) as [[result|e] w'] eqn:Hrun; cbn; [|done].
  etrans; [exact Ha|]. apply keeps_bind; [apply _|by eapply Hf|]. intros []. keeps_auto.
Qed.
End ledger.

(** ** Replays *)

Section replays.
Context `{SqlEngine} `{RedisServer} `{Env}.
Hypothesis up : forall n, db_up n = true.

Abbreviation attempts w := (rows (db_attempts (w_db w))).

Lemma snapshot_wf id r :
  row_wf r ->
  exists snap, _snapshot id r = Ok snap /\ _existing_result snap = Ok (replay r).
Proof.
  intros [Ht Hs]. unfold _snapshot, attempt_state, replay.
  assert (exists st, enum_of (a_status r) = Some st /\ (st = DA_PENDING \/
    exists s : DeliveryStatus, a_status r = enum_value s /\ enum_value st = enum_value s /\
      contract_ok (stored_result s r) = true)) as (st & Hst & Hcase).
  { destruct Hs as [->|(s & -> & Hok)]; [exists DA_PENDING; eauto using enum_of_value|].
    destruct (enum_of (enum_value s) : option DeliveryAttemptState) as [st|] eqn:Hst;
      [|by destruct s; vm_compute in Hst].
    exists st. split; [done|]. right. exists s. eauto using enum_of_Some. }
  rewrite Hst. cbn [mbind res_bind]. rewrite construct_good; cycle 1.
  { unfold contract_ok. cbn -[len_in]. rewrite andb_true_r. by apply len_in_spec. }
  eexists. split; [done|]. unfold _existing_result. cbn [snap_state].
  destruct Hcase as [->|(s & Hr & Hv & Hok)].
  - cbn [snap_trace_id]. apply enum_of_Some in Hst. rewrite <- Hst.
    rewrite construct_good; [by vm_compute (enum_of (enum_value DA_PENDING))|].
    apply result_ok_iff.
    split; [done|]. split; [by vm_compute|]. split; [by vm_compute|]. split; [exact Ht|].
    by vm_compute.
  - case_bool_decide as Hp; [subst st; by destruct s; vm_compute in Hv|].
    unfold delivery_status. rewrite Hv, Hr, enum_of_value. cbn. by apply construct_good.
Qed.

Lemma claim_existing_up cid req id r w :
  ledger_wf (w_db w) -> contract_ok req = true -> attempts w !! id = Some r ->
  a_idempotency_key r = dr_idempotency_key req ->
  exists snap w', claim cid req w = (Ok {| claim_created := false; claim_attempt := snap |}, w') /\
    _existing_result snap = Ok (replay r) /\ w_db w' = w_db w.
Proof.
  intros Hwf Hreq Hr Hkey.
  destruct (snapshot_wf id r (wf_rows _ Hwf _ _ Hr)) as (snap & Hsnap & Hres).
  unfold claim. rewrite bind_run. unfold uuid4 at 1. cbv beta iota zeta.
  set (w1 := mkWorld _ _ _ _ _ _ _ _). assert (w_db w1 = w_db w) as Hw1 by done.
  edestruct (insert_skip_up uq_delivery_attempts_idempotency_key no_constraint
    (conversation_exists cid) (w_next_id w) (pending_row cid req) w1) as (d & Hins & Hd);
    [apply up| | |].
  { intros t. apply fields_and_validator in Hreq as [Hf _]. cbn in Hf. bools.
    cbn -[fits]. unfold attempt_fits. cbn -[fits].
    repeat match goal with H : len_in _ _ _ = true |- _ => apply len_in_spec in H end.
    unfold fits. rewrite !andb_true_iff, !Z.leb_le. by split_and!; try lia; vm_compute. }
  { intros t. apply conflicts_true. exists id, r. rewrite Hw1. split; [done|].
    unfold uq_delivery_attempts_idempotency_key. by rewrite bool_decide_true. }
  set (w2 := tick (with_db d w1)) in *.
  assert (rows (db_attempts (w_db w2)) !! id = Some r) as Hr2 by (cbn; by rewrite Hd, Hw1).
  do 2 eexists. split; [|split; [exact Hres|]]; cycle 1.
  - shelve.
  - apply session_up; [exact up|]. erewrite bind_ok_run; [|exact Hins]. cbv beta iota.
    erewrite bind_ok_run; [|by apply select_up].
    rewrite (select_unique _ _ _ id r); [|done|by rewrite bool_decide_true|]; cycle 1.
    { cbv beta. intros k' r' Hk' Hp'. bools. cbn in Hk'. rewrite Hd, Hw1 in Hk'.
      eapply (wf_keys (w_db w)); [done|exact Hk'|exact Hr|congruence]. }
    cbn [one]. erewrite bind_ok_run; [|reflexivity]. erewrite bind_ok_run; [|cbn [fst snd]; rewrite Hsnap; reflexivity].
    reflexivity.
  Unshelve. cbn. by rewrite Hd, Hw1.
Qed.

Lemma emit_attempt_up result t w :
  contract_ok result = true ->
  exists w', _emit_attempt result t w = (Ok tt, w') /\ w_db w' = w_db w.
Proof.
  intros (_ & He & _ & Ht & _)%result_ok_iff. unfold _emit_attempt.
  edestruct (emit_up EV_DELIVERY_ATTEMPTED (dres_trace_id result) (u "meta_delivery"))
    as (w1 & H1' & Hd1); [exact Ht|by vm_compute|exact He|].
  erewrite bind_ok_run; [|exact H1']. destruct (error_status _); [|eauto].
  edestruct (emit_up EV_DELIVERY_FAILED (dres_trace_id result) (u "meta_delivery"))
    as (w2 & H2' & Hd2); [exact Ht|by vm_compute|exact He|].
  exists w2. split; [exact H2'|]. congruence.
Qed.

Lemma replay_ok r : row_wf r -> contract_ok (replay r) = true.
Proof.
  intros [Ht Hs]. unfold replay. destruct Hs as [->|(s & -> & Hok)].
  - vm_compute (enum_of _). apply result_ok_iff.
    split; [done|]. split; [by vm_compute|]. split; [by vm_compute|]. split; [exact Ht|].
    by vm_compute.
  - by rewrite enum_of_value.
Qed.

(** Sending again under a key of the ledger. *)
Lemma send_existing_up adapter cid req id r w :
  ledger_wf (w_db w) -> contract_ok req = true -> attempts w !! id = Some r ->
  a_idempotency_key r = dr_idempotency_key req ->
  exists w', send adapter cid req w = (Ok (replay r), w') /\ w_db w' = w_db w.
Proof.
  intros Hwf Hreq Hr Hkey. unfold send. rewrite bind_run. unfold started_at, perf at 1.
  cbv beta iota zeta.
  destruct (claim_existing_up cid req id r (tick w)) as (snap & w1 & Hc & Hres & Hd); try done.
  erewrite bind_ok_run; [|exact Hc]. cbn [claim_created negb claim_attempt]. cbv iota.
  erewrite bind_ok_run; [|by rewrite Hres].
  destruct (emit_attempt_up (replay r) (perf_counter (w_tick w)) w1) as (w2 & He & Hd2);
    [by apply replay_ok, (wf_rows _ Hwf id)|].
  erewrite bind_ok_run; [|exact He]. eexists. split; [reflexivity|].
  etrans; [exact Hd2|exact Hd].
Qed.

(** Reporting a recorded event again. *)
Lemma callback_again_up cb id r w :
  contract_ok cb = true -> py_len (a_trace_id r) <= 128 ->
  the_attempt cb (w_db w) id r -> event_recorded cb (w_db w) ->
  exists w', apply_callback cb w = (Ok CB_DUPLICATE, w') /\ w_db w' = w_db w.
Proof.
  intros Hok Ht (Hk & Hp & Hu) (k & e & He & Hep & Hes).
  unfold apply_callback. rewrite bind_run. unfold started_at, perf at 1. cbv beta iota zeta.
  assert (exists w1, _apply_callback cb (tick w) = (Ok (CB_DUPLICATE, Some (a_trace_id r)), w1) /\
            w_db w1 = w_db w) as (w1 & Hrun & Hd).
  { unfold _apply_callback, callback_read.
    assert (sql_select (fun _ r0 => bool_decide (a_provider_message_id r0 = Some (su_provider_message_id cb)))
              unordered (tbl (w_db w)) = [(id, r)]) as Hsel.
    { apply select_unique; [exact Hk|by rewrite bool_decide_true|].
      cbv beta. intros k' r' Hk' Hp'. bools. by eapply Hu. }
    erewrite bind_ok_run; cycle 1.
    { erewrite bind_ok_run; [|by apply select_up]. cbn [tick w_db]. rewrite Hsel. reflexivity. }
    cbv beta iota. unfold callback_event. unfold uuid4.
    edestruct (insert_skip_up uq_delivery_status_provider_state no_constraint (attempt_exists id))
      as (d & Hins & Hd'); cycle 3.
    - erewrite bind_ok_run; [|rewrite bind_run; cbv beta iota zeta; exact Hins].
      eexists. split; [reflexivity|]. cbn. by rewrite Hd'.
    - apply up.
    - intros t. cbn -[fits fits_opt]. unfold status_event_fits. cbn -[fits fits_opt].
      apply fields_and_validator in Hok as [Hf _]. cbn in Hf. bools.
      rewrite !andb_true_iff. unfold fits. rewrite !Z.leb_le.
      repeat match goal with H : len_in _ _ _ = true |- _ => apply len_in_spec in H end.
      assert (forall n o, opt_len_in 0 n o = true -> fits_opt n o = true) as Hfo.
      { intros n [s|] Hs; [|done]. apply len_in_spec in Hs. apply Z.leb_le. lia. }
      split_and!; try by apply Hfo. all: try lia; try (cbn; apply Z.leb_le; lia).
      destruct (su_status cb); by vm_compute.
    - intros t. apply conflicts_true. exists k, e. split; [exact He|].
      unfold uq_delivery_status_provider_state. cbn [se_provider_message_id se_status].
      rewrite Hep, Hes. cbn. by rewrite !bool_decide_true. }
  erewrite bind_ok_run; [|apply session_up; [exact up|exact Hrun]]. cbv beta iota.
  eexists. split; [reflexivity|]. exact Hd.
Qed.
End replays.

(** ** Properties *)

Section properties.
Context `{SqlEngine} `{RedisServer} `{Env}.

(** A step by which the provider receives no more requests than the list of
    calls grows. *)
Definition step_posts (c c' : config) : Prop :=
  step c c' /\
  (posts (cfg_world c') + length (cfg_calls c) <= posts (cfg_world c) + length (cfg_calls c'))%nat.

Lemma quiet_step (c c' : config) :
  step c c' -> posts (cfg_world c') = posts (cfg_world c) -> step_posts c c'.
Proof.
  intros Hs Hp. split; [exact Hs|]. rewrite Hp.
  destruct Hs; cbn [cfg_calls length]; lia.
Qed.

Lemma claim_posts cid req : keeps no_posts (claim cid req).
Proof.
  apply no_io_posts. unfold claim. apply keeps_bind; [apply _|apply no_io_uuid4|]. intros id.
  unfold insert_row, select. repeat io_step.
Qed.

Lemma finalize_posts id result : keeps no_posts (finalize id result).
Proof. apply no_io_posts. unfold finalize, update_returning, insert_row. repeat io_step. Qed.

Lemma emit_attempt_posts result t : keeps no_posts (_emit_attempt result t).
Proof. apply no_io_posts. unfold _emit_attempt. repeat io_step. Qed.

(** The parts of a run of [send]. *)
Lemma send_cut adapter cid req w r w' :
  send adapter cid req w = (r, w') ->
  let started := perf_counter (w_tick w) in
  let answer result w1 := (_emit_attempt result started ≫= fun _ => mret result) w1 = (r, w') in
  exists rc w1, claim cid req (tick w) = (rc, w1) /\
    match rc with
    | Raise e => r = Raise e /\ w' = w1
    | Ok c =>
        if claim_created c then
          match adapter req w1 with
          | (Raise e, w2) => r = Raise e /\ w' = w2
          | (Ok result, w2) =>
              exists rf w3, finalize (snap_id (claim_attempt c)) result w2 = (rf, w3) /\
                match rf with Raise e => r = Raise e /\ w' = w3 | Ok _ => answer result w3 end
          end
        else match _existing_result (claim_attempt c) with
             | Raise e => r = Raise e /\ w' = w1
             | Ok result => answer result w1
             end
    end.
Proof.
  intros Hs. unfold send in Hs. rewrite bind_run in Hs. unfold started_at, perf at 1 in Hs.
  cbv beta iota zeta in Hs. rewrite bind_run in Hs. cbv zeta. unfold store_claim, PostgresDeliveryStore in Hs.
  destruct (claim cid req (tick w)) as [rc w1] eqn:Hc. exists rc, w1. split; [done|].
  destruct rc as [c|e]; [|by injection Hs as <- <-].
  destruct (claim_created c); cbn [negb] in Hs; rewrite bind_run in Hs.
  - destruct (adapter req w1) as [[result|e] w2]; [|by injection Hs as <- <-].
    rewrite bind_run in Hs. unfold store_finalize in Hs.
    destruct (finalize (snap_id (claim_attempt c)) result w2) as [rf w3] eqn:Hf. exists rf, w3.
    split; [done|]. by destruct rf; [|injection Hs as <- <-].
  - destruct (_existing_result (claim_attempt c)) as [result|e]; cbn [lift] in Hs;
      [done|by injection Hs as <- <-].
Qed.

(** The events at the end of [send] are a step that leaves the ledger alone. *)
Lemma emit_attempt_step cid req result t wa ra wb calls :
  ((_emit_attempt result t ≫= fun _ => mret result) : M _) wa = (ra, wb) ->
  let ss := [Sender cid req (PhDone (Ok result))] in
  step_posts (Config wa ss calls) (Config wb ss calls) /\ posts wb = posts wa /\
  (forall x, ra = Ok x -> PhDone (Ok result) = PhDone (Ok x)).
Proof.
  intros Hrun.
  assert (posts wb = posts wa /\ same_ledger wa wb) as [Hp Hl].
  { assert (keeps_db (=) (_emit_attempt result t)) as Hk by apply keeps_emit_attempt, _.
    specialize (Hk wa). pose proof (emit_attempt_posts result t wa) as Hn. unfold db_rel, no_posts in *.
    unfold same_ledger. rewrite bind_run in Hrun.
    destruct (_emit_attempt result t wa) as [[a|e] w0]; injection Hrun as <- <-; by rewrite Hk. }
  split_and!; [apply quiet_step; [by apply step_other|exact Hp]|exact Hp|].
  intros x ->. apply bind_ok_inv in Hrun as ([] & ? & _ & Hrun). by injection Hrun as <- <-.
Qed.

(** C1. However senders, callbacks, crashes and the rest of the program
    interleave, the provider is called at most once per idempotency key. *)
Theorem at_most_one_provider_call c c' :
  initial c -> rtc step c c' -> NoDup (cfg_calls c').
Proof.
  intros Hinit Hsteps. apply inv_nodup. eapply steps_calls_inv; [exact Hsteps|].
  by apply initial_calls_inv.
Qed.

(** C11. A run of [send] is a run of one sender of the step relation, and no
    request to the provider escapes its list of calls: at every step the
    provider receives at most as many requests as the list grows.  For any
    adapter that leaves the ledger alone and sends one request at most, the run
    makes no call and no request, or one call under the key of the request, at
    most one request, and then nobody had the key before; what [send] returns is
    the outcome of its last step. *)
Theorem send_refines_steps adapter cid req w r w' :
  (forall w0, same_ledger w0 (adapter req w0).2) -> one_post (adapter req) ->
  send adapter cid req w = (r, w') ->
  exists p calls,
    rtc step_posts (Config w [Sender cid req PhNew] []) (Config w' [Sender cid req p] calls) /\
    (calls = [] /\ posts w' = posts w \/
     calls = [dr_idempotency_key req] /\ ~ has_key w (dr_idempotency_key req) /\
       (posts w' <= S (posts w))%nat) /\
    (forall x, r = Ok x -> p = PhDone (Ok x)).
Proof.
  intros Had Hone Hs. apply send_cut in Hs. destruct Hs as (rc & w1 & Hc & Hs).
  pose proof (claim_posts cid req (tick w)) as Hp1. rewrite Hc in Hp1. unfold no_posts in Hp1.
  change (posts (tick w)) with (posts w) in Hp1. cbn [snd] in Hp1.
  assert (rtc step_posts (Config w [Sender cid req PhNew] [])
            (Config w1 [Sender cid req (after_claim rc)] [])) as Hclaim.
  { eapply rtc_l; [apply (quiet_step _ (Config (tick w) [Sender cid req PhNew] [])); [by apply step_other|done]|].
    apply rtc_once, quiet_step; [|exact Hp1].
    exact (step_claim _ [Sender cid req PhNew] [] 0 _ _ _ eq_refl eq_refl Hc). }
  destruct rc as [c|e]; cycle 1.
  { destruct Hs as [-> ->]. do 2 eexists. split; [exact Hclaim|]. split; [by left|done]. }
  cbn [after_claim] in Hclaim. destruct (claim_created c) eqn:Hcr; cycle 1.
  - destruct (_existing_result (claim_attempt c)) as [result|e].
    + destruct (emit_attempt_step cid req _ _ _ _ _ [] Hs) as (Hst & Hp & Hx).
      do 2 eexists. split; [eapply rtc_r; [exact Hclaim|exact Hst]|]. split; [left|exact Hx].
      split; [done|congruence].
    + destruct Hs as [-> ->]. do 2 eexists. split; [exact Hclaim|]. split; [by left|done].
  - assert (~ has_key w (dr_idempotency_key req)) as Hnk.
    { apply claim_run in Hc. destruct Hc as [id t snap d' Hid Hfresh _ _ _ _|]; [|done].
      intros (k & row & Hk & Hkey). by eapply Hfresh. }
    specialize (Had w1). specialize (Hone w1).
    destruct (adapter req w1) as [ra w2] eqn:Ha. cbn [snd] in Had, Hone.
    assert (rtc step_posts (Config w [Sender cid req PhNew] [])
      (Config w2 [Sender cid req (after_adapter (snap_id (claim_attempt c)) ra)]
         [dr_idempotency_key req])) as Hcall.
    { eapply rtc_r; [exact Hclaim|]. split; [|cbn; lia].
      exact (step_adapter _ [_] [] 0 (Sender cid req (PhClaimed _)) _ ra w2 eq_refl eq_refl Had). }
    assert (forall w3, posts w3 = posts w2 -> [dr_idempotency_key req] = [] /\ posts w3 = posts w \/
      [dr_idempotency_key req] = [dr_idempotency_key req] /\ ~ has_key w (dr_idempotency_key req) /\
        (posts w3 <= S (posts w))%nat) as Hcount.
    { intros w3 Hw3. right. split_and!; [done|exact Hnk|lia]. }
    destruct ra as [result|e]; cycle 1.
    { destruct Hs as [-> ->]. do 2 eexists. split; [exact Hcall|]. split; [by apply Hcount|done]. }
    destruct Hs as (rf & w3 & Hf & Hs). cbn [after_adapter] in Hcall.
    pose proof (finalize_posts (snap_id (claim_attempt c)) result w2) as Hp3. rewrite Hf in Hp3.
    assert (rtc step_posts (Config w [Sender cid req PhNew] [])
      (Config w3 [Sender cid req (after_finalize result rf)] [dr_idempotency_key req])) as Hfin.
    { eapply rtc_r; [exact Hcall|]. apply quiet_step; [|exact Hp3].
      exact (step_finalize _ [_] _ 0 (Sender cid req (PhSent _ _)) _ _ _ _ eq_refl eq_refl Hf). }
    destruct rf as [[]|e]; cycle 1.
    { destruct Hs as [-> ->]. do 2 eexists. split; [exact Hfin|]. split; [by apply Hcount|done]. }
    destruct (emit_attempt_step cid req _ _ _ _ _ [dr_idempotency_key req] Hs) as (Hst & Hp & Hx).
    do 2 eexists. split; [eapply rtc_r; [exact Hfin|exact Hst]|]. split; [|exact Hx].
    apply Hcount. by etrans.
Qed.

(** C12. Attempts are never lost, keep their identity, and their status only
    moves forward along the order of [_can_transition], whatever [send] and
    [apply_callback] return and whatever the environment does. *)
Theorem delivery_only_progresses adapter cid req cb :
  keeps_db ledger_progress (adapter req) ->
  keeps_db ledger_progress (send adapter cid req) /\
  keeps_db ledger_progress (apply_callback cb).
Proof.
  intros Ha. split; [|apply keeps_apply_callback].
  apply send_keeps; [apply _|apply keeps_claim|exact Ha|]. intros. apply keeps_finalize.
Qed.

(** C13. [send] and [apply_callback] keep the ledger well formed: one row per
    key, every row replayable as a valid [DeliveryResult].  The request and the
    results of the adapter are models that validated, the adapter keeps the
    ledger well formed, and the callback is one of the statuses that
    [normalize_webhook] returns, as it is for the only caller of
    [apply_callback]. *)
Theorem delivery_keeps_wf `{LaxInt} `{UCD} adapter cid req payload waba phone events cb :
  contract_ok req = true -> keeps_db keeps_ledger_wf (adapter req) ->
  (forall w result w', adapter req w = (Ok result, w') -> contract_ok result = true) ->
  normalize_webhook payload waba phone = Ok events -> cb ∈ we_statuses events ->
  keeps_db keeps_ledger_wf (send adapter cid req) /\
  keeps_db keeps_ledger_wf (apply_callback cb).
Proof.
  intros Hreq Ha Hres Hev Hcb.
  split; [|apply callback_keeps_wf; by eapply webhook_status_code].
  apply send_keeps; [apply _|by apply claim_keeps_wf|exact Ha|].
  intros id w result w' Hrun. apply finalize_keeps_wf. by eapply Hres.
Qed.

(** A request whose key is in the ledger is answered from its row: the
    same answer for every adapter, no provider call, no change of the
    database, and never an exception. *)
Theorem send_existing_replays adapter cid req id r w :
  (forall n, db_up n = true) -> ledger_wf (w_db w) -> contract_ok req = true ->
  rows (db_attempts (w_db w)) !! id = Some r -> a_idempotency_key r = dr_idempotency_key req ->
  exists w', send adapter cid req w = (Ok (replay r), w') /\ w_db w' = w_db w.
Proof. intros. by eapply send_existing_up. Qed.

(** C14. Round trip: after a first [send] of a key returned a result, sending
    the key again with any adapter returns that result, marked as a replay
    and with the trace of the first request. *)
Theorem send_then_replay adapter adapter' cid cid' req req' w result w1 :
  (forall n, db_up n = true) -> ledger_wf (w_db w) ->
  contract_ok req = true -> contract_ok req' = true ->
  dr_idempotency_key req' = dr_idempotency_key req -> ~ has_key w (dr_idempotency_key req) ->
  (forall w0, same_ledger w0 (adapter req w0).2) ->
  (forall w0 x w0', adapter req w0 = (Ok x, w0') -> contract_ok x = true) ->
  send adapter cid req w = (Ok result, w1) ->
  exists w2, send adapter' cid' req' w1 =
    (Ok {| dres_status := dres_status result;
           dres_provider_message_id := dres_provider_message_id result;
           dres_error_code := dres_error_code result;
           dres_error_message := dres_error_message result;
           dres_trace_id := dr_trace_id req; dres_metadata := replay_metadata |}, w2) /\
    w_db w2 = w_db w1.
Proof.
  intros Hup Hwf Hreq Hreq' Hkey Hfresh Had Hres Hs.
  assert (ledger_wf (w_db w1)) as Hwf1.
  { assert (keeps_db keeps_ledger_wf (send adapter cid req)) as Hk; [|specialize (Hk w); rewrite Hs in Hk; by apply Hk].
    apply send_keeps; [apply _|by apply claim_keeps_wf| |].
    - intros w0. specialize (Had w0). unfold same_ledger in Had. intros [Hu Hr].
      split; rewrite Had; [exact Hu|exact Hr].
    - intros id w0 x w0' Hrun. apply finalize_keeps_wf. by eapply Hres. }
  unfold send in Hs. rewrite bind_run in Hs. unfold started_at, perf at 1 in Hs.
  cbv beta iota zeta in Hs. m_inv Hs as c wc Hc. apply claim_run in Hc.
  inversion Hc as [id t snap d' Hid _ Hd _ _ Hsnap|id r snap Hid Hk]; subst; cycle 1.
  { exfalso. apply Hfresh. exists id, r. done. }
  cbn [claim_created negb claim_attempt] in Hs. m_inv Hs as x wa Hrun.
  pose proof (Had wc) as Hsame. rewrite Hrun in Hsame. unfold same_ledger in Hsame. cbn in Hsame.
  m_inv Hs as y wf Hfin. apply finalize_run in Hfin as (r & t' & k & e & Hr & _ & Hd' & _).
  m_inv Hs as z we Hemit. apply ret_ok_inv in Hs as [-> ->].
  apply snapshot_id in Hsnap. rewrite Hsnap, Hsame, Hd, lookup_insert_eq in *. simplify_eq.
  assert (w_db we = w_db wf) as Hwe.
  { assert (keeps_db (=) (_emit_attempt x (perf_counter (w_tick w)))) as Hk
      by apply keeps_emit_attempt, _.
    specialize (Hk wf). rewrite Hemit in Hk. done. }
  destruct (send_existing_up Hup adapter' cid' req' (snap_id snap)
    (finalized_row x t' (pending_row cid req t)) we) as (w2 & H2 & Hd2); [done..| |done|].
  - rewrite Hwe, Hd'. by rewrite lookup_insert_eq.
  - exists w2. split; [|done]. rewrite H2. unfold replay. cbn [a_status finalized_row].
    by rewrite enum_of_value.
Qed.

(** A callback is idempotent: once applied, ignored or recognised as a
    duplicate, the same callback again is a duplicate and changes nothing. *)
Theorem callback_idempotent cb w st w1 :
  (forall n, db_up n = true) -> contract_ok cb = true ->
  (forall id r, rows (db_attempts (w_db w)) !! id = Some r -> py_len (a_trace_id r) <= 128) ->
  apply_callback cb w = (Ok st, w1) -> st <> CB_MISSING_ATTEMPT ->
  exists w2, apply_callback cb w1 = (Ok CB_DUPLICATE, w2) /\ w_db w2 = w_db w1.
Proof.
  intros Hup Hok Htr Hrun Hst.
  assert (exists tr, callback_effect cb (w_db w) st tr (w_db w1)) as [tr He].
  { pose proof (apply_callback_cases cb w) as Hc. rewrite Hrun in Hc.
    destruct Hc as [(_ & e & [=])|(st' & tr & He & [[= <-]|(e & [=])])]. eauto. }
  remember (w_db w1) as d1 eqn:Hd1.
  destruct He as [|id r Hthe Hev|id r c k e d' (Hk & Hp & Hu) _ _ Hke Hep Hes _ Hd Hdk _
                 |id r c target t k e d' (Hk & Hp & Hu) _ _ _ Hke Hep Hes _ Hd Hdk _]; [done|..].
  - rewrite Hd1 in Hthe, Hev, Htr |- *.
    eapply callback_again_up; [done|done| |exact Hthe|exact Hev]. by eapply Htr, Hthe.
  - rewrite Hd1 in *. eapply (callback_again_up Hup cb id r); [done|by eapply Htr| |].
    + unfold the_attempt. by rewrite Hd.
    + exists k, e. by rewrite Hdk, lookup_insert_eq.
  - rewrite Hd1 in *.
    eapply (callback_again_up Hup cb id (with_status _ _ _ t r)); [done|exact (Htr _ _ Hk)| |].
    + unfold the_attempt. rewrite Hd. split; [by rewrite lookup_insert_eq|]. split; [exact Hp|].
      intros k' s [[<- _]|[_ Hs]]%lookup_insert_Some; [done|]. by apply Hu.
    + exists k, e. by rewrite Hdk, lookup_insert_eq.
Qed.
End properties.

(** ** Callbacks that interleave

    [_apply_callback] reads the attempt without locking it.  [interleaved] runs
    the statements of two callback transactions in an order READ COMMITTED
    allows: both read, the first writes and commits, then the second writes. *)

Section interleaving.
Context `{SqlEngine} `{RedisServer} `{Env}.

Definition interleaved (first second : MetaStatusUpdate)
    : M (option (CallbackApplyStatus * CallbackApplyStatus)) :=
  a1 ← callback_read first;
  a2 ← callback_read second;
  match a1, a2 with
  | Some (id1, r1), Some (id2, r2) =>
      e1 ← callback_event first id1 r1;
      s1 ← callback_write first id1 r1;
      e2 ← callback_event second id2 r2;
      s2 ← callback_write second id2 r2;
      mret (Some (s1, s2))
  | _, _ => mret None
  end.
End interleaving.

Definition sample_callback (status : DeliveryStatus) (code : option str) : MetaStatusUpdate := {|
  su_provider_message_id := u "wamid.1"; su_phone_number_id := u "phone-1";
  su_recipient_id := u "5491"; su_status := status; su_occurred_at := utc 0;
  su_error_code := code; su_error_message := None |}.

Section concrete.
#[local] Existing Instances latin1_ucd lax_int_default map_engine scheduled_server sample_env.

Definition sample_adapter : DeliveryRequest -> M DeliveryResult := fun _ => mret sample_result.
Definition sent_world : World := (send sample_adapter 1 sample_request sample_world).2.
Lemma sent_run :
  send sample_adapter 1 sample_request sample_world = (Ok sample_result, sent_world).
Proof.
  unfold sent_world. apply (run_fst (send sample_adapter 1 sample_request) sample_world).
  vm_compute. reflexivity.
Qed.

Definition attempt_at (w : World) (id : Z) : option (str * option str) :=
  (fun r => (a_status r, a_error_code r)) <$> rows (db_attempts (w_db w)) !! id.

Example sent_accepted : attempt_at sent_world 100 = Some (u "accepted", None).
Proof. vm_compute. reflexivity. Qed.

(** Two interleaved callbacks break the order the serial ones keep: a
    message already read goes back to delivered, and a failure followed by a
    read leaves a read row with an error code, which [send] can no longer
    replay. *)
Theorem callback_race_regresses :
  (let '(r, w) := interleaved (sample_callback DS_READ None)
                    (sample_callback DS_DELIVERED None) sent_world in
   r = Ok (Some (CB_APPLIED, CB_APPLIED)) /\ attempt_at w 100 = Some (u "delivered", None)) /\
  (let '(r, w) := interleaved (sample_callback DS_FAILED (Some (u "131047")))
                    (sample_callback DS_READ None) sent_world in
   r = Ok (Some (CB_APPLIED, CB_APPLIED)) /\
   attempt_at w 100 = Some (u "read", Some (u "131047")) /\
   exists msg, (send sample_adapter 1 sample_request w).1 = Raise (ValidationError msg)).
Proof.
  split; [vm_compute; done|]. vm_compute (interleaved _ _ _).
  split; [done|]. split; [vm_compute; done|]. eexists. vm_compute. reflexivity.
Qed.

Definition two_senders : config :=
  Config sample_world [Sender 1 sample_request PhNew; Sender 1 sample_request PhNew] [].

Lemma at_most_one_provider_call_witness :
  exists c', rtc step two_senders c' /\ cfg_calls c' = [u "reply:1"] /\ NoDup (cfg_calls c').
Proof.
  pose (w1 := (claim 1 sample_request sample_world).2).
  assert (exists c', rtc step two_senders c' /\ cfg_calls c' = [u "reply:1"]) as (c' & Hs & Hc).
  { eexists. split.
    - eapply rtc_l; [eapply (step_claim _ _ _ 0); [reflexivity..|apply surjective_pairing]|].
      eapply rtc_l; [eapply (step_claim _ _ _ 1); [reflexivity..|apply surjective_pairing]|].
      apply rtc_once.
      eapply (step_adapter _ _ _ 0 _ _ (Ok sample_result)); [reflexivity| |reflexivity].
      vm_compute. reflexivity.
    - reflexivity. }
  exists c'. split; [exact Hs|]. split; [exact Hc|].
  apply (at_most_one_provider_call two_senders c'); [|exact Hs].
  split; [reflexivity|]. repeat constructor.
Defined.

(** An adapter that sends one request. *)
Definition posting_adapter (request : DeliveryRequest) : M DeliveryResult :=
  _ ← http {| hq_service := SVC_META; hq_path := u "phone-1/messages"; hq_params := []; hq_body := None |};
  mret sample_result.

Lemma send_refines_steps_witness :
  let w' := (send posting_adapter 1 sample_request sample_world).2 in
  posts w' = S (posts sample_world) /\
  exists p calls,
    rtc step_posts (Config sample_world [Sender 1 sample_request PhNew] [])
      (Config w' [Sender 1 sample_request p] calls) /\
    calls = [u "reply:1"] /\ p = PhDone (Ok sample_result).
Proof.
  intros w'. split; [vm_compute; reflexivity|].
  destruct (send_refines_steps posting_adapter 1 sample_request sample_world (Ok sample_result) w')
    as (p & calls & Hs & Hc & Hp).
  - reflexivity.
  - intros w0. unfold posting_adapter. rewrite bind_run. exact (http_post w0 _).
  - unfold w'. apply (run_fst (send posting_adapter 1 sample_request) sample_world). vm_compute. reflexivity.
  - exists p, calls. split; [exact Hs|]. split; [|by apply Hp].
    destruct Hc as [[_ Hp0]|(Hc & _)]; [vm_compute in Hp0; discriminate Hp0|exact Hc].
Defined.

Lemma delivery_only_progresses_witness :
  keeps_db ledger_progress (send sample_adapter 1 sample_request) /\
  keeps_db ledger_progress (apply_callback (sample_callback DS_READ None)).
Proof.
  apply (delivery_only_progresses sample_adapter 1 sample_request
           (sample_callback DS_READ None)).
  intros w. unfold db_rel. cbn. reflexivity.
Defined.

(** The webhook of a message that was read. *)
Definition read_payload : list (str * json) :=
  let obj := JObj in let text s := JStr (u s) in
  [(u "object", text "whatsapp_business_account");
   (u "entry", JArr [obj [(u "id", text "waba-1");
      (u "changes", JArr [obj [(u "field", text "messages");
         (u "value", obj [(u "messaging_product", text "whatsapp");
            (u "metadata", obj [(u "display_phone_number", text "+54"); (u "phone_number_id", text "phone-1")]);
            (u "statuses", JArr [obj [(u "id", text "wamid.1"); (u "status", text "read");
               (u "timestamp", text "1700000000"); (u "recipient_id", text "549")]])])]])]])].

Lemma delivery_keeps_wf_witness :
  exists cb, su_status cb = DS_READ /\
    keeps_db keeps_ledger_wf (send sample_adapter 1 sample_request) /\
    keeps_db keeps_ledger_wf (apply_callback cb).
Proof.
  destruct (normalize_webhook read_payload None None) as [events|e] eqn:Hev;
    [|exfalso; vm_compute in Hev; discriminate Hev].
  destruct (we_statuses events) as [|cb rest] eqn:Hs;
    [exfalso; vm_compute in Hev; injection Hev as <-; discriminate Hs|].
  exists cb. split.
  { clear -Hev Hs. vm_compute in Hev. injection Hev as <-. injection Hs as <-. reflexivity. }
  apply (delivery_keeps_wf sample_adapter 1 sample_request read_payload None None events cb).
  - vm_compute. reflexivity.
  - intros w Hw. exact Hw.
  - intros w result w' [= <- _]. vm_compute. reflexivity.
  - exact Hev.
  - rewrite Hs. apply list_elem_of_here.
Defined.

Lemma sample_wf : ledger_wf (w_db sample_world).
Proof. split; intros *; cbn; rewrite lookup_empty; discriminate. Qed.

Definition unreachable_adapter : DeliveryRequest -> M DeliveryResult :=
  fun _ => raise (RuntimeError []).

Lemma sent_wf : ledger_wf (w_db sent_world).
Proof.
  assert (keeps_db keeps_ledger_wf (send sample_adapter 1 sample_request)) as Hk.
  { apply send_keeps; [apply _|by apply claim_keeps_wf; vm_compute| |].
    - intros w Hw. exact Hw.
    - intros id w result w' [= <- _]. by apply finalize_keeps_wf; vm_compute. }
  apply (Hk sample_world), sample_wf.
Qed.

Lemma send_existing_replays_witness :
  exists r, rows (db_attempts (w_db sent_world)) !! 100 = Some r /\
  exists w', send unreachable_adapter 1 sample_request sent_world = (Ok (replay r), w') /\
    w_db w' = w_db sent_world.
Proof.
  destruct (rows (db_attempts (w_db sent_world)) !! 100) as [r|] eqn:Hr;
    [|vm_compute in Hr; discriminate].
  exists r. split; [reflexivity|].
  apply (send_existing_replays unreachable_adapter 1 sample_request 100 r sent_world);
    [reflexivity|apply sent_wf|vm_compute; reflexivity|exact Hr|].
  vm_compute in Hr. injection Hr as <-. reflexivity.
Defined.

Lemma send_then_replay_witness :
  exists w2, send unreachable_adapter 1 sample_request sent_world =
    (Ok {| dres_status := DS_ACCEPTED; dres_provider_message_id := Some (u "wamid.1");
           dres_error_code := None; dres_error_message := None;
           dres_trace_id := u "trace-1"; dres_metadata := replay_metadata |}, w2) /\
    w_db w2 = w_db sent_world.
Proof.
  apply (send_then_replay sample_adapter unreachable_adapter 1 1 sample_request sample_request
           sample_world sample_result sent_world).
  - reflexivity.
  - apply sample_wf.
  - vm_compute. reflexivity.
  - vm_compute. reflexivity.
  - reflexivity.
  - intros (id & r & Hr & _). cbn in Hr. rewrite lookup_empty in Hr. discriminate.
  - reflexivity.
  - intros w0 x w0' [= <- _]. vm_compute. reflexivity.
  - exact sent_run.
Defined.

Lemma callback_idempotent_witness :
  let w1 := (apply_callback (sample_callback DS_READ None) sent_world).2 in
  exists w2, apply_callback (sample_callback DS_READ None) w1 = (Ok CB_DUPLICATE, w2) /\
    w_db w2 = w_db w1.
Proof.
  intros w1.
  apply (callback_idempotent (sample_callback DS_READ None) sent_world CB_APPLIED w1).
  - reflexivity.
  - vm_compute. reflexivity.
  - intros id r Hr. exact (proj2 (proj1 (wf_rows _ sent_wf id r Hr))).
  - unfold w1. apply (run_fst (apply_callback (sample_callback DS_READ None)) sent_world).
    vm_compute. reflexivity.
  - discriminate.
Defined.
End concrete.
