(* ===== verification/Composition.v ===== *)
(** * Composition and the response engine ([src/piki/composition])

    [contracts.py]: the request and result of a language-model adapter;
    [service.py]: [ResponseComposer]; [engine.py]: [ResponseEngine], which
    validates every composed text and falls back to the confirmed facts.
    The adapter is any computation of the world, the observer is [World.emit]. *)
From S2P Require Import Prelude PyStr PyRegex Errors Contracts Grounding Prompt Events.
From S2P Require Import Sql Redis Models World Session Sample.

Local Open Scope Z_scope.

(** ** [contracts.py] *)

Inductive turn_role := ROLE_USER | ROLE_ASSISTANT.
#[export] Instance turn_role_eq_dec : EqDecision turn_role.
Proof. solve_decision. Defined.
Definition role_text (r : turn_role) : str :=
  match r with ROLE_USER => u "user" | ROLE_ASSISTANT => u "assistant" end.

Record ConversationTurn := { ct_role : turn_role; ct_text : str }.
#[export] Instance ConversationTurn_contract : Contract ConversationTurn := {|
  fields_ok t := len_in 1 4096 (ct_text t);
  model_validator _ := None
|}.

Record CompositionRequest := {
  cq_system_prompt : str;
  cq_evidence_prompt : str;
  cq_conversation : list ConversationTurn;
  cq_trace_id : str
}.
#[export] Instance CompositionRequest_contract : Contract CompositionRequest := {|
  fields_ok r :=
    len_in 1 12000 (cq_system_prompt r) && len_in 1 30000 (cq_evidence_prompt r) &&
    (Z.of_nat (length (cq_conversation r)) <=? 20) && len_in 1 128 (cq_trace_id r);
  model_validator _ := None
|}.

Record CompositionResult := {
  cr_text : str;
  cr_provider_response_id : str;
  cr_model : str;
  cr_trace_id : str
}.
#[export] Instance CompositionResult_contract : Contract CompositionResult := {|
  fields_ok r :=
    len_in 1 4096 (cr_text r) && len_in 1 255 (cr_provider_response_id r) &&
    len_in 1 255 (cr_model r) && len_in 1 128 (cr_trace_id r);
  model_validator _ := None
|}.

Record ResponseOutcome := {
  ro_text : str;
  ro_mode : ResponseMode;
  ro_used_fallback : bool;
  ro_grounding_failures : list GroundingFailure;
  ro_provider_response_id : option str;
  ro_trace_id : str
}.
#[export] Instance ResponseOutcome_contract : Contract ResponseOutcome := {|
  fields_ok o :=
    len_in 1 4096 (ro_text o) && opt_len_in 0 255 (ro_provider_response_id o) &&
    len_in 1 128 (ro_trace_id o);
  model_validator _ := None
|}.

(** ** [ResponseComposer] and [ResponseEngine] *)

Section engine.
Context `{UCD} `{SqlEngine} `{RedisServer} `{Env}.

(** The protocol [LLMAdapter], and the text of [system_prompt.txt]. *)
Variable adapter : CompositionRequest -> M CompositionResult.
Variable system_prompt : str.

Definition llm_mode (m : ResponseMode) : bool :=
  bool_decide (m ∈ [JINJA_LLM; NON_COMMERCIAL_LLM]).

Definition compose (packet : ContextPacket) (conversation : list ConversationTurn)
    : M CompositionResult :=
  if negb (llm_mode (cp_response_mode packet))
  then raise (ValueError (u "response mode does not permit LLM composition"))
  else
    render_started ← started_at;
    let evidence_prompt := render_evidence packet in
    emit EV_TEMPLATE_RENDERED (cp_trace_id packet) (u "jinja") EO_SUCCEEDED
      (Some render_started) None None None;;
    request ← lift (construct {| cq_system_prompt := system_prompt;
                                 cq_evidence_prompt := evidence_prompt;
                                 cq_conversation := conversation;
                                 cq_trace_id := cp_trace_id packet |});
    adapter request.

Definition _emit_grounding (packet : ContextPacket) (failures : list GroundingFailure)
    (started : Z) : M unit :=
  emit EV_GROUNDING_CHECKED (cp_trace_id packet) (u "grounding")
    (if bool_decide (failures = []) then EO_SUCCEEDED else EO_BLOCKED) (Some started)
    (enum_value <$> head failures) None None.

Definition _fallback (packet : ContextPacket) (failures : list GroundingFailure)
    : res ResponseOutcome :=
  construct {| ro_text := factual_fallback packet; ro_mode := cp_response_mode packet;
               ro_used_fallback := true; ro_grounding_failures := failures;
               ro_provider_response_id := None; ro_trace_id := cp_trace_id packet |}.

(** [validation = validate(...); emit; fallback or outcome], the end of the
    deterministic branch and of the language-model branch. *)
Definition validated_outcome (packet : ContextPacket) (text : str)
    (provider_response_id : option str) : M ResponseOutcome :=
  grounding_started ← started_at;
  validation ← lift (validate text packet);
  _emit_grounding packet (gr_failures validation) grounding_started;;
  match gr_safe validation, gr_text validation with
  | true, Some safe_text =>
      lift (construct {| ro_text := safe_text; ro_mode := cp_response_mode packet;
                         ro_used_fallback := false; ro_grounding_failures := [];
                         ro_provider_response_id := provider_response_id;
                         ro_trace_id := cp_trace_id packet |})
  | _, _ => lift (_fallback packet (gr_failures validation))
  end.

(** The composed text, or [None] when the adapter failed. *)
Definition try_compose (packet : ContextPacket) (conversation : list ConversationTurn)
    (llm_started : Z) : M (option CompositionResult) :=
  try_except (composed ← compose packet conversation; mret (Some composed))
    (fun e => match e with
              | LLMAdapterError code _ _ => Some (
                  emit EV_LLM_FINISHED (cp_trace_id packet) (u "llm") EO_FAILED
                    (Some llm_started) (Some (enum_value code)) None None;;
                  mret None)
              | _ => None
              end).

Definition respond (packet : ContextPacket) (conversation : list ConversationTurn)
    (deterministic_text : option str) : M ResponseOutcome :=
  emit EV_CONTEXT_BUILT (cp_trace_id packet) (u "context_packet") EO_SUCCEEDED None None
    (Some (Z.of_nat (length (cp_confirmed_data packet))))
    (Some (Z.of_nat (length (cp_unavailable_data packet))));;
  match cp_response_mode packet with
  | JINJA => lift (_fallback packet [])
  | DETERMINISTIC =>
      match deterministic_text with
      | None => raise (ValueError (u "deterministic response mode requires text"))
      | Some text => validated_outcome packet text None
      end
  | _ =>
      llm_started ← started_at;
      emit EV_LLM_STARTED (cp_trace_id packet) (u "llm") EO_STARTED None None None None;;
      composed ← try_compose packet conversation llm_started;
      match composed with
      | None => lift (_fallback packet [])
      | Some result =>
          emit EV_LLM_FINISHED (cp_trace_id packet) (u "llm") EO_SUCCEEDED (Some llm_started)
            None None None;;
          validated_outcome packet (cr_text result) (Some (cr_provider_response_id result))
      end
  end.
End engine.

(** ** Lemmas *)

Section engine_lemmas.
Context `{UCD} `{SqlEngine} `{RedisServer} `{Env}.

(** What an outcome may rely on. *)
Definition outcome_safe (packet : ContextPacket) (o : ResponseOutcome) : Prop :=
  ro_mode o = cp_response_mode packet /\ ro_trace_id o = cp_trace_id packet /\
  1 <= py_len (ro_text o) <= 4096 /\
  if ro_used_fallback o then ro_text o = factual_fallback packet
  else ro_grounding_failures o = [] /\ forall f, ~ failure_due (ro_text o) packet f.

Lemma outcome_text_len o : contract_ok o = true -> 1 <= py_len (ro_text o) <= 4096.
Proof. intros [Hf _]%andb_true_iff. cbn in Hf. bools. by apply len_in_spec. Qed.

Lemma fallback_safe packet failures o :
  _fallback packet failures = Ok o -> outcome_safe packet o.
Proof.
  intros [Hok ->]%construct_ok. split; [done|]. split; [done|].
  split; [exact (outcome_text_len _ Hok)|]. done.
Qed.

Lemma validated_outcome_safe packet text pid w o w' :
  validated_outcome packet text pid w = (Ok o, w') -> outcome_safe packet o.
Proof.
  unfold validated_outcome. intros Hr. m_inv Hr as t w1 Ht. m_inv Hr as v w2 Hv.
  apply lift_ok_inv in Hv as [Hv ->]. m_inv Hr as z w3 Hg.
  destruct (gr_safe v) eqn:Hs; [|by apply lift_ok_inv in Hr as [Hr _]; eapply fallback_safe].
  destruct (validate_safe _ _ _ Hv Hs) as (Ht' & _ & Hn). rewrite Ht' in Hr.
  apply lift_ok_inv in Hr as [[Hok ->]%construct_ok _]. split; [done|]. split; [done|].
  split; [exact (outcome_text_len _ Hok)|]. cbn. done.
Qed.

Lemma trace_ok packet : contract_ok packet = true -> 1 <= py_len (cp_trace_id packet) <= 128.
Proof. intros [Hf _]%andb_true_iff. cbn in Hf. bools. by apply len_in_spec. Qed.

Lemma fallback_total packet failures :
  contract_ok packet = true ->
  _fallback packet failures =
    Ok {| ro_text := factual_fallback packet; ro_mode := cp_response_mode packet;
          ro_used_fallback := true; ro_grounding_failures := failures;
          ro_provider_response_id := None; ro_trace_id := cp_trace_id packet |}.
Proof.
  intros Hp%trace_ok. apply construct_good. unfold contract_ok. cbn.
  rewrite !andb_true_r, andb_true_iff, !len_in_spec.
  split; [apply factual_fallback_length|done].
Qed.

Lemma emit_grounding_up packet failures t w :
  contract_ok packet = true ->
  exists w', _emit_grounding packet failures t w = (Ok tt, w') /\ w_db w' = w_db w.
Proof.
  intros Hp%trace_ok. apply emit_up; [exact Hp|by vm_compute|].
  destruct failures as [|[]]; by vm_compute.
Qed.

(** The validation of a text of legal length always gives an outcome. *)
Lemma validated_outcome_total packet text pid w :
  contract_ok packet = true -> py_len text <= 4096 -> opt_len_in 0 255 pid = true ->
  exists o w', validated_outcome packet text pid w = (Ok o, w').
Proof.
  intros Hp Ht Hpid. unfold validated_outcome. rewrite bind_run. unfold started_at, perf at 1.
  cbv beta iota zeta. rewrite bind_run, validate_eq. cbn [lift]. set (v := if bool_decide _ then _ else _).
  destruct (emit_grounding_up packet (gr_failures v) (perf_counter (w_tick w)) (tick w))
    as (w1 & Hg & _); [done|]. erewrite bind_ok_run; [|exact Hg].
  unfold v. case_bool_decide as Hf; cbn [gr_safe gr_text];
    [|rewrite fallback_total by done; do 2 eexists; reflexivity].
  rewrite construct_good; [do 2 eexists; reflexivity|].
  pose proof (trace_ok packet Hp). unfold contract_ok. cbn -[len_in opt_len_in].
  rewrite Hpid, !andb_true_r, andb_true_iff, !len_in_spec. split; [|done].
  pose proof (strip_length text). split; [|lia].
  apply truthy_len, truthy_true. intros He.
  assert (EMPTY ∈ collect_failures (strip text) packet) as Hin by by apply collect_failures_due.
  rewrite Hf in Hin. set_solver.
Qed.

(** The request the composer makes is legal. *)
Definition prompt_fits (system_prompt : str) (packet : ContextPacket)
    (conversation : list ConversationTurn) : Prop :=
  1 <= py_len system_prompt <= 12000 /\ 1 <= py_len (render_evidence packet) <= 30000 /\
  (length conversation <= 20)%nat.

Definition composer_request (system_prompt : str) (packet : ContextPacket)
    (conversation : list ConversationTurn) : CompositionRequest :=
  {| cq_system_prompt := system_prompt; cq_evidence_prompt := render_evidence packet;
     cq_conversation := conversation; cq_trace_id := cp_trace_id packet |}.

(** In a language-model mode the composer hands its request to the adapter. *)
Lemma compose_reaches_adapter adapter system_prompt packet conversation w :
  contract_ok packet = true -> llm_mode (cp_response_mode packet) = true ->
  prompt_fits system_prompt packet conversation ->
  exists w1, compose adapter system_prompt packet conversation w =
    adapter (composer_request system_prompt packet conversation) w1.
Proof.
  intros Hp Hm (Hs & He & Hc). pose proof (trace_ok packet Hp) as Ht.
  unfold compose. rewrite Hm. cbn [negb].
  rewrite bind_run. unfold started_at, perf at 1. cbv beta iota zeta.
  destruct (emit_up EV_TEMPLATE_RENDERED (cp_trace_id packet) (u "jinja") EO_SUCCEEDED
    (Some (perf_counter (w_tick w))) None (tick w)) as (w1 & Hw1 & _); [exact Ht|by vm_compute|done|].
  erewrite bind_ok_run; [|exact Hw1].
  rewrite bind_run, construct_good; [cbn [lift]; eauto|].
  unfold contract_ok.
  cbn [fields_ok model_validator CompositionRequest_contract cq_system_prompt cq_evidence_prompt
       cq_conversation cq_trace_id].
  rewrite !andb_true_r, !andb_true_iff, !len_in_spec, Z.leb_le. split_and!; lia.
Qed.

(** The run of the engine up to the end of the composition. *)
Lemma respond_compose_run adapter system_prompt packet conversation dt w :
  contract_ok packet = true -> llm_mode (cp_response_mode packet) = true ->
  exists w1 t, respond adapter system_prompt packet conversation dt w =
    match compose adapter system_prompt packet conversation w1 with
    | (Ok result, w2) =>
        (emit EV_LLM_FINISHED (cp_trace_id packet) (u "llm") EO_SUCCEEDED (Some t) None None None;;
         validated_outcome packet (cr_text result) (Some (cr_provider_response_id result))) w2
    | (Raise (LLMAdapterError code _ _), w2) =>
        (emit EV_LLM_FINISHED (cp_trace_id packet) (u "llm") EO_FAILED (Some t)
           (Some (enum_value code)) None None;; lift (_fallback packet [])) w2
    | (Raise e, w2) => (Raise e, w2)
    end.
Proof.
  intros Hp Hm. pose proof (trace_ok packet Hp) as Ht. unfold respond.
  destruct (emit_counts_up EV_CONTEXT_BUILT (cp_trace_id packet) (u "context_packet") EO_SUCCEEDED
    None None (Some (Z.of_nat (length (cp_confirmed_data packet))))
    (Some (Z.of_nat (length (cp_unavailable_data packet)))) w) as (w1 & Hw1 & _);
    [exact Ht|by vm_compute|done|apply Z.leb_le; lia|apply Z.leb_le; lia|].
  erewrite bind_ok_run; [|exact Hw1].
  set (body := _ ≫= _ : M ResponseOutcome).
  assert (exists w2 t, body w1 =
    (composed ← try_compose adapter system_prompt packet conversation t;
     match composed with
     | None => lift (_fallback packet [])
     | Some result =>
          emit EV_LLM_FINISHED (cp_trace_id packet) (u "llm") EO_SUCCEEDED (Some t)
            None None None;;
          validated_outcome packet (cr_text result) (Some (cr_provider_response_id result))
     end) w2) as (w2 & t & Hbody).
  { subst body. rewrite bind_run. unfold started_at, perf at 1. cbv beta iota zeta.
    destruct (emit_up EV_LLM_STARTED (cp_trace_id packet) (u "llm") EO_STARTED None None (tick w1))
      as (w2 & Hw2 & _); [exact Ht|by vm_compute|done|].
    erewrite bind_ok_run; [|exact Hw2]. eauto. }
  exists w2, t. transitivity (body w1); [destruct (cp_response_mode packet); done|].
  rewrite Hbody, bind_run. unfold try_compose, try_except. rewrite bind_run.
  destruct (compose _ _ _ _ w2) as [[result|e] w4]; [reflexivity|].
  destruct e; try reflexivity. rewrite !bind_run.
  destruct (emit _ _ _ _ _ _ _ _ w4) as [[]]; reflexivity.
Qed.

(** The run of the engine up to the adapter's answer. *)
Lemma respond_llm_run adapter system_prompt packet conversation dt w :
  contract_ok packet = true -> llm_mode (cp_response_mode packet) = true ->
  prompt_fits system_prompt packet conversation ->
  exists w1 t, respond adapter system_prompt packet conversation dt w =
    match adapter (composer_request system_prompt packet conversation) w1 with
    | (Ok result, w2) =>
        (emit EV_LLM_FINISHED (cp_trace_id packet) (u "llm") EO_SUCCEEDED (Some t) None None None;;
         validated_outcome packet (cr_text result) (Some (cr_provider_response_id result))) w2
    | (Raise (LLMAdapterError code _ _), w2) =>
        (emit EV_LLM_FINISHED (cp_trace_id packet) (u "llm") EO_FAILED (Some t)
           (Some (enum_value code)) None None;; lift (_fallback packet [])) w2
    | (Raise e, w2) => (Raise e, w2)
    end.
Proof.
  intros Hp Hm Hfit.
  destruct (respond_compose_run adapter system_prompt packet conversation dt w Hp Hm) as (w2 & t & ->).
  destruct (compose_reaches_adapter adapter system_prompt packet conversation w2 Hp Hm Hfit)
    as (w3 & ->). by exists w3, t.
Qed.

(** A prompt over the limit of the request never reaches the adapter. *)
Lemma compose_oversized adapter system_prompt packet conversation w :
  llm_mode (cp_response_mode packet) = true -> contract_ok packet = true ->
  30000 < py_len (render_evidence packet) ->
  exists msg w', compose adapter system_prompt packet conversation w = (Raise (ValidationError msg), w').
Proof.
  intros Hm Hp Hlong. pose proof (trace_ok packet Hp) as Ht. unfold compose. rewrite Hm. cbn [negb].
  rewrite bind_run. unfold started_at, perf at 1. cbv beta iota zeta.
  destruct (emit_up EV_TEMPLATE_RENDERED (cp_trace_id packet) (u "jinja") EO_SUCCEEDED
    (Some (perf_counter (w_tick w))) None (tick w)) as (w1 & Hw1 & _); [exact Ht|by vm_compute|done|].
  erewrite bind_ok_run; [|exact Hw1]. rewrite bind_run. cbn [lift].
  match goal with |- context [construct ?r] => destruct (construct r) as [ok|e] eqn:Hc end.
  - exfalso. apply construct_ok in Hc as [[Hf _]%fields_and_validator _].
    cbn -[len_in py_len render_evidence] in Hf. bools.
    match goal with Hx : len_in 1 30000 _ = true |- _ => apply len_in_spec in Hx end. lia.
  - apply construct_raises in Hc as (_ & msg & ->). by exists msg, w1.
Qed.
End engine_lemmas.

(** ** Properties *)

Section engine_properties.
Context `{UL : UCDLaws} `{SqlEngine} `{RedisServer} `{Env}.

Lemma respond_outcome_safe adapter system_prompt packet conversation deterministic_text w o w' :
  respond adapter system_prompt packet conversation deterministic_text w = (Ok o, w') ->
  clean (ro_text o) /\ outcome_safe packet o.
Proof.
  intros Hr. assert (outcome_safe packet o) as Hs.
  { unfold respond in Hr. m_inv Hr as z w1 Hz.
    assert (forall w0, lift (_fallback packet []) w0 = (Ok o, w') -> outcome_safe packet o) as Hfb.
    { intros w0 [Hf _]%lift_ok_inv. by eapply fallback_safe. }
    destruct (cp_response_mode packet); [|by eapply Hfb|..];
      [destruct deterministic_text; [by eapply validated_outcome_safe|done]|..];
      m_inv Hr as t w2 Ht; m_inv Hr as y w3 Hy; m_inv Hr as [c|] w4 Hc; try by eapply Hfb.
    all: m_inv Hr as x w5 Hx; by eapply validated_outcome_safe. }
  split; [|done]. destruct Hs as (_ & _ & _ & Hs).
  destruct (ro_used_fallback o); [rewrite Hs; apply factual_fallback_clean|].
  destruct Hs as [_ Hs]. unfold clean. apply not_true_iff_false. intros Hin.
  apply (Hs INTERNAL_LEAK). by apply has_internal_pattern_true.
Qed.

(** C10. Whatever the language model answers and whatever fails, every text
    the engine returns is free of internal markers, has 1 to 4096
    characters, and is either a text the grounding rules accept for this
    packet or the factual fallback of the packet. *)
Theorem respond_safe adapter system_prompt packet conversation deterministic_text w o w' :
  respond adapter system_prompt packet conversation deterministic_text w = (Ok o, w') ->
  clean (ro_text o) /\ outcome_safe packet o.
Proof. apply respond_outcome_safe. Qed.

(** When the adapter fails with [LLMAdapterError], the engine answers
    with exactly the factual fallback of the packet. *)
Theorem respond_falls_back adapter system_prompt packet conversation dt w :
  contract_ok packet = true -> llm_mode (cp_response_mode packet) = true ->
  prompt_fits system_prompt packet conversation ->
  (forall r w0, exists code msg st,
     (adapter r w0).1 = Raise (LLMAdapterError code msg st)) ->
  exists w', respond adapter system_prompt packet conversation dt w =
    (Ok {| ro_text := factual_fallback packet; ro_mode := cp_response_mode packet;
           ro_used_fallback := true; ro_grounding_failures := [];
           ro_provider_response_id := None; ro_trace_id := cp_trace_id packet |}, w').
Proof.
  intros Hp Hm Hfit Hfail.
  destruct (respond_llm_run adapter system_prompt packet conversation dt w Hp Hm Hfit)
    as (w1 & t & ->).
  destruct (Hfail (composer_request system_prompt packet conversation) w1) as (c & m & st & Hf).
  destruct (adapter _ w1) as [r w2]. cbn in Hf. subst r.
  destruct (emit_up EV_LLM_FINISHED (cp_trace_id packet) (u "llm") EO_FAILED (Some t)
    (Some (enum_value c)) w2) as (w3 & Hw3 & _);
    [by apply trace_ok|by vm_compute|by destruct c; vm_compute|].
  erewrite bind_ok_run; [|exact Hw3]. rewrite fallback_total by done. eauto.
Qed.

(** The engine always answers an adapter that keeps its contract, valid
    results or [LLMAdapterError]; any other exception of the adapter leaves
    the engine unchanged instead of becoming a fallback. *)
Theorem respond_answers adapter system_prompt packet conversation dt w :
  contract_ok packet = true -> llm_mode (cp_response_mode packet) = true ->
  prompt_fits system_prompt packet conversation ->
  (forall r w0, match (adapter r w0).1 with
                | Ok x => contract_ok x = true
                | Raise (LLMAdapterError _ _ _) => True
                | Raise _ => False
                end) ->
  (exists o w', respond adapter system_prompt packet conversation dt w = (Ok o, w')) /\
  forall e, (forall c m st, e <> LLMAdapterError c m st) ->
    exists w', respond (fun _ => raise e) system_prompt packet conversation dt w = (Raise e, w').
Proof.
  intros Hp Hm Hfit Had. split.
  - destruct (respond_llm_run adapter system_prompt packet conversation dt w Hp Hm Hfit)
      as (w1 & t & ->).
    specialize (Had (composer_request system_prompt packet conversation) w1).
    destruct (adapter _ w1) as [[x|[]] w2]; try done; cbn in Had.
    + destruct (emit_up EV_LLM_FINISHED (cp_trace_id packet) (u "llm") EO_SUCCEEDED (Some t)
        None w2) as (w3 & Hw3 & _); [by apply trace_ok|by vm_compute|done|].
      erewrite bind_ok_run; [|exact Hw3].
      apply andb_true_iff in Had as [Hf _]. cbn in Hf. bools.
      repeat match goal with H : len_in _ _ _ = true |- _ => apply len_in_spec in H end.
      apply validated_outcome_total; [done|lia|apply len_in_spec; lia].
    + destruct (emit_up EV_LLM_FINISHED (cp_trace_id packet) (u "llm") EO_FAILED (Some t)
        (Some (enum_value code)) w2) as (w3 & Hw3 & _);
        [by apply trace_ok|by vm_compute|by destruct code; vm_compute|].
      erewrite bind_ok_run; [|exact Hw3]. rewrite fallback_total by done.
      do 2 eexists. reflexivity.
  - intros e He.
    destruct (respond_llm_run (fun _ => raise e) system_prompt packet conversation dt w Hp Hm Hfit)
      as (w1 & t & ->).
    cbn [raise]. exists w1. destruct e; try reflexivity. by edestruct He.
Qed.
(** Evidence whose prompt is longer than the 30000 characters of a request is
    not answered with its fallback: the [ValidationError] of the request is not
    an [LLMAdapterError] and leaves the engine, before the model is asked. *)
Theorem oversized_prompt_escapes adapter system_prompt packet conversation dt w :
  contract_ok packet = true -> llm_mode (cp_response_mode packet) = true ->
  30000 < py_len (render_evidence packet) ->
  exists msg w', respond adapter system_prompt packet conversation dt w =
    (Raise (ValidationError msg), w').
Proof.
  intros Hp Hm Hlong.
  destruct (respond_compose_run adapter system_prompt packet conversation dt w Hp Hm) as (w1 & t & ->).
  destruct (compose_oversized adapter system_prompt packet conversation w1 Hm Hp Hlong) as (msg & w2 & ->).
  by exists msg, w2.
Qed.
End engine_properties.

(** ** Concrete runs *)

Section concrete.
#[local] Existing Instances latin1_ucd map_engine scheduled_server sample_env.

Definition sample_adapter (text : str) : CompositionRequest -> M CompositionResult := fun r =>
  mret {| cr_text := text; cr_provider_response_id := u "r-1"; cr_model := u "m";
          cr_trace_id := cq_trace_id r |}.
Definition failing_adapter : CompositionRequest -> M CompositionResult := fun _ =>
  raise (LLMAdapterError LE_TIMEOUT (u "x") None).

Definition llm_packet : ContextPacket := sample_packet JINJA_LLM [u "$2.500,00"].

Example respond_accepts :
  ro_text <$> (match (respond (sample_adapter (u " Sale $2.500,00. ")) (u "sys") llm_packet [] None
                 sample_world).1 with Ok o => Some o | Raise _ => None end)
  = Some (u "Sale $2.500,00.").
Proof. vm_compute. reflexivity. Qed.

Lemma llm_packet_fits : prompt_fits (u "sys") llm_packet [].
Proof. split; [by vm_compute|]. split; [by vm_compute|]. simpl. lia. Qed.

Lemma respond_safe_witness :
  let '(r, w) := respond (sample_adapter (u "Sale $9.999 system prompt")) (u "sys") llm_packet []
                   None sample_world in
  exists o, r = Ok o /\ ro_used_fallback o = true /\ clean (ro_text o) /\ outcome_safe llm_packet o.
Proof.
  destruct (respond (sample_adapter (u "Sale $9.999 system prompt")) (u "sys") llm_packet []
                   None sample_world) as [r w] eqn:Hr.
  assert (exists o, r = Ok o /\ ro_used_fallback o = true) as (o & -> & Ho).
  { apply (f_equal fst) in Hr. vm_compute in Hr. simpl in Hr. subst r.
    eexists. split; reflexivity. }
  exists o. split; [reflexivity|]. split; [exact Ho|].
  exact (@respond_safe latin1_ucd latin1_laws _ _ _ _ _ _ _ _ _ _ _ Hr).
Defined.

Lemma respond_falls_back_witness :
  exists w', respond failing_adapter (u "sys") llm_packet [] None sample_world =
    (Ok {| ro_text := factual_fallback llm_packet; ro_mode := JINJA_LLM;
           ro_used_fallback := true; ro_grounding_failures := [];
           ro_provider_response_id := None; ro_trace_id := u "t" |}, w').
Proof.
  apply (respond_falls_back failing_adapter (u "sys") llm_packet [] None sample_world).
  - vm_compute. reflexivity.
  - reflexivity.
  - apply llm_packet_fits.
  - intros r w0. exists LE_TIMEOUT, (u "x"), None. reflexivity.
Defined.

Lemma respond_answers_witness :
  (exists o w', respond failing_adapter (u "sys") llm_packet [] None sample_world = (Ok o, w')) /\
  forall e, (forall c m st, e <> LLMAdapterError c m st) ->
    exists w', respond (fun _ => raise e) (u "sys") llm_packet [] None sample_world = (Raise e, w').
Proof.
  apply (respond_answers failing_adapter (u "sys") llm_packet [] None sample_world).
  - vm_compute. reflexivity.
  - reflexivity.
  - apply llm_packet_fits.
  - intros r w0. exact I.
Defined.
Definition oversized_packet : ContextPacket := sample_packet JINJA_LLM (replicate 16 (replicate 1990 65)).

Lemma oversized_prompt_escapes_witness :
  contract_ok oversized_packet = true /\
  exists msg w', respond (sample_adapter (u "x")) (u "sys") oversized_packet [] None sample_world =
    (Raise (ValidationError msg), w').
Proof.
  assert (contract_ok oversized_packet = true) as Hok by (vm_compute; reflexivity).
  assert (30000 < py_len (render_evidence oversized_packet)) as Hlong
    by (unfold render_evidence, strip, rstrip_by; rewrite !rev_alt; vm_compute; reflexivity).
  split; [exact Hok|].
  exact (oversized_prompt_escapes (sample_adapter (u "x")) (u "sys") oversized_packet [] None sample_world
    Hok eq_refl Hlong).
Defined.
End concrete.
