(* ===== verification/Llm.v ===== *)
(** * Language-model adapters ([src/piki/integrations/llm])

    The module [Chat] is [OpenAIChatCompletionsAdapter] of [openai_chat.py], the
    module [Responses] is [OpenAIResponsesAdapter] of [openai_responses.py].
    Both send their request in the same bounded retry loop, [attempts]. *)
From S2P Require Import Prelude PyStr PyRegex Errors Contracts Grounding Prompt Pydantic.
From S2P Require Import Events Sql Redis Models World Session Sample Composition.

Local Open Scope Z_scope.

(** ** Construction: the checks shared by both constructors *)

Record AdapterOptions := {
  ao_model : str;
  ao_max_attempts : Z;
  ao_max_output_tokens : Z
}.

Definition new_adapter (api_key model : str) (max_attempts max_output_tokens : Z)
    : res AdapterOptions :=
  if negb (truthy (strip api_key)) then Raise (ValueError (u "LLM API key is required"))
  else if negb (truthy (strip model)) then Raise (ValueError (u "LLM model is required"))
  else if max_attempts <? 1 then Raise (ValueError (u "LLM max_attempts must be positive"))
  else Ok {| ao_model := strip model; ao_max_attempts := max_attempts;
             ao_max_output_tokens := max_output_tokens |}.

(** ** The retry loop *)

Definition retryable (status : Z) : bool := bool_decide (status ∈ [429; 500; 502; 503]).

Definition timeout_error : exn :=
  LLMAdapterError LE_TIMEOUT (u "No pude redactar la respuesta a tiempo.") None.
Definition unavailable_error : exn :=
  LLMAdapterError LE_UNAVAILABLE (u "No pude acceder al redactor en este momento.") None.
Definition invalid_response (msg : str) : exn := LLMAdapterError LE_INVALID_RESPONSE msg None.

Definition http_error (code : LLMErrorCode) (status : Z) : exn :=
  LLMAdapterError code (u "No pude redactar la respuesta en este momento.") (Some status).

Section loop.
Context `{SqlEngine} `{RedisServer} `{Env}.
Variables (max_attempts : Z) (request : HttpRequest)
  (parse : option json -> res CompositionResult) (map_http_error : Z -> exn).

(** [for attempt in range(1, max_attempts + 1)], with the number of
    iterations left. *)
Fixpoint attempts (left : nat) (attempt : Z) : M CompositionResult :=
  match left with
  | O => raise (AssertionError (u "LLM request loop exhausted unexpectedly"))
  | S left' =>
      response ← http request;
      match response with
      | HTimeout =>
          if attempt <? max_attempts
          then sleep (200000 * attempt);; attempts left' (attempt + 1)
          else raise timeout_error
      | HRequestError => raise unavailable_error
      | HResponse status body =>
          if retryable status && (attempt <? max_attempts)
          then sleep (200000 * attempt);; attempts left' (attempt + 1)
          else if is_error status then raise (map_http_error status)
          else lift (parse body)
      end
  end.

Definition request_loop : M CompositionResult := attempts (Z.to_nat max_attempts) 1.
End loop.

Definition evidence_message (evidence_prompt : str) : str :=
  u "Redactá la respuesta final usando exclusivamente este paquete de evidencia:" ++
  [10; 10] ++ evidence_prompt.

(** ** Chat completions *)

Module Chat.
Record ChatCompletionEnvelope := {
  ce_id : str; ce_model : str; ce_contents : list (option str) }.

Definition parse_message : json -> option (option str) := as_obj (fun o =>
  opt_field as_str (u "content") o).
Definition parse_choice : json -> option (option str) := as_obj (fun o =>
  field parse_message (u "message") o).
Definition parse_envelope : json -> option ChatCompletionEnvelope := as_obj (fun o =>
  i ← field as_str (u "id") o;
  m ← field as_str (u "model") o;
  cs ← field (as_tuple parse_choice) (u "choices") o;
  Some {| ce_id := i; ce_model := m; ce_contents := cs |}).

(** A response body: [None] is not JSON. *)
Definition _parse_response (trace_id : str) (body : option json) : res CompositionResult :=
  let invalid := Raise (invalid_response (u "El redactor devolvió una respuesta inválida.")) in
  match body ≫= parse_envelope with
  | None => invalid
  | Some envelope =>
      match ce_contents envelope with
      | [] => invalid
      | text :: _ =>
          match text with
          | Some t =>
              if truthy (strip t)
              then construct {| cr_text := strip t; cr_provider_response_id := ce_id envelope;
                                cr_model := ce_model envelope; cr_trace_id := trace_id |}
              else Raise (invalid_response (u "El redactor no devolvió texto utilizable."))
          | None => Raise (invalid_response (u "El redactor no devolvió texto utilizable."))
          end
      end
  end.

Definition _map_http_error (status : Z) : exn :=
  http_error (if status =? 400 then LE_BAD_REQUEST
              else if bool_decide (status ∈ [401; 403]) then LE_UNAUTHORIZED
              else if status =? 429 then LE_RATE_LIMITED
              else LE_UNAVAILABLE) status.

(** The messages, each a role and its content; [messages[-1]] of an empty
    list is an [IndexError]. *)
Fixpoint _append_message (messages : list (str * str)) (role content : str)
    : res (list (str * str)) :=
  match messages with
  | [] => Raise IndexError
  | [(r, c)] =>
      if bool_decide (r = role) then Ok [(r, c ++ [10; 10] ++ content)]
      else Ok [(r, c); (role, content)]
  | m :: ms => ms' ← _append_message ms role content; Ok (m :: ms')
  end.

Fixpoint append_all (messages : list (str * str)) (l : list (str * str))
    : res (list (str * str)) :=
  match l with
  | [] => Ok messages
  | (role, content) :: l' => ms ← _append_message messages role content; append_all ms l'
  end.

Definition turns (request : CompositionRequest) : list (str * str) :=
  map (fun t => (role_text (ct_role t), ct_text t)) (cq_conversation request) ++
  [(u "user", evidence_message (cq_evidence_prompt request))].

Definition messages (request : CompositionRequest) : res (list (str * str)) :=
  append_all [(u "system", cq_system_prompt request)] (turns request).

Definition message_json (m : str * str) : json :=
  JObj [(u "role", JStr m.1); (u "content", JStr m.2)].

Definition body (options : AdapterOptions) (ms : list (str * str)) : json :=
  JObj [(u "model", JStr (ao_model options)); (u "messages", JArr (map message_json ms));
        (u "temperature", JFloat (u "0.2")); (u "top_p", JFloat (u "0.9"));
        (u "max_tokens", JInt (ao_max_output_tokens options)); (u "stream", JBool false)].

Definition compose `{SqlEngine} `{RedisServer} `{Env} (options : AdapterOptions)
    (request : CompositionRequest) : M CompositionResult :=
  ms ← lift (messages request);
  request_loop (ao_max_attempts options)
    {| hq_service := SVC_LLM; hq_path := u "chat/completions"; hq_params := [];
       hq_body := Some (body options ms) |}
    (_parse_response (cq_trace_id request)) _map_http_error.
End Chat.

(** ** Responses *)

Module Responses.
Record OutputContent := { oc_type : str; oc_text : option str; oc_refusal : option str }.
Record OutputItem := { oi_type : str; oi_content : list OutputContent }.
Record ResponsesEnvelope := {
  re_id : str; re_model : str; re_status : str; re_output : list OutputItem }.

Definition parse_content : json -> option OutputContent := as_obj (fun o =>
  t ← field (literal [u "output_text"; u "refusal"]) (u "type") o;
  x ← opt_field as_str (u "text") o;
  r ← opt_field as_str (u "refusal") o;
  Some {| oc_type := t; oc_text := x; oc_refusal := r |}).
Definition parse_item : json -> option OutputItem := as_obj (fun o =>
  t ← field as_str (u "type") o;
  cs ← tuple_field parse_content (u "content") o;
  Some {| oi_type := t; oi_content := cs |}).
Definition parse_envelope : json -> option ResponsesEnvelope := as_obj (fun o =>
  i ← field as_str (u "id") o;
  m ← field as_str (u "model") o;
  s ← field as_str (u "status") o;
  out ← field (as_tuple parse_item) (u "output") o;
  Some {| re_id := i; re_model := m; re_status := s; re_output := out |}).

(** The contents of the message items, the refusal test and the text parts of
    the two nested loops. *)
Definition contents (envelope : ResponsesEnvelope) : list OutputContent :=
  filter (fun i => oi_type i = u "message") (re_output envelope) ≫= oi_content.
Definition refused (cs : list OutputContent) : bool :=
  existsb (fun c => bool_decide (oc_type c = u "refusal")) cs.
Definition text_parts (cs : list OutputContent) : list str :=
  omap (fun c => if bool_decide (oc_type c = u "output_text") && truthy_opt (oc_text c)
                 then strip <$> oc_text c else None) cs.

Definition _parse_response (trace_id : str) (body : option json) : res CompositionResult :=
  match body ≫= parse_envelope with
  | None => Raise (invalid_response (u "El redactor devolvió una respuesta inválida."))
  | Some envelope =>
      if negb (bool_decide (re_status envelope = u "completed"))
      then Raise (invalid_response (u "El redactor no completó la respuesta."))
      else
        let cs := contents envelope in
        if refused cs
        then Raise (LLMAdapterError LE_REFUSED (u "No pude redactar esa respuesta.") None)
        else
          let text := strip (join [10] (filter (fun part => truthy part = true) (text_parts cs))) in
          if negb (truthy text)
          then Raise (invalid_response (u "El redactor no devolvió texto utilizable."))
          else construct {| cr_text := text; cr_provider_response_id := re_id envelope;
                            cr_model := re_model envelope; cr_trace_id := trace_id |}
  end.

Definition _map_http_error (status : Z) : exn :=
  http_error (if status =? 400 then LE_BAD_REQUEST
              else if status =? 401 then LE_UNAUTHORIZED
              else if status =? 429 then LE_RATE_LIMITED
              else LE_UNAVAILABLE) status.

Definition body (options : AdapterOptions) (request : CompositionRequest) : json :=
  JObj [(u "model", JStr (ao_model options));
        (u "instructions", JStr (cq_system_prompt request));
        (u "input", JArr (map Chat.message_json (Chat.turns request)));
        (u "max_output_tokens", JInt (ao_max_output_tokens options));
        (u "store", JBool false)].

Definition compose `{SqlEngine} `{RedisServer} `{Env} (options : AdapterOptions)
    (request : CompositionRequest) : M CompositionResult :=
  request_loop (ao_max_attempts options)
    {| hq_service := SVC_LLM; hq_path := u "responses"; hq_params := [];
       hq_body := Some (body options request) |}
    (_parse_response (cq_trace_id request)) _map_http_error.
End Responses.

(** ** Lemmas *)

Definition is_http (i : io) : bool := match i with IoHttp _ => true | IoSleep _ => false end.
Definition http_count (l : list io) : nat := length (filter (fun i => is_http i = true) l).

(** The requests and sleeps of a run, latest first. *)
Definition io_bounded (request : HttpRequest) (max_attempts : Z) (before after : list io) : Prop :=
  exists log, after = log ++ before /\ (1 <= http_count log)%nat /\
    Z.of_nat (http_count log) <= max_attempts /\
    Z.of_nat (length log) = 2 * Z.of_nat (http_count log) - 1 /\
    Forall (fun i => forall q, i = IoHttp q -> q = request) log.

(** What an adapter may raise. *)
Definition adapter_exn (e : exn) : Prop :=
  (exists c m s, e = LLMAdapterError c m s) \/ exists m, e = ValidationError m.

Section loop_lemmas.
Context `{SqlEngine} `{RedisServer} `{Env}.
Variables (max_attempts : Z) (request : HttpRequest)
  (parse : option json -> res CompositionResult) (map_http_error : Z -> exn).

(** With as many iterations left as the guard allows, the loop ends inside
    its body: every retry leaves one iteration more. *)
Lemma attempts_run left attempt w r w' :
  Z.of_nat left = max_attempts - attempt + 1 -> (1 <= left)%nat ->
  attempts max_attempts request parse map_http_error left attempt w = (r, w') ->
  io_bounded request (Z.of_nat left) (w_io w) (w_io w') /\ w_db w' = w_db w /\
  ((exists status body, is_error status = false /\ r = parse body) \/
   r = Raise timeout_error \/ r = Raise unavailable_error \/
   exists status, r = Raise (map_http_error status)).
Proof.
  revert attempt w. induction left as [|left IH]; intros attempt w Hleft H1' Hrun; [lia|].
  cbn [attempts] in Hrun. rewrite bind_run in Hrun. unfold http in Hrun. cbv beta iota zeta in Hrun.
  set (w1 := tick (log_io (IoHttp request) w)) in *.
  assert (io_bounded request (Z.of_nat (S left)) (w_io w) (w_io w1)) as Hone.
  { exists [IoHttp request]. split; [done|].
    change (http_count [IoHttp request]) with 1%nat. change (length [IoHttp request]) with 1%nat.
    split_and!; try lia.
    constructor; [|constructor]. by intros q [= <-]. }
  assert (attempt < max_attempts ->
    (sleep (200000 * attempt);;
     attempts max_attempts request parse map_http_error left (attempt + 1)) w1 = (r, w') ->
    io_bounded request (Z.of_nat (S left)) (w_io w) (w_io w') /\ w_db w' = w_db w /\
    ((exists status body, is_error status = false /\ r = parse body) \/
     r = Raise timeout_error \/ r = Raise unavailable_error \/
     exists status, r = Raise (map_http_error status))) as Hretry.
  { intros Hlt Hr. rewrite bind_run in Hr. unfold sleep in Hr. cbv beta iota zeta in Hr.
    apply IH in Hr as (Hio & Hdb & Hcase); [|lia..]. split; [|split; [exact Hdb|exact Hcase]].
    destruct Hio as (log & Hl & Ha & Hb & Hc & Hq). cbn in Hl.
    exists (log ++ [IoSleep (200000 * attempt); IoHttp request]).
    split; [by rewrite <- app_assoc|]. unfold http_count in *. rewrite filter_app, !length_app.
    change (length (filter _ [IoSleep _; _])) with 1%nat. change (length [IoSleep _; _]) with 2%nat.
    split_and!; try lia. apply Forall_app. split; [done|].
    constructor; [by intros q [=]|]. constructor; [by intros q [= <-]|constructor]. }
  destruct (transport (w_io w) request) as [status body| |].
  - destruct (retryable status && (attempt <? max_attempts)) eqn:Hre; bools.
    + by apply Hretry.
    + destruct (is_error status) eqn:He; injection Hrun as <- <-;
        (split; [exact Hone|]; split; [done|]).
      * right; right; right. by exists status.
      * left. by exists status, body.
  - destruct (attempt <? max_attempts) eqn:Hlt; bools; [by apply Hretry|].
    injection Hrun as <- <-. split; [exact Hone|]. split; [done|]. by right; left.
  - injection Hrun as <- <-. split; [exact Hone|]. split; [done|]. by right; right; left.
Qed.

Lemma request_loop_run w r w' :
  1 <= max_attempts ->
  request_loop max_attempts request parse map_http_error w = (r, w') ->
  io_bounded request max_attempts (w_io w) (w_io w') /\ w_db w' = w_db w /\
  ((exists status body, is_error status = false /\ r = parse body) \/
   r = Raise timeout_error \/ r = Raise unavailable_error \/
   exists status, r = Raise (map_http_error status)).
Proof.
  intros Hm Hr. apply attempts_run in Hr; [|lia..]. by rewrite Z2Nat.id in Hr by lia.
Qed.
End loop_lemmas.

Lemma construct_adapter_exn {A} `{Contract A} (a : A) e : construct a = Raise e -> adapter_exn e.
Proof. intros (_ & m & ->)%construct_raises. right; eauto. Qed.

Lemma invalid_adapter_exn msg : adapter_exn (invalid_response msg).
Proof. left. unfold invalid_response. eauto. Qed.

Lemma chat_parse_cases trace body :
  match Chat._parse_response trace body with
  | Ok x => contract_ok x = true /\ cr_trace_id x = trace
  | Raise e => adapter_exn e
  end.
Proof.
  unfold Chat._parse_response.
  cbv zeta. repeat (split_match; try apply invalid_adapter_exn).
  all: match goal with
       | H : construct _ = Ok _ |- _ => apply construct_ok in H as [? ->]; split; [assumption|reflexivity]
       | H : construct _ = Raise _ |- _ => exact (construct_adapter_exn _ _ H)
       end.
Qed.

Lemma responses_parse_cases trace body :
  match Responses._parse_response trace body with
  | Ok x => contract_ok x = true /\ cr_trace_id x = trace
  | Raise e => adapter_exn e
  end.
Proof.
  unfold Responses._parse_response.
  cbv zeta. repeat (split_match; try apply invalid_adapter_exn).
  all: try solve [left; eauto].
  all: match goal with
       | H : construct _ = Ok _ |- _ => apply construct_ok in H as [? ->]; split; [assumption|reflexivity]
       | H : construct _ = Raise _ |- _ => exact (construct_adapter_exn _ _ H)
       end.
Qed.

(** *** The messages of a chat *)

(** No two neighbours have the same role. *)
Fixpoint alternating (l : list (str * str)) : Prop :=
  match l with
  | a :: l' => match l' with b :: _ => a.1 <> b.1 | [] => True end /\ alternating l'
  | [] => True
  end.

Definition blank_line : str := [10; 10].

Lemma join_snoc sep ps x : ps <> [] -> join sep (ps ++ [x]) = join sep ps ++ sep ++ x.
Proof.
  induction ps as [|p ps IH]; intros Hne; [done|]. destruct ps as [|q ps]; [done|].
  change (join sep ((p :: q :: ps) ++ [x])) with (p ++ sep ++ join sep ((q :: ps) ++ [x])).
  rewrite IH by done. change (join sep (p :: q :: ps)) with (p ++ sep ++ join sep (q :: ps)).
  by rewrite <- !app_assoc.
Qed.

Lemma join_app_tail sep a c : a <> [] -> join sep (a ++ c) = join sep a ++ (c ≫= app sep).
Proof.
  intros Ha. induction c as [|x c IH] using rev_ind; [by rewrite !app_nil_r|].
  rewrite app_assoc, join_snoc by (by destruct a). rewrite IH, bind_app. cbn.
  by rewrite app_nil_r, <- app_assoc.
Qed.

Lemma append_message_ok ms role content :
  ms <> [] -> alternating ms ->
  exists ms', Chat._append_message ms role content = Ok ms' /\ ms' <> [] /\ alternating ms' /\
    fst <$> head ms' = fst <$> head ms /\ fst <$> last ms' = Some role /\
    join blank_line ms'.*2 = join blank_line ms.*2 ++ blank_line ++ content.
Proof.
  induction ms as [|[r c] ms IH]; intros Hne Ha; [done|]. destruct ms as [|m ms].
  - cbn. case_bool_decide as Hr.
    + subst r. eexists. split_and!; try done.
    + eexists. split_and!; try done.
  - destruct Ha as [Hr Ha]. destruct (IH ltac:(done) Ha) as (ms' & Heq & Hne' & Ha' & Hh & Hl & Hj).
    change (Chat._append_message ((r, c) :: m :: ms) role content) with
      (ms' ← Chat._append_message (m :: ms) role content; Ok ((r, c) :: ms')).
    rewrite Heq. cbn [mbind res_bind]. eexists. split; [done|]. destruct ms' as [|m' ms']; [done|].
    split_and!; try done.
    + split; [|done]. cbn in Hh. cbn. injection Hh as ->. done.
    + change (join blank_line ((r, c) :: m' :: ms').*2) with
        (c ++ blank_line ++ join blank_line (m' :: ms').*2).
      rewrite Hj. change (join blank_line ((r, c) :: m :: ms).*2) with
        (c ++ blank_line ++ join blank_line (m :: ms).*2). by rewrite <- !app_assoc.
Qed.

Lemma append_all_ok ms l :
  ms <> [] -> alternating ms ->
  exists ms', Chat.append_all ms l = Ok ms' /\ ms' <> [] /\ alternating ms' /\
    fst <$> head ms' = fst <$> head ms /\
    (l <> [] -> fst <$> last ms' = fst <$> last l) /\
    join blank_line ms'.*2 = join blank_line (ms.*2 ++ l.*2).
Proof.
  revert ms. induction l as [|[role content] l IH]; intros ms Hne Ha.
  - exists ms. split_and!; try done. by rewrite app_nil_r.
  - cbn [Chat.append_all].
    destruct (append_message_ok ms role content Hne Ha) as (m1 & -> & Hne1 & Ha1 & Hh1 & Hl1 & Hj1).
    cbn [mbind res_bind].
    destruct (IH m1 Hne1 Ha1) as (m2 & Hm2 & Hne2 & Ha2 & Hh2 & Hl2 & Hj2).
    exists m2. split_and!; try done; [congruence| |].
    + intros _. destruct l as [|x l]; [|by apply Hl2].
      cbn in Hm2. injection Hm2 as <-. done.
    + rewrite Hj2. rewrite join_app_tail by (by destruct m1). rewrite Hj1.
      change ((role, content) :: l).*2 with ([content] ++ l.*2).
      rewrite (app_assoc ms.*2), (join_app_tail _ (ms.*2 ++ [content])) by (by destruct ms).
      by rewrite join_snoc by (by destruct ms).
Qed.

(** ** Properties *)

Section properties.
Context `{SqlEngine} `{RedisServer} `{Env}.

Lemma new_adapter_attempts key model n t options :
  new_adapter key model n t = Ok options -> 1 <= ao_max_attempts options /\ ao_max_attempts options = n.
Proof.
  unfold new_adapter. repeat case_match; try done. intros [= <-]. cbn. by bools.
Qed.

Definition chat_request (options : AdapterOptions) (ms : list (str * str)) : HttpRequest :=
  {| hq_service := SVC_LLM; hq_path := u "chat/completions"; hq_params := [];
     hq_body := Some (Chat.body options ms) |}.
Definition responses_request (options : AdapterOptions) (request : CompositionRequest)
    : HttpRequest :=
  {| hq_service := SVC_LLM; hq_path := u "responses"; hq_params := [];
     hq_body := Some (Responses.body options request) |}.

(** The messages of a chat completion are always built: they start with
    the system prompt, no two neighbours share a role, they end with the
    evidence as the user's, and joined by blank lines they are exactly the
    prompt, the turns and the evidence, in order. *)
Theorem chat_messages_alternate request :
  exists ms, Chat.messages request = Ok ms /\ alternating ms /\
    fst <$> head ms = Some (u "system") /\ fst <$> last ms = Some (u "user") /\
    join blank_line ms.*2 =
      join blank_line (cq_system_prompt request :: map ct_text (cq_conversation request) ++
        [evidence_message (cq_evidence_prompt request)]).
Proof.
  unfold Chat.messages.
  destruct (append_all_ok [(u "system", cq_system_prompt request)] (Chat.turns request))
    as (ms & -> & _ & Ha & Hh & Hl & Hj); [done|done|].
  exists ms. split_and!; try done.
  - rewrite Hl by (unfold Chat.turns; by destruct (cq_conversation request)).
    unfold Chat.turns. by rewrite last_snoc.
  - rewrite Hj. unfold Chat.turns. rewrite fmap_app. do 2 f_equal.
    cbn [fmap list_fmap]. f_equal. induction (cq_conversation request) as [|x l IH]; [done|].
    cbn. by rewrite IH.
Qed.

(** Termination and bounds: an adapter that was constructed sends its
    request at least once and at most [max_attempts] times, sleeps exactly
    between two requests, never touches the database, and never reaches the
    assertion after the loop. It returns a valid result with the trace of the
    request, or raises [LLMAdapterError] or, for an answer that breaks the
    bounds of [CompositionResult], [ValidationError]. *)
Theorem adapters_bounded key model n t options request w :
  new_adapter key model n t = Ok options ->
  (let '(r, w') := Chat.compose options request w in
   (exists ms, io_bounded (chat_request options ms) n (w_io w) (w_io w')) /\
   w_db w' = w_db w /\
   match r with
   | Ok x => contract_ok x = true /\ cr_trace_id x = cq_trace_id request
   | Raise e => adapter_exn e
   end) /\
  (let '(r, w') := Responses.compose options request w in
   io_bounded (responses_request options request) n (w_io w) (w_io w') /\
   w_db w' = w_db w /\
   match r with
   | Ok x => contract_ok x = true /\ cr_trace_id x = cq_trace_id request
   | Raise e => adapter_exn e
   end).
Proof.
  intros [Hpos Hn]%new_adapter_attempts. split.
  - unfold Chat.compose.
    destruct (append_all_ok [(u "system", cq_system_prompt request)] (Chat.turns request))
      as (ms & Hms & _); [done|done|].
    rewrite bind_run. unfold Chat.messages. rewrite Hms. cbn [lift].
    destruct (request_loop _ _ _ _ w) as [r w'] eqn:Hr.
    apply request_loop_run in Hr as (Hio & Hdb & Hcase); [|done].
    split; [exists ms; by rewrite <- Hn|]. split; [exact Hdb|].
    destruct Hcase as [(st & b & _ & ->)|[->|[->|(st & ->)]]];
      [apply chat_parse_cases|left; do 3 eexists; reflexivity..].
  - unfold Responses.compose. destruct (request_loop _ _ _ _ w) as [r w'] eqn:Hr.
    apply request_loop_run in Hr as (Hio & Hdb & Hcase); [|done].
    split; [by rewrite <- Hn|]. split; [exact Hdb|].
    destruct Hcase as [(st & b & _ & ->)|[->|[->|(st & ->)]]];
      [apply responses_parse_cases|left; do 3 eexists; reflexivity..].
Qed.
End properties.

Section concrete.
#[local] Existing Instances latin1_ucd map_engine scheduled_server.

Definition sample_options : AdapterOptions :=
  {| ao_model := u "m"; ao_max_attempts := 2; ao_max_output_tokens := 500 |}.
Definition sample_composition : CompositionRequest :=
  {| cq_system_prompt := u "sys"; cq_evidence_prompt := u "datos";
     cq_conversation := [{| ct_role := ROLE_USER; ct_text := u "hola" |}];
     cq_trace_id := u "t" |}.

Lemma adapters_bounded_witness :
  new_adapter (u "k") (u "m") 2 500 = Ok sample_options /\
  let '(r, w') := @Chat.compose _ _ sample_env sample_options sample_composition sample_world in
  (exists ms, io_bounded (chat_request sample_options ms) 2 (w_io sample_world) (w_io w')) /\
  w_db w' = w_db sample_world /\
  match r with
  | Ok x => contract_ok x = true /\ cr_trace_id x = u "t"
  | Raise e => adapter_exn e
  end.
Proof.
  split; [reflexivity|].
  exact (proj1 (@adapters_bounded _ _ sample_env (u "k") (u "m") 2 500 sample_options
                  sample_composition sample_world eq_refl)).
Defined.

(** A provider that answers with [n] characters. *)
Definition answer (n : nat) : json :=
  JObj [(u "id", JStr (u "r")); (u "model", JStr (u "m"));
        (u "choices", JArr [JObj [(u "message", JObj [(u "content", JStr (replicate n 97))])]])].
Definition answering_env (n : nat) : Env := {|
  clock k := Z.of_nat k; perf_counter k := Z.of_nat k; db_up _ := true;
  transport _ _ := HResponse 200 (Some (answer n)); token_urlsafe _ := [] |}.

(** The fallback does not cover a provider that answers with more than
    4096 characters: the adapter raises [ValidationError] outside its try
    block, the engine lets it through, and no factual fallback is given,
    while 4096 characters are still accepted. *)
Theorem long_answer_escapes_fallback :
  (exists msg, (respond (H2 := answering_env 4097) (@Chat.compose _ _ (answering_env 4097) sample_options)
      (u "sys") llm_packet [] None sample_world).1 = Raise (ValidationError msg)) /\
  (exists o, (respond (H2 := answering_env 4096) (@Chat.compose _ _ (answering_env 4096) sample_options)
      (u "sys") llm_packet [] None sample_world).1 = Ok o /\ ro_used_fallback o = false).
Proof. split; eexists; vm_compute; try split; reflexivity. Qed.
End concrete.
