(* ===== verification/Coordination.v ===== *)
(** * Locks and deduplication ([src/piki/state/coordination.py]) *)
From S2P Require Import Prelude PyStr Errors Sha256 Contracts Events Sql Redis Models.
From S2P Require Import World Session Sample State.

Local Open Scope Z_scope.

Inductive LockStatus := LK_ACQUIRED | LK_BUSY | LK_UNAVAILABLE.
#[export] Instance LockStatus_eq_dec : EqDecision LockStatus.
Proof. solve_decision. Defined.

Record LockLease := { ll_status : LockStatus; ll_owner_token : option str }.
#[export] Instance LockLease_contract : Contract LockLease := {|
  fields_ok l := opt_len_in 32 128 (ll_owner_token l);
  model_validator l := first_error [
    (xorb (bool_decide (ll_status l = LK_ACQUIRED)) (bool_decide (is_Some (ll_owner_token l))),
     u "only acquired locks contain an owner token")]
|}.

Inductive LockReleaseStatus := LR_RELEASED | LR_NOT_OWNER | LR_UNAVAILABLE.
#[export] Instance LockReleaseStatus_eq_dec : EqDecision LockReleaseStatus.
Proof. solve_decision. Defined.

Inductive DedupStatus := DD_CLAIMED | DD_DUPLICATE | DD_UNAVAILABLE.
#[export] Instance DedupStatus_eq_dec : EqDecision DedupStatus.
Proof. solve_decision. Defined.

(** [if redis.call('get', KEYS[1]) == ARGV[1] then return redis.call('del',
    KEYS[1]) end return 0]. *)
Definition RELEASE_LOCK_SCRIPT : lua := LuaIfGetEq LuaReturnDel (LuaReturn 0).

(** ** [RedisConversationLock] *)

Definition lock_prefix : str := u "piki:v1:conversation".

Definition lock_key_for (scope : ConversationScope) : str :=
  lock_prefix ++ u ":" ++ conversation_scope_digest scope ++ u ":lock".

(** The constructors of both classes check their TTL. *)
Definition check_ttl (msg : str) (ttl_seconds : Z) : res Z :=
  if ttl_seconds <? 1 then Raise (ValueError msg) else Ok ttl_seconds.

Section lock.
Context `{SqlEngine} `{RedisServer} `{Env}.
Variable ttl_seconds : Z.

Definition acquire (scope : ConversationScope) : M LockLease :=
  owner_token ← new_token;
  acquired ← redis_try (CSet (lock_key_for scope) owner_token ttl_seconds true);
  match acquired with
  | None => lift (construct {| ll_status := LK_UNAVAILABLE; ll_owner_token := None |})
  | Some r =>
      if negb (reply_truthy r)
      then lift (construct {| ll_status := LK_BUSY; ll_owner_token := None |})
      else lift (construct {| ll_status := LK_ACQUIRED; ll_owner_token := Some owner_token |})
  end.

Definition release (scope : ConversationScope) (owner_token : str) : M LockReleaseStatus :=
  released ← redis_try (CEval RELEASE_LOCK_SCRIPT (lock_key_for scope) owner_token);
  mret (match released with
        | None => LR_UNAVAILABLE
        | Some (RepInt n) => if n =? 1 then LR_RELEASED else LR_NOT_OWNER
        | Some _ => LR_NOT_OWNER
        end).
End lock.

(** ** [RedisMessageDeduplicator] *)

Definition dedup_prefix : str := u "piki:v1:inbound-message".

Definition dedup_key_for (channel_account_id message_id : str) : str :=
  dedup_prefix ++ u ":" ++
  hexdigest (sha256 (encode (join unit_separator [channel_account_id; message_id]))).

Section dedup.
Context `{SqlEngine} `{RedisServer} `{Env}.
Variable ttl_seconds : Z.

Definition dedup_claim (channel_account_id message_id : str) : M DedupStatus :=
  if negb (truthy (strip channel_account_id)) || negb (truthy (strip message_id))
  then raise (ValueError (u "dedup identity parts cannot be blank"))
  else
    claimed ← redis_try (CSet (dedup_key_for channel_account_id message_id) (u "1")
                ttl_seconds true);
    mret (match claimed with
          | None => DD_UNAVAILABLE
          | Some r => if reply_truthy r then DD_CLAIMED else DD_DUPLICATE
          end).
End dedup.

(** ** Lemmas *)

Section lemmas.
Context `{SqlEngine} `{RedisServer} `{Env}.

(** *** The operations leave a held lock, and any other key, alone *)

Lemma keeps_acquire k v e ttl scope : keeps (key_frame k v e) (acquire ttl scope).
Proof.
  apply keeps_bind; [apply _|apply keeps_key_token|]. intros t.
  apply keeps_bind; [apply _|apply keeps_key_try; by right|]. intros [r|].
  - apply keeps_if; apply keeps_lift, _.
  - apply keeps_lift, _.
Qed.

Lemma keeps_release k v e scope token :
  lock_key_for scope <> k \/ token <> v -> keeps (key_frame k v e) (release scope token).
Proof.
  intros Hs. apply keeps_bind; [apply _|apply keeps_key_try|intros; apply keeps_ret, _].
  destruct Hs; [by left|by right].
Qed.

Lemma keeps_dedup k v e ttl account message :
  keeps (key_frame k v e) (dedup_claim ttl account message).
Proof.
  apply keeps_if; [apply keeps_raise, _|].
  apply keeps_bind; [apply _|apply keeps_key_try; by right|]. intros. apply keeps_ret, _.
Qed.

(** *** Functional behaviour *)

Definition token_ok (t : str) : Prop := 32 <= py_len t <= 128.

Lemma acquire_run ttl scope w :
  token_ok (token_urlsafe (w_tick w)) ->
  exists l w', acquire ttl scope w = (Ok l, w') /\ w_db w' = w_db w /\
    w_tick w' = S (S (w_tick w)) /\
    match ll_status l with
    | LK_ACQUIRED =>
        live (clock (S (w_tick w))) (dump (w_redis w)) (lock_key_for scope) = None /\
        ll_owner_token l = Some (token_urlsafe (w_tick w)) /\
        dump (w_redis w') = <[lock_key_for scope :=
          (token_urlsafe (w_tick w), clock (S (w_tick w)) + ttl * 1000000)]> (dump (w_redis w))
    | LK_BUSY =>
        is_Some (live (clock (S (w_tick w))) (dump (w_redis w)) (lock_key_for scope)) /\
        ll_owner_token l = None /\ dump (w_redis w') = dump (w_redis w)
    | LK_UNAVAILABLE => ll_owner_token l = None
    end.
Proof.
  intros Htok. unfold acquire. rewrite bind_run. unfold new_token. cbv beta iota zeta.
  set (t := token_urlsafe (w_tick w)) in *.
  destruct (redis_try_run (CSet (lock_key_for scope) t ttl true) (tick w))
    as (o & w' & Hrun & Hdb & Ht & Ho).
  erewrite bind_ok_run; [|exact Hrun]. destruct o as [r|]; cycle 1.
  { rewrite construct_good by done. do 2 eexists. split; [reflexivity|]. done. }
  cbn [redis_spec andb] in Ho.
  case_bool_decide as Hl; injection Ho as -> Hd; cbn [reply_truthy negb].
  - rewrite construct_good by done. do 2 eexists. split; [reflexivity|]. done.
  - rewrite construct_good.
    + do 2 eexists. split; [reflexivity|]. cbn [ll_status ll_owner_token].
      split_and!; try done. by apply eq_None_not_Some.
    + unfold contract_ok. cbn -[opt_len_in]. rewrite andb_true_r. by apply len_in_spec.
Qed.

Lemma release_run scope token w :
  exists st w', release scope token w = (Ok st, w') /\ w_db w' = w_db w /\
    match st with
    | LR_RELEASED =>
        live (clock (w_tick w)) (dump (w_redis w)) (lock_key_for scope) = Some token /\
        dump (w_redis w') = delete (lock_key_for scope) (dump (w_redis w))
    | LR_NOT_OWNER =>
        live (clock (w_tick w)) (dump (w_redis w)) (lock_key_for scope) <> Some token /\
        dump (w_redis w') = dump (w_redis w)
    | LR_UNAVAILABLE => True
    end.
Proof.
  unfold release.
  destruct (redis_try_run (CEval RELEASE_LOCK_SCRIPT (lock_key_for scope) token) w)
    as (o & w' & Hrun & Hdb & _ & Ho).
  erewrite bind_ok_run; [|exact Hrun]. do 2 eexists. split; [reflexivity|]. split; [done|].
  destruct o as [r|]; [|done]. cbn [redis_spec eval_lua RELEASE_LOCK_SCRIPT] in Ho.
  case_bool_decide as Hl; injection Ho as -> Hd.
  - unfold del_reply. rewrite Hl. rewrite bool_decide_true by eauto. done.
  - done.
Qed.

Lemma dedup_run ttl account message w :
  truthy (strip account) = true -> truthy (strip message) = true ->
  exists st w', dedup_claim ttl account message w = (Ok st, w') /\ w_db w' = w_db w /\
    w_tick w' = S (w_tick w) /\
    match st with
    | DD_CLAIMED =>
        live (clock (w_tick w)) (dump (w_redis w)) (dedup_key_for account message) = None /\
        dump (w_redis w') = <[dedup_key_for account message :=
          (u "1", clock (w_tick w) + ttl * 1000000)]> (dump (w_redis w))
    | DD_DUPLICATE =>
        is_Some (live (clock (w_tick w)) (dump (w_redis w)) (dedup_key_for account message)) /\
        dump (w_redis w') = dump (w_redis w)
    | DD_UNAVAILABLE => True
    end.
Proof.
  intros Ha Hm. unfold dedup_claim. rewrite Ha, Hm. cbn [negb orb].
  destruct (redis_try_run (CSet (dedup_key_for account message) (u "1") ttl true) w)
    as (o & w' & Hrun & Hdb & Ht & Ho).
  erewrite bind_ok_run; [|exact Hrun]. do 2 eexists. split; [reflexivity|].
  split; [done|]. split; [done|].
  destruct o as [r|]; [|done]. cbn [redis_spec andb] in Ho.
  case_bool_decide as Hl; injection Ho as -> Hd; cbn [reply_truthy].
  - done.
  - split; [|done]. by apply eq_None_not_Some.
Qed.
End lemmas.

(** The part before the first separator determines an identity. *)
Lemma separated_inj (a a' m m' : str) :
  31 ∉ a -> 31 ∉ a' -> a ++ 31 :: m = a' ++ 31 :: m' -> a = a' /\ m = m'.
Proof.
  revert a'. induction a as [|c a IH]; intros [|c' a'] Ha Ha'; simpl; intros Heq; simplify_eq/=.
  - done.
  - set_solver.
  - set_solver.
  - destruct (IH a') as [-> ->]; [set_solver..|done|done].
Qed.

(** ** Properties *)

Section properties.
Context `{SqlEngine} `{RedisServer} `{Env}.

(** What the clients of the Redis server do: any acquisition, any release, any
    deduplication, in any order; a pause lets time pass. *)
Inductive coordination_op :=
| OpAcquire (ttl_seconds : Z) (scope : ConversationScope)
| OpRelease (scope : ConversationScope) (owner_token : str)
| OpDedup (ttl_seconds : Z) (channel_account_id message_id : str)
| OpPause.

Definition run_op (op : coordination_op) (w : World) : World :=
  match op with
  | OpAcquire ttl scope => (acquire ttl scope w).2
  | OpRelease scope token => (release scope token w).2
  | OpDedup ttl account message => (dedup_claim ttl account message w).2
  | OpPause => tick w
  end.
Definition run_ops (ops : list coordination_op) (w : World) : World := fold_left (fun w op => run_op op w) ops w.

(** The token is not given away. *)
Definition not_released_with (tok : str) (op : coordination_op) : Prop :=
  match op with OpRelease _ token => token <> tok | _ => True end.

Lemma run_ops_frame scope tok expiry ops w :
  Forall (not_released_with tok) ops -> key_frame (lock_key_for scope) tok expiry w (run_ops ops w).
Proof.
  intros Hops. revert w. induction Hops as [|op ops Hop _ IH]; intros w; [reflexivity|].
  cbn [run_ops fold_left]. etrans; [|apply IH]. destruct op; cbn [run_op].
  - apply keeps_acquire.
  - apply keeps_release. by right.
  - apply keeps_dedup.
  - split; [cbn; lia|]. by intros _.
Qed.

(** C27. Mutual exclusion: from the moment [acquire] returned an acquired
    lease until it expires, whatever acquisitions, deduplications and releases
    with other tokens the other clients run, nobody else acquires the lock of
    the scope, and the owner still holds it: its release deletes the key or
    finds Redis unavailable, and is never refused. *)
Theorem lock_mutual_exclusion ttl ttl' scope w l w1 ops :
  let tok := token_urlsafe (w_tick w) in
  let expiry := clock (S (w_tick w)) + ttl * 1000000 in
  let w2 := run_ops ops w1 in
  token_ok tok -> token_ok (token_urlsafe (w_tick w2)) ->
  acquire ttl scope w = (Ok l, w1) -> ll_status l = LK_ACQUIRED ->
  Forall (not_released_with tok) ops ->
  (forall n, (w_tick w1 <= n < w_tick w2 + 2)%nat -> clock n < expiry) ->
  (forall l' w3, acquire ttl' scope w2 = (Ok l', w3) -> ll_status l' <> LK_ACQUIRED) /\
  (forall st w3, release scope tok w2 = (Ok st, w3) ->
     st = LR_RELEASED /\ dump (w_redis w3) = delete (lock_key_for scope) (dump (w_redis w2)) \/
     st = LR_UNAVAILABLE).
Proof.
  intros tok expiry w2 Htok Htok2 Hacq Hst Hops Hclock.
  destruct (acquire_run ttl scope w Htok) as (l0 & w0 & Hrun & _ & Ht0 & Hc).
  rewrite Hacq in Hrun. injection Hrun as <- <-. rewrite Hst in Hc. destruct Hc as (_ & _ & Hd).
  destruct (run_ops_frame scope tok expiry ops w1 Hops) as [Hticks Hkeep]. fold w2 in Hticks, Hkeep.
  assert (dump (w_redis w2) !! lock_key_for scope = Some (tok, expiry)) as Hheld.
  { apply Hkeep; [intros n Hn; apply Hclock; lia|]. rewrite Hd. by rewrite lookup_insert_eq. }
  assert (forall n, (w_tick w2 <= n < w_tick w2 + 2)%nat ->
    live (clock n) (dump (w_redis w2)) (lock_key_for scope) = Some tok) as Hlive.
  { intros n Hn. unfold live. rewrite Hheld.
    by rewrite (proj2 (Z.ltb_lt _ _)) by (apply Hclock; lia). }
  split.
  - intros l' w3 Hl'. destruct (acquire_run ttl' scope w2 Htok2) as (l2 & w4 & Hrun & _ & _ & Hc).
    rewrite Hl' in Hrun. injection Hrun as <- <-. intros Heq. rewrite Heq in Hc.
    destruct Hc as [Hn _]. by rewrite Hlive in Hn by lia.
  - intros st w3 Hrel. destruct (release_run scope tok w2) as (st' & w4 & Hrun & _ & Hc).
    rewrite Hrel in Hrun. injection Hrun as <- <-. destruct st; [by left; destruct Hc| |by right].
    destruct Hc as [Hne _]. by rewrite Hlive in Hne by lia.
Qed.

(** The operations of the program respect a held lock: any acquisition,
    any deduplication, and any release but the owner's keep it. *)
Theorem coordination_respects_locks scope tok expiry ttl scope' token' account message :
  lock_key_for scope' <> lock_key_for scope \/ token' <> tok ->
  keeps (key_frame (lock_key_for scope) tok expiry) (acquire ttl scope') /\
  keeps (key_frame (lock_key_for scope) tok expiry) (release scope' token') /\
  keeps (key_frame (lock_key_for scope) tok expiry) (dedup_claim ttl account message).
Proof.
  intros Hs. split; [apply keeps_acquire|]. split; [by apply keeps_release|apply keeps_dedup].
Qed.

(** [release] always answers, and releases exactly for the owner: the key
    is deleted when it holds the given token and untouched otherwise. *)
Theorem release_only_owner scope token w :
  exists st w', release scope token w = (Ok st, w') /\
    match st with
    | LR_RELEASED =>
        live (clock (w_tick w)) (dump (w_redis w)) (lock_key_for scope) = Some token /\
        dump (w_redis w') = delete (lock_key_for scope) (dump (w_redis w))
    | LR_NOT_OWNER =>
        live (clock (w_tick w)) (dump (w_redis w)) (lock_key_for scope) <> Some token /\
        dump (w_redis w') = dump (w_redis w)
    | LR_UNAVAILABLE => True
    end.
Proof. destruct (release_run scope token w) as (st & w' & ? & _ & ?). eauto. Qed.

(** A message is claimed at most once while its key lives: after a first
    [CLAIMED], every claim of the same identity before the TTL has passed is
    a duplicate or finds Redis unavailable. *)
Theorem dedup_claims_once {A} ttl ttl' account message w w1 (others : M A) r w2 st w3 :
  let expiry := clock (w_tick w) + ttl * 1000000 in
  dedup_claim ttl account message w = (Ok DD_CLAIMED, w1) ->
  keeps (key_frame (dedup_key_for account message) (u "1") expiry) others ->
  others w1 = (r, w2) ->
  (forall n, (w_tick w1 <= n <= w_tick w2)%nat -> clock n < expiry) ->
  dedup_claim ttl' account message w2 = (Ok st, w3) -> st <> DD_CLAIMED.
Proof.
  intros expiry Hd1 Hkeep Hoth Hclock Hd2.
  assert (truthy (strip account) = true /\ truthy (strip message) = true) as [Ha Hm].
  { unfold dedup_claim in Hd1. destruct (truthy (strip account)), (truthy (strip message)); done. }
  destruct (dedup_run ttl account message w Ha Hm) as (st1 & w1' & Hrun & _ & Ht & Hc).
  rewrite Hd1 in Hrun. injection Hrun as <- <-. destruct Hc as [_ Hdump].
  specialize (Hkeep w1). rewrite Hoth in Hkeep. destruct Hkeep as [Hticks Hkeep]. cbn in *.
  assert (dump (w_redis w2) !! dedup_key_for account message = Some (u "1", expiry)) as Hheld.
  { apply Hkeep; [intros n Hn; apply Hclock; lia|]. rewrite Hdump. by rewrite lookup_insert_eq. }
  destruct (dedup_run ttl' account message w2 Ha Hm) as (st2 & w3' & Hrun & _ & _ & Hc).
  rewrite Hd2 in Hrun. injection Hrun as <- <-. intros ->. destruct Hc as [Hn _].
  unfold live in Hn. rewrite Hheld in Hn.
  by rewrite (proj2 (Z.ltb_lt _ _)) in Hn by (apply Hclock; lia).
Qed.
End properties.

(** The identity a deduplication key is made of determines account and
    message as long as no account contains the separator 0x1f; an account that
    does is confused with another one. *)
Theorem dedup_identity_exact :
  (forall a a' m m', 31 ∉ a -> 31 ∉ a' ->
     join unit_separator [a; m] = join unit_separator [a'; m'] -> a = a' /\ m = m') /\
  (forall a b m, dedup_key_for (a ++ 31 :: b) m = dedup_key_for a (b ++ 31 :: m)).
Proof.
  split.
  - intros a a' m m' Ha Ha'. by apply separated_inj.
  - intros a b m. unfold dedup_key_for. do 5 f_equal. cbn [join]. unfold unit_separator.
    by rewrite <- app_assoc.
Qed.

(** ** Concrete runs *)

Section concrete.
#[local] Existing Instances map_engine scheduled_server sample_env.

Definition sample_scope : ConversationScope :=
  {| sc_channel := WHATSAPP; sc_channel_account_id := u "phone-1"; sc_conversation_id := u "5491" |}.
Definition locked_world : World := (acquire 30 sample_scope sample_world).2.

(** Another worker, with another token: it fails to acquire, then to release. *)
Definition intruder : list coordination_op :=
  [OpAcquire 30 sample_scope; OpPause; OpRelease sample_scope (u "another-token");
   OpDedup 60 (u "phone-1") (u "wamid.1")].

Example intruder_fails :
  (release sample_scope (u "another-token") (run_ops (take 2 intruder) locked_world)).1 = Ok LR_NOT_OWNER.
Proof. vm_compute. reflexivity. Qed.

Lemma lock_mutual_exclusion_witness :
  let w2 := run_ops intruder locked_world in
  (forall l' w3, acquire 30 sample_scope w2 = (Ok l', w3) -> ll_status l' <> LK_ACQUIRED) /\
  (forall st w3, release sample_scope (token_urlsafe (w_tick sample_world)) w2 = (Ok st, w3) ->
     st = LR_RELEASED /\ dump (w_redis w3) = delete (lock_key_for sample_scope) (dump (w_redis w2)) \/
     st = LR_UNAVAILABLE).
Proof.
  intros w2.
  apply (lock_mutual_exclusion 30 30 sample_scope sample_world
           {| ll_status := LK_ACQUIRED; ll_owner_token := Some (replicate 43 65) |}
           locked_world intruder).
  - split; vm_compute; discriminate.
  - split; vm_compute; discriminate.
  - unfold locked_world. apply (run_fst (acquire 30 sample_scope) sample_world).
    vm_compute. reflexivity.
  - reflexivity.
  - repeat constructor. vm_compute. discriminate.
  - intros n [_ Hn]. assert (w_tick (run_ops intruder locked_world) = 7%nat) as Ht by (vm_compute; reflexivity).
    rewrite Ht in Hn. cbn [clock sample_env w_tick sample_world]. lia.
Defined.

Lemma coordination_respects_locks_witness :
  keeps (key_frame (lock_key_for sample_scope) (u "a") 10) (acquire 30 sample_scope) /\
  keeps (key_frame (lock_key_for sample_scope) (u "a") 10) (release sample_scope (u "b")) /\
  keeps (key_frame (lock_key_for sample_scope) (u "a") 10) (dedup_claim 30 (u "p") (u "m")).
Proof.
  apply (coordination_respects_locks sample_scope (u "a") 10 30 sample_scope (u "b") (u "p") (u "m")).
  right. vm_compute. discriminate.
Defined.

Lemma dedup_claims_once_witness :
  exists st, (dedup_claim 60 (u "p") (u "m") (dedup_claim 60 (u "p") (u "m") sample_world).2).1 = Ok st /\
    st <> DD_CLAIMED.
Proof.
  pose (w1 := (dedup_claim 60 (u "p") (u "m") sample_world).2).
  exists DD_DUPLICATE. split; [vm_compute; reflexivity|].
  apply (dedup_claims_once 60 60 (u "p") (u "m") sample_world w1 (mret tt : M unit) (Ok tt) w1
           DD_DUPLICATE (dedup_claim 60 (u "p") (u "m") w1).2).
  - apply (run_fst (dedup_claim 60 (u "p") (u "m")) sample_world). vm_compute. reflexivity.
  - apply keeps_ret, _.
  - reflexivity.
  - intros n [_ Hn]. assert (w_tick w1 = 1%nat) as Ht by (vm_compute; reflexivity).
    rewrite Ht in Hn. cbn [clock sample_env w_tick sample_world]. lia.
  - apply (run_fst (dedup_claim 60 (u "p") (u "m")) w1). vm_compute. reflexivity.
Defined.
End concrete.
