(* ===== verification/BuenPickModels.v ===== *)
(** * BuenPick API models ([src/piki/integrations/buenpick/models.py])

    The records of the internal API, their validation from decoded JSON (extra
    keys are forbidden), and [format_ars_cents].  The conversions of pydantic to
    [int], [bool], [HttpUrl] and [datetime] are the parameters [LaxInt] and
    [LaxTypes]; a URL is the string the library normalises it to. *)
From S2P Require Import Prelude PyStr Errors Contracts Pydantic.

Local Open Scope Z_scope.

Class LaxTypes := {
  lax_bool : json -> option bool;
  http_url : json -> option str;
  lax_datetime : json -> option datetime;
  lax_bool_bool b : lax_bool (JBool b) = Some b
}.

Record CommerceSummary := { cs_id : str; cs_name : str }.

Record PickSummary := {
  ps_id : str;
  ps_title : str;
  ps_description : str;
  ps_price : Z;
  ps_original_price : Z;
  ps_available_quantity : Z;
  ps_status : str;
  ps_image_url : option str;
  ps_commerce : CommerceSummary
}.

Record PickSearchResponse := { sr_items : list PickSummary; sr_total : Z }.

Record PickupWindow := { pw_starts_at : datetime; pw_ends_at : datetime }.

Record Fulfillment := {
  ff_pickup : bool;
  ff_delivery_enabled : bool;
  ff_delivery_eta_min_minutes : option Z;
  ff_delivery_eta_max_minutes : option Z
}.

Record PickConditions := {
  pc_quantity_available : Z;
  pc_approx_weight_grams : option Z;
  pc_fulfillment : Fulfillment
}.

(** [OpeningHours = dict[str, Any] | list[Any] | str | None]. *)
Definition OpeningHours : Type := option json.

Record PickCommerce := {
  pm_id : str; pm_name : str; pm_description : str; pm_address : str; pm_city : str;
  pm_zone : str; pm_status : str; pm_opening_hours : OpeningHours
}.

Record AvailablePick := {
  ap_id : str;
  ap_title : str;
  ap_description : str;
  ap_price : Z;
  ap_original_price : Z;
  ap_available_quantity : Z;
  ap_status : str;
  ap_image_url : option str;
  ap_images : list str;
  ap_category : str;
  ap_pickup : PickupWindow;
  ap_conditions : PickConditions;
  ap_commerce : PickCommerce;
  ap_public_url : str
}.

Record CommerceDelivery := {
  cd_enabled : bool; cd_fee_cents : option Z; cd_eta_min_minutes : option Z;
  cd_eta_max_minutes : option Z
}.

Record Commerce := {
  cm_id : str; cm_name : str; cm_slug : str; cm_description : str; cm_address : str;
  cm_city : str; cm_zone : str; cm_phone : str; cm_status : str;
  cm_opening_hours : OpeningHours; cm_pickup_instructions : option str;
  cm_delivery : CommerceDelivery; cm_accepts_cash_on_pickup : bool;
  cm_logo_url : option str; cm_cover_url : option str
}.

Record OrderCommerce := {
  oc_id : str; oc_name : str; oc_address : str; oc_opening_hours : OpeningHours }.

Record OrderPick := {
  op_pick_id : str; op_title : str; op_quantity : Z; op_unit_price : Z; op_line_total : Z;
  op_image_url : option str
}.

Record OrderFulfillment := {
  of_type : str; of_delivery_address : option str; of_delivery_notes : option str;
  of_pickup_code : option str
}.

Record OrderPickup := { ou_instructions : option str; ou_store_address : str }.

Record OrderDates := {
  od_created_at : datetime; od_expires_at : option datetime; od_confirmed_at : option datetime;
  od_paid_at : option datetime; od_preparing_at : option datetime; od_ready_at : option datetime;
  od_out_for_delivery_at : option datetime; od_delivered_at : option datetime;
  od_picked_up_at : option datetime
}.

Record CustomerOrder := {
  co_id : str; co_status : str; co_commerce : OrderCommerce; co_picks : list OrderPick;
  co_total : Z; co_fulfillment : OrderFulfillment; co_pickup : OrderPickup; co_dates : OrderDates
}.

(** ** Validation *)

Section validation.
Context `{LaxInt} `{LaxTypes}.

(** An object with no key outside [keys] ([extra="forbid"]). *)
Definition forbid_extra {A} (keys : list str) (parse : list (str * json) -> option A) : json -> option A :=
  as_obj (fun o =>
    if forallb (fun kv => bool_decide (kv.1 ∈ keys)) o then parse o else None).

Definition int_from (lo : Z) (j : json) : option Z :=
  n ← lax_int j; if lo <=? n then Some n else None.
Definition ge0 : json -> option Z := int_from 0.

(** A required field that may be null. *)
Definition nullable {A} (parse : json -> option A) (j : json) : option (option A) :=
  match j with JNull => Some None | _ => Some <$> parse j end.

Definition opening_hours (o : list (str * json)) : option OpeningHours :=
  match obj_get (u "opening_hours") o with
  | None | Some JNull => Some None
  | Some (JObj _ as j) | Some (JArr _ as j) | Some (JStr _ as j) => Some (Some j)
  | Some _ => None
  end.

Definition parse_commerce_summary : json -> option CommerceSummary :=
  forbid_extra [u "id"; u "name"] (fun o =>
    i ← field as_str (u "id") o; n ← field as_str (u "name") o;
    Some {| cs_id := i; cs_name := n |}).

Definition parse_pick_summary : json -> option PickSummary :=
  forbid_extra [u "id"; u "title"; u "description"; u "price"; u "original_price";
                u "available_quantity"; u "status"; u "image_url"; u "commerce"] (fun o =>
    i ← field as_str (u "id") o;
    t ← field as_str (u "title") o;
    d ← field as_str (u "description") o;
    p ← field ge0 (u "price") o;
    op ← field ge0 (u "original_price") o;
    q ← field ge0 (u "available_quantity") o;
    s ← field (literal [u "AVAILABLE"]) (u "status") o;
    im ← field (nullable http_url) (u "image_url") o;
    c ← field parse_commerce_summary (u "commerce") o;
    Some {| ps_id := i; ps_title := t; ps_description := d; ps_price := p;
            ps_original_price := op; ps_available_quantity := q; ps_status := s;
            ps_image_url := im; ps_commerce := c |}).

Definition parse_search : json -> option PickSearchResponse :=
  forbid_extra [u "items"; u "total"] (fun o =>
    l ← field (as_tuple parse_pick_summary) (u "items") o;
    t ← field ge0 (u "total") o;
    Some {| sr_items := l; sr_total := t |}).

Definition parse_pickup_window : json -> option PickupWindow :=
  forbid_extra [u "starts_at"; u "ends_at"] (fun o =>
    s ← field lax_datetime (u "starts_at") o; e ← field lax_datetime (u "ends_at") o;
    Some {| pw_starts_at := s; pw_ends_at := e |}).

Definition parse_fulfillment : json -> option Fulfillment :=
  forbid_extra [u "pickup"; u "delivery_enabled"; u "delivery_eta_min_minutes";
                u "delivery_eta_max_minutes"] (fun o =>
    p ← field lax_bool (u "pickup") o;
    d ← field lax_bool (u "delivery_enabled") o;
    a ← opt_field ge0 (u "delivery_eta_min_minutes") o;
    b ← opt_field ge0 (u "delivery_eta_max_minutes") o;
    Some {| ff_pickup := p; ff_delivery_enabled := d; ff_delivery_eta_min_minutes := a;
            ff_delivery_eta_max_minutes := b |}).

Definition parse_conditions : json -> option PickConditions :=
  forbid_extra [u "quantity_available"; u "approx_weight_grams"; u "fulfillment"] (fun o =>
    q ← field ge0 (u "quantity_available") o;
    w ← opt_field ge0 (u "approx_weight_grams") o;
    f ← field parse_fulfillment (u "fulfillment") o;
    Some {| pc_quantity_available := q; pc_approx_weight_grams := w; pc_fulfillment := f |}).

Definition parse_pick_commerce : json -> option PickCommerce :=
  forbid_extra [u "id"; u "name"; u "description"; u "address"; u "city"; u "zone"; u "status";
                u "opening_hours"] (fun o =>
    i ← field as_str (u "id") o;
    n ← field as_str (u "name") o;
    d ← field as_str (u "description") o;
    a ← field as_str (u "address") o;
    c ← field as_str (u "city") o;
    z ← field as_str (u "zone") o;
    s ← field (literal [u "active"]) (u "status") o;
    h ← opening_hours o;
    Some {| pm_id := i; pm_name := n; pm_description := d; pm_address := a; pm_city := c;
            pm_zone := z; pm_status := s; pm_opening_hours := h |}).

Definition parse_available_pick : json -> option AvailablePick :=
  forbid_extra [u "id"; u "title"; u "description"; u "price"; u "original_price";
                u "available_quantity"; u "status"; u "image_url"; u "images"; u "category";
                u "pickup"; u "conditions"; u "commerce"; u "public_url"] (fun o =>
    i ← field as_str (u "id") o;
    t ← field as_str (u "title") o;
    d ← field as_str (u "description") o;
    p ← field ge0 (u "price") o;
    op ← field ge0 (u "original_price") o;
    q ← field ge0 (u "available_quantity") o;
    s ← field (literal [u "AVAILABLE"]) (u "status") o;
    im ← field (nullable http_url) (u "image_url") o;
    ims ← field (as_tuple http_url) (u "images") o;
    cat ← field as_str (u "category") o;
    w ← field parse_pickup_window (u "pickup") o;
    cs ← field parse_conditions (u "conditions") o;
    c ← field parse_pick_commerce (u "commerce") o;
    url ← field http_url (u "public_url") o;
    Some {| ap_id := i; ap_title := t; ap_description := d; ap_price := p;
            ap_original_price := op; ap_available_quantity := q; ap_status := s;
            ap_image_url := im; ap_images := ims; ap_category := cat; ap_pickup := w;
            ap_conditions := cs; ap_commerce := c; ap_public_url := url |}).

Definition parse_commerce_delivery : json -> option CommerceDelivery :=
  forbid_extra [u "enabled"; u "fee_cents"; u "eta_min_minutes"; u "eta_max_minutes"] (fun o =>
    e ← field lax_bool (u "enabled") o;
    f ← opt_field ge0 (u "fee_cents") o;
    a ← opt_field ge0 (u "eta_min_minutes") o;
    b ← opt_field ge0 (u "eta_max_minutes") o;
    Some {| cd_enabled := e; cd_fee_cents := f; cd_eta_min_minutes := a;
            cd_eta_max_minutes := b |}).

Definition parse_commerce : json -> option Commerce :=
  forbid_extra [u "id"; u "name"; u "slug"; u "description"; u "address"; u "city"; u "zone";
                u "phone"; u "status"; u "opening_hours"; u "pickup_instructions"; u "delivery";
                u "accepts_cash_on_pickup"; u "logo_url"; u "cover_url"] (fun o =>
    i ← field as_str (u "id") o;
    n ← field as_str (u "name") o;
    sl ← field as_str (u "slug") o;
    d ← field as_str (u "description") o;
    a ← field as_str (u "address") o;
    c ← field as_str (u "city") o;
    z ← field as_str (u "zone") o;
    ph ← field as_str (u "phone") o;
    s ← field (literal [u "active"]) (u "status") o;
    h ← opening_hours o;
    pi ← field (nullable as_str) (u "pickup_instructions") o;
    dl ← field parse_commerce_delivery (u "delivery") o;
    ac ← field lax_bool (u "accepts_cash_on_pickup") o;
    lo ← field (nullable http_url) (u "logo_url") o;
    cv ← field (nullable http_url) (u "cover_url") o;
    Some {| cm_id := i; cm_name := n; cm_slug := sl; cm_description := d; cm_address := a;
            cm_city := c; cm_zone := z; cm_phone := ph; cm_status := s; cm_opening_hours := h;
            cm_pickup_instructions := pi; cm_delivery := dl; cm_accepts_cash_on_pickup := ac;
            cm_logo_url := lo; cm_cover_url := cv |}).

Definition parse_order_commerce : json -> option OrderCommerce :=
  forbid_extra [u "id"; u "name"; u "address"; u "opening_hours"] (fun o =>
    i ← field as_str (u "id") o; n ← field as_str (u "name") o;
    a ← field as_str (u "address") o; h ← opening_hours o;
    Some {| oc_id := i; oc_name := n; oc_address := a; oc_opening_hours := h |}).

Definition parse_order_pick : json -> option OrderPick :=
  forbid_extra [u "pick_id"; u "title"; u "quantity"; u "unit_price"; u "line_total";
                u "image_url"] (fun o =>
    i ← field as_str (u "pick_id") o;
    t ← field as_str (u "title") o;
    q ← field (int_from 1) (u "quantity") o;
    p ← field ge0 (u "unit_price") o;
    l ← field ge0 (u "line_total") o;
    im ← field (nullable http_url) (u "image_url") o;
    Some {| op_pick_id := i; op_title := t; op_quantity := q; op_unit_price := p;
            op_line_total := l; op_image_url := im |}).

Definition parse_order_fulfillment : json -> option OrderFulfillment :=
  forbid_extra [u "type"; u "delivery_address"; u "delivery_notes"; u "pickup_code"] (fun o =>
    t ← field (literal [u "pickup"; u "delivery"]) (u "type") o;
    a ← field (nullable as_str) (u "delivery_address") o;
    n ← field (nullable as_str) (u "delivery_notes") o;
    c ← field (nullable as_str) (u "pickup_code") o;
    Some {| of_type := t; of_delivery_address := a; of_delivery_notes := n;
            of_pickup_code := c |}).

Definition parse_order_pickup : json -> option OrderPickup :=
  forbid_extra [u "instructions"; u "store_address"] (fun o =>
    i ← field (nullable as_str) (u "instructions") o;
    a ← field as_str (u "store_address") o;
    Some {| ou_instructions := i; ou_store_address := a |}).

Definition parse_order_dates : json -> option OrderDates :=
  forbid_extra [u "created_at"; u "expires_at"; u "confirmed_at"; u "paid_at"; u "preparing_at";
                u "ready_at"; u "out_for_delivery_at"; u "delivered_at"; u "picked_up_at"] (fun o =>
    c ← field lax_datetime (u "created_at") o;
    e ← field (nullable lax_datetime) (u "expires_at") o;
    cf ← field (nullable lax_datetime) (u "confirmed_at") o;
    p ← field (nullable lax_datetime) (u "paid_at") o;
    pr ← field (nullable lax_datetime) (u "preparing_at") o;
    r ← field (nullable lax_datetime) (u "ready_at") o;
    od ← field (nullable lax_datetime) (u "out_for_delivery_at") o;
    d ← field (nullable lax_datetime) (u "delivered_at") o;
    pu ← field (nullable lax_datetime) (u "picked_up_at") o;
    Some {| od_created_at := c; od_expires_at := e; od_confirmed_at := cf; od_paid_at := p;
            od_preparing_at := pr; od_ready_at := r; od_out_for_delivery_at := od;
            od_delivered_at := d; od_picked_up_at := pu |}).

Definition parse_order : json -> option CustomerOrder :=
  forbid_extra [u "id"; u "status"; u "commerce"; u "picks"; u "total"; u "fulfillment";
                u "pickup"; u "dates"] (fun o =>
    i ← field as_str (u "id") o;
    s ← field as_str (u "status") o;
    c ← field parse_order_commerce (u "commerce") o;
    ps ← field (as_tuple parse_order_pick) (u "picks") o;
    t ← field ge0 (u "total") o;
    f ← field parse_order_fulfillment (u "fulfillment") o;
    p ← field parse_order_pickup (u "pickup") o;
    d ← field parse_order_dates (u "dates") o;
    Some {| co_id := i; co_status := s; co_commerce := c; co_picks := ps; co_total := t;
            co_fulfillment := f; co_pickup := p; co_dates := d |}).
End validation.

(** ** [format_ars_cents] *)

(** [Decimal(cents) / Decimal(100)] keeps 28 significant digits, rounding half
    to even; this is the quotient, in hundredths. *)
Definition decimal_precision : Z := 28.
Definition round_half_even (n scale : Z) : Z :=
  let q := n / scale in
  let r := n mod scale in
  if 2 * r <? scale then q * scale
  else if scale <? 2 * r then (q + 1) * scale
  else if Z.even q then q * scale else (q + 1) * scale.
Definition decimal_hundredths (cents : Z) : Z :=
  let extra := py_len (digits cents) - decimal_precision in
  if extra <=? 0 then cents else round_half_even cents (10 ^ extra).

(** The digits of a number in groups of three from the right. *)
Fixpoint group3 (reversed : str) (sep : str) : str :=
  match reversed with
  | a :: b :: c :: ((_ :: _) as rest) => group3 rest sep ++ sep ++ [c; b; a]
  | _ => rev reversed
  end.

Definition two_digits (n : Z) : str := [48 + n / 10; 48 + n mod 10].

Definition format_ars_cents (cents : Z) : res str :=
  if cents <? 0 then Raise (ValueError (u "ARS cents cannot be negative"))
  else
    let amount := decimal_hundredths cents in
    let localized_whole := group3 (rev (digits (amount / 100))) (u ".") in
    Ok (u "$" ++ localized_whole ++ u "," ++ two_digits (amount mod 100)).

(** Reading an amount back: the digits, without the sign and the separators. *)
Definition read_ars (s : str) : option Z :=
  match s with
  | 36 :: rest => Some (digits_val (filter (fun c => is_digit c = true) rest))
  | _ => None
  end.

Example format_examples :
  map format_ars_cents [0; 5; 123456; 100000000; -1] =
  [Ok (u "$0,00"); Ok (u "$0,05"); Ok (u "$1.234,56"); Ok (u "$1.000.000,00");
   Raise (ValueError (u "ARS cents cannot be negative"))].
Proof. vm_compute. reflexivity. Qed.

(** *** Lemmas *)

Lemma group3_filter s sep :
  Forall (fun c => is_digit c = true) s -> Forall (fun c => is_digit c = false) sep ->
  filter (fun c => is_digit c = true) (group3 s sep) = rev s.
Proof.
  intros Hs Hsep.
  assert (forall l, Forall (fun c => is_digit c = true) l -> filter (fun c => is_digit c = true) l = l)
    as Hkeep.
  { induction 1 as [|x l Hx _ IH]; [done|]. by rewrite filter_cons_True, IH. }
  assert (filter (fun c => is_digit c = true) sep = []) as Hdrop.
  { clear -Hsep. induction Hsep as [|x l Hx _ IH]; [done|].
    rewrite filter_cons_False; [done|]. congruence. }
  remember (length s) as n eqn:Hn. assert (length s <= n)%nat as Hle by lia. clear Hn.
  revert s Hs Hle. induction n as [|n IH]; intros s Hs Hle;
    destruct s as [|a [|b [|c [|d rest]]]]; cbn [length] in Hle; try lia;
    try (cbn [group3]; apply Hkeep; by apply Forall_rev).
  change (group3 (a :: b :: c :: d :: rest) sep) with
    (group3 (d :: rest) sep ++ sep ++ [c; b; a]).
  rewrite !Forall_cons in Hs. destruct Hs as (Ha & Hb & Hc & Hrest).
  rewrite !filter_app, Hdrop, IH; [|by apply Forall_cons|cbn [length]; lia].
  rewrite (Hkeep [c; b; a]) by (repeat constructor; done). cbn [rev app]. by rewrite <- !app_assoc.
Qed.

Lemma digits_val_app s t : digits_val (s ++ t) = digits_val s * 10 ^ Z.of_nat (length t) + digits_val t.
Proof.
  unfold digits_val at 1. rewrite fold_left_app. apply digits_val_snoc_aux.
Qed.

Lemma two_digits_value n : 0 <= n < 100 -> digits_val (two_digits n) = n /\
  Forall (fun c => is_digit c = true) (two_digits n).
Proof.
  intros Hn. pose proof (Z.div_mod n 10). pose proof (Z.mod_pos_bound n 10).
  assert (0 <= n / 10 < 10) by (split; [apply Z.div_pos; lia|apply Z.div_lt_upper_bound; lia]).
  unfold two_digits, digits_val, is_digit. cbn. split; [lia|].
  repeat constructor; apply andb_true_iff; rewrite !Z.leb_le; lia.
Qed.

Lemma digits_aux_length fuel n acc k :
  0 <= n < 10 ^ Z.of_nat k -> (1 <= k)%nat ->
  (length (digits_aux fuel n acc) <= k + length acc)%nat.
Proof.
  revert n acc k. induction fuel as [|fuel IH]; intros n acc k Hn Hk; cbn [digits_aux]; [lia|].
  destruct (n <? 10) eqn:Hlt; bools; [cbn; lia|].
  destruct k as [|[|k]]; [lia|cbn in Hn; lia|].
  etrans; [apply (IH _ _ (S k))|cbn [length]; lia]; [|lia].
  rewrite (Nat2Z.inj_succ (S k)), Z.pow_succ_r in Hn by lia.
  split; [apply Z.div_pos; lia|apply Z.div_lt_upper_bound; lia].
Qed.

Lemma decimal_exact cents : 0 <= cents < 10 ^ 28 -> decimal_hundredths cents = cents.
Proof.
  intros Hc. unfold decimal_hundredths, decimal_precision, digits.
  pose proof (digits_aux_length (S (Z.to_nat (Z.log2 cents))) cents [] 28 Hc ltac:(lia)) as Hl.
  unfold py_len. cbn [length] in Hl. rewrite (proj2 (Z.leb_le _ _)) by lia. done.
Qed.

(** C40. Prices survive formatting: below 10^28 cents, the precision of the
    decimal context, [format_ars_cents] gives a text of the form $whole,cc from
    which the amount is read back exactly; a negative amount, and only that, is
    a [ValueError]. *)
Theorem format_ars_cents_roundtrip cents :
  (cents < 0 -> exists msg, format_ars_cents cents = Raise (ValueError msg)) /\
  (0 <= cents < 10 ^ 28 -> exists whole,
     format_ars_cents cents = Ok (u "$" ++ whole ++ u "," ++ two_digits (cents mod 100)) /\
     filter (fun c => is_digit c = true) whole = digits (cents / 100) /\
     read_ars (u "$" ++ whole ++ u "," ++ two_digits (cents mod 100)) = Some cents).
Proof.
  unfold format_ars_cents. split.
  - intros Hneg. rewrite (proj2 (Z.ltb_lt _ _)) by lia. eauto.
  - intros Hc. rewrite (proj2 (Z.ltb_ge _ _)) by lia. rewrite decimal_exact by done.
    set (whole := group3 (rev (digits (cents / 100))) (u ".")).
    assert (0 <= cents / 100) as Hw by (apply Z.div_pos; lia).
    assert (filter (fun c => is_digit c = true) whole = digits (cents / 100)) as Hf.
    { unfold whole. rewrite group3_filter; [by rewrite rev_involutive| |by repeat constructor].
      apply Forall_rev. by apply digits_all. }
    exists whole. split; [done|]. split; [done|].
    assert (0 <= cents mod 100 < 100) as Hm by (apply Z.mod_pos_bound; lia).
    destruct (two_digits_value _ Hm) as [Hv Hd].
    change (u "$" ++ whole ++ u "," ++ two_digits (cents mod 100)) with
      (36 :: (whole ++ 44 :: two_digits (cents mod 100))).
    cbn [read_ars]. f_equal. rewrite filter_app, Hf, filter_cons_False by done.
    assert (filter (fun c => is_digit c = true) (two_digits (cents mod 100)) =
      two_digits (cents mod 100)) as ->.
    { unfold two_digits in *. rewrite !Forall_cons in Hd. destruct Hd as (H1 & H2 & _).
      by rewrite !filter_cons_True. }
    rewrite digits_val_app, digits_value, Hv by done. cbn [length two_digits].
    change (10 ^ Z.of_nat 2) with 100. pose proof (Z.div_mod cents 100). lia.
Qed.

Lemma format_ars_cents_roundtrip_witness :
  (exists msg, format_ars_cents (-1) = Raise (ValueError msg)) /\
  (exists whole, format_ars_cents 123456 = Ok (u "$" ++ whole ++ u "," ++ two_digits (123456 mod 100)) /\
     read_ars (u "$" ++ whole ++ u "," ++ two_digits (123456 mod 100)) = Some 123456).
Proof.
  split; [apply (format_ars_cents_roundtrip (-1)); lia|].
  destruct (format_ars_cents_roundtrip 123456) as [_ Hf].
  destruct (Hf ltac:(lia)) as (whole & H1 & _ & H2). exists whole. split; [exact H1|exact H2].
Defined.
