(* ===== verification/BuenPick.v ===== *)
(** * The BuenPick client ([src/piki/integrations/buenpick/client.py])

    [BuenPickClient]: the bounded request loop, the endpoints with their paths
    and parameters, and [urllib.parse.quote].  The host of the base URL, which
    [urlparse] extracts, is an argument of the constructor. *)
From S2P Require Import Prelude PyStr Errors Sha256 Contracts Pydantic BuenPickModels.
From S2P Require Import Events Sql Redis Models World Session Sample.

Local Open Scope Z_scope.

Definition production_host : str := u "api.buenpick.com.ar".

(** The options a constructed client keeps. *)
Record ClientOptions := { bo_max_attempts : Z }.

Definition new_client (host : option str) (token : str) (max_attempts : Z)
    (allow_production : bool) : res ClientOptions :=
  if bool_decide (host = Some production_host) && negb allow_production
  then Raise (BuenPickConfigurationError (u "production BuenPick access is disabled"))
  else if negb (truthy (strip token))
  then Raise (BuenPickConfigurationError (u "BuenPick token is required"))
  else if max_attempts <? 1
  then Raise (BuenPickConfigurationError (u "max_attempts must be at least one"))
  else Ok {| bo_max_attempts := max_attempts |}.

(** ** [urllib.parse.quote(s, safe='')] *)

Definition is_unreserved (c : Z) : bool :=
  ((48 <=? c) && (c <=? 57)) || ((65 <=? c) && (c <=? 90)) || ((97 <=? c) && (c <=? 122)) ||
  bool_decide (c ∈ [95; 46; 45; 126]).

Definition upper_hex (n : Z) : Z := if n <? 10 then 48 + n else 55 + n.

Definition quote_byte (b : Z) : str :=
  if is_unreserved b then [b] else [37; upper_hex (b / 16); upper_hex (b mod 16)].

Definition quote (s : str) : str := encode s ≫= quote_byte.

(** ** Errors *)

Definition timeout_error : exn :=
  BuenPickClientError TE_TIMEOUT (u "No pude confirmar la informacion con BuenPick a tiempo.") None.
Definition unavailable_error : exn :=
  BuenPickClientError TE_UPSTREAM_UNAVAILABLE (u "BuenPick no esta disponible en este momento.") None.
Definition invalid_error : exn :=
  BuenPickClientError TE_INTERNAL_ERROR (u "BuenPick devolvio una respuesta que no pude validar.") None.

Definition _map_http_error (status_code : Z) : exn :=
  if status_code =? 400 then
    BuenPickClientError TE_BAD_REQUEST (u "La consulta enviada a BuenPick no es valida.")
      (Some status_code)
  else if status_code =? 401 then
    BuenPickClientError TE_UNAUTHORIZED
      (u "No pude validar el acceso o la pertenencia del recurso.") (Some status_code)
  else if status_code =? 404 then
    BuenPickClientError TE_NOT_FOUND (u "No pude confirmar que el recurso siga disponible.")
      (Some status_code)
  else if status_code =? 429 then
    BuenPickClientError TE_RATE_LIMITED
      (u "BuenPick esta recibiendo muchas consultas. Intenta nuevamente en breve.")
      (Some status_code)
  else
    BuenPickClientError TE_UPSTREAM_UNAVAILABLE
      (u "BuenPick no esta disponible en este momento.") (Some status_code).

Definition retryable (status : Z) : bool := bool_decide (status ∈ [429; 500; 503]).

Section client.
Context `{LaxInt} `{LaxTypes} `{SqlEngine} `{RedisServer} `{Env}.
Variable options : ClientOptions.

Section request.
Context {A : Type} (request : HttpRequest) (model_validate : json -> option A).

(** [for attempt in range(1, max_attempts + 1)], with the iterations left. *)
Fixpoint attempts (left : nat) (attempt : Z) : M A :=
  match left with
  | O => raise (AssertionError (u "request loop exhausted unexpectedly"))
  | S left' =>
      let retry :=
        sleep (100000 * 2 ^ (attempt - 1));; attempts left' (attempt + 1) in
      response ← http request;
      match response with
      | HTimeout => if attempt <? bo_max_attempts options then retry else raise timeout_error
      | HRequestError => raise unavailable_error
      | HResponse status body =>
          if retryable status && (attempt <? bo_max_attempts options) then retry
          else if is_error status then raise (_map_http_error status)
          else match body ≫= model_validate with
               | Some a => mret a
               | None => raise invalid_error
               end
      end
  end.
End request.

Definition api_request (path : str) (params : list (str * str)) : HttpRequest :=
  {| hq_service := SVC_BUENPICK; hq_path := path; hq_params := params; hq_body := None |}.

Definition _request {A} (path : str) (model_validate : json -> option A)
    (params : list (str * str)) : M A :=
  attempts (api_request path params) model_validate (Z.to_nat (bo_max_attempts options)) 1.

(** [x and x.strip()]. *)
Definition given (o : option str) : bool :=
  truthy_opt o && truthy_opt (strip <$> o).

Definition search_params (query commerce_id : option str) : list (str * str) :=
  (if given query then [(u "q", strip (default [] query))] else []) ++
  (if given commerce_id then [(u "commerce_id", strip (default [] commerce_id))] else []).

Definition search_available_picks (query commerce_id : option str) : M PickSearchResponse :=
  _request (u "picks/search") parse_search (search_params query commerce_id).

Definition get_available_pick (pick_id : str) : M AvailablePick :=
  _request (u "picks/" ++ quote pick_id) parse_available_pick [].

Definition get_commerce (commerce_id : str) : M Commerce :=
  _request (u "commerces/" ++ quote commerce_id) parse_commerce [].

(** [{"customer_phone": ...} if customer_phone else {"customer_reference": ...}];
    [cast(str, None).strip()] cannot happen, since one of the two was given. *)
Definition ownership_params (customer_phone customer_reference : option str)
    : list (str * str) :=
  if truthy_opt customer_phone
  then [(u "customer_phone", strip (default [] customer_phone))]
  else [(u "customer_reference", strip (default [] customer_reference))].

Definition get_customer_order (order_id : str) (customer_phone customer_reference : option str)
    : M CustomerOrder :=
  if eqb (given customer_phone) (given customer_reference)
  then raise (BuenPickClientError TE_BAD_REQUEST
                (u "La orden requiere una unica prueba de pertenencia.") None)
  else _request (u "orders/" ++ quote order_id) parse_order
         (ownership_params customer_phone customer_reference).

Definition create_checkout_session : M unit :=
  raise (CheckoutDisabledError
    (u "Piki checkout is disabled; use the confirmed pick public_url instead")).
End client.

(** ** Lemmas *)

Definition is_http (i : io) : bool := match i with IoHttp _ => true | IoSleep _ => false end.
Definition http_count (l : list io) : nat := length (filter (fun i => is_http i = true) l).

(** The sleeps of the first [n] retries from attempt [k], latest first. *)
Fixpoint backoff (n : nat) (k : Z) (request : HttpRequest) : list io :=
  match n with
  | O => [IoHttp request]
  | S n' => backoff n' (k + 1) request ++ [IoSleep (100000 * 2 ^ (k - 1)); IoHttp request]
  end.

(** What the loop does when a response is the last one it takes. *)
Definition outcome {A} (model_validate : json -> option A) (response : HttpOutcome) : res A :=
  match response with
  | HTimeout => Raise timeout_error
  | HRequestError => Raise unavailable_error
  | HResponse status body =>
      if is_error status then Raise (_map_http_error status)
      else match body ≫= model_validate with Some a => Ok a | None => Raise invalid_error end
  end.

(** The responses that are asked again. *)
Definition again (response : HttpOutcome) : bool :=
  match response with
  | HTimeout => true
  | HRequestError => false
  | HResponse status _ => retryable status
  end.

(** The errors of the client: a message for the person, of bounded length. *)
Definition client_exn (e : exn) : Prop :=
  exists c m s, e = BuenPickClientError c m s /\ truthy m = true /\ py_len m <= 500.

Ltac client_error := do 3 eexists; split; [reflexivity|split; by vm_compute].

Lemma map_http_error_client status : client_exn (_map_http_error status).
Proof. unfold _map_http_error. repeat case_match; client_error. Qed.

Lemma outcome_client {A} (validate : json -> option A) response e :
  outcome validate response = Raise e -> client_exn e.
Proof.
  unfold outcome. destruct response as [status body| |].
  - destruct (is_error status); [intros [= <-]; apply map_http_error_client|].
    destruct (body ≫= validate); [done|]. intros [= <-]. client_error.
  - intros [= <-]. client_error.
  - intros [= <-]. client_error.
Qed.

Lemma backoff_head n k q : backoff n k q = IoHttp q :: tl (backoff n k q).
Proof.
  revert k. induction n as [|n IH]; intros k; [done|]. cbn [backoff]. by rewrite (IH (k + 1)).
Qed.

Section client_lemmas.
Context `{SqlEngine} `{RedisServer} `{Env} {A : Type}.
Variables (options : ClientOptions) (request : HttpRequest) (model_validate : json -> option A).

(** What the server answers to request number [n] (from 0) of a series that
    started at attempt [k] after the traffic [log]. *)
Definition response_to (log : list io) (k : Z) (n : nat) : HttpOutcome :=
  transport (tl (backoff n k request) ++ log) request.

Lemma response_shift log k n :
  response_to log k (S n) =
  response_to (IoSleep (100000 * 2 ^ (k - 1)) :: IoHttp request :: log) (k + 1) n.
Proof.
  unfold response_to. cbn [backoff]. rewrite (backoff_head n (k + 1) request).
  cbn [tl app]. by rewrite <- app_assoc.
Qed.

(** The requests of a run are one series of attempts with exponential
    back-off, its result is what the last response means, and the loop ends
    inside its body. *)
Lemma client_attempts_run left attempt w :
  Z.of_nat left = bo_max_attempts options - attempt + 1 -> (1 <= left)%nat ->
  let run := attempts options request model_validate left attempt w in
  exists n, (n < left)%nat /\
    w_io run.2 = backoff n attempt request ++ w_io w /\
    w_db run.2 = w_db w /\ dump (w_redis run.2) = dump (w_redis w) /\
    run.1 = outcome model_validate (response_to (w_io w) attempt n) /\
    (forall i, (i < n)%nat -> again (response_to (w_io w) attempt i) = true) /\
    (again (response_to (w_io w) attempt n) = true -> S n = left).
Proof.
  revert attempt w. induction left as [|left IH]; intros attempt w Hleft Hpos; [lia|].
  cbv zeta. cbn [attempts]. rewrite bind_run. unfold http. cbv beta iota zeta.
  set (w1 := tick (log_io (IoHttp request) w)).
  assert (response_to (w_io w) attempt 0 = transport (w_io w) request) as H0 by done.
  set (retry := (sleep (100000 * 2 ^ (attempt - 1));;
    attempts options request model_validate left (attempt + 1)) w1).
  assert (attempt < bo_max_attempts options -> again (transport (w_io w) request) = true ->
    exists n, (n < S left)%nat /\
      w_io retry.2 = backoff n attempt request ++ w_io w /\
      w_db retry.2 = w_db w /\ dump (w_redis retry.2) = dump (w_redis w) /\
      retry.1 = outcome model_validate (response_to (w_io w) attempt n) /\
      (forall i, (i < n)%nat -> again (response_to (w_io w) attempt i) = true) /\
      (again (response_to (w_io w) attempt n) = true -> S n = S left)) as Hretry.
  { intros Hlt Hag. unfold retry. rewrite bind_run. unfold sleep. cbv beta iota zeta.
    destruct (IH (attempt + 1) (tick (log_io (IoSleep (100000 * 2 ^ (attempt - 1))) w1)))
      as (n & Hn & Hio & Hdb & Hrd & Hr & Hall & Hlast); [lia..|]. exists (S n).
    rewrite response_shift. split_and!; [lia| |exact Hdb|exact Hrd|exact Hr| |intros Hl; f_equal; auto].
    - rewrite Hio. cbn. by rewrite <- app_assoc.
    - intros [|i] Hi; [by rewrite H0|]. rewrite response_shift. apply Hall. lia. }
  assert (forall r : res A, r = outcome model_validate (transport (w_io w) request) ->
    (again (transport (w_io w) request) = true -> S 0 = S left) ->
    exists n, (n < S left)%nat /\
      w_io (r, w1).2 = backoff n attempt request ++ w_io w /\
      w_db (r, w1).2 = w_db w /\ dump (w_redis (r, w1).2) = dump (w_redis w) /\
      (r, w1).1 = outcome model_validate (response_to (w_io w) attempt n) /\
      (forall i, (i < n)%nat -> again (response_to (w_io w) attempt i) = true) /\
      (again (response_to (w_io w) attempt n) = true -> S n = S left)) as Hone.
  { intros r Hr Hl. exists 0%nat. rewrite H0.
    split_and!; first [done|lia|intros; lia]. }
  subst retry.
  destruct (transport (w_io w) request) as [status body| |]; cbn [again outcome] in *.
  - destruct (retryable status && _) eqn:Hre; bools; [by apply Hretry|].
    assert (retryable status = true -> 1%nat = S left) as Hend.
    { intros Hs. rewrite Hs in Hre. apply Z.ltb_ge in Hre. lia. }
    destruct (is_error status); [by apply Hone|].
    by destruct (body ≫= model_validate); apply Hone.
  - destruct (attempt <? bo_max_attempts options) eqn:Hlt; bools; [by apply Hretry|].
    apply Hone; [done|]. lia.
  - by apply Hone.
Qed.
End client_lemmas.

Section request_lemmas.
Context `{SqlEngine} `{RedisServer} `{Env}.

Lemma request_raises {A} options path (validate : json -> option A) params w e :
  1 <= bo_max_attempts options -> (_request options path validate params w).1 = Raise e -> client_exn e.
Proof.
  intros Hm. unfold _request.
  destruct (client_attempts_run options (api_request path params) validate
              (Z.to_nat (bo_max_attempts options)) 1 w) as (k & _ & _ & _ & _ & -> & _); [lia..|].
  apply outcome_client.
Qed.

Lemma new_client_attempts host token n allow options :
  new_client host token n allow = Ok options ->
  bo_max_attempts options = n /\ 1 <= n /\ (host = Some production_host -> allow = true) /\
  truthy (strip token) = true.
Proof.
  unfold new_client. destruct (bool_decide _ && _) eqn:Hh; [done|].
  destruct (truthy (strip token)); [|done]. cbn [negb].
  destruct (n <? 1) eqn:Hn; bools; [done|]. intros [= <-]. split_and!; try done.
  intros Hp. apply andb_false_iff in Hh as [Hh|Hh]; bools; [done|done].
Qed.

Lemma http_count_backoff n k q : http_count (backoff n k q) = S n.
Proof.
  revert k. induction n as [|n IH]; intros k; [done|]. cbn [backoff].
  unfold http_count in *. rewrite filter_app, length_app, IH.
  change (length (filter _ [IoSleep _; IoHttp q])) with 1%nat. lia.
Qed.
End request_lemmas.

(** *** Quoting *)

Lemma utf8_bytes c : 0 <= c < 1114112 -> Forall (fun b => 0 <= b < 256) (utf8_encode_char c).
Proof.
  intros Hc. unfold utf8_encode_char.
  assert (forall x, 0 <= Z.lor 128 (Z.land x 63) < 256) as Htail.
  { intros x. assert (0 <= Z.land x 63 < 64) as Hx.
    { change 63 with (Z.ones 6). rewrite Z.land_ones by lia. apply Z.mod_pos_bound. lia. }
    split; [apply Z.lor_nonneg; lia|].
    apply Z.log2_lt_cancel. rewrite Z.log2_lor by lia. change (Z.log2 256) with 8.
    change (Z.log2 128) with 7. apply Z.max_lub_lt; [lia|].
    destruct (decide (Z.land x 63 = 0)) as [->|]; [done|]. apply Z.log2_lt_pow2; lia. }
  assert (forall h n, 0 <= h < 256 -> 0 <= n < 256 -> 0 <= Z.lor h n < 256) as Hlor.
  { intros h n Hh Hn. split; [apply Z.lor_nonneg; lia|].
    apply Z.log2_lt_cancel. rewrite Z.log2_lor by lia. change (Z.log2 256) with 8.
    apply Z.max_lub_lt; (destruct (decide (h = 0)) as [->|], (decide (n = 0)) as [->|];
      try done; apply Z.log2_lt_pow2; lia). }
  assert (forall k h, 0 <= k -> 0 <= h < 256 -> c < 256 * 2 ^ k -> 0 <= Z.lor h (Z.shiftr c k) < 256)
    as Hhead.
  { intros k h Hk Hh Hlt. apply Hlor; [done|]. rewrite Z.shiftr_div_pow2 by done.
    assert (0 < 2 ^ k) by (apply Z.pow_pos_nonneg; lia).
    split; [apply Z.div_pos; lia|]. apply Z.div_lt_upper_bound; lia. }
  repeat case_match; bools; rewrite !Forall_cons, Forall_nil;
    split_and!; try apply Htail; try (apply Hhead; lia); try done; lia.
Qed.

Lemma quote_byte_safe b : 0 <= b < 256 ->
  Forall (fun c => is_unreserved c = true \/ c = 37) (quote_byte b).
Proof.
  intros Hb. unfold quote_byte. destruct (is_unreserved b) eqn:Hu;
    [rewrite Forall_cons, Forall_nil; split; [by left|done]|].
  assert (forall n, 0 <= n < 16 -> is_unreserved (upper_hex n) = true) as Hhex.
  { intros n Hn. unfold is_unreserved, upper_hex. destruct (n <? 10) eqn:Hlt; bools.
    - rewrite (proj2 (Z.leb_le 48 (48 + n))), (proj2 (Z.leb_le (48 + n) 57)) by lia. done.
    - rewrite (proj2 (Z.leb_le 65 (55 + n))), (proj2 (Z.leb_le (55 + n) 90)) by lia.
      by rewrite !orb_true_r. }
  rewrite !Forall_cons, Forall_nil. split; [by right|].
  split; [left; apply Hhex; split; [apply Z.div_pos; lia|apply Z.div_lt_upper_bound; lia]|].
  split; [left; apply Hhex; apply Z.mod_pos_bound; lia|done].
Qed.

Definition code_points (s : str) : Prop := Forall (fun c => 0 <= c < 1114112) s.

Lemma quote_safe s : code_points s -> Forall (fun c => is_unreserved c = true \/ c = 37) (quote s).
Proof.
  intros Hs. unfold quote. apply Forall_bind.
  assert (Forall (fun b => 0 <= b < 256) (encode s)) as Henc.
  { unfold encode. apply Forall_bind. eapply Forall_impl; [exact Hs|]. apply utf8_bytes. }
  eapply Forall_impl; [exact Henc|]. apply quote_byte_safe.
Qed.

(** ** Properties *)

Section properties.
Context `{LaxInt} `{LaxTypes} `{SqlEngine} `{RedisServer} `{Env}.

(** A run of an endpoint: [S k] requests, at most [n], all the same, with
    exponential back-off between them; every response before the last one was
    a timeout or a retryable status, and the last one was not unless the [n]
    attempts are used up; the result is what the last response means; the
    database and Redis are untouched. *)
Definition bounded_call {A} (n : Z) (path : str) (params : list (str * str))
    (validate : json -> option A) (w : World) (run : res A * World) : Prop :=
  let request := api_request path params in
  exists k, Z.of_nat (S k) <= n /\
    w_io run.2 = backoff k 1 request ++ w_io w /\ http_count (backoff k 1 request) = S k /\
    (forall i, (i < k)%nat -> again (response_to request (w_io w) 1 i) = true) /\
    (again (response_to request (w_io w) 1 k) = true -> Z.of_nat (S k) = n) /\
    run.1 = outcome validate (response_to request (w_io w) 1 k) /\
    w_db run.2 = w_db w /\ dump (w_redis run.2) = dump (w_redis w).

Lemma bounded_request {A} host token n allow options path (validate : json -> option A) params w :
  new_client host token n allow = Ok options ->
  bounded_call n path params validate w (_request options path validate params w).
Proof.
  intros (Hn & Hpos & _)%new_client_attempts. unfold bounded_call, _request. cbv zeta.
  destruct (client_attempts_run options (api_request path params) validate
              (Z.to_nat (bo_max_attempts options)) 1 w) as (k & Hk & Hio & Hdb & Hrd & Hr & Hall & Hl);
    [lia..|].
  exists k. split_and!; try done; [lia|apply http_count_backoff|]. intros Ha%Hl. lia.
Qed.

(** C38. Every endpoint of a constructed client terminates within [max_attempts]
    requests.  A search, a pick and a commerce make at least one request, an
    order makes at least one exactly when one proof of ownership is given and
    is refused without any otherwise, and the checkout is refused without any.
    The requests of a call are identical, with exponential back-off between
    them; every response but the last was a timeout or a retryable status, and
    the last was not one unless the attempts are used up; what the call answers
    is what its last response means: the value the model validates in its body,
    or the error of its status, of its timeout or of its invalid body.  The
    assertion after the loop is never reached, and neither the database nor
    Redis is touched. *)
Theorem client_calls_bounded host token n allow options query commerce pick_id order_id phone reference w :
  new_client host token n allow = Ok options ->
  bounded_call n (u "picks/search") (search_params query commerce) parse_search w
    (search_available_picks options query commerce w) /\
  bounded_call n (u "picks/" ++ quote pick_id) [] parse_available_pick w
    (get_available_pick options pick_id w) /\
  bounded_call n (u "commerces/" ++ quote pick_id) [] parse_commerce w
    (get_commerce options pick_id w) /\
  (if eqb (given phone) (given reference)
   then get_customer_order options order_id phone reference w =
     (Raise (BuenPickClientError TE_BAD_REQUEST
        (u "La orden requiere una unica prueba de pertenencia.") None), w)
   else bounded_call n (u "orders/" ++ quote order_id) (ownership_params phone reference) parse_order w
     (get_customer_order options order_id phone reference w)) /\
  create_checkout_session w = (Raise (CheckoutDisabledError
    (u "Piki checkout is disabled; use the confirmed pick public_url instead")), w).
Proof.
  intros Hc. split; [|split; [|split; [|split]]]; try by eapply bounded_request.
  - unfold get_customer_order. destruct (eqb (given phone) (given reference)); [done|]. by eapply bounded_request.
  - reflexivity.
Qed.

(** An order is only asked for with exactly one proof of ownership:
    with none or both the call fails before any request; otherwise the single
    parameter sent is the phone when a phone was passed at all, else the
    reference. So a blank phone next to a real reference sends an empty phone
    and drops the reference. *)
Theorem customer_order_ownership options order_id phone reference w :
  (given phone = given reference ->
     (get_customer_order options order_id phone reference w).1 =
       Raise (BuenPickClientError TE_BAD_REQUEST
         (u "La orden requiere una unica prueba de pertenencia.") None) /\
     (get_customer_order options order_id phone reference w).2 = w) /\
  (given phone = true -> given reference = false ->
     get_customer_order options order_id phone reference =
       _request options (u "orders/" ++ quote order_id) parse_order
         [(u "customer_phone", strip (default [] phone))]) /\
  (phone = None \/ phone = Some [] -> given reference = true ->
     get_customer_order options order_id phone reference =
       _request options (u "orders/" ++ quote order_id) parse_order
         [(u "customer_reference", strip (default [] reference))]) /\
  (forall p, phone = Some p -> truthy p = true -> given phone = false -> given reference = true ->
     get_customer_order options order_id phone reference =
       _request options (u "orders/" ++ quote order_id) parse_order [(u "customer_phone", [])]).
Proof.
  unfold get_customer_order, ownership_params. split_and!.
  - intros ->. by destruct (given reference).
  - intros Hp Hr. rewrite Hp, Hr. cbn [eqb]. unfold given in Hp.
    apply andb_true_iff in Hp as [Ht _]. by rewrite Ht.
  - intros [-> | ->] ->; done.
  - intros p -> Hp Hg ->. rewrite Hg. cbn [eqb truthy_opt]. rewrite Hp. do 3 f_equal.
    unfold given in Hg. cbn [truthy_opt fmap option_fmap option_map] in Hg. rewrite Hp in Hg.
    cbn in Hg. by apply truthy_false.
Qed.

(** An identifier quoted into a path contains only unreserved characters
    and percent signs, so it stays one path segment without query or
    fragment. *)
Theorem quoted_path_is_one_segment s :
  code_points s -> forall c, c ∈ [47; 63; 35; 38; 32; 92] -> c ∉ quote s.
Proof.
  intros Hs c Hc Hin. pose proof (quote_safe s Hs) as Hq. rewrite Forall_forall in Hq.
  specialize (Hq c Hin). rewrite !elem_of_cons, elem_of_nil in Hc.
  destruct_or! Hc; subst; destruct Hq as [Hq|Hq]; try done; vm_compute in Hq; discriminate.
Qed.
End properties.

Section concrete.
#[local] Existing Instances map_engine scheduled_server sample_env lax_int_default.

Definition lax_types_default : LaxTypes := {|
  lax_bool j := match j with JBool b => Some b | _ => None end;
  http_url j := match j with JStr s => Some s | _ => None end;
  lax_datetime j := match j with JInt n => Some (utc (n * second)) | _ => None end;
  lax_bool_bool b := eq_refl |}.
#[local] Existing Instance lax_types_default.

Definition sample_client : ClientOptions := {| bo_max_attempts := 3 |}.

Lemma client_calls_bounded_witness :
  (search_available_picks sample_client (Some (u "pan")) None sample_world).1 = Raise timeout_error /\
  bounded_call 3 (u "picks/search") [(u "q", u "pan")] parse_search sample_world
    (search_available_picks sample_client (Some (u "pan")) None sample_world).
Proof.
  split; [vm_compute; reflexivity|].
  exact (proj1 (client_calls_bounded (Some (u "sandbox")) (u "t") 3 false sample_client
                  (Some (u "pan")) None (u "p") (u "o") None None sample_world eq_refl)).
Defined.

Lemma customer_order_ownership_witness :
  get_customer_order sample_client (u "o-1") (Some (u " ")) (Some (u "ref")) =
    _request sample_client (u "orders/o-1") parse_order [(u "customer_phone", [])].
Proof.
  destruct (customer_order_ownership sample_client (u "o-1") (Some (u " ")) (Some (u "ref"))
              sample_world) as (_ & _ & _ & Hblank).
  exact (Hblank (u " ") eq_refl eq_refl eq_refl eq_refl).
Defined.

Lemma quoted_path_is_one_segment_witness :
  quote (u "../a?b#c ñ") = u "..%2Fa%3Fb%23c%20%C3%B1" /\ 47 ∉ quote (u "../a?b#c ñ").
Proof.
  split; [vm_compute; reflexivity|]. apply (quoted_path_is_one_segment (u "../a?b#c ñ")).
  - apply Forall_forall. intros c Hc. vm_compute in Hc.
    repeat (apply elem_of_cons in Hc as [->|Hc]; [lia|]). by apply elem_of_nil in Hc.
  - set_solver.
Defined.
End concrete.
