(* ===== verification/Conversations.v ===== *)
(** * Conversations and messages ([src/piki/db/conversations.py])

    [ConversationRepository]: the inbound and outbound messages of a
    conversation and its history.  A repository works in the session of its
    caller, so an operation here is a computation without a [session] of its
    own. *)
From S2P Require Import Prelude PyStr Errors Contracts Events Sql Redis Models World.
From S2P Require Import Session Sample.
From Stdlib Require Import Sorting.Sorted.

Local Open Scope Z_scope.

(** ** Data *)

Inductive PersistStatus := PS_CREATED | PS_DUPLICATE.
#[export] Instance PersistStatus_eq_dec : EqDecision PersistStatus.
Proof. solve_decision. Defined.

Record PersistedInbound := {
  pi_status : PersistStatus;
  pi_conversation_id : Z;
  pi_message_id : option Z
}.
#[export] Instance PersistedInbound_contract : Contract PersistedInbound := {|
  fields_ok _ := true;
  model_validator p := first_error [
    (xorb (bool_decide (pi_status p = PS_CREATED)) (bool_decide (is_Some (pi_message_id p))),
     u "only created inbound records contain a message ID")]
|}.

Record StoredMessage := {
  sm_id : Z;
  sm_external_message_id : option str;
  sm_direction : str;
  sm_kind : str;
  sm_content_text : option str;
  sm_trace_id : str;
  sm_created_at : Z
}.

Record PersistedOutbound := {
  po_message_id : Z;
  po_created : bool
}.

(** ** Operations *)

Definition new_conversation (channel_account_id : str) (message : InboundMessage) (t : Z)
    : ConversationRecord :=
  {| c_channel := enum_value (im_channel message);
     c_channel_account_id := channel_account_id;
     c_external_conversation_id := im_conversation_id message;
     c_status := u "piki_active"; c_created_at := t; c_updated_at := t |}.

(** [set_={"updated_at": func.now()}]. *)
Definition touch (t : Z) (c : ConversationRecord) : ConversationRecord :=
  {| c_channel := c_channel c; c_channel_account_id := c_channel_account_id c;
     c_external_conversation_id := c_external_conversation_id c; c_status := c_status c;
     c_created_at := c_created_at c; c_updated_at := t |}.

Definition inbound_row (conversation_id : Z) (message : InboundMessage) (trace_id : str)
    (available_at : option Z) (t : Z) : MessageRecord :=
  {| m_conversation_id := conversation_id;
     m_external_message_id := Some (im_message_id message);
     m_direction := u "inbound"; m_kind := enum_value (im_kind message);
     m_content_text := im_text message; m_trace_id := trace_id;
     m_processing_status := if available_at then Some (u "pending") else None;
     m_processing_attempts := 0; m_processing_available_at := available_at;
     m_processing_claimed_at := None; m_processing_error_code := None; m_created_at := t |}.

Definition outbound_row (conversation_id : Z) (text trace_id external_message_id : str) (t : Z)
    : MessageRecord :=
  {| m_conversation_id := conversation_id;
     m_external_message_id := Some external_message_id;
     m_direction := u "outbound"; m_kind := u "text"; m_content_text := Some text;
     m_trace_id := trace_id; m_processing_status := None; m_processing_attempts := 0;
     m_processing_available_at := None; m_processing_claimed_at := None;
     m_processing_error_code := None; m_created_at := t |}.

Definition stored_message (row : Z * MessageRecord) : StoredMessage :=
  {| sm_id := row.1; sm_external_message_id := m_external_message_id row.2;
     sm_direction := m_direction row.2; sm_kind := m_kind row.2;
     sm_content_text := m_content_text row.2; sm_trace_id := m_trace_id row.2;
     sm_created_at := m_created_at row.2 |}.

(** ORDER BY created_at DESC, id DESC. *)
Definition newest_first (x y : Z * MessageRecord) : bool :=
  (m_created_at y.2 <? m_created_at x.2) ||
  ((m_created_at x.2 =? m_created_at y.2) && (y.1 <=? x.1)).

Definition has_external_id (external_message_id : str) (_ : Z) (r : MessageRecord) : bool :=
  bool_decide (m_external_message_id r = Some external_message_id).

Lemma newest_first_order : row_order newest_first.
Proof.
  unfold newest_first. split.
  - intros x y. rewrite !orb_true_iff, !andb_true_iff, !Z.ltb_lt, !Z.eqb_eq, !Z.leb_le. lia.
  - intros x y z. rewrite !orb_true_iff, !andb_true_iff, !Z.ltb_lt, !Z.eqb_eq, !Z.leb_le. lia.
Qed.

(** The first [n] rows of a sorted list precede the others; read backwards,
    the list is sorted the other way. *)
Lemma sorted_take_split {A} (R : A -> A -> Prop) n (l : list A) x y :
  StronglySorted R l -> x ∈ take n l -> y ∈ drop n l -> R x y.
Proof.
  intros Hs. revert n. induction Hs as [|a l Hs IH Hall]; intros [|n]; cbn; [set_solver..|].
  intros [->|Hx]%elem_of_cons Hy; [|by eapply IH].
  rewrite Forall_forall in Hall. apply Hall.
  rewrite <- (take_drop n l), elem_of_app. by right.
Qed.

Lemma sorted_take {A} (R : A -> A -> Prop) n (l : list A) :
  StronglySorted R l -> StronglySorted R (take n l).
Proof.
  intros Hs. revert n. induction Hs as [|a l Hs IH Hall]; intros [|n]; cbn; try constructor; auto.
  rewrite Forall_forall in *. intros x Hx. apply Hall.
  rewrite <- (take_drop n l), elem_of_app. by left.
Qed.

Lemma sorted_reverse {A} (R : A -> A -> Prop) (l : list A) :
  StronglySorted R l -> StronglySorted (fun x y => R y x) (reverse l).
Proof.
  induction 1 as [|a l Hs IH Hall]; [constructor|]. rewrite reverse_cons.
  assert (forall k, StronglySorted (fun x y => R y x) k -> Forall (fun x => R a x) k ->
    StronglySorted (fun x y => R y x) (k ++ [a])) as Happ.
  { induction 1 as [|b k Hk IHk Hb]; cbn; [repeat constructor|].
    rewrite Forall_cons. intros [Hab Hak]. constructor; [by apply IHk|].
    rewrite Forall_app. split; [done|by repeat constructor]. }
  apply Happ; [done|]. by apply Forall_reverse.
Qed.

Section repository.
Context `{SqlEngine} `{RedisServer} `{Env}.

Definition record_inbound (channel_account_id : str) (message : InboundMessage) (trace_id : str)
    (enqueue_processing : bool) : M PersistedInbound :=
  fresh_id ← uuid4;
  ids ← upsert_returning uq_conversation_channel_identity no_constraint (fun _ => true) fresh_id
    (new_conversation channel_account_id message) touch;
  conversation_id ← lift (one ids);
  message_id ← uuid4;
  available_at ← (if enqueue_processing then t ← now; mret (Some t) else mret None);
  stored ← insert_row uq_messages_external_message_id no_constraint
    (conversation_exists conversation_id) message_id
    (inbound_row conversation_id message trace_id available_at);
  match stored with
  | None =>
      lift (construct {| pi_status := PS_DUPLICATE; pi_conversation_id := conversation_id;
                         pi_message_id := None |})
  | Some _ =>
      lift (construct {| pi_status := PS_CREATED; pi_conversation_id := conversation_id;
                         pi_message_id := Some message_id |})
  end.

Definition recent_messages (conversation_id : Z) (limit : Z) : M (list StoredMessage) :=
  if (limit <? 1) || (100 <? limit)
  then raise (ValueError (u "message history limit must be between 1 and 100"))
  else
    found ← select (fun _ r => m_conversation_id r =? conversation_id) newest_first;
    let rows := take (Z.to_nat limit) found in
    mret (map stored_message (reverse rows)).

Definition find_conversation_id (channel : Channel)
    (channel_account_id external_conversation_id : str) : M (option Z) :=
  found ← select (fun _ c =>
      bool_decide (c_channel c = enum_value channel) &&
      bool_decide (c_channel_account_id c = channel_account_id) &&
      bool_decide (c_external_conversation_id c = external_conversation_id)) unordered;
  mret (fst <$> head found).

Definition record_outbound (conversation_id : Z) (text trace_id external_message_id : str)
    : M PersistedOutbound :=
  message_id ← uuid4;
  stored ← insert_row uq_messages_external_message_id no_constraint
    (conversation_exists conversation_id) message_id
    (outbound_row conversation_id text trace_id external_message_id);
  match stored with
  | Some _ => mret {| po_message_id := message_id; po_created := true |}
  | None =>
      found ← select (has_external_id external_message_id) unordered;
      existing ← lift (one found);
      mret {| po_message_id := existing.1; po_created := false |}
  end.

Definition find_message (external_message_id : str) : M (option StoredMessage) :=
  found ← select (has_external_id external_message_id) unordered;
  row ← lift (one_or_none found);
  mret (stored_message <$> row).
End repository.

(** ** Invariant *)

Section invariant.
Context `{SqlEngine} `{RedisServer} `{Env}.

Abbreviation conversations d := (rows (db_conversations d)).
Abbreviation messages d := (rows (db_messages d)).

(** The unique constraints and the foreign key of the two tables. *)
Record conversations_wf (d : Db) : Prop := {
  wf_identity : forall k k' c c', conversations d !! k = Some c -> conversations d !! k' = Some c' ->
    uq_conversation_channel_identity c c' = true -> k = k';
  wf_external_id : forall k k' m m', messages d !! k = Some m -> messages d !! k' = Some m' ->
    uq_messages_external_message_id m m' = true -> k = k';
  wf_conversation : forall k m, messages d !! k = Some m ->
    is_Some (conversations d !! m_conversation_id m)
}.

Definition keeps_conversations_wf : relation Db := fun d d' =>
  conversations_wf d -> conversations_wf d'.
#[export] Instance keeps_conversations_wf_preorder : PreOrder keeps_conversations_wf.
Proof. split; unfold keeps_conversations_wf; intros ?; naive_solver. Qed.

(** Identifiers not used yet. *)
Definition ids_fresh (w : World) : Prop := forall k, w_next_id w <= k ->
  conversations (w_db w) !! k = None /\ messages (w_db w) !! k = None.

Lemma uq_identity_true c c' :
  uq_conversation_channel_identity c c' = true <->
  c_channel c = c_channel c' /\ c_channel_account_id c = c_channel_account_id c' /\
  c_external_conversation_id c = c_external_conversation_id c'.
Proof.
  unfold uq_conversation_channel_identity. rewrite !andb_true_iff, !bool_decide_eq_true. naive_solver.
Qed.

Lemma uq_external_true m m' :
  uq_messages_external_message_id m m' = true <->
  exists e, m_external_message_id m = Some e /\ m_external_message_id m' = Some e.
Proof. apply sql_eq_true. Qed.

Lemma identity_sym c c' :
  uq_conversation_channel_identity c c' = uq_conversation_channel_identity c' c.
Proof. apply eq_true_iff_eq. rewrite !uq_identity_true. naive_solver. Qed.

(** *** Changes of one row *)

Lemma wf_conversation_put d d' k c :
  conversations_wf d -> conversations d' = <[k := c]> (conversations d) ->
  messages d' = messages d ->
  (forall k' c', k' <> k -> conversations d !! k' = Some c' ->
     uq_conversation_channel_identity c c' = false) ->
  conversations_wf d'.
Proof.
  intros [Hi He Hc] Hcs Hms Hnew. split.
  - intros k1 k2 c1 c2. rewrite Hcs, !lookup_insert_Some.
    intros [[<- <-]|[Hk1 Hc1]] [[<- <-]|[Hk2 Hc2]] Hu; [done| | |by eapply Hi].
    + by rewrite (Hnew k2 c2) in Hu by done.
    + rewrite identity_sym, (Hnew k1 c1) in Hu by done. done.
  - rewrite Hms. apply He.
  - rewrite Hms. intros k' m Hm. rewrite Hcs. rewrite lookup_insert_is_Some.
    destruct (decide (k = m_conversation_id m)); [by left|right]. split; [done|]. by eapply Hc.
Qed.

Lemma wf_message_put d d' k m :
  conversations_wf d -> messages d' = <[k := m]> (messages d) ->
  conversations d' = conversations d ->
  (forall k' m', k' <> k -> messages d !! k' = Some m' ->
     uq_messages_external_message_id m m' = false) ->
  is_Some (conversations d !! m_conversation_id m) ->
  conversations_wf d'.
Proof.
  intros [Hi He Hc] Hms Hcs Hnew Hfk. split.
  - rewrite Hcs. apply Hi.
  - intros k1 k2 m1 m2. rewrite Hms, !lookup_insert_Some.
    intros [[<- <-]|[Hk1 Hm1]] [[<- <-]|[Hk2 Hm2]] Hu; [done| | |by eapply He].
    + by rewrite (Hnew k2 m2) in Hu by done.
    + apply uq_external_true in Hu as (e & H1' & H2').
      assert (uq_messages_external_message_id m m1 = true) as Hu
        by (apply uq_external_true; eauto). by rewrite (Hnew k1 m1) in Hu by done.
  - rewrite Hms, Hcs. intros k' m' [[<- <-]|[Hk' Hm']]%lookup_insert_Some; [done|].
    by eapply Hc.
Qed.

(** *** Statements *)

Lemma keeps_wf_upsert k acct message :
  keeps_db keeps_conversations_wf
    (upsert_returning uq_conversation_channel_identity no_constraint (fun _ => true) k
       (new_conversation acct message) touch).
Proof.
  intros w Hwf. destruct (upsert_returning _ _ _ _ _ _ w) as [[ids|e] w'] eqn:Hrun; cbn.
  - apply upsert_ok_inv in Hrun as (t & tb & Hd & [(_ & _ & _ & Hk & Hc & Hr)|(_ & Hr)]); rewrite Hd.
    + eapply wf_conversation_put; [exact Hwf|exact Hr|done|].
      intros k' c' _ Hk'. eapply conflicts_false; [exact Hc|exact Hk'].
    + destruct Hwf as [Hi He Hc]. split; cbn -[uq_conversation_channel_identity].
      * intros k1 k2 c1 c2. rewrite Hr, !update_spec_lookup. cbn.
        intros (c1' & H1' & ->)%fmap_Some (c2' & H2' & ->)%fmap_Some Hu. eapply Hi; [exact H1'|exact H2'|].
        apply uq_identity_true. apply uq_identity_true in Hu.
        repeat case_match; simplify_eq/=; naive_solver.
      * exact He.
      * intros k' m Hm. rewrite Hr, update_spec_lookup, fmap_is_Some. by eapply Hc.
  - replace (w_db w') with (w_db w); [done|].
    revert Hrun. unfold upsert_returning, stmt. split_all; naive_solver.
Qed.

Lemma keeps_wf_insert_message cid k mk :
  (forall t, m_conversation_id (mk t) = cid) ->
  keeps_db keeps_conversations_wf
    (insert_row uq_messages_external_message_id no_constraint (conversation_exists cid) k mk).
Proof.
  intros Hcid w Hwf. destruct (insert_row _ _ _ _ _ w) as [[o|e] w'] eqn:Hrun; cbn.
  - apply insert_ok_inv in Hrun as [(r & t & -> & _ & _ & Hfk & Hk & Hc & _ & tb & Hd & Hr)|(_ & -> & _)];
      [|done]. rewrite Hd. eapply wf_message_put; [exact Hwf|exact Hr|done| |].
    + intros k' m' _ Hk'. eapply conflicts_false; [exact Hc|exact Hk'].
    + rewrite Hcid. by apply bool_decide_eq_true in Hfk.
  - replace (w_db w') with (w_db w); [done|].
    revert Hrun. unfold insert_row, stmt. split_all; naive_solver.
Qed.

(** UPDATEs that leave the constrained columns alone. *)
Lemma keeps_wf_update_message p f :
  (forall t m, m_conversation_id (f t m) = m_conversation_id m /\
     m_external_message_id (f t m) = m_external_message_id m) ->
  keeps_db keeps_conversations_wf (update_returning (R := MessageRecord) p f).
Proof.
  intros Hf w [Hi He Hc]. destruct (update_returning p f w) as [[ids|e] w'] eqn:Hrun; cbn.
  - apply update_ok_inv in Hrun as (t & tb & _ & -> & Hr).
    assert (forall k m, rows tb !! k = Some m -> exists m', messages (w_db w) !! k = Some m' /\
      m_conversation_id m = m_conversation_id m' /\
      m_external_message_id m = m_external_message_id m') as Hold.
    { intros k m. rewrite Hr, update_spec_lookup. intros (m' & Hm' & ->)%fmap_Some.
      exists m'. split; [done|]. destruct (p k m'); [apply Hf|done]. }
    split; cbn -[uq_messages_external_message_id].
    + exact Hi.
    + intros k1 k2 m1 m2 (m1' & H1' & _ & He1)%Hold (m2' & H2' & _ & He2)%Hold
        (e & Hx & Hy)%uq_external_true. eapply He; [exact H1'|exact H2'|].
      apply uq_external_true. exists e. by rewrite <- He1, <- He2.
    + intros k m (m' & Hm' & -> & _)%Hold. by eapply Hc.
  - replace (w_db w') with (w_db w); [done|].
    revert Hrun. unfold update_returning, stmt. split_all; naive_solver.
Qed.

Lemma keeps_wf_update_conversation p f :
  (forall t c, c_channel (f t c) = c_channel c /\
     c_channel_account_id (f t c) = c_channel_account_id c /\
     c_external_conversation_id (f t c) = c_external_conversation_id c) ->
  keeps_db keeps_conversations_wf (update_returning (R := ConversationRecord) p f).
Proof.
  intros Hf w [Hi He Hc]. destruct (update_returning p f w) as [[ids|e] w'] eqn:Hrun; cbn.
  - apply update_ok_inv in Hrun as (t & tb & _ & -> & Hr).
    split; cbn -[uq_conversation_channel_identity].
    + intros k1 k2 c1 c2. rewrite Hr, !update_spec_lookup.
      intros (c1' & H1' & ->)%fmap_Some (c2' & H2' & ->)%fmap_Some Hu.
      eapply Hi; [exact H1'|exact H2'|]. apply uq_identity_true. apply uq_identity_true in Hu.
      pose proof (Hf t c1'). pose proof (Hf t c2').
      destruct (p k1 c1'), (p k2 c2'); naive_solver congruence.
    + exact He.
    + intros k m Hm. rewrite Hr, update_spec_lookup, fmap_is_Some. by eapply Hc.
  - replace (w_db w') with (w_db w); [done|].
    revert Hrun. unfold update_returning, stmt. split_all; naive_solver.
Qed.

Lemma record_inbound_keeps_wf acct message trace enqueue :
  keeps_db keeps_conversations_wf (record_inbound acct message trace enqueue).
Proof.
  unfold record_inbound.
  repeat first [apply keeps_wf_upsert | apply keeps_wf_insert_message; done | keeps_step].
Qed.

Lemma record_outbound_keeps_wf cid text trace ext :
  keeps_db keeps_conversations_wf (record_outbound cid text trace ext).
Proof.
  unfold record_outbound. repeat first [apply keeps_wf_insert_message; done | keeps_step].
Qed.
End invariant.
#[export] Hint Resolve record_inbound_keeps_wf record_outbound_keeps_wf : piki.

(** ** Runs while the database answers *)

Section runs.
Context `{SqlEngine} `{RedisServer} `{Env}.
Hypothesis up : forall n, db_up n = true.

Abbreviation conversations w := (rows (db_conversations (w_db w))).
Abbreviation messages w := (rows (db_messages (w_db w))).

(** The inputs the callers pass: a valid message, an account and a trace
    that fit their columns. *)
Definition inbound_fits (acct : str) (message : InboundMessage) (trace_id : str) : Prop :=
  contract_ok message = true /\ py_len acct <= 255 /\ py_len trace_id <= 128.

Definition is_identity (acct : str) (message : InboundMessage) (c : ConversationRecord) : Prop :=
  c_channel c = enum_value (im_channel message) /\ c_channel_account_id c = acct /\
  c_external_conversation_id c = im_conversation_id message.

Definition known_message (external_message_id : str) (w : World) : Prop :=
  exists k m, messages w !! k = Some m /\ m_external_message_id m = Some external_message_id.

(** What rows a stored conversation may have, so that an UPDATE of one fits. *)
Definition statuses_fit (w : World) : Prop :=
  forall k c, conversations w !! k = Some c -> conversation_fits c = true.

Lemma new_conversation_fits acct message trace t :
  inbound_fits acct message trace -> conversation_fits (new_conversation acct message t) = true.
Proof.
  intros (Hm & Ha & _). unfold contract_ok in Hm. apply andb_true_iff in Hm as [Hm _].
  cbn in Hm. bools. repeat match goal with Hl : len_in _ _ _ = true |- _ => apply len_in_spec in Hl end.
  unfold conversation_fits, new_conversation, fits. cbn -[py_len enum_value u].
  rewrite !andb_true_iff, !Z.leb_le. split_and!; try lia; [by destruct (im_channel message)|by vm_compute].
Qed.

Lemma inbound_row_fits acct cid message trace av t :
  inbound_fits acct message trace -> message_fits (inbound_row cid message trace av t) = true.
Proof.
  intros (Hm & _ & Ht). unfold contract_ok in Hm. apply andb_true_iff in Hm as [Hm _].
  cbn in Hm. bools. repeat match goal with Hl : len_in _ _ _ = true |- _ => apply len_in_spec in Hl end.
  unfold message_fits, inbound_row, fits_opt, fits. cbn -[py_len enum_value u].
  rewrite !andb_true_iff, !Z.leb_le. split_and!; try lia; try (by destruct (im_kind message)); try (by vm_compute).
  destruct av; [by vm_compute|done].
Qed.

(** The conversation of the message after the upsert. *)
Lemma upsert_conversation_up acct message trace w k :
  conversations_wf (w_db w) -> statuses_fit w -> conversations w !! k = None ->
  inbound_fits acct message trace ->
  exists cid c w', upsert_returning uq_conversation_channel_identity no_constraint (fun _ => true) k
      (new_conversation acct message) touch w = (Ok [cid], w') /\
    w_next_id w' = w_next_id w /\ messages w' = messages w /\
    conversations w' = <[cid := c]> (conversations w) /\ is_identity acct message c /\
    conversation_fits c = true /\
    (cid = k \/ exists c0, conversations w !! cid = Some c0 /\ exists t, c = touch t c0).
Proof.
  intros Hwf Hfit Hk Hin. set (t := clock (w_tick w)).
  destruct (conflicts uq_conversation_channel_identity (new_conversation acct message t)
    (conversations w)) eqn:Hc.
  - apply conflicts_true in Hc as (cid & c & Hcid & Hu).
    edestruct (upsert_old_up uq_conversation_channel_identity no_constraint (fun _ => true) k
      (new_conversation acct message) touch w cid c) as (tb & Hrun & Hr);
      [apply up|by eapply new_conversation_fits|exact Hcid|exact Hu| | |].
    + intros k' c' Hk' Hu'. eapply (wf_identity _ Hwf); [exact Hk'|exact Hcid|].
      apply uq_identity_true. apply uq_identity_true in Hu, Hu'. naive_solver congruence.
    + apply (Hfit cid c Hcid).
    + exists cid, (touch t c). eexists. split; [exact Hrun|].
      split; [done|]. split; [done|]. split; [exact Hr|]. apply uq_identity_true in Hu.
      split; [unfold is_identity; cbn in *; naive_solver congruence|].
      split; [apply (Hfit cid c Hcid)|]. right. exists c. split; [exact Hcid|by eexists].
  - edestruct (upsert_new_up uq_conversation_channel_identity no_constraint (fun _ => true) k
      (new_conversation acct message) touch w) as (tb & Hrun & Hr);
      [apply up|by eapply new_conversation_fits|exact Hc| |exact Hk|done|].
    { by apply conflicts_false. }
    exists k, (new_conversation acct message t). eexists. split; [exact Hrun|].
    split; [done|]. split; [done|]. split; [exact Hr|]. split; [done|].
    split; [by eapply new_conversation_fits|]. by left.
Qed.

Lemma available_up (enqueue : bool) w :
  exists av w', (if enqueue then t ← now; mret (Some t) else mret None) w = (Ok av, w') /\
    w_db w' = w_db w /\ w_next_id w' = w_next_id w /\ (enqueue = true <-> is_Some av).
Proof.
  destruct enqueue; do 2 eexists; (split; [reflexivity|]); (split; [done|]); (split; [done|]).
  - split; eauto.
  - split; [done|by intros [? ?]].
Qed.

(** The insertion of a message: skipped when its external identifier is
    stored already. *)
Lemma insert_message_up cid k mk e w :
  (forall t, m_external_message_id (mk t) = Some e) -> (forall t, message_fits (mk t) = true) ->
  messages w !! k = None -> is_Some (conversations w !! cid) ->
  exists o w', insert_row uq_messages_external_message_id no_constraint (conversation_exists cid)
      k mk w = (Ok o, w') /\
    conversations w' = conversations w /\ w_next_id w' = w_next_id w /\
    ((known_message e w /\ o = None /\ messages w' = messages w) \/
     (~ known_message e w /\ exists t, o = Some (mk t) /\ messages w' = <[k := mk t]> (messages w))).
Proof.
  intros He Hfit Hk Hfk. set (t := clock (w_tick w)).
  destruct (conflicts uq_messages_external_message_id (mk t) (messages w)) eqn:Hc.
  - apply conflicts_true in Hc as (k0 & m & Hk0 & Hu).
    apply uq_external_true in Hu as (e' & He1 & He2). rewrite He in He1. simplify_eq.
    edestruct (insert_skip_up uq_messages_external_message_id no_constraint
      (conversation_exists cid) k mk w) as (d & Hins & ->); [apply up|exact Hfit| |].
    { intros t'. apply conflicts_true. exists k0, m. split; [done|]. apply uq_external_true. eauto. }
    do 2 eexists. split; [exact Hins|]. split; [done|]. split; [done|]. left.
    split; [|done]. by exists k0, m.
  - edestruct (insert_up uq_messages_external_message_id no_constraint
      (conversation_exists cid) k mk w) as (tb & Hins & Hr);
      [apply up|apply Hfit|exact Hc|by apply conflicts_false|exact Hk| |].
    { by apply bool_decide_eq_true. }
    do 2 eexists. split; [exact Hins|]. split; [done|]. split; [done|]. right.
    split; [|by exists t]. intros (k0 & m & Hk0 & He0). rewrite conflicts_false in Hc.
    specialize (Hc k0 m Hk0). apply not_true_iff_false in Hc. apply Hc. apply uq_external_true. eauto.
Qed.

Definition inbound_outcome (acct : str) (message : InboundMessage) (trace_id : str)
    (enqueue : bool) (w : World) (p : PersistedInbound) (w' : World) : Prop :=
  (exists c, conversations w' = <[pi_conversation_id p := c]> (conversations w) /\
     is_identity acct message c /\ conversation_fits c = true /\
     forall c0, conversations w !! pi_conversation_id p = Some c0 -> exists t, c = touch t c0) /\
  ((known_message (im_message_id message) w /\ pi_status p = PS_DUPLICATE /\
    pi_message_id p = None /\ messages w' = messages w) \/
   (~ known_message (im_message_id message) w /\ pi_status p = PS_CREATED /\
    exists k av t, pi_message_id p = Some k /\ messages w !! k = None /\
      (enqueue = true <-> is_Some av) /\
      messages w' = <[k := inbound_row (pi_conversation_id p) message trace_id av t]> (messages w))).

Lemma record_inbound_up acct message trace enqueue w :
  conversations_wf (w_db w) -> statuses_fit w -> ids_fresh w -> inbound_fits acct message trace ->
  exists p w', record_inbound acct message trace enqueue w = (Ok p, w') /\
    inbound_outcome acct message trace enqueue w p w' /\ ids_fresh w'.
Proof.
  intros Hwf Hfit Hfresh Hin. unfold record_inbound. rewrite bind_run. unfold uuid4 at 1.
  cbv beta iota zeta. set (n := w_next_id w) in *. set (w1 := mkWorld _ _ _ _ _ _ _ _).
  destruct (Hfresh n) as [Hn1 _]; [done|].
  destruct (upsert_conversation_up acct message trace w1 n) as
    (cid & c & w2 & Hrun & Hnext & Hms & Hcs & Hid & Hcf & Hcase); [done..|].
  erewrite bind_ok_run by exact Hrun. cbn [one]. erewrite bind_ok_run by reflexivity.
  rewrite bind_run. unfold uuid4 at 1. cbv beta iota zeta. set (w3 := mkWorld _ _ _ _ _ _ _ _).
  destruct (available_up enqueue w3) as (av & w4 & Hav & Hd4 & Hn4 & Hiff).
  erewrite bind_ok_run by exact Hav. rewrite Hnext. change (w_next_id w1) with (n + 1).
  assert (conversations w4 = <[cid := c]> (conversations w)) as Hc4 by by rewrite Hd4.
  assert (messages w4 = messages w) as Hm4 by by rewrite Hd4.
  assert (w_next_id w4 = n + 2) as Hnext4 by (rewrite Hn4; cbn; rewrite Hnext; cbn; lia).
  destruct (insert_message_up cid (n + 1) (inbound_row cid message trace av)
    (im_message_id message) w4) as (o & w5 & Hins & Hc5 & Hn5 & Hcase5);
    [done|intros; by eapply inbound_row_fits|rewrite Hm4; apply Hfresh; lia
    |rewrite Hc4, lookup_insert_eq; eauto|].
  erewrite bind_ok_run by exact Hins.
  assert (forall e, known_message e w4 <-> known_message e w) as Hkn
    by (intros; unfold known_message; by rewrite Hm4).
  rewrite Hkn, Hm4 in Hcase5. rewrite Hc4 in Hc5.
  assert (forall c0, conversations w !! cid = Some c0 -> exists t, c = touch t c0) as Hold.
  { intros c0 Hc0. destruct Hcase as [->|(c1 & Hc1 & Ht)]; [congruence|].
    change (conversations w !! cid = Some c1) in Hc1. by simplify_eq. }
  assert (ids_fresh w5) as Hfresh5.
  { intros k Hk. rewrite Hn5, Hnext4 in Hk. destruct (Hfresh k) as [Hfc Hfm]; [lia|]. split.
    - rewrite Hc5, lookup_insert_ne; [done|]. destruct Hcase as [->|(c0 & Hc0 & _)]; [lia|].
      intros ->. change (conversations w !! k = Some c0) in Hc0. congruence.
    - destruct Hcase5 as [(_ & _ & ->)|(_ & t & _ & ->)]; [done|]. by rewrite lookup_insert_ne by lia. }
  destruct Hcase5 as [(Hk & -> & Hm5)|(Hk & t & -> & Hm5)]; rewrite construct_good by done;
    do 2 eexists; (split; [reflexivity|]); (split; [|exact Hfresh5]); (split; [by eauto|]).
  - by left.
  - right. split; [done|]. split; [done|]. exists (n + 1), av, t. cbn [pi_message_id pi_conversation_id].
    split; [done|]. split; [apply Hfresh; lia|]. done.
Qed.

Lemma inbound_outcome_fits acct message trace enqueue w p w' :
  statuses_fit w -> inbound_outcome acct message trace enqueue w p w' -> statuses_fit w'.
Proof.
  intros Hfit ((c & Hcs & _ & Hc & _) & _) k c'. rewrite Hcs.
  intros [[<- <-]|[_ Hk]]%lookup_insert_Some; [done|by eapply Hfit].
Qed.

Lemma inbound_outcome_known acct message trace enqueue w p w' :
  inbound_outcome acct message trace enqueue w p w' -> known_message (im_message_id message) w'.
Proof.
  intros (_ & [(Hk & _ & _ & Hms)|(_ & _ & k & av & t & _ & _ & _ & Hms)]).
  - unfold known_message. by rewrite Hms.
  - exists k, (inbound_row (pi_conversation_id p) message trace av t).
    by rewrite Hms, lookup_insert_eq.
Qed.

Lemma inbound_outcome_grows acct message trace enqueue w p w' k m :
  inbound_outcome acct message trace enqueue w p w' ->
  messages w !! k = Some m -> messages w' !! k = Some m.
Proof.
  intros (_ & [(_ & _ & _ & ->)|(_ & _ & k' & av & t & _ & Hk' & _ & ->)]) Hk; [done|].
  rewrite lookup_insert_ne; [done|congruence].
Qed.

(** The one row of a stored external identifier. *)
Lemma known_once e w :
  conversations_wf (w_db w) -> known_message e w ->
  exists k m, messages w !! k = Some m /\ m_external_message_id m = Some e /\
    forall k' m', messages w !! k' = Some m' -> m_external_message_id m' = Some e -> k' = k.
Proof.
  intros Hwf (k & m & Hk & He). exists k, m. split; [done|]. split; [done|].
  intros k' m' Hk' He'. eapply (wf_external_id _ Hwf); [exact Hk'|exact Hk|].
  apply uq_external_true. eauto.
Qed.

(** *** The outbound message *)

Definition outbound_fits (trace_id external_message_id : str) : Prop :=
  py_len trace_id <= 128 /\ py_len external_message_id <= 255.

Lemma outbound_row_fits cid text trace ext t :
  outbound_fits trace ext -> message_fits (outbound_row cid text trace ext t) = true.
Proof.
  intros [Ht He]. unfold message_fits, outbound_row, fits_opt, fits. cbn -[py_len u].
  rewrite !andb_true_iff, !Z.leb_le. split_and!; try lia; by vm_compute.
Qed.

(** The reply is stored unless its identifier is, and the identifier of the
    stored row is returned. *)
Lemma record_outbound_up cid text trace ext w :
  conversations_wf (w_db w) -> ids_fresh w -> outbound_fits trace ext ->
  is_Some (conversations w !! cid) ->
  exists p w', record_outbound cid text trace ext w = (Ok p, w') /\
    conversations w' = conversations w /\ ids_fresh w' /\
    ((exists m, messages w !! po_message_id p = Some m /\ m_external_message_id m = Some ext /\
        po_created p = false /\ messages w' = messages w) \/
     (~ known_message ext w /\ po_created p = true /\ messages w !! po_message_id p = None /\
        exists t, messages w' = <[po_message_id p := outbound_row cid text trace ext t]> (messages w))).
Proof.
  intros Hwf Hfresh Hfit Hcid. unfold record_outbound. rewrite bind_run. unfold uuid4 at 1.
  cbv beta iota zeta. set (n := w_next_id w) in *. set (w1 := mkWorld _ _ _ _ _ _ _ _).
  destruct (Hfresh n) as [_ Hn]; [done|].
  destruct (insert_message_up cid n (outbound_row cid text trace ext) ext w1)
    as (o & w2 & Hins & Hc2 & Hn2 & Hcase);
    [done|intros; by apply outbound_row_fits|exact Hn|exact Hcid|].
  change (messages w1) with (messages w) in Hcase. change (w_next_id w1) with (n + 1) in Hn2.
  erewrite bind_ok_run by exact Hins. destruct Hcase as [(Hk & -> & Hm2)|(Hk & t & -> & Hm2)].
  - destruct (known_once ext w Hwf Hk) as (k & m & Hkm & He & Huniq).
    erewrite bind_ok_run by by apply select_up.
    rewrite (select_unique _ _ _ k m); [|cbn; rewrite Hm2; exact Hkm|by apply bool_decide_eq_true|].
    2: { intros k' m' Hk' Hp. apply bool_decide_eq_true in Hp. cbn in Hk'. rewrite Hm2 in Hk'.
         by eapply Huniq. }
    cbn [one]. erewrite bind_ok_run by reflexivity. do 2 eexists. split; [reflexivity|].
    split; [exact Hc2|]. split; [|by left; exists m].
    intros k' Hk'. change (w_next_id w2 <= k') in Hk'. destruct (Hfresh k') as [H1' H2']; [lia|].
    change (conversations w2 !! k' = None /\ messages w2 !! k' = None). by rewrite Hc2, Hm2.
  - do 2 eexists. split; [reflexivity|]. split; [exact Hc2|]. split; [|right; by eauto].
    intros k' Hk'. rewrite Hn2 in Hk'. destruct (Hfresh k') as [H1' H2']; [lia|].
    rewrite Hc2, Hm2, lookup_insert_ne by lia. done.
Qed.
End runs.

(** ** Recordings, whatever the database answers *)

Section outcomes.
Context `{SqlEngine} `{RedisServer} `{Env}.

Abbreviation messages w := (rows (db_messages (w_db w))).

(** Stored messages stay. *)
Definition messages_grow : relation World := fun w w' =>
  forall e, known_message e w -> known_message e w'.
#[export] Instance messages_grow_preorder : PreOrder messages_grow.
Proof. split; unfold messages_grow; intros ?; naive_solver. Qed.

Lemma grow_same w w' : messages w' = messages w -> messages_grow w w'.
Proof. intros Hm e (k & m & Hk & He). exists k, m. by rewrite Hm. Qed.

(** Whatever the database answers, a recording that returns has stored the
    message, with a trace that fits its column. *)
Lemma record_inbound_ok_inv acct message trace enqueue w p w' :
  record_inbound acct message trace enqueue w = (Ok p, w') ->
  known_message (im_message_id message) w' /\ messages_grow w w' /\ py_len trace <= 128.
Proof.
  unfold record_inbound. intros (n & w1 & Hu & Hr)%bind_ok_inv. injection Hu as _ <-.
  apply bind_ok_inv in Hr as (ids & w2 & Hup & Hr).
  apply upsert_ok_inv in Hup as (t & tb & Hd2 & _).
  apply bind_ok_inv in Hr as (cid & w3 & [_ ->]%lift_ok_inv & Hr).
  apply bind_ok_inv in Hr as (mid & w4 & Hu4 & Hr). injection Hu4 as _ <-.
  apply bind_ok_inv in Hr as (av & w5 & Hav & Hr).
  assert (w_db w5 = w_db w2) as Hd5 by (destruct enqueue; injection Hav as _ <-; done).
  apply bind_ok_inv in Hr as (stored & w6 & Hins & Hr).
  assert (w' = w6) as -> by (destruct stored; by apply lift_ok_inv in Hr as [_ ->]).
  assert (messages w5 = messages w) as Hm5 by (rewrite Hd5, Hd2; done).
  assert (row_fits (inbound_row cid message trace av 0) = true) as Hfit.
  { revert Hins. unfold insert_row, stmt. destruct (db_up _); [|done]. cbn zeta.
    set (b := row_fits (inbound_row cid message trace av 0)).
    replace (row_fits (inbound_row cid message trace av (clock (w_tick w5)))) with b by done.
    by destruct b. }
  split_and!.
  - apply insert_ok_inv in Hins as [(r & t' & -> & _ & _ & _ & _ & _ & _ & tb' & Hd6 & Hr6)|(_ & Hd6 & t' & Hc)].
    + exists mid, (inbound_row cid message trace av t'). split; [|done].
      rewrite Hd6. change (rows tb' !! mid = Some (inbound_row cid message trace av t')).
      by rewrite Hr6, lookup_insert_eq.
    + apply conflicts_true in Hc as (k & m & Hk & Hu). exists k, m. rewrite Hd6. split; [exact Hk|].
      by apply uq_external_true in Hu as (e & [= <-] & ?).
  - intros e (k & m & Hk & He).
    apply insert_ok_inv in Hins as [(r & t' & -> & _ & _ & _ & Hn & _ & _ & tb' & Hd6 & Hr6)|(_ & Hd6 & _)].
    + exists k, m. split; [|done]. rewrite Hd6. change (rows tb' !! k = Some m).
      rewrite Hr6. change (rows (tbl (w_db w5))) with (messages w5). rewrite Hm5.
      rewrite lookup_insert_ne; [done|]. intros ->.
      change (messages w5 !! k = None) in Hn. rewrite Hm5 in Hn. congruence.
    + exists k, m. rewrite Hd6. by rewrite Hm5.
  - cbn in Hfit. unfold message_fits in Hfit. cbn -[fits fits_opt] in Hfit. bools.
    by match goal with Hx : fits 128 trace = true |- _ => apply Z.leb_le in Hx end.
Qed.
(** A recording of a message that is stored already adds no message. *)
Lemma record_known_keeps acct message trace enqueue w :
  known_message (im_message_id message) w ->
  let '(r, w') := record_inbound acct message trace enqueue w in
  (forall p, r = Ok p -> messages w' = messages w /\ pi_status p = PS_DUPLICATE).
Proof.
  intros Hk. destruct (record_inbound _ _ _ _ w) as [r w'] eqn:Hr. intros p ->. revert Hr.
  unfold record_inbound. intros (n & w1 & Hu & Hr)%bind_ok_inv. injection Hu as _ <-.
  apply bind_ok_inv in Hr as (ids & w2 & Hup & Hr).
  apply upsert_ok_inv in Hup as (t & tb & Hd2 & _).
  apply bind_ok_inv in Hr as (cid & w3 & [_ ->]%lift_ok_inv & Hr).
  apply bind_ok_inv in Hr as (mid & w4 & Hu4 & Hr). injection Hu4 as _ <-.
  apply bind_ok_inv in Hr as (av & w5 & Hav & Hr).
  assert (messages w5 = messages w) as Hm5.
  { assert (w_db w5 = w_db w2) as -> by (destruct enqueue; injection Hav as _ <-; done).
    by rewrite Hd2. }
  apply bind_ok_inv in Hr as (stored & w6 & Hins & Hr).
  apply insert_ok_inv in Hins as [(r & t' & -> & -> & _ & _ & _ & Hc & _)|(-> & Hd6 & _)].
  - exfalso. destruct Hk as (k & m & Hm & He). rewrite <- Hm5 in Hm.
    rewrite conflicts_false in Hc. specialize (Hc k m Hm). apply not_true_iff_false in Hc.
    apply Hc, uq_external_true. by exists (im_message_id message).
  - apply lift_ok_inv in Hr as [Hp ->]. rewrite construct_good in Hp by done.
    injection Hp as <-. split; [|done]. by rewrite Hd6.
Qed.
End outcomes.

(** ** Properties *)

Section properties.
Context `{SqlEngine} `{RedisServer} `{Env}.

Abbreviation messages w := (rows (db_messages (w_db w))).

(** C32. Inbound messages are stored exactly once.  Recording a valid message
    succeeds; it says CREATED exactly when no message with its identifier was
    stored; afterwards exactly one row has the identifier and every earlier
    row is untouched; and any later recording under the same identifier,
    whatever its account, text or trace, says DUPLICATE and changes no
    message. *)
Theorem inbound_stored_once acct message trace enqueue w :
  (forall n, db_up n = true) -> conversations_wf (w_db w) -> statuses_fit w -> ids_fresh w ->
  inbound_fits acct message trace ->
  exists p w1, record_inbound acct message trace enqueue w = (Ok p, w1) /\
    (pi_status p = PS_CREATED <-> ~ known_message (im_message_id message) w) /\
    (exists k, forall k', (exists m, messages w1 !! k' = Some m /\
       m_external_message_id m = Some (im_message_id message)) <-> k' = k) /\
    (forall k m, messages w !! k = Some m -> messages w1 !! k = Some m) /\
    forall acct' message' trace' enqueue', inbound_fits acct' message' trace' ->
      im_message_id message' = im_message_id message ->
      exists q w2, record_inbound acct' message' trace' enqueue' w1 = (Ok q, w2) /\
        pi_status q = PS_DUPLICATE /\ messages w2 = messages w1.
Proof.
  intros up Hwf Hfit Hfresh Hin.
  destruct (record_inbound_up up acct message trace enqueue w Hwf Hfit Hfresh Hin)
    as (p & w1 & Hrun & Hout & Hfresh1).
  pose proof (record_inbound_keeps_wf acct message trace enqueue w) as Hwf1.
  rewrite Hrun in Hwf1. specialize (Hwf1 Hwf). cbn in Hwf1.
  pose proof (inbound_outcome_known _ _ _ _ _ _ _ Hout) as Hkn.
  exists p, w1. split; [done|]. split; [|split; [|split]].
  - destruct Hout as (_ & [(Hk & -> & _)|(Hk & -> & _)]); naive_solver.
  - destruct (known_once _ _ Hwf1 Hkn) as (k & m & Hk & He & Hu). exists k. intros k'.
    split; [intros (m' & Hk' & He'); by eapply Hu|]. intros ->. eauto.
  - intros k m. by eapply inbound_outcome_grows.
  - intros acct' message' trace' enqueue' Hin' Hid.
    destruct (record_inbound_up up acct' message' trace' enqueue' w1 Hwf1)
      as (q & w2 & Hrun2 & (_ & Hcase) & _); [by eapply inbound_outcome_fits|done|done|].
    rewrite Hid in Hcase. exists q, w2. split; [done|]. destruct Hcase as [(_ & ? & _ & ?)|(? & _)]; [done|].
    contradiction.
Qed.

(** [x] was stored before [y]. *)
Definition older (x y : Z * MessageRecord) : Prop := newest_first y x = true.

(** The history of a conversation.  A limit outside 1..100 is the only
    [ValueError]; otherwise the answer is made of distinct stored rows of that
    conversation, as many as the limit allows, oldest first, and every row
    left out is older than every row returned.  Nothing is written. *)
Theorem recent_messages_window cid limit w :
  w_db (recent_messages cid limit w).2 = w_db w /\
  match (recent_messages cid limit w).1 with
  | Ok l => 1 <= limit <= 100 /\ exists kept, l = map stored_message kept /\
      length kept = Nat.min (Z.to_nat limit)
        (length (select_spec (fun _ m => m_conversation_id m =? cid) (messages w))) /\
      NoDup kept.*1 /\ StronglySorted older kept /\
      (forall k m, (k, m) ∈ kept -> messages w !! k = Some m /\ m_conversation_id m = cid) /\
      (forall k m, messages w !! k = Some m -> m_conversation_id m = cid -> (k, m) ∉ kept ->
         forall x, x ∈ kept -> older (k, m) x)
  | Raise e =>
      (~ 1 <= limit <= 100 /\ e = ValueError (u "message history limit must be between 1 and 100")) \/
      (1 <= limit <= 100 /\ db_up (w_tick w) = false /\ e = OperationalError)
  end.
Proof.
  unfold recent_messages. destruct ((limit <? 1) || (100 <? limit)) eqn:Hl.
  { cbn. split; [done|]. left. split; [|done]. apply orb_true_iff in Hl as [Hl|Hl]; bools; lia. }
  bools. rewrite bind_run. destruct (db_up (w_tick w)) eqn:Hup; cycle 1.
  { unfold select, stmt. rewrite Hup. cbn. split; [done|]. right. split; [lia|done]. }
  rewrite select_up by done. cbn [mret M_ret fst snd]. split; [done|]. split; [lia|].
  set (p := fun (_ : Z) (m : MessageRecord) => m_conversation_id m =? cid).
  set (found := sql_select p newest_first (tbl (w_db w))).
  pose proof (sql_select_sorted p newest_first (tbl (w_db w)) newest_first_order) as Hs.
  exists (reverse (take (Z.to_nat limit) found)). split; [done|]. split_and!.
  - rewrite length_reverse, length_take. f_equal. unfold found. by rewrite sql_select_law.
  - rewrite fmap_reverse, reverse_Permutation, fmap_take.
    eapply sublist_NoDup; [apply (select_NoDup p newest_first)|]. apply sublist_take.
  - apply sorted_reverse. by apply sorted_take.
  - intros k m Hin. rewrite elem_of_reverse in Hin.
    assert ((k, m) ∈ found) as Hi
      by (rewrite <- (take_drop (Z.to_nat limit) found), elem_of_app; by left).
    apply elem_of_select in Hi as [? Hp]. split; [done|]. by apply Z.eqb_eq.
  - intros k m Hk Hcid Hout x Hx. rewrite elem_of_reverse in Hout, Hx.
    assert ((k, m) ∈ found) as Hin by (apply elem_of_select; split; [done|by apply Z.eqb_eq]).
    rewrite <- (take_drop (Z.to_nat limit) found), elem_of_app in Hin.
    destruct Hin as [?|Hd]; [done|]. exact (sorted_take_split _ _ _ _ _ Hs Hx Hd).
Qed.

(** The first reply stored under an identifier wins.  Recording a reply
    succeeds and returns the one row of its identifier: the new row when
    there was none, otherwise the earlier row, unchanged; recording again,
    with any text, returns the same row and writes nothing. *)
Theorem outbound_first_wins cid text trace ext w :
  (forall n, db_up n = true) -> conversations_wf (w_db w) -> ids_fresh w ->
  outbound_fits trace ext -> is_Some (rows (db_conversations (w_db w)) !! cid) ->
  exists p w1 m, record_outbound cid text trace ext w = (Ok p, w1) /\
    messages w1 !! po_message_id p = Some m /\ m_external_message_id m = Some ext /\
    (po_created p = true -> ~ known_message ext w /\ m_content_text m = Some text /\
       m_conversation_id m = cid) /\
    (po_created p = false -> messages w1 = messages w) /\
    forall text' trace', outbound_fits trace' ext ->
      exists w2, record_outbound cid text' trace' ext w1 =
          (Ok {| po_message_id := po_message_id p; po_created := false |}, w2) /\
        messages w2 = messages w1.
Proof.
  intros up Hwf Hfresh Hfit Hcid.
  destruct (record_outbound_up up cid text trace ext w Hwf Hfresh Hfit Hcid)
    as (p & w1 & Hrun & Hcs & Hfresh1 & Hcase).
  pose proof (record_outbound_keeps_wf cid text trace ext w) as Hwf1.
  rewrite Hrun in Hwf1. specialize (Hwf1 Hwf). cbn in Hwf1.
  assert (exists m, messages w1 !! po_message_id p = Some m /\ m_external_message_id m = Some ext /\
    (po_created p = true -> ~ known_message ext w /\ m_content_text m = Some text /\
       m_conversation_id m = cid) /\ (po_created p = false -> messages w1 = messages w))
    as (m & Hm & He & Hnew & Hold).
  { destruct Hcase as [(m & Hm & He & Hc & Hms)|(Hk & Hc & Hno & t & Hms)]; rewrite Hc.
    - exists m. rewrite Hms. done.
    - exists (outbound_row cid text trace ext t). by rewrite Hms, lookup_insert_eq. }
  exists p, w1, m. do 5 (split; [done|]). intros text' trace' Hfit'.
  destruct (record_outbound_up up cid text' trace' ext w1 Hwf1 Hfresh1 Hfit')
    as (q & w2 & Hrun2 & _ & _ & Hcase2); [by rewrite Hcs|].
  destruct Hcase2 as [(m' & Hm' & He' & Hc' & Hms')|(Hk & _)]; cycle 1.
  { exfalso. apply Hk. by exists (po_message_id p), m. }
  exists w2. split; [|done]. rewrite Hrun2. do 2 f_equal.
  assert (po_message_id q = po_message_id p) as Hq.
  { eapply (wf_external_id _ Hwf1); [exact Hm'|exact Hm|]. apply uq_external_true. eauto. }
  destruct q as [qi qc]. cbn in *. by subst.
Qed.
End properties.

Section concrete.
#[local] Existing Instances map_engine scheduled_server sample_env.

Definition sample_message : InboundMessage := {|
  im_message_id := u "wamid.in"; im_channel := WHATSAPP; im_conversation_id := u "5491";
  im_sender_id := u "5491"; im_kind := MK_TEXT; im_text := Some (u "hola");
  im_received_at := utc 0; im_metadata := ∅ |}.

Lemma sample_conversations_wf : conversations_wf (w_db sample_world).
Proof.
  split; cbn; try done. intros k k' c c' Hk Hk' _.
  apply lookup_singleton_Some in Hk as [<- _]. by apply lookup_singleton_Some in Hk' as [<- _].
Qed.

Lemma sample_statuses_fit : statuses_fit sample_world.
Proof. intros k c Hk. cbn in Hk. apply lookup_singleton_Some in Hk as [_ <-]. by vm_compute. Qed.

Lemma sample_ids_fresh : ids_fresh sample_world.
Proof. intros k Hk. cbn in *. split; [|done]. apply lookup_singleton_None. lia. Qed.

Lemma inbound_stored_once_witness :
  exists p w1, record_inbound (u "phone-1") sample_message (u "meta:wamid.in") true sample_world =
      (Ok p, w1) /\ pi_status p = PS_CREATED.
Proof.
  destruct (inbound_stored_once (u "phone-1") sample_message (u "meta:wamid.in") true sample_world)
    as (p & w1 & Hrun & Hst & _).
  - done.
  - apply sample_conversations_wf.
  - apply sample_statuses_fit.
  - apply sample_ids_fresh.
  - by vm_compute.
  - exists p, w1. split; [exact Hrun|]. apply Hst. intros (k & m & Hk & _). done.
Defined.

Lemma outbound_first_wins_witness :
  exists p w1 m, record_outbound 1 (u "hola") (u "t") (u "reply:1") sample_world = (Ok p, w1) /\
    rows (db_messages (w_db w1)) !! po_message_id p = Some m /\
    m_external_message_id m = Some (u "reply:1").
Proof.
  destruct (outbound_first_wins 1 (u "hola") (u "t") (u "reply:1") sample_world)
    as (p & w1 & m & Hrun & Hm & He & _).
  - done.
  - apply sample_conversations_wf.
  - apply sample_ids_fresh.
  - by vm_compute.
  - by vm_compute; eauto.
  - exists p, w1, m. done.
Defined.
End concrete.
