(* ===== verification/Handoffs.v ===== *)
(** * Handoffs to a person ([src/piki/db/handoffs.py])

    [HandoffRepository.request]: at most one open handoff per conversation, one
    handoff per idempotency key, and the conversation marked as needing a
    person. *)
From S2P Require Import Prelude PyStr Errors Contracts Events Sql Redis Models World.
From S2P Require Import Session Sample Conversations.

Local Open Scope Z_scope.

(** ** Data *)

Inductive HandoffStatus := HS_REQUESTED | HS_CLAIMED | HS_RESOLVED.
#[export] Instance HandoffStatus_eq_dec : EqDecision HandoffStatus.
Proof. solve_decision. Defined.
#[export] Program Instance HandoffStatus_enum : StrEnum HandoffStatus := {|
  enum_all := [HS_REQUESTED; HS_CLAIMED; HS_RESOLVED];
  enum_value s := match s with
    | HS_REQUESTED => u "requested" | HS_CLAIMED => u "claimed" | HS_RESOLVED => u "resolved" end
|}.
Solve All Obligations with enum_laws.

Inductive ConversationWorkflowStatus := CW_NEW | CW_PIKI_ACTIVE | CW_NEEDS_HUMAN | CW_HUMAN_ACTIVE
  | CW_RESOLVED.
#[export] Instance ConversationWorkflowStatus_eq_dec : EqDecision ConversationWorkflowStatus.
Proof. solve_decision. Defined.
#[export] Program Instance ConversationWorkflowStatus_enum : StrEnum ConversationWorkflowStatus := {|
  enum_all := [CW_NEW; CW_PIKI_ACTIVE; CW_NEEDS_HUMAN; CW_HUMAN_ACTIVE; CW_RESOLVED];
  enum_value s := match s with
    | CW_NEW => u "new" | CW_PIKI_ACTIVE => u "piki_active" | CW_NEEDS_HUMAN => u "needs_human"
    | CW_HUMAN_ACTIVE => u "human_active" | CW_RESOLVED => u "resolved" end
|}.
Solve All Obligations with enum_laws.

Record HandoffRequest := {
  hr_conversation_id : Z;
  hr_idempotency_key : str;
  hr_reason : str;
  hr_trace_id : str
}.
#[export] Instance HandoffRequest_contract : Contract HandoffRequest := {|
  fields_ok r := len_in 1 255 (hr_idempotency_key r) && len_in 1 500 (hr_reason r) &&
    len_in 1 128 (hr_trace_id r);
  model_validator _ := None
|}.

Record PersistedHandoff := {
  ph_id : Z;
  ph_conversation_id : Z;
  ph_status : HandoffStatus;
  ph_reason : str;
  ph_trace_id : str;
  ph_created_at : Z;
  ph_created : bool
}.

(** ** [HandoffRepository.request] *)

Definition handoff_row (request : HandoffRequest) (t : Z) : HandoffRecord :=
  {| h_conversation_id := hr_conversation_id request;
     h_idempotency_key := hr_idempotency_key request;
     h_status := enum_value HS_REQUESTED; h_reason := hr_reason request;
     h_trace_id := hr_trace_id request; h_created_at := t; h_resolved_at := None |}.

(** ON CONFLICT DO NOTHING without a target: any unique constraint. *)
Definition any_handoff_conflict (r s : HandoffRecord) : bool :=
  uq_handoffs_conversation_idempotency r s || uq_handoffs_one_open_per_conversation r s.

Definition same_or_open (request : HandoffRequest) (_ : Z) (r : HandoffRecord) : bool :=
  (h_conversation_id r =? hr_conversation_id request) &&
  (bool_decide (h_idempotency_key r = hr_idempotency_key request) ||
   bool_decide (h_status r ∈ [enum_value HS_REQUESTED; enum_value HS_CLAIMED])).

(** ORDER BY created_at, id. *)
Definition oldest_first (x y : Z * HandoffRecord) : bool :=
  (h_created_at x.2 <? h_created_at y.2) ||
  ((h_created_at x.2 =? h_created_at y.2) && (x.1 <=? y.1)).

Definition needs_human (t : Z) (c : ConversationRecord) : ConversationRecord :=
  {| c_channel := c_channel c; c_channel_account_id := c_channel_account_id c;
     c_external_conversation_id := c_external_conversation_id c;
     c_status := enum_value CW_NEEDS_HUMAN; c_created_at := c_created_at c; c_updated_at := t |}.

(** [HandoffStatus(value)]. *)
Definition handoff_status (value : str) : res HandoffStatus :=
  match enum_of value with
  | Some s => Ok s
  | None => Raise (ValueError (u "not a valid HandoffStatus"))
  end.

Definition persisted_handoff (id : Z) (r : HandoffRecord) (created : bool) (s : HandoffStatus)
    : PersistedHandoff :=
  {| ph_id := id; ph_conversation_id := h_conversation_id r; ph_status := s;
     ph_reason := h_reason r; ph_trace_id := h_trace_id r; ph_created_at := h_created_at r;
     ph_created := created |}.

Section repository.
Context `{SqlEngine} `{RedisServer} `{Env}.

Definition request (request : HandoffRequest) : M PersistedHandoff :=
  handoff_id ← uuid4;
  inserted ← insert_row any_handoff_conflict no_constraint
    (conversation_exists (hr_conversation_id request)) handoff_id (handoff_row request);
  '(id, row) ← match inserted with
               | Some row => mret (handoff_id, row)
               | None =>
                   found ← select (same_or_open request) oldest_first;
                   lift (one (take 1 found))
               end;
  update_returning (fun k _ => k =? hr_conversation_id request) needs_human;;
  status ← lift (handoff_status (h_status row));
  mret (persisted_handoff id row (bool_decide (is_Some inserted)) status).
End repository.

(** ** Invariant *)

Section invariant.
Context `{SqlEngine} `{RedisServer} `{Env}.

Abbreviation handoffs d := (rows (db_handoffs d)).

Record handoffs_wf (d : Db) : Prop := {
  wf_idempotency : forall k k' r r', handoffs d !! k = Some r -> handoffs d !! k' = Some r' ->
    uq_handoffs_conversation_idempotency r r' = true -> k = k';
  wf_one_open : forall k k' r r', handoffs d !! k = Some r -> handoffs d !! k' = Some r' ->
    uq_handoffs_one_open_per_conversation r r' = true -> k = k';
  wf_status : forall k r, handoffs d !! k = Some r -> exists s, h_status r = enum_value (s : HandoffStatus)
}.

Lemma handoff_row_fits r t : contract_ok r = true -> handoff_fits (handoff_row r t) = true.
Proof.
  intros Hr. apply andb_true_iff in Hr as [Hr _]. cbn in Hr. bools.
  repeat match goal with Hl : len_in _ _ _ = true |- _ => apply len_in_spec in Hl end.
  unfold handoff_fits, handoff_row, fits. cbn -[py_len enum_value u].
  rewrite !andb_true_iff, !Z.leb_le. split_and!; try lia. by vm_compute.
Qed.

Lemma same_or_open_iff req k r t :
  same_or_open req k r = true <-> any_handoff_conflict (handoff_row req t) r = true.
Proof.
  unfold same_or_open, any_handoff_conflict.
  rewrite andb_true_iff, !orb_true_iff, uq_handoffs_idempotency_true, uq_handoffs_open_true.
  unfold handoff_open. rewrite !bool_decide_eq_true, Z.eqb_eq.
  change (h_status (handoff_row req t)) with (u "requested").
  change (enum_value HS_REQUESTED) with (u "requested"). change (enum_value HS_CLAIMED) with (u "claimed").
  assert (u "requested" ∈ [u "requested"; u "claimed"]) by set_solver. cbn [h_conversation_id h_idempotency_key handoff_row]. naive_solver.
Qed.

Lemma oldest_first_order : row_order oldest_first.
Proof.
  unfold oldest_first. split.
  - intros x y. rewrite !orb_true_iff, !andb_true_iff, !Z.ltb_lt, !Z.eqb_eq, !Z.leb_le. lia.
  - intros x y z. rewrite !orb_true_iff, !andb_true_iff, !Z.ltb_lt, !Z.eqb_eq, !Z.leb_le. lia.
Qed.

Lemma any_conflict_sym r s : any_handoff_conflict r s = any_handoff_conflict s r.
Proof.
  apply eq_true_iff_eq. unfold any_handoff_conflict.
  rewrite !orb_true_iff, !uq_handoffs_idempotency_true, !uq_handoffs_open_true. naive_solver.
Qed.

Lemma handoffs_wf_put d d' k r :
  handoffs_wf d -> handoffs d' = <[k := r]> (handoffs d) ->
  (forall k' r', handoffs d !! k' = Some r' -> any_handoff_conflict r r' = false) ->
  (exists s, h_status r = enum_value (s : HandoffStatus)) -> handoffs_wf d'.
Proof.
  intros [Hi Ho Hs] Hh Hnew Hst.
  assert (forall c, (forall r s, c r s = true -> any_handoff_conflict r s = true) ->
    (forall k k' r r', handoffs d !! k = Some r -> handoffs d !! k' = Some r' -> c r r' = true -> k = k') ->
    forall k k' r r', handoffs d' !! k = Some r -> handoffs d' !! k' = Some r' -> c r r' = true -> k = k')
    as Hput.
  { intros c Hc Hold k1 k2 r1 r2. rewrite Hh, !lookup_insert_Some.
    intros [[<- <-]|[_ H1']] [[<- <-]|[_ H2']] Hu; [done| | |by eapply Hold].
    - apply Hc in Hu. by rewrite (Hnew k2 r2) in Hu.
    - apply Hc in Hu. by rewrite any_conflict_sym, (Hnew k1 r1) in Hu. }
  split.
  - apply Hput; [|exact Hi]. intros ?? Hu. unfold any_handoff_conflict. by rewrite Hu.
  - apply Hput; [|exact Ho]. intros ?? Hu. unfold any_handoff_conflict. by rewrite Hu, orb_true_r.
  - intros k' r'. rewrite Hh. intros [[<- <-]|[_ Hk]]%lookup_insert_Some; [done|by eapply Hs].
Qed.
End invariant.

(** ** Runs while the database answers *)

Section runs.
Context `{SqlEngine} `{RedisServer} `{Env}.
Hypothesis up : forall n, db_up n = true.

Abbreviation conversations w := (rows (db_conversations (w_db w))).
Abbreviation handoffs w := (rows (db_handoffs (w_db w))).

(** What a request starts from. *)
Record requestable (req : HandoffRequest) (w : World) : Prop := {
  rq_wf : handoffs_wf (w_db w);
  rq_fresh : forall k, w_next_id w <= k -> handoffs w !! k = None;
  rq_conversation : exists c, conversations w !! hr_conversation_id req = Some c /\
    conversation_fits c = true
}.

(** The handoff answered: a new open one when the conversation had none with
    the key and none open, else the oldest of those. *)
Definition answered (req : HandoffRequest) (w : World) (p : PersistedHandoff) (w' : World) : Prop :=
  exists r, handoffs w' !! ph_id p = Some r /\
    p = persisted_handoff (ph_id p) r (ph_created p) (ph_status p) /\
    h_status r = enum_value (ph_status p) /\ same_or_open req (ph_id p) r = true /\
    if ph_created p
    then (forall k r', handoffs w !! k = Some r' -> same_or_open req k r' = false) /\
         handoff_open r = true /\ handoffs w' = <[ph_id p := r]> (handoffs w)
    else (forall k r', handoffs w !! k = Some r' -> same_or_open req k r' = true ->
            oldest_first (ph_id p, r) (k, r') = true) /\ handoffs w' = handoffs w.

(** The row the answer is made from, before the conversation is marked. *)
Lemma find_handoff_up req w :
  requestable req w -> contract_ok req = true ->
  exists inserted id row w', insert_row any_handoff_conflict no_constraint
      (conversation_exists (hr_conversation_id req)) (w_next_id w) (handoff_row req)
      (mkWorld _ _ (w_db w) (w_redis w) (w_lifecycle w) (w_io w) (w_next_id w + 1) (w_tick w)) =
        (Ok inserted, w') /\
    w_next_id w' = w_next_id w + 1 /\ conversations w' = conversations w /\
    match inserted with
    | Some r => id = w_next_id w /\ row = r /\ (exists t, r = handoff_row req t) /\
        handoffs w' = <[id := r]> (handoffs w) /\
        (forall k r', handoffs w !! k = Some r' -> same_or_open req k r' = false)
    | None => handoffs w' = handoffs w /\ handoffs w !! id = Some row /\
        same_or_open req id row = true /\
        (exists l, sql_select (same_or_open req) oldest_first (tbl (w_db w')) = (id, row) :: l) /\
        forall k r', handoffs w !! k = Some r' -> same_or_open req k r' = true ->
          oldest_first (id, row) (k, r') = true
    end.
Proof.
  intros Hq Hok. set (w1 := mkWorld _ _ _ _ _ _ _ _). set (t := clock (w_tick w1)).
  destruct (conflicts any_handoff_conflict (handoff_row req t) (handoffs w)) eqn:Hc.
  - edestruct (insert_skip_up any_handoff_conflict no_constraint
      (conversation_exists (hr_conversation_id req)) (w_next_id w) (handoff_row req) w1)
      as (d & Hins & ->); [apply up|intros; by apply handoff_row_fits| |].
    { intros t'. apply conflicts_true. apply conflicts_true in Hc as (k & r & Hk & Hu).
      exists k, r. split; [done|]. apply (same_or_open_iff req k r t'). by apply (same_or_open_iff req k r t). }
    assert (handoffs (tick (with_db (w_db w1) w1)) = handoffs w) as Hsame by done.
    set (w2 := tick (with_db (w_db w1) w1)) in *.
    pose proof (select_head_least (same_or_open req) oldest_first (tbl (w_db w2))) as Hleast.
    destruct (sql_select (same_or_open req) oldest_first (tbl (w_db w2))) as [|[id row] l] eqn:Hs.
    { apply conflicts_true in Hc as (k & r & Hk & Hu).
      rewrite select_nil in Hs. specialize (Hs k r Hk). apply same_or_open_iff with (k := k) in Hu.
      congruence. }
    assert ((id, row) ∈ sql_select (same_or_open req) oldest_first (tbl (w_db w2))) as Hin
      by (rewrite Hs; set_solver). apply elem_of_select in Hin as [Hid Hp].
    exists None, id, row, w2. do 3 (split; [done|]). split; [done|]. split; [exact Hid|].
    split; [done|]. split; [eauto|]. intros k r' Hk Hp'.
    apply (Hleast (id, row) l oldest_first_order eq_refl). rewrite <- Hs. by apply elem_of_select.
  - edestruct (insert_up any_handoff_conflict no_constraint
      (conversation_exists (hr_conversation_id req)) (w_next_id w) (handoff_row req) w1)
      as (tb & Hins & Hr);
      [apply up|by apply handoff_row_fits|exact Hc|by apply conflicts_false
      |by apply (rq_fresh _ _ Hq)| |].
    { apply bool_decide_eq_true. destruct (rq_conversation _ _ Hq) as (c & Hcv & _). by exists c. }
    exists (Some (handoff_row req t)). do 3 eexists. split; [exact Hins|]. split; [done|].
    split; [done|]. split; [reflexivity|]. split; [reflexivity|]. split; [by exists t|].
    split; [exact Hr|]. intros k r' Hk. apply not_true_iff_false. rewrite (same_or_open_iff req k r' t).
    apply not_true_iff_false. by eapply conflicts_false.
Qed.

Lemma mark_up req w c :
  conversations w !! hr_conversation_id req = Some c -> conversation_fits c = true ->
  exists t w', update_returning (fun k _ => k =? hr_conversation_id req) needs_human w =
      (Ok [hr_conversation_id req], w') /\ w_next_id w' = w_next_id w /\
    handoffs w' = handoffs w /\
    conversations w' = <[hr_conversation_id req := needs_human t c]> (conversations w).
Proof.
  intros Hc Hfit.
  edestruct (update_up (fun k (_ : ConversationRecord) => k =? hr_conversation_id req) needs_human w)
    as (tb & Hrun & Hr); [apply up|exact Hc|apply Z.eqb_refl| | |].
  - intros k' r' _ Hk. by apply Z.eqb_eq.
  - cbn. unfold conversation_fits in *. cbn -[fits enum_value] in *. bools.
    repeat match goal with Hx : fits _ _ = true |- _ => rewrite Hx; clear Hx end. by vm_compute.
  - do 2 eexists. split; [exact Hrun|]. done.
Qed.

(** The handoff that is inserted or found is the one the request is answered
    with, in any world with the same handoffs. *)
Lemma found_answered req w w' inserted id row s :
  h_status row = enum_value s ->
  match inserted with
  | Some r => id = w_next_id w /\ row = r /\ (exists t, r = handoff_row req t) /\
      handoffs w' = <[id := r]> (handoffs w) /\
      (forall k r', handoffs w !! k = Some r' -> same_or_open req k r' = false)
  | None => handoffs w' = handoffs w /\ handoffs w !! id = Some row /\
      same_or_open req id row = true /\
      forall k r', handoffs w !! k = Some r' -> same_or_open req k r' = true ->
        oldest_first (id, row) (k, r') = true
  end ->
  answered req w (persisted_handoff id row (bool_decide (is_Some inserted)) s) w'.
Proof.
  intros Hs Hcase. exists row. cbn [ph_id ph_created ph_status persisted_handoff].
  destruct inserted as [r|]; cbn.
  - destruct Hcase as (-> & -> & (t' & ->) & -> & Hno). rewrite lookup_insert_eq.
    split; [done|]. split; [done|]. split; [exact Hs|]. split; [|done].
    by apply (same_or_open_iff req _ _ t'), orb_true_iff; left; apply uq_handoffs_idempotency_true.
  - destruct Hcase as (-> & Hid & Hp & Hl). done.
Qed.

Lemma request_up req w :
  requestable req w -> contract_ok req = true ->
  exists p w', request req w = (Ok p, w') /\ answered req w p w' /\
    requestable req w' /\
    exists c, conversations w' !! hr_conversation_id req = Some c /\
      c_status c = enum_value CW_NEEDS_HUMAN.
Proof.
  intros Hq Hok. unfold request. rewrite bind_run. unfold uuid4 at 1. cbv beta iota zeta.
  destruct (find_handoff_up req w Hq Hok) as (ins & id & row & w1 & Hins & Hn1 & Hc1 & Hcase).
  erewrite bind_ok_run by exact Hins.
  assert ((match ins with
           | Some r => mret (w_next_id w, r)
           | None => found ← select (same_or_open req) oldest_first; lift (one (take 1 found))
           end : M (Z * HandoffRecord)) w1 =
    (Ok (id, row), match ins with Some _ => w1 | None => tick w1 end)) as Hfind.
  { destruct ins as [r|]; [by destruct Hcase as (-> & -> & _)|].
    destruct Hcase as (_ & _ & _ & (l & Hl) & _).
    erewrite bind_ok_run by by apply select_up. by rewrite Hl. }
  erewrite bind_ok_run by exact Hfind. set (w2 := match ins with Some _ => w1 | None => tick w1 end) in *.
  assert (w_next_id w2 = w_next_id w + 1 /\ conversations w2 = conversations w /\
    handoffs w2 = handoffs w1) as (Hn2 & Hc2 & Hh2) by by destruct ins.
  destruct (rq_conversation _ _ Hq) as (c & Hc & Hfit).
  destruct (mark_up req w2 c) as (t & w3 & Hmark & Hn3 & Hh3 & Hc3); [by rewrite Hc2|done|].
  erewrite bind_ok_run by exact Hmark.
  assert (exists s, h_status row = enum_value (s : HandoffStatus)) as (s & Hs).
  { destruct ins as [r|].
    - destruct Hcase as (_ & -> & (t' & ->) & _). by exists HS_REQUESTED.
    - destruct Hcase as (_ & Hid & _). by eapply (wf_status _ (rq_wf _ _ Hq)). }
  unfold handoff_status. rewrite Hs, enum_of_value. erewrite bind_ok_run by reflexivity.
  do 2 eexists. split; [reflexivity|].
  assert (c_status (needs_human t c) = enum_value CW_NEEDS_HUMAN) as Hst by done.
  assert (answered req w (persisted_handoff id row (bool_decide (is_Some ins)) s) w3) as Hans.
  { apply found_answered; [exact Hs|]. rewrite Hh3, Hh2. destruct ins; [exact Hcase|naive_solver]. }
  split; [exact Hans|]. split; [|exists (needs_human t c); by rewrite Hc3, lookup_insert_eq].
  split.
  - destruct ins as [r|].
    + destruct Hcase as (_ & -> & (t' & ->) & Hh1 & Hno).
      eapply (handoffs_wf_put (w_db w)); [apply Hq|by rewrite Hh3, Hh2| |by eauto].
      intros k r' Hk. apply not_true_iff_false. intros Hu.
      apply (same_or_open_iff req k r' t') in Hu. by rewrite (Hno k r') in Hu.
    + destruct Hcase as (Hh1 & _). destruct (rq_wf _ _ Hq) as [? ? ?].
      split; rewrite Hh3, Hh2, Hh1; done.
  - rewrite Hn3, Hn2, Hh3, Hh2. intros k Hk. destruct ins as [r|].
    + destruct Hcase as (-> & _ & _ & -> & _). rewrite lookup_insert_ne by lia.
      apply (rq_fresh _ _ Hq). lia.
    + destruct Hcase as (-> & _). apply (rq_fresh _ _ Hq). lia.
  - exists (needs_human t c). rewrite Hc3, lookup_insert_eq. split; [done|].
    unfold conversation_fits in *. cbn -[fits enum_value] in *. bools.
    repeat match goal with Hx : fits _ _ = true |- _ => rewrite Hx; clear Hx end. by vm_compute.
Qed.
End runs.

(** ** Properties *)

Section properties.
Context `{SqlEngine} `{RedisServer} `{Env}.

Abbreviation conversations w := (rows (db_conversations (w_db w))).
Abbreviation handoffs w := (rows (db_handoffs (w_db w))).

(** C39. A valid request for a stored conversation always gets a handoff: the
    SELECT after a skipped INSERT never comes back empty.  The answer is a
    new open handoff exactly when the conversation had none open and none
    with the key, else the oldest of those; the conversation then needs a
    person; the constraints, so the single open handoff, are kept; and the
    same request again answers the same handoff and creates nothing. *)
Theorem handoff_request_answered req w :
  (forall n, db_up n = true) -> requestable req w -> contract_ok req = true ->
  exists p w1, request req w = (Ok p, w1) /\ answered req w p w1 /\ handoffs_wf (w_db w1) /\
    (exists c, conversations w1 !! hr_conversation_id req = Some c /\
       c_status c = enum_value CW_NEEDS_HUMAN) /\
    exists q w2, request req w1 = (Ok q, w2) /\ ph_id q = ph_id p /\ ph_created q = false /\
      handoffs w2 = handoffs w1.
Proof.
  intros up Hq Hok. destruct (request_up up req w Hq Hok) as (p & w1 & Hrun & Hans & Hq1 & Hc).
  destruct (request_up up req w1 Hq1 Hok) as (q & w2 & Hrun2 & Hans2 & _ & _).
  exists p, w1. split; [done|]. split; [done|]. split; [apply Hq1|]. split; [done|].
  exists q, w2. split; [done|].
  destruct Hans as (r & Hr & _ & _ & Hp & Hcase), Hans2 as (r2 & Hr2 & _ & _ & Hp2 & Hcase2).
  destruct (ph_created q).
  { destruct Hcase2 as [Hno _]. by rewrite (Hno _ _ Hr) in Hp. }
  destruct Hcase2 as [Hmin Hsame]. split; [|done]. rewrite Hsame in Hr2.
  specialize (Hmin _ _ Hr Hp). destruct (ph_created p).
  - destruct Hcase as (Hno & _ & Hh). rewrite Hh in Hr2.
    apply lookup_insert_Some in Hr2 as [[? _]|[_ Hr2]]; [done|].
    by rewrite (Hno _ _ Hr2) in Hp2.
  - destruct Hcase as [Hmin' Hh]. rewrite Hh in Hr2. specialize (Hmin' _ _ Hr2 Hp2).
    revert Hmin Hmin'. unfold oldest_first. cbn.
    rewrite !orb_true_iff, !andb_true_iff, !Z.ltb_lt, !Z.eqb_eq, !Z.leb_le. lia.
Qed.
End properties.

Section concrete.
#[local] Existing Instances map_engine scheduled_server sample_env.

Definition sample_handoff : HandoffRequest := {|
  hr_conversation_id := 1; hr_idempotency_key := u "wamid.in"; hr_reason := u "reclamo";
  hr_trace_id := u "trace-1" |}.

Lemma handoff_request_answered_witness :
  exists p w1, request sample_handoff sample_world = (Ok p, w1) /\ ph_created p = true.
Proof.
  destruct (handoff_request_answered sample_handoff sample_world)
    as (p & w1 & Hrun & Hans & _).
  - done.
  - split; [split; done|done|]. exists sample_conversation. by split; vm_compute.
  - by vm_compute.
  - exists p, w1. split; [exact Hrun|].
    assert ((request sample_handoff sample_world).1 =
      Ok (persisted_handoff 100 (handoff_row sample_handoff 1700000000000000) true HS_REQUESTED))
      as He by (vm_compute; reflexivity). rewrite Hrun in He. by injection He as ->.
Defined.

(** A conversation whose handoff was resolved. *)
Definition resolved_handoff : HandoffRecord := {|
  h_conversation_id := 1; h_idempotency_key := u "wamid.in"; h_status := u "resolved";
  h_reason := u "reclamo"; h_trace_id := u "trace-1"; h_created_at := 0;
  h_resolved_at := Some 1 |}.
Definition resolved_world : World :=
  with_db (mkDb map_engine {[1 := sample_conversation]} ∅ {[7 := resolved_handoff]} ∅ ∅) sample_world.

(** Replaying the key of a resolved handoff marks the conversation as
    needing a person although it has no open handoff. *)
Theorem handoff_replay_reopens :
  exists p w1, request sample_handoff resolved_world = (Ok p, w1) /\
    ph_status p = HS_RESOLVED /\ ph_created p = false /\
    (exists c, rows (db_conversations (w_db w1)) !! 1 = Some c /\
       c_status c = enum_value CW_NEEDS_HUMAN) /\
    forall k r, rows (db_handoffs (w_db w1)) !! k = Some r -> handoff_open r = false.
Proof.
  exists (persisted_handoff 7 resolved_handoff false HS_RESOLVED).
  exists (request sample_handoff resolved_world).2.
  split; [apply run_fst; vm_compute; reflexivity|]. split; [done|]. split; [done|].
  split; [exists (needs_human 1700000000000002 sample_conversation); split; vm_compute; reflexivity|].
  intros k r Hk. assert (rows (db_handoffs (w_db (request sample_handoff resolved_world).2)) =
    {[7 := resolved_handoff]}) as Hh by by vm_compute.
  rewrite Hh in Hk. by apply lookup_singleton_Some in Hk as [_ <-].
Qed.
End concrete.
