(* ===== verification/Processing.v ===== *)
(** * The processing queue ([src/piki/db/processing.py])

    [PostgresMessageProcessingStore]: inbound messages as jobs.  A claim takes
    the first job that is due, or whose claim went stale, skipping the rows
    other sessions hold; the claimed job ends completed, failed, or pending
    again.  [RowLocks] is the environment of the claim: the rows locked by
    other sessions at each tick. *)
From S2P Require Import Prelude PyStr Errors Contracts Events Sql Redis Models World.
From S2P Require Import Session Sample Conversations.

Local Open Scope Z_scope.

(** ** Data *)

Inductive ProcessingStatus := PR_PENDING | PR_PROCESSING | PR_COMPLETED | PR_FAILED.
#[export] Instance ProcessingStatus_eq_dec : EqDecision ProcessingStatus.
Proof. solve_decision. Defined.
#[export] Program Instance ProcessingStatus_enum : StrEnum ProcessingStatus := {|
  enum_all := [PR_PENDING; PR_PROCESSING; PR_COMPLETED; PR_FAILED];
  enum_value s := match s with
    | PR_PENDING => u "pending" | PR_PROCESSING => u "processing"
    | PR_COMPLETED => u "completed" | PR_FAILED => u "failed" end
|}.
Solve All Obligations with enum_laws.

Record ClaimedInbound := {
  ci_message_record_id : Z;
  ci_conversation_record_id : Z;
  ci_channel_account_id : str;
  ci_message : InboundMessage;
  ci_attempts : Z
}.
#[export] Instance ClaimedInbound_contract : Contract ClaimedInbound := {|
  fields_ok c := len_in 1 255 (ci_channel_account_id c) && (1 <=? ci_attempts c);
  model_validator _ := None
|}.

Class RowLocks := { row_locked : nat -> Z -> bool }.

(** ** Statements *)

(** [column <= t]: not true of NULL. *)
Definition at_most (column : option Z) (t : Z) : bool :=
  match column with Some c => c <=? t | None => false end.

Definition status_is (s : ProcessingStatus) (m : MessageRecord) : bool :=
  bool_decide (m_processing_status m = Some (enum_value s)).

(** The WHERE clause of [claim_next]. *)
Definition eligible (now stale_before : Z) (m : MessageRecord) : bool :=
  bool_decide (m_direction m = u "inbound") &&
  ((status_is PR_PENDING m && at_most (m_processing_available_at m) now) ||
   (status_is PR_PROCESSING m && at_most (m_processing_claimed_at m) stale_before)).

(** ORDER BY processing_available_at, created_at, with NULLS LAST. *)
Definition queue_order (x y : Z * MessageRecord) : bool :=
  let earlier := m_created_at x.2 <=? m_created_at y.2 in
  match m_processing_available_at x.2, m_processing_available_at y.2 with
  | Some a, Some b => (a <? b) || ((a =? b) && earlier)
  | Some _, None => true
  | None, Some _ => false
  | None, None => earlier
  end.

(** The attributes assigned to the claimed row. *)
Definition mark_claimed (now : Z) (m : MessageRecord) : MessageRecord :=
  {| m_conversation_id := m_conversation_id m; m_external_message_id := m_external_message_id m;
     m_direction := m_direction m; m_kind := m_kind m; m_content_text := m_content_text m;
     m_trace_id := m_trace_id m; m_processing_status := Some (enum_value PR_PROCESSING);
     m_processing_attempts := m_processing_attempts m + 1;
     m_processing_available_at := m_processing_available_at m;
     m_processing_claimed_at := Some now; m_processing_error_code := None;
     m_created_at := m_created_at m |}.

(** The values of the UPDATE of [_transition]. *)
Definition transitioned (status : ProcessingStatus) (error_code : option str)
    (available_at : option Z) (m : MessageRecord) : MessageRecord :=
  {| m_conversation_id := m_conversation_id m; m_external_message_id := m_external_message_id m;
     m_direction := m_direction m; m_kind := m_kind m; m_content_text := m_content_text m;
     m_trace_id := m_trace_id m; m_processing_status := Some (enum_value status);
     m_processing_attempts := m_processing_attempts m;
     m_processing_available_at := available_at; m_processing_claimed_at := None;
     m_processing_error_code := error_code; m_created_at := m_created_at m |}.

(** [Channel(value)] and [MessageKind(value)]. *)
Definition channel_of (value : str) : res Channel :=
  match enum_of value with Some c => Ok c | None => Raise (ValueError (u "not a valid Channel")) end.
Definition kind_of (value : str) : res MessageKind :=
  match enum_of value with Some k => Ok k | None => Raise (ValueError (u "not a valid MessageKind")) end.

(** The job built from the claimed row [m] and its conversation. *)
Definition claimed_inbound (id : Z) (m : MessageRecord) (c : ConversationRecord)
    : res ClaimedInbound :=
  match m_external_message_id m with
  | None => Raise (RuntimeError (u "processable inbound message has no external ID"))
  | Some message_id =>
      channel ← channel_of (c_channel c);
      kind ← kind_of (m_kind m);
      message ← construct {| im_message_id := message_id; im_channel := channel;
        im_conversation_id := c_external_conversation_id c;
        im_sender_id := c_external_conversation_id c; im_kind := kind;
        im_text := m_content_text m; im_received_at := utc (m_created_at m); im_metadata := ∅ |};
      construct {| ci_message_record_id := id; ci_conversation_record_id := m_conversation_id m;
                   ci_channel_account_id := c_channel_account_id c; ci_message := message;
                   ci_attempts := m_processing_attempts m |}
  end.

Section store.
Context `{SqlEngine} `{RedisServer} `{Env} `{RowLocks}.

(** Messages joined with their conversations, the locked ones skipped. *)
Definition due_jobs (locked : Z -> bool) (now stale_before : Z) (d : Db)
    : list (Z * MessageRecord * ConversationRecord) :=
  omap (fun row => c ← rows (db_conversations d) !! m_conversation_id row.2; Some (row, c))
    (sql_select (fun k m => eligible now stale_before m && negb (locked k)) queue_order
       (db_messages d)).

Definition select_due (now stale_before : Z)
    : M (list (Z * MessageRecord * ConversationRecord)) := fun w =>
  stmt (fun _ d => (Ok (take 1 (due_jobs (row_locked (w_tick w)) now stale_before d)), d)) w.

Definition claim_next (claim_timeout_seconds : Z) : M (option ClaimedInbound) :=
  now ← now;
  let stale_before := now - claim_timeout_seconds * second in
  session (
    found ← select_due now stale_before;
    row ← lift (one_or_none found);
    match row with
    | None => mret None
    | Some (id, record, conversation) =>
        job ← lift (claimed_inbound id (mark_claimed now record) conversation);
        update_returning (fun k _ => k =? id) (fun _ => mark_claimed now);;
        mret (Some job)
    end).

Definition _transition (message_record_id : Z) (status : ProcessingStatus)
    (error_code : option str) (available_at : option Z) : M unit :=
  session (
    ids ← update_returning
      (fun k m => (k =? message_record_id) && status_is PR_PROCESSING m)
      (fun _ => transitioned status error_code available_at);
    updated ← lift (one_or_none ids);
    match updated with
    | None => raise (RuntimeError (u "message processing claim is no longer active"))
    | Some _ => mret tt
    end).

Definition complete (message_record_id : Z) : M unit :=
  _transition message_record_id PR_COMPLETED None None.

(** [retry_delay] in microseconds. *)
Definition fail (message_record_id : Z) (error_code : str) (retry : bool) (retry_delay : Z)
    : M unit :=
  let status := if retry then PR_PENDING else PR_FAILED in
  available_at ← (if retry then t ← now; mret (Some (t + retry_delay)) else mret None);
  _transition message_record_id status (Some error_code) available_at.
End store.

(** ** The life of a job *)

(** One change of a row by the store. *)
Inductive job_step : MessageRecord -> MessageRecord -> Prop :=
| job_claimed now m :
    m_processing_status m = Some (enum_value PR_PENDING) \/
    m_processing_status m = Some (enum_value PR_PROCESSING) ->
    job_step m (mark_claimed now m)
| job_transitioned status error_code available_at m :
    m_processing_status m = Some (enum_value PR_PROCESSING) -> status <> PR_PROCESSING ->
    job_step m (transitioned status error_code available_at m).

Definition job_done (m : MessageRecord) : Prop :=
  m_processing_status m = Some (enum_value PR_COMPLETED) \/
  m_processing_status m = Some (enum_value PR_FAILED).

Lemma job_done_stays m m' : job_done m -> job_step m m' -> False.
Proof. intros [Hm|Hm] Hs; destruct Hs as [? ? [Hp|Hp]|]; rewrite Hm in *; by vm_compute in *. Qed.

Section progress.
Context `{SqlEngine}.

Abbreviation messages d := (rows (db_messages d)).

(** No job disappears and each one moves by steps; no other table changes. *)
Definition queue_progress : relation Db := fun d d' =>
  (forall k, messages d !! k = None -> messages d' !! k = None) /\
  (forall k m, messages d !! k = Some m ->
     exists m', messages d' !! k = Some m' /\ rtc job_step m m') /\
  db_conversations d' = db_conversations d /\ db_handoffs d' = db_handoffs d /\
  db_attempts d' = db_attempts d /\ db_events d' = db_events d.

#[export] Instance queue_progress_preorder : PreOrder queue_progress.
Proof.
  split.
  - intros d. split_and!; try done. intros k m Hk. exists m. split; [done|apply rtc_refl].
  - intros d1 d2 d3 (Hn1 & Hs1 & ?) (Hn2 & Hs2 & ?). split; [auto|]. split; [|naive_solver congruence].
    intros k m Hk. apply Hs1 in Hk as (m2 & Hk2 & Hr1). apply Hs2 in Hk2 as (m3 & Hk3 & Hr2).
    exists m3. split; [done|by etrans].
Qed.
End progress.

(** ** Runs *)

Section runs.
Context `{SqlEngine} `{RedisServer} `{Env} `{RowLocks}.

Abbreviation conversations w := (rows (db_conversations (w_db w))).
Abbreviation messages w := (rows (db_messages (w_db w))).

Lemma queue_order_order : row_order queue_order.
Proof.
  unfold queue_order. split.
  - intros x y. repeat case_match; rewrite ?orb_true_iff, ?andb_true_iff, ?Z.ltb_lt, ?Z.eqb_eq, ?Z.leb_le;
      try lia; auto.
  - intros x y z. repeat case_match;
      rewrite ?orb_true_iff, ?andb_true_iff, ?Z.ltb_lt, ?Z.eqb_eq, ?Z.leb_le; try lia; try done.
Qed.

Lemma one_or_none_take {A} (l : list A) : one_or_none (take 1 l) = Ok (head l).
Proof. by destruct l. Qed.

Lemma elem_of_due lk t s d k m c :
  (k, m, c) ∈ due_jobs lk t s d <->
  rows (db_messages d) !! k = Some m /\ eligible t s m = true /\ lk k = false /\
  rows (db_conversations d) !! m_conversation_id m = Some c.
Proof.
  unfold due_jobs. rewrite list_elem_of_omap. split.
  - intros ([k' m'] & Hin & Hc). apply elem_of_select in Hin as [Hk Hp]. cbn in Hc.
    destruct (rows (db_conversations d) !! m_conversation_id m') as [c'|] eqn:Hc'; [|done].
    cbn in Hc. simplify_eq. bools. done.
  - intros (Hk & He & Hl & Hc). exists (k, m). split; [apply elem_of_select; split; [done|by rewrite He, Hl]|].
    cbn. by rewrite Hc.
Qed.

(** The first due job precedes the others. *)
Lemma due_head_least lk t s d k m c l :
  due_jobs lk t s d = (k, m, c) :: l ->
  forall k' m' c', (k', m', c') ∈ due_jobs lk t s d -> queue_order (k, m) (k', m') = true.
Proof.
  unfold due_jobs.
  set (p := fun k m => eligible t s m && negb (lk k)).
  pose proof (sql_select_sorted p queue_order (db_messages d) queue_order_order) as Hs.
  revert Hs. generalize (sql_select p queue_order (db_messages d)). intros rs Hs.
  induction Hs as [|[k1 m1] rs Hs IH Hall]; [done|]. cbn [omap list_omap].
  destruct (rows (db_conversations d) !! m_conversation_id m1) as [c1|] eqn:Hc1; cbn in *;
    rewrite Hc1; cbn; [|apply IH].
  intros [= -> -> -> <-] k' m' c' [Heq|Hin]%elem_of_cons.
  - simplify_eq. by destruct (proj1 queue_order_order (k, m) (k, m)).
  - apply list_elem_of_omap in Hin as ([k2 m2] & Hin & Hc2). cbn in Hc2.
    destruct (rows (db_conversations d) !! m_conversation_id m2); [|done]. cbn in Hc2. simplify_eq.
    rewrite Forall_forall in Hall. by apply Hall.
Qed.

(** How a claim that returns ends. *)
Lemma claim_ok_inv timeout w o w' :
  claim_next timeout w = (Ok o, w') ->
  let t := clock (w_tick w) in
  let due := due_jobs (row_locked (S (w_tick w))) t (t - timeout * second) (w_db w) in
    match o with
    | None => due = [] /\ w_db w' = w_db w
    | Some job => exists id m c l tb, due = (id, m, c) :: l /\
        claimed_inbound id (mark_claimed t m) c = Ok job /\
        w_db w' = set_tbl tb (w_db w) /\
        rows tb = <[id := mark_claimed t m]> (messages w)
    end.
Proof.
  unfold claim_next. rewrite bind_run. unfold now at 1. cbv beta iota zeta.
  set (t := clock (w_tick w)). set (w0 := tick w). intros (w1 & Hb & ->)%session_ok_inv.
  apply bind_ok_inv in Hb as (found & w2 & Hsel & Hb).
  unfold select_due, stmt in Hsel. destruct (db_up (w_tick w0)); [|done].
  cbv zeta. change (w_db w0) with (w_db w) in Hsel.
  set (due := due_jobs _ _ _ _) in *. injection Hsel as <- <-.
  rewrite one_or_none_take in Hb. apply bind_ok_inv in Hb as (row & w3 & [Hrow ->]%lift_ok_inv & Hb).
  injection Hrow as <-. destruct due as [|[[id m] c] l] eqn:Hdue; cbn [head] in Hb.
  - by apply ret_ok_inv in Hb as [-> ->].
  - apply bind_ok_inv in Hb as (job & w4 & [Hjob ->]%lift_ok_inv & Hb).
    apply bind_ok_inv in Hb as (ids & w5 & Hupd & [-> ->]%ret_ok_inv).
    apply update_ok_inv in Hupd as (t' & tb & _ & Hd & Hr).
    assert (messages w !! id = Some m) as Hm.
    { assert ((id, m, c) ∈ due) as Hin by (rewrite Hdue; by left). by apply elem_of_due in Hin as [? _]. }
    exists id, m, c, l, tb. split; [done|]. split; [exact Hjob|]. split; [exact Hd|].
    rewrite Hr. cbn. apply update_spec_key; [exact Hm|apply Z.eqb_refl|].
    intros k' r' _ Hk. by apply Z.eqb_eq.
Qed.

Lemma claim_raise_db timeout w e w' :
  claim_next timeout w = (Raise e, w') -> w_db w' = w_db w.
Proof.
  unfold claim_next. rewrite bind_run. unfold now at 1. cbv beta iota zeta.
  by intros Hs%session_raise_db.
Qed.

Lemma progress_put d d' tb k m m' :
  rows (db_messages d) !! k = Some m -> job_step m m' -> d' = set_tbl tb d ->
  rows tb = <[k := m']> (rows (db_messages d)) -> queue_progress d d'.
Proof.
  intros Hk Hs -> Hr. split_and!; try done; cbn; rewrite Hr.
  - intros k' Hk'. rewrite lookup_insert_ne; [done|congruence].
  - intros k' m0 Hk'. destruct (decide (k' = k)) as [->|Hne].
    + rewrite lookup_insert_eq. simplify_eq. exists m'. split; [done|by apply rtc_once].
    + rewrite lookup_insert_ne by done. exists m0. split; [done|apply rtc_refl].
Qed.

Lemma eligible_status t s m :
  eligible t s m = true ->
  m_direction m = u "inbound" /\
  (m_processing_status m = Some (enum_value PR_PENDING) \/
   m_processing_status m = Some (enum_value PR_PROCESSING)).
Proof.
  unfold eligible, status_is. rewrite andb_true_iff, orb_true_iff, !andb_true_iff, !bool_decide_eq_true.
  naive_solver.
Qed.

Lemma job_claim_progress timeout : keeps_db queue_progress (claim_next timeout).
Proof.
  intros w. unfold db_rel. destruct (claim_next timeout w) as [[[job|]|e] w'] eqn:Hrun; cbn.
  - apply claim_ok_inv in Hrun as (id & m & c & l & tb & Hdue & _ & Hd & Hr).
    assert ((id, m, c) ∈ (id, m, c) :: l) as Hin by by left. rewrite <- Hdue in Hin.
    apply elem_of_due in Hin as (Hm & He & _). eapply progress_put; [exact Hm| |exact Hd|exact Hr].
    apply job_claimed. by apply eligible_status in He as [_ ?].
  - apply claim_ok_inv in Hrun as (_ & ->). done.
  - apply claim_raise_db in Hrun as ->. done.
Qed.

(** *** Transitions *)

Lemma transition_ok_inv id status err av w w' :
  _transition id status err av w = (Ok tt, w') ->
  exists m tb, messages w !! id = Some m /\ status_is PR_PROCESSING m = true /\
    w_db w' = set_tbl tb (w_db w) /\
    rows tb = <[id := transitioned status err av m]> (messages w).
Proof.
  intros (w1 & Hb & ->)%session_ok_inv. apply bind_ok_inv in Hb as (ids & w2 & Hupd & Hb).
  apply update_ok_inv in Hupd as (t & tb & Hids & Hd & Hr).
  apply bind_ok_inv in Hb as (upd & w3 & [Hone ->]%lift_ok_inv & Hb).
  destruct upd as [k|]; [|done]. apply ret_ok_inv in Hb as [_ ->].
  apply one_or_none_some in Hone. subst ids.
  destruct (fst_one_inv _ _ (eq_sym Hone)) as (m & Hsel).
  apply select_one_inv in Hsel as (Hm & Hp & Hu). bools. subst k.
  exists m, tb. split; [exact Hm|]. split; [done|]. split; [exact Hd|].
  rewrite Hr. apply update_spec_key; [exact Hm|by rewrite Z.eqb_refl|].
  intros k' r' _ Hk. bools. done.
Qed.

Lemma transition_progress id status err av :
  status <> PR_PROCESSING -> keeps_db queue_progress (_transition id status err av).
Proof.
  intros Hst w. unfold db_rel. destruct (_transition id status err av w) as [[[]|e] w'] eqn:Hrun; cbn.
  - apply transition_ok_inv in Hrun as (m & tb & Hm & Hp & Hd & Hr).
    eapply progress_put; [exact Hm| |exact Hd|exact Hr]. constructor; [|done].
    by apply bool_decide_eq_true in Hp.
  - apply session_raise_db in Hrun as ->. done.
Qed.
End runs.

(** ** What is enqueued can be claimed *)

(** The job of a stored inbound message: the message without its sender and
    metadata, received when its row was created. *)
Definition job_of (k cid : Z) (acct : str) (message : InboundMessage) (t : Z) : ClaimedInbound :=
  {| ci_message_record_id := k; ci_conversation_record_id := cid; ci_channel_account_id := acct;
     ci_message := {| im_message_id := im_message_id message; im_channel := im_channel message;
       im_conversation_id := im_conversation_id message; im_sender_id := im_conversation_id message;
       im_kind := im_kind message; im_text := im_text message; im_received_at := utc t;
       im_metadata := ∅ |};
     ci_attempts := 1 |}.

Section queue.
Context `{SqlEngine} `{RedisServer} `{Env} `{RowLocks}.

Abbreviation conversations d := (rows (db_conversations d)).
Abbreviation messages d := (rows (db_messages d)).

(** Every queued message can be turned into a job. *)
Definition queue_wf (d : Db) : Prop := forall k m, messages d !! k = Some m ->
  m_direction m = u "inbound" -> m_processing_status m <> None ->
  message_fits m = true /\
  exists c job, conversations d !! m_conversation_id m = Some c /\
    claimed_inbound k (mark_claimed 0 m) c = Ok job.

Lemma claimed_time k t t' m c :
  claimed_inbound k (mark_claimed t m) c = claimed_inbound k (mark_claimed t' m) c.
Proof. done. Qed.

Lemma claimed_touch k m t c : claimed_inbound k m (touch t c) = claimed_inbound k m c.
Proof. done. Qed.

(** A valid message comes back from the queue.  The job built from the
    row [record_inbound] stores is the message itself, its identifier,
    channel, conversation, kind and text unchanged, at its first attempt;
    only the sender (the conversation), the metadata (dropped) and the time of
    reception (that of the row) are rebuilt. *)
Theorem claimed_inbound_roundtrip k cid acct message trace av t0 t c :
  inbound_fits acct message trace -> 1 <= py_len acct -> is_identity acct message c ->
  claimed_inbound k (mark_claimed t (inbound_row cid message trace av t0)) c =
    Ok (job_of k cid acct message t0).
Proof.
  intros (Hm & Ha & _) Ha' (Hch & Hac & Hex). unfold claimed_inbound. cbn [m_external_message_id mark_claimed inbound_row].
  unfold channel_of, kind_of. cbn [m_kind mark_claimed inbound_row m_content_text m_created_at m_conversation_id m_processing_attempts].
  rewrite Hch, Hac, Hex, !enum_of_value. cbn [mbind res_bind].
  apply fields_and_validator in Hm as [Hf Hv]. cbn in Hf. bools.
  rewrite construct_good; cycle 1.
  { unfold contract_ok. cbn -[len_in first_error]. apply andb_true_iff. split.
    - by repeat match goal with Hx : _ = true |- _ => rewrite Hx; clear Hx end.
    - apply first_error_none in Hv. rewrite Forall_cons in Hv. destruct Hv as [_ Hv].
      by rewrite (proj2 (first_error_none _)) by (rewrite Forall_cons; done). }
  cbn [mbind res_bind]. rewrite construct_good; [done|].
  unfold contract_ok. cbn -[len_in]. rewrite !andb_true_r. by apply len_in_spec.
Qed.

Lemma queue_wf_inbound acct message trace enqueue w p w' :
  inbound_fits acct message trace -> 1 <= py_len acct ->
  inbound_outcome acct message trace enqueue w p w' ->
  queue_wf (w_db w) -> queue_wf (w_db w').
Proof.
  intros Hin Ha ((c & Hcs & Hid & _ & Hold) & Hcase) Hq k m Hk Hdir Hst.
  assert (forall k0 m0, messages (w_db w) !! k0 = Some m0 -> m_direction m0 = u "inbound" ->
    m_processing_status m0 <> None -> message_fits m0 = true /\ exists c job,
      conversations (w_db w') !! m_conversation_id m0 = Some c /\
      claimed_inbound k0 (mark_claimed 0 m0) c = Ok job) as Hkeep.
  { intros k0 m0 Hk0 Hd0 Hs0. destruct (Hq k0 m0 Hk0 Hd0 Hs0) as (Hf & c0 & job & Hc0 & Hj).
    split; [done|]. rewrite Hcs. destruct (decide (pi_conversation_id p = m_conversation_id m0)) as [He|Hne].
    - rewrite <- He in Hc0 |- *. rewrite lookup_insert_eq.
      destruct (Hold c0 Hc0) as (t & ->). by exists (touch t c0), job.
    - rewrite lookup_insert_ne by done. by exists c0, job. }
  destruct Hcase as [(_ & _ & _ & Hms)|(_ & _ & k1 & av & t & _ & _ & _ & Hms)]; rewrite Hms in Hk; [by apply Hkeep|].
  apply lookup_insert_Some in Hk as [[<- <-]|[_ Hk]]; [|by apply Hkeep].
  split; [by eapply inbound_row_fits|]. exists c, (job_of k1 (pi_conversation_id p) acct message t).
  split; [by rewrite Hcs, lookup_insert_eq|]. by eapply claimed_inbound_roundtrip.
Qed.

(** *** Claims while the database answers *)

Lemma claim_up timeout w :
  (forall n, db_up n = true) -> queue_wf (w_db w) ->
  exists o w', claim_next timeout w = (Ok o, w').
Proof.
  intros up Hq. unfold claim_next. rewrite bind_run. unfold now at 1. cbv beta iota zeta.
  set (t := clock (w_tick w)). set (w0 := tick w). set (s := t - timeout * second).
  set (due := due_jobs (row_locked (w_tick w0)) t s (w_db w0)).
  assert (select_due t s w0 = (Ok (take 1 due), tick w0)) as Hsel.
  { unfold select_due. rewrite stmt_up by done. by rewrite with_db_same. }
  destruct due as [|[[id m] c] l] eqn:Hdue.
  - do 2 eexists. apply session_up; [done|]. erewrite bind_ok_run by exact Hsel. reflexivity.
  - assert ((id, m, c) ∈ due) as Hin by (unfold due; fold due; rewrite Hdue; by left).
    apply elem_of_due in Hin as (Hm & He & _ & Hc). apply eligible_status in He as [Hdir Hst].
    destruct (Hq id m Hm Hdir) as (Hfit & c' & job & Hc' & Hjob); [destruct Hst; congruence|].
    change (w_db w0) with (w_db w) in Hc. rewrite Hc in Hc'. injection Hc' as <-.
    edestruct (update_up (fun k (_ : MessageRecord) => k =? id) (fun _ => mark_claimed t) (tick w0))
      as (tb & Hupd & _); [done|exact Hm|apply Z.eqb_refl| | |].
    + intros k' r' _ Hk. by apply Z.eqb_eq.
    + revert Hfit. cbn. unfold message_fits. cbn -[fits fits_opt u]. rewrite !andb_true_iff.
      intros Hx. destruct_and! Hx. split_and!; try done; by vm_compute.
    + do 2 eexists. apply session_up; [done|]. erewrite bind_ok_run by exact Hsel.
      cbn [take one_or_none]. erewrite bind_ok_run by reflexivity. cbv beta iota.
      rewrite (claimed_time id t 0), Hjob. erewrite bind_ok_run by reflexivity.
      erewrite bind_ok_run by exact Hupd. reflexivity.
Qed.

(** The claimed row agrees with the job. *)
Lemma claimed_fields id m c job :
  claimed_inbound id m c = Ok job ->
  ci_message_record_id job = id /\ ci_conversation_record_id job = m_conversation_id m /\
  ci_attempts job = m_processing_attempts m /\ 1 <= ci_attempts job /\
  ci_channel_account_id job = c_channel_account_id c /\
  m_external_message_id m = Some (im_message_id (ci_message job)) /\
  im_text (ci_message job) = m_content_text m /\ contract_ok (ci_message job) = true.
Proof.
  unfold claimed_inbound. destruct (m_external_message_id m) as [e|]; [|done].
  intros (ch & _ & (ki & _ & (msg & [Hmsg ->]%construct_ok & [Hok ->]%construct_ok)%res_bind_ok)%res_bind_ok)%res_bind_ok.
  cbn -[contract_ok]. apply fields_and_validator in Hok as [Hf _]. cbn in Hf. bools. done.
Qed.

(** The store changes neither the message of a row nor its conversation. *)
Definition same_message (m m' : MessageRecord) : Prop :=
  m_conversation_id m' = m_conversation_id m /\
  m_external_message_id m' = m_external_message_id m /\ m_direction m' = m_direction m /\
  m_kind m' = m_kind m /\ m_content_text m' = m_content_text m /\
  m_created_at m' = m_created_at m /\ m_processing_attempts m <= m_processing_attempts m'.

Lemma claimed_same k m m' c job :
  claimed_inbound k (mark_claimed 0 m) c = Ok job -> same_message m m' ->
  exists job', claimed_inbound k (mark_claimed 0 m') c = Ok job'.
Proof.
  unfold claimed_inbound. cbn [m_external_message_id m_kind m_content_text m_created_at
    m_conversation_id m_processing_attempts mark_claimed].
  intros Hj (-> & -> & _ & -> & -> & -> & Hat). destruct (m_external_message_id m) as [e|]; [|done].
  apply res_bind_ok in Hj as (ch & -> & Hj). cbn [mbind res_bind].
  apply res_bind_ok in Hj as (ki & -> & Hj). cbn [mbind res_bind].
  apply res_bind_ok in Hj as (msg & -> & Hj). cbn [mbind res_bind].
  apply construct_ok in Hj as [Hok _]. eexists. apply construct_good.
  revert Hok. unfold contract_ok. cbn -[len_in Z.leb]. rewrite !andb_true_r, !andb_true_iff, !Z.leb_le.
  intros [? ?]. split; [done|lia].
Qed.

Lemma queue_wf_put d tb id m m' :
  queue_wf d -> messages d !! id = Some m -> m_direction m = u "inbound" ->
  m_processing_status m <> None -> same_message m m' -> message_fits m' = true ->
  rows tb = <[id := m']> (messages d) -> queue_wf (set_tbl tb d).
Proof.
  intros Hq Hm Hdir Hst Hsame Hfit Hr k m0. cbn. rewrite Hr.
  intros [[<- <-]|[_ Hk]]%lookup_insert_Some; [|by apply Hq]. intros _ _. split; [done|].
  destruct (Hq id m Hm Hdir Hst) as (_ & c & job & Hc & Hj).
  destruct (claimed_same id m m' c job Hj Hsame) as (job' & Hj').
  exists c, job'. split; [|done]. destruct Hsame as (-> & _). exact Hc.
Qed.

Lemma mark_fits t m : message_fits m = true -> message_fits (mark_claimed t m) = true.
Proof.
  unfold message_fits. cbn -[fits fits_opt u]. rewrite !andb_true_iff.
  intros Hx. destruct_and! Hx. split_and!; try done; by vm_compute.
Qed.

Lemma transitioned_fits status err av m :
  fits_opt 100 err = true -> message_fits m = true ->
  message_fits (transitioned status err av m) = true.
Proof.
  intros He. unfold message_fits. cbn -[fits fits_opt u]. rewrite !andb_true_iff.
  intros Hx. destruct_and! Hx. split_and!; try done. by destruct status; vm_compute.
Qed.

(** *** Transitions while the database answers *)

Lemma transition_up id status err av w m :
  (forall n, db_up n = true) -> messages (w_db w) !! id = Some m ->
  status_is PR_PROCESSING m = true -> message_fits m = true -> fits_opt 100 err = true ->
  exists w', _transition id status err av w = (Ok tt, w').
Proof.
  intros up Hm Hp Hfit He. unfold _transition.
  edestruct (update_up (fun k m => (k =? id) && status_is PR_PROCESSING m)
    (fun _ => transitioned status err av) w id m) as (tb & Hupd & _);
    [apply up|exact Hm|by rewrite Z.eqb_refl| |by apply transitioned_fits|].
  - intros k' r' _ Hk. by bools.
  - eexists. apply session_up; [exact up|]. erewrite bind_ok_run by exact Hupd. reflexivity.
Qed.

Lemma transition_inactive_up id status err av w :
  (forall n, db_up n = true) ->
  (forall m, messages (w_db w) !! id = Some m -> status_is PR_PROCESSING m = false) ->
  exists w', _transition id status err av w =
    (Raise (RuntimeError (u "message processing claim is no longer active")), w').
Proof.
  intros up Hno. unfold _transition, session, update_returning. rewrite bind_run.
  rewrite stmt_up by done.
  assert (sql_select (fun k m => (k =? id) && status_is PR_PROCESSING m) unordered (tbl (w_db w)) = [])
    as ->; [|by eexists].
  apply select_nil. intros k m Hk. destruct (k =? id) eqn:He; [|done]. bools. subst.
  by rewrite (Hno m Hk).
Qed.
End queue.

(** ** Properties *)

Section properties.
Context `{SqlEngine} `{RedisServer} `{Env} `{RowLocks}.

Abbreviation messages d := (rows (db_messages d)).

(** Due for a claim at the first tick of the run from [w]. *)
Definition due (timeout : Z) (w : World) (k : Z) (m : MessageRecord) : Prop :=
  let t := clock (w_tick w) in
  messages (w_db w) !! k = Some m /\ eligible t (t - timeout * second) m = true /\
  row_locked (S (w_tick w)) k = false.

(** The due messages of a well-formed queue are the jobs of the claim. *)
Lemma due_listed timeout w k m :
  queue_wf (w_db w) -> due timeout w k m -> exists c,
    (k, m, c) ∈ due_jobs (row_locked (S (w_tick w))) (clock (w_tick w))
      (clock (w_tick w) - timeout * second) (w_db w).
Proof.
  intros Hq (Hm & He & Hl). destruct (eligible_status _ _ _ He) as [Hd Hs].
  destruct (Hq k m Hm Hd) as (_ & c & _ & Hc & _); [destruct Hs; congruence|].
  exists c. by apply elem_of_due.
Qed.

(** C19. A claim never fails on a well-formed queue.  It answers no job exactly
    when none is due and unlocked, and then writes nothing; otherwise it takes
    a due job that precedes every other due one in the queue's order, marks
    its row (one more attempt, claimed now, error cleared), changes no other
    row, and answers the message of that row. *)
Theorem claim_takes_oldest timeout w :
  (forall n, db_up n = true) -> queue_wf (w_db w) ->
  exists o w', claim_next timeout w = (Ok o, w') /\ queue_wf (w_db w') /\
    match o with
    | None => (forall k m, ~ due timeout w k m) /\ w_db w' = w_db w
    | Some job => exists m, due timeout w (ci_message_record_id job) m /\
        (forall k' m', due timeout w k' m' ->
           queue_order (ci_message_record_id job, m) (k', m') = true) /\
        messages (w_db w') = <[ci_message_record_id job := mark_claimed (clock (w_tick w)) m]>
          (messages (w_db w)) /\
        ci_attempts job = m_processing_attempts m + 1 /\
        ci_conversation_record_id job = m_conversation_id m /\
        m_external_message_id m = Some (im_message_id (ci_message job)) /\
        im_text (ci_message job) = m_content_text m
    end.
Proof.
  intros up Hq. destruct (claim_up timeout w up Hq) as (o & w' & Hrun). exists o, w'.
  split; [done|]. apply claim_ok_inv in Hrun. cbv zeta in Hrun.
  pose proof (fun k m => due_listed timeout w k m Hq) as Hdue.
  destruct o as [job|].
  - destruct Hrun as (id & m & c & l & tb & Hl & Hjob & Hd & Hr).
    assert ((id, m, c) ∈ (id, m, c) :: l) as Hin by by left. rewrite <- Hl in Hin.
    apply elem_of_due in Hin as (Hm & He & Hlk & Hc). split.
    + destruct (eligible_status _ _ _ He) as [Hdir Hs].
      assert (m_processing_status m <> None) as Hst by (destruct Hs; congruence).
      destruct (Hq id m Hm Hdir Hst) as (Hfit & _). rewrite Hd.
      eapply queue_wf_put; [done..| |by apply mark_fits|exact Hr].
      unfold same_message. cbn. split_and!; try done; lia.
    + destruct (claimed_fields _ _ _ _ Hjob) as (-> & Hcv & Hat & _ & _ & Hext & Htext & _).
      exists m. split; [done|]. split; [|split; [by rewrite Hd|done]].
      intros k' m' (c' & Hin')%Hdue. by eapply due_head_least.
  - destruct Hrun as [Hn Hd]. split; [by rewrite Hd|]. split; [|done].
    intros k m (c & Hin)%Hdue. rewrite Hn in Hin. by apply elem_of_nil in Hin.
Qed.

(** C20. A claim excludes others until it times out.  While the row of a
    claimed job stays as the claim left it, no claim made less than the
    timeout later, in any session and whatever rows are locked, takes the
    same job. *)
Theorem claim_exclusive timeout w job w1 w2 job2 w3 :
  claim_next timeout w = (Ok (Some job), w1) ->
  messages (w_db w2) !! ci_message_record_id job = messages (w_db w1) !! ci_message_record_id job ->
  clock (w_tick w2) - timeout * second < clock (w_tick w) ->
  claim_next timeout w2 = (Ok (Some job2), w3) ->
  ci_message_record_id job2 <> ci_message_record_id job.
Proof.
  intros Hrun Hrow Ht Hrun2 Heq.
  apply claim_ok_inv in Hrun as (id & m & c & l & tb & _ & Hjob & Hd & Hr).
  apply claim_ok_inv in Hrun2 as (id2 & m2 & c2 & l2 & tb2 & Hl2 & Hjob2 & _ & _).
  destruct (claimed_fields _ _ _ _ Hjob) as (Hid & _).
  destruct (claimed_fields _ _ _ _ Hjob2) as (Hid2 & _).
  rewrite Hid, Hid2 in Heq. subst id2. rewrite Hid, Hd in Hrow. cbn in Hrow.
  rewrite Hr, lookup_insert_eq in Hrow.
  assert ((id, m2, c2) ∈ (id, m2, c2) :: l2) as Hin by by left. rewrite <- Hl2 in Hin.
  apply elem_of_due in Hin as (Hm2 & He & _). rewrite Hrow in Hm2. injection Hm2 as <-.
  unfold eligible, status_is in He. cbn -[u] in He.
  rewrite andb_true_iff, orb_true_iff, !andb_true_iff, !bool_decide_eq_true, Z.leb_le in He.
  destruct He as [_ [[Hs _]|[_ Hs]]]; [by vm_compute in Hs|lia].
Qed.

(** C21. The life of a job.  Whatever the database answers, no operation of the
    store loses a job or touches another table, and every row moves only along
    pending -> processing -> completed, failed, or pending again; a completed
    or failed job never moves. *)
Theorem queue_lifecycle timeout id error_code retry delay :
  keeps_db queue_progress (claim_next timeout) /\
  keeps_db queue_progress (complete id) /\
  keeps_db queue_progress (fail id error_code retry delay) /\
  forall m m', rtc job_step m m' -> job_done m -> m' = m.
Proof.
  split; [apply job_claim_progress|]. split; [by apply transition_progress|]. split.
  - unfold fail. destruct retry.
    + apply keeps_bind; [apply _| |intros; by apply transition_progress].
      apply keeps_bind; [apply _|apply keeps_db_now; apply _|]. intros. apply keeps_ret, _.
    + apply keeps_bind; [apply _|apply keeps_ret, _|]. intros. by apply transition_progress.
  - intros m m' Hr Hd. destruct Hr as [|m1 m2 m3 Hs _]; [done|].
    by apply job_done_stays in Hs.
Qed.

(** Only the holder of an active claim can end a job: completing it
    succeeds exactly when its row is being processed, and then sets its
    status and clears the claim in that row alone; otherwise it raises
    [RuntimeError] and writes nothing. *)
Theorem complete_exact id w :
  (forall n, db_up n = true) ->
  (forall m, messages (w_db w) !! id = Some m -> message_fits m = true) ->
  match (complete id w).1 with
  | Ok _ => exists m, messages (w_db w) !! id = Some m /\ status_is PR_PROCESSING m = true /\
      messages (w_db (complete id w).2) = <[id := transitioned PR_COMPLETED None None m]>
        (messages (w_db w))
  | Raise e => e = RuntimeError (u "message processing claim is no longer active") /\
      w_db (complete id w).2 = w_db w /\
      forall m, messages (w_db w) !! id = Some m -> status_is PR_PROCESSING m = false
  end.
Proof.
  intros up Hfit. unfold complete.
  destruct (messages (w_db w) !! id) as [m|] eqn:Hm.
  - destruct (status_is PR_PROCESSING m) eqn:Hp.
    + destruct (transition_up id PR_COMPLETED None None w m up Hm Hp) as (w' & Hrun); [by apply Hfit|done|].
      pose proof Hrun as (m' & tb & Hm' & Hp' & Hd & Hr)%transition_ok_inv. rewrite Hrun. cbn [fst snd].
      exists m'. split; [congruence|]. split; [done|]. by rewrite Hd.
    + destruct (transition_inactive_up id PR_COMPLETED None None w up) as (w' & Hrun); [naive_solver|].
      rewrite Hrun. cbn [fst snd]. split; [done|]. split; [by apply session_raise_db in Hrun|naive_solver].
  - destruct (transition_inactive_up id PR_COMPLETED None None w up) as (w' & Hrun); [congruence|].
    rewrite Hrun. cbn [fst snd]. split; [done|]. split; [by apply session_raise_db in Hrun|done].
Qed.
End properties.

Section concrete.
#[local] Existing Instances map_engine scheduled_server sample_env.

#[export] Instance no_locks : RowLocks := {| row_locked _ _ := false |}.

(** The world after one inbound message was enqueued. *)
Definition queued_world : World :=
  (record_inbound (u "phone-1") sample_message (u "meta:wamid.in") true sample_world).2.

Lemma claimed_inbound_roundtrip_witness :
  claimed_inbound 7 (mark_claimed 5 (inbound_row 1 sample_message (u "t") (Some 3) 4))
    sample_conversation = Ok (job_of 7 1 (u "phone-1") sample_message 4).
Proof.
  apply (claimed_inbound_roundtrip 7 1 (u "phone-1") sample_message (u "t"));
    by vm_compute.
Defined.

Lemma sample_queue_wf : queue_wf (w_db sample_world).
Proof. intros k m Hk. done. Qed.

Lemma queued_wf : queue_wf (w_db queued_world).
Proof.
  destruct (record_inbound_up ltac:(done) (u "phone-1") sample_message (u "meta:wamid.in") true
    sample_world sample_conversations_wf sample_statuses_fit sample_ids_fresh) as (p & w' & Hrun & Hout & _);
    [by vm_compute|].
  unfold queued_world. rewrite Hrun. eapply queue_wf_inbound; [| |exact Hout|apply sample_queue_wf];
    by vm_compute.
Qed.

Lemma claim_takes_oldest_witness :
  exists job w', claim_next 60 queued_world = (Ok (Some job), w') /\
    im_message_id (ci_message job) = u "wamid.in".
Proof.
  destruct (claim_takes_oldest 60 queued_world) as (o & w' & Hrun & _ & Ho);
    [done|apply queued_wf|].
  assert ((claim_next 60 queued_world).1 =
    Ok (Some (job_of 101 1 (u "phone-1") sample_message 1700000000000002))) as He
    by (vm_compute; reflexivity).
  rewrite Hrun in He. injection He as ->. by exists (job_of 101 1 (u "phone-1") sample_message 1700000000000002), w'.
Defined.

Definition second_message : InboundMessage := {|
  im_message_id := u "wamid.in2"; im_channel := WHATSAPP; im_conversation_id := u "5491";
  im_sender_id := u "5491"; im_kind := MK_TEXT; im_text := Some (u "chau");
  im_received_at := utc 0; im_metadata := ∅ |}.

(** Two messages in the queue; the first one claimed. *)
Definition one_claimed_world : World :=
  (claim_next 60 (record_inbound (u "phone-1") second_message (u "meta:wamid.in2") true
                    queued_world).2).2.

Lemma claim_exclusive_witness :
  (claim_next 60 one_claimed_world).1 =
    Ok (Some (job_of 103 1 (u "phone-1") second_message 1700000000000005)) /\
  ci_message_record_id (job_of 103 1 (u "phone-1") second_message 1700000000000005) <> 101.
Proof.
  assert ((claim_next 60 (record_inbound (u "phone-1") second_message (u "meta:wamid.in2") true
      queued_world).2).1 = Ok (Some (job_of 101 1 (u "phone-1") sample_message 1700000000000002))) as He1
    by (vm_compute; reflexivity).
  assert ((claim_next 60 one_claimed_world).1 =
      Ok (Some (job_of 103 1 (u "phone-1") second_message 1700000000000005))) as He2
    by (vm_compute; reflexivity).
  split; [exact He2|].
  exact (claim_exclusive 60 _ _ one_claimed_world one_claimed_world _ _ (run_fst _ _ _ He1)
           eq_refl eq_refl (run_fst _ _ _ He2)).
Defined.

Lemma complete_exact_witness :
  (complete 101 (claim_next 60 queued_world).2).1 = Ok tt /\
  exists m, rows (db_messages (w_db (claim_next 60 queued_world).2)) !! 101 = Some m /\
    status_is PR_PROCESSING m = true.
Proof.
  assert ((complete 101 (claim_next 60 queued_world).2).1 = Ok tt) as He by (vm_compute; reflexivity).
  split; [exact He|]. pose proof (complete_exact 101 (claim_next 60 queued_world).2) as Hc.
  rewrite He in Hc. destruct Hc as (m & Hm & Hp & _); [done| |by exists m].
  intros m Hm. assert (message_fits <$> rows (db_messages (w_db (claim_next 60 queued_world).2)) !! 101 =
    Some true) as Hf by (vm_compute; reflexivity). rewrite Hm in Hf. by injection Hf.
Defined.
End concrete.
