(* ===== verification/PendingActions.v ===== *)
(** * Pending actions ([src/piki/state/pending_actions.py])

    The one question a conversation is waiting on, kept in Redis under the
    conversation's scope and consumed when it is answered.  The JSON form of an
    action is the interface [JsonCodec]. *)
From S2P Require Import Prelude PyStr Errors Sha256 Contracts Events Sql Redis Models.
From S2P Require Import World Session Sample State Coordination.

Local Open Scope Z_scope.

(** ** Data *)

Inductive PendingActionKind := PK_SELECT_PICK | PK_PROVIDE_ORDER_OWNERSHIP.
#[export] Instance PendingActionKind_eq_dec : EqDecision PendingActionKind.
Proof. solve_decision. Defined.

Record PendingAction := {
  pa_action_id : str;
  pa_kind : PendingActionKind;
  pa_created_at : datetime;
  pa_subject_id : option str;
  pa_candidate_pick_ids : list str
}.
#[export] Instance PendingAction_eq_dec : EqDecision PendingAction.
Proof. solve_decision. Defined.

#[export] Instance PendingAction_contract : Contract PendingAction := {|
  fields_ok a :=
    len_in 36 36 (pa_action_id a) && opt_len_in 1 255 (pa_subject_id a) &&
    (Z.of_nat (length (pa_candidate_pick_ids a)) <=? 20);
  model_validator a := first_error [
    (negb (dt_aware (pa_created_at a)), u "created_at must include a timezone");
    (bool_decide (pa_kind a = PK_SELECT_PICK) &&
       ((Z.of_nat (length (pa_candidate_pick_ids a)) <? 2) || bool_decide (is_Some (pa_subject_id a))),
     u "pick selection requires at least two candidates and no subject");
    (bool_decide (pa_kind a = PK_PROVIDE_ORDER_OWNERSHIP) &&
       (bool_decide (pa_subject_id a = None) || negb (bool_decide (pa_candidate_pick_ids a = []))),
     u "order ownership requires one subject and no candidates");
    (existsb (fun id => negb (truthy (strip id))) (pa_candidate_pick_ids a),
     u "candidate pick IDs cannot be blank");
    (negb (bool_decide (NoDup (pa_candidate_pick_ids a))),
     u "candidate pick IDs must be unique")]
|}.

Inductive PendingActionStatus := PA_FOUND | PA_MISSING | PA_UNAVAILABLE.
#[export] Instance PendingActionStatus_eq_dec : EqDecision PendingActionStatus.
Proof. solve_decision. Defined.

Record PendingActionRead := {
  par_status : PendingActionStatus;
  par_action : option PendingAction
}.
#[export] Instance PendingActionRead_contract : Contract PendingActionRead := {|
  fields_ok _ := true;
  model_validator r := first_error [
    (xorb (bool_decide (par_status r = PA_FOUND)) (bool_decide (is_Some (par_action r))),
     u "only found pending-action reads contain an action")]
|}.

Record PendingActionWrite := {
  paw_success : bool;
  paw_state_available : bool
}.
#[export] Instance PendingActionWrite_contract : Contract PendingActionWrite := {|
  fields_ok _ := true;
  model_validator r := first_error [
    (paw_success r && negb (paw_state_available r),
     u "successful pending-action writes require available state")]
|}.

(** ** [RedisPendingActionStore] *)

Definition key_for (scope : ConversationScope) : str :=
  lock_prefix ++ u ":" ++ conversation_scope_digest scope ++ u ":pending-action".

Section store.
Context `{SqlEngine} `{RedisServer} `{Env} `{!JsonCodec PendingAction}.
Variable ttl_seconds : Z.

Definition set (scope : ConversationScope) (action : PendingAction) : M PendingActionWrite :=
  stored ← redis_try (CSet (key_for scope) (model_dump_json action) ttl_seconds false);
  match stored with
  | None => lift (construct {| paw_success := false; paw_state_available := false |})
  | Some r => lift (construct {| paw_success := reply_truthy r; paw_state_available := true |})
  end.

Definition clear (scope : ConversationScope) : M PendingActionWrite :=
  deleted ← redis_try (CDel (key_for scope));
  match deleted with
  | None => lift (construct {| paw_success := false; paw_state_available := false |})
  | Some _ => lift (construct {| paw_success := true; paw_state_available := true |})
  end.

Definition _parse (scope : ConversationScope) (payload : option str) (consumed : bool)
    : M PendingActionRead :=
  match payload with
  | None => lift (construct {| par_status := PA_MISSING; par_action := None |})
  | Some text =>
      match model_validate_json text with
      | None =>
          (if negb consumed then _ ← clear scope; mret tt else mret tt);;
          lift (construct {| par_status := PA_UNAVAILABLE; par_action := None |})
      | Some action => lift (construct {| par_status := PA_FOUND; par_action := Some action |})
      end
  end.

Definition get (scope : ConversationScope) : M PendingActionRead :=
  payload ← redis_try (CGet (key_for scope));
  match payload with
  | None => lift (construct {| par_status := PA_UNAVAILABLE; par_action := None |})
  | Some r => _parse scope (reply_text r) false
  end.

Definition consume (scope : ConversationScope) : M PendingActionRead :=
  payload ← redis_try (CGetDel (key_for scope));
  match payload with
  | None => lift (construct {| par_status := PA_UNAVAILABLE; par_action := None |})
  | Some r => _parse scope (reply_text r) true
  end.
End store.

(** ** Lemmas *)

Section lemmas.
Context `{SqlEngine} `{RedisServer} `{Env} `{!JsonCodec PendingAction}.

Lemma read_found a :
  construct {| par_status := PA_FOUND; par_action := Some a |} =
    Ok {| par_status := PA_FOUND; par_action := Some a |}.
Proof. by apply construct_good. Qed.

(** *** The operations leave other keys, and a missing key, alone *)

Lemma keeps_clear k v e scope :
  key_for scope <> k -> keeps (key_frame k v e) (clear scope).
Proof.
  intros Hk. apply keeps_bind; [apply _|by apply keeps_key_try|].
  intros [r|]; apply keeps_lift, _.
Qed.

Lemma absent_clear k scope : keeps (absent_frame k) (clear scope).
Proof.
  apply keeps_bind; [apply _|by apply keeps_absent_try|]. intros [r|]; apply keeps_lift, _.
Qed.

Lemma absent_parse k scope p c : keeps (absent_frame k) (_parse scope p c).
Proof.
  unfold _parse. destruct p as [t|]; [|apply keeps_lift, _].
  destruct (model_validate_json t); [apply keeps_lift, _|].
  apply keeps_bind; [apply _| |intros; apply keeps_lift, _]. apply keeps_if; [|apply keeps_ret, _].
  apply keeps_bind; [apply _|apply absent_clear|]. intros. apply keeps_ret, _.
Qed.

Lemma absent_get k scope : keeps (absent_frame k) (get scope).
Proof.
  apply keeps_bind; [apply _|by apply keeps_absent_try|].
  intros [r|]; [apply absent_parse|apply keeps_lift, _].
Qed.

Lemma absent_consume k scope : keeps (absent_frame k) (consume scope).
Proof.
  apply keeps_bind; [apply _|by apply keeps_absent_try|].
  intros [r|]; [apply absent_parse|apply keeps_lift, _].
Qed.

(** A stored value that does not parse is [UNAVAILABLE]; no read raises. *)
Lemma clear_total scope w : exists r w', clear scope w = (Ok r, w').
Proof.
  unfold clear. destruct (redis_try_run (CDel (key_for scope)) w) as (o & w' & Hrun & _).
  erewrite bind_ok_run by exact Hrun. destruct o; rewrite construct_good by done; by do 2 eexists.
Qed.

Lemma parse_run scope p c w :
  exists r w', _parse scope p c w = (Ok r, w') /\
    match p with
    | None => r = {| par_status := PA_MISSING; par_action := None |} /\ w' = w
    | Some t =>
        match model_validate_json t with
        | Some a => r = {| par_status := PA_FOUND; par_action := Some a |} /\ w' = w
        | None => r = {| par_status := PA_UNAVAILABLE; par_action := None |} /\ (c = true -> w' = w)
        end
    end.
Proof.
  unfold _parse. destruct p as [t|]; [|rewrite construct_good by done; by do 2 eexists].
  destruct (model_validate_json t) as [a|]; [rewrite construct_good by done; by do 2 eexists|].
  destruct c; cbn [negb].
  - erewrite bind_ok_run by reflexivity. rewrite construct_good by done. by do 2 eexists.
  - destruct (clear_total scope w) as (r & w' & Hrun).
    erewrite bind_ok_run; [|erewrite bind_ok_run by exact Hrun; reflexivity].
    rewrite construct_good by done. do 2 eexists. split; [reflexivity|]. split; [done|congruence].
Qed.

(** What a read of the stored text answers. *)
Definition read_of (stored : option str) (r : PendingActionRead) : Prop :=
  match stored with
  | None => r = {| par_status := PA_MISSING; par_action := None |}
  | Some t => match model_validate_json t with
              | Some a => r = {| par_status := PA_FOUND; par_action := Some a |}
              | None => r = {| par_status := PA_UNAVAILABLE; par_action := None |}
              end
  end.

Lemma get_run scope w :
  exists r w', get scope w = (Ok r, w') /\
    (r = {| par_status := PA_UNAVAILABLE; par_action := None |} \/
     read_of (live (clock (w_tick w)) (dump (w_redis w)) (key_for scope)) r).
Proof.
  unfold get. destruct (redis_try_run (CGet (key_for scope)) w) as (o & w1 & Hrun & _ & _ & Ho).
  erewrite bind_ok_run by exact Hrun. destruct o as [rep|].
  - cbn in Ho. injection Ho as -> _.
    destruct (parse_run scope (reply_text (reply_of (live (clock (w_tick w)) (dump (w_redis w))
      (key_for scope)))) false w1) as (r & w2 & Hp & Hr).
    exists r, w2. split; [exact Hp|]. right. unfold read_of.
    destruct (live _ _ _) as [t|]; cbn in Hr; [|by destruct Hr].
    by destruct (model_validate_json t); destruct Hr.
  - rewrite construct_good by done. do 2 eexists. split; [reflexivity|]. by left.
Qed.

Lemma consume_run scope w :
  exists r w', consume scope w = (Ok r, w') /\ w_db w' = w_db w /\
    ((r = {| par_status := PA_UNAVAILABLE; par_action := None |}) \/
     (read_of (live (clock (w_tick w)) (dump (w_redis w)) (key_for scope)) r /\
      dump (w_redis w') = delete (key_for scope) (dump (w_redis w)))).
Proof.
  unfold consume. destruct (redis_try_run (CGetDel (key_for scope)) w) as (o & w1 & Hrun & Hd & _ & Ho).
  erewrite bind_ok_run by exact Hrun. destruct o as [rep|].
  - cbn in Ho. injection Ho as -> Hdump.
    destruct (parse_run scope (reply_text (reply_of (live (clock (w_tick w)) (dump (w_redis w))
      (key_for scope)))) true w1) as (r & w2 & Hp & Hr).
    assert (w2 = w1) as ->.
    { destruct (live _ _ _) as [t|]; cbn in Hr; [|by destruct Hr].
      destruct (model_validate_json t); destruct Hr; auto. }
    exists r, w1. split; [exact Hp|]. split; [exact Hd|]. right. split; [|exact Hdump].
    unfold read_of. destruct (live _ _ _) as [t|]; cbn in Hr; [|by destruct Hr].
    by destruct (model_validate_json t); destruct Hr.
  - rewrite construct_good by done. do 2 eexists. split; [reflexivity|]. split; [exact Hd|]. by left.
Qed.

Lemma set_run ttl scope a w :
  exists r w', set ttl scope a w = (Ok r, w') /\
    (paw_success r = true ->
     dump (w_redis w') = <[key_for scope := (model_dump_json a, clock (w_tick w) + ttl * 1000000)]>
       (dump (w_redis w))).
Proof.
  unfold set. destruct (redis_try_run (CSet (key_for scope) (model_dump_json a) ttl false) w)
    as (o & w1 & Hrun & _ & _ & Ho). erewrite bind_ok_run by exact Hrun. destruct o as [rep|].
  - cbn in Ho. injection Ho as -> Hdump. rewrite construct_good by done.
    do 2 eexists. split; [reflexivity|]. done.
  - rewrite construct_good by done. by do 2 eexists.
Qed.
End lemmas.

(** ** Properties *)

Section properties.
Context `{SqlEngine} `{RedisServer} `{Env} `{!JsonCodec PendingAction}.

(** A stored question comes back.  After a successful [set] of a valid
    action, whatever else runs that leaves its key alone, until it expires
    [get] and [consume] answer that very action, or find Redis unavailable. *)
Theorem pending_action_roundtrip {A} ttl scope a w r w1 (others : M A) o w2 :
  let expiry := clock (w_tick w) + ttl * 1000000 in
  contract_ok a = true -> set ttl scope a w = (Ok r, w1) -> paw_success r = true ->
  keeps (key_frame (key_for scope) (model_dump_json a) expiry) others -> others w1 = (o, w2) ->
  (forall n, (w_tick w1 <= n <= w_tick w2)%nat -> clock n < expiry) ->
  forall read, read = get scope \/ read = consume scope ->
    (read w2).1 = Ok {| par_status := PA_FOUND; par_action := Some a |} \/
    (read w2).1 = Ok {| par_status := PA_UNAVAILABLE; par_action := None |}.
Proof.
  intros expiry Hok Hset Hsucc Hkeep Hoth Hclock read Hread.
  destruct (set_run ttl scope a w) as (r' & w1' & Hrun & Hd). rewrite Hset in Hrun.
  injection Hrun as <- <-. specialize (Hd Hsucc).
  specialize (Hkeep w1). rewrite Hoth in Hkeep. destruct Hkeep as [Ht Hkeep]. cbn in Ht, Hkeep.
  assert (live (clock (w_tick w2)) (dump (w_redis w2)) (key_for scope) = Some (model_dump_json a)) as Hl.
  { unfold live. rewrite Hkeep; [|intros n Hn; apply Hclock; lia|by rewrite Hd, lookup_insert_eq].
    by rewrite (proj2 (Z.ltb_lt _ _)) by (apply Hclock; lia). }
  assert (forall r, read_of (Some (model_dump_json a)) r ->
    r = {| par_status := PA_FOUND; par_action := Some a |}) as Hfound.
  { unfold read_of. intros r'. by rewrite codec_roundtrip. }
  destruct Hread as [-> | ->].
  - destruct (get_run scope w2) as (r' & w3 & -> & [-> |Hr]); [by right|left].
    rewrite Hl in Hr. cbn. by rewrite (Hfound r').
  - destruct (consume_run scope w2) as (r' & w3 & -> & _ & [-> |[Hr _]]); [by right|left].
    rewrite Hl in Hr. cbn. by rewrite (Hfound r').
Qed.

(** An action is consumed at most once.  After a [consume] that found an
    action, until something stores another one, no [get] and no [consume] of
    the conversation finds it again; and the reads and [clear] of any
    conversation store nothing. *)
Theorem pending_action_consumed_once {A} scope w r w1 (others : M A) o w2 :
  consume scope w = (Ok r, w1) -> par_status r = PA_FOUND ->
  keeps (absent_frame (key_for scope)) others -> others w1 = (o, w2) ->
  (forall r' w3, get scope w2 = (Ok r', w3) -> par_status r' <> PA_FOUND) /\
  (forall r' w3, consume scope w2 = (Ok r', w3) -> par_status r' <> PA_FOUND) /\
  forall scope', keeps (absent_frame (key_for scope)) (get scope') /\
    keeps (absent_frame (key_for scope)) (consume scope') /\
    keeps (absent_frame (key_for scope)) (clear scope').
Proof.
  intros Hcons Hst Hkeep Hoth.
  destruct (consume_run scope w) as (r0 & w0 & Hrun & _ & Hr). rewrite Hcons in Hrun.
  injection Hrun as <- <-. destruct Hr as [-> |[_ Hd]]; [done|].
  specialize (Hkeep w1). rewrite Hoth in Hkeep. unfold absent_frame in Hkeep. cbn in Hkeep.
  rewrite Hd, lookup_delete_eq in Hkeep. specialize (Hkeep eq_refl).
  assert (live (clock (w_tick w2)) (dump (w_redis w2)) (key_for scope) = None) as Hl
    by (unfold live; by rewrite Hkeep).
  split; [|split; [|intros; split_and!; [apply absent_get|apply absent_consume|apply absent_clear]]].
  - intros r' w3 Hget. destruct (get_run scope w2) as (r2 & w4 & Hrun & Hr). rewrite Hget in Hrun.
    injection Hrun as <- <-. destruct Hr as [-> |Hr]; [done|]. rewrite Hl in Hr. cbn in Hr. by subst.
  - intros r' w3 Hget. destruct (consume_run scope w2) as (r2 & w4 & Hrun & _ & Hr). rewrite Hget in Hrun.
    injection Hrun as <- <-. destruct Hr as [-> |[Hr _]]; [done|]. rewrite Hl in Hr. cbn in Hr. by subst.
Qed.
End properties.

Section concrete.
#[local] Existing Instances map_engine scheduled_server sample_env.

#[export] Instance PendingActionKind_countable : Countable PendingActionKind.
Proof.
  apply (inj_countable' (fun k => bool_decide (k = PK_SELECT_PICK))
    (fun b : bool => if b then PK_SELECT_PICK else PK_PROVIDE_ORDER_OWNERSHIP)). by intros [].
Defined.
#[export] Instance PendingAction_countable : Countable PendingAction.
Proof.
  apply (inj_countable' (fun a => (pa_action_id a, pa_kind a, pa_created_at a, pa_subject_id a,
      pa_candidate_pick_ids a))
    (fun p => Build_PendingAction p.1.1.1.1 p.1.1.1.2 p.1.1.2 p.1.2 p.2)). by intros [].
Defined.
#[local] Instance action_codec : JsonCodec PendingAction := countable_codec.

Definition sample_action : PendingAction := {|
  pa_action_id := replicate 36 65; pa_kind := PK_SELECT_PICK; pa_created_at := utc 0;
  pa_subject_id := None; pa_candidate_pick_ids := [u "p1"; u "p2"] |}.
Definition asked_world : World := (set 60 sample_scope sample_action sample_world).2.

Lemma pending_action_roundtrip_witness :
  (get sample_scope asked_world).1 = Ok {| par_status := PA_FOUND; par_action := Some sample_action |} \/
  (get sample_scope asked_world).1 = Ok {| par_status := PA_UNAVAILABLE; par_action := None |}.
Proof.
  apply (pending_action_roundtrip 60 sample_scope sample_action sample_world
           {| paw_success := true; paw_state_available := true |} asked_world (mret tt : M unit)
           (Ok tt) asked_world).
  - vm_compute. reflexivity.
  - unfold asked_world. apply run_fst. vm_compute. reflexivity.
  - reflexivity.
  - apply keeps_ret, _.
  - reflexivity.
  - intros n [_ Hn]. assert (w_tick asked_world = 1%nat) as Ht by (vm_compute; reflexivity).
    rewrite Ht in Hn. cbn [clock sample_env w_tick sample_world]. lia.
  - by left.
Defined.

Lemma pending_action_consumed_once_witness :
  (consume sample_scope (consume sample_scope asked_world).2).1 =
    Ok {| par_status := PA_MISSING; par_action := None |} /\
  PA_MISSING <> PA_FOUND.
Proof.
  assert ((consume sample_scope asked_world).1 =
    Ok {| par_status := PA_FOUND; par_action := Some sample_action |}) as He1 by (vm_compute; reflexivity).
  assert ((consume sample_scope (consume sample_scope asked_world).2).1 =
    Ok {| par_status := PA_MISSING; par_action := None |}) as He2 by (vm_compute; reflexivity).
  split; [exact He2|].
  destruct (pending_action_consumed_once sample_scope asked_world _ _ (mret tt : M unit) (Ok tt)
    (consume sample_scope asked_world).2 (run_fst _ _ _ He1) eq_refl (keeps_ret _ tt) eq_refl)
    as (_ & Hc & _).
  exact (Hc _ _ (run_fst _ _ _ He2)).
Defined.
End concrete.
