(* ===== verification/ActivePick.v ===== *)
(** * The active pick ([src/piki/state/active_pick.py])

    The pick a conversation is about: a reference in Redis under the
    conversation's scope, and [ActivePickService], which resolves it to a pick
    the BuenPick API confirms at that moment. *)
From S2P Require Import Prelude PyStr Errors Sha256 Contracts Events Sql Redis Models.
From S2P Require Import World.
From S2P Require Import Session Traffic Sample State Coordination BuenPickModels BuenPick.

Local Open Scope Z_scope.

(** ** Data *)

Inductive ActivePickSource := AS_EXPLICIT_REFERENCE | AS_UNAMBIGUOUS_RESULT.
#[export] Instance ActivePickSource_eq_dec : EqDecision ActivePickSource.
Proof. solve_decision. Defined.

Record ActivePickReference := {
  apr_pick_id : str;
  apr_commerce_id : str;
  apr_selected_at : datetime;
  apr_source : ActivePickSource
}.
#[export] Instance ActivePickReference_eq_dec : EqDecision ActivePickReference.
Proof. solve_decision. Defined.
#[export] Instance ActivePickReference_contract : Contract ActivePickReference := {|
  fields_ok r := len_in 1 255 (apr_pick_id r) && len_in 1 255 (apr_commerce_id r);
  model_validator r := first_error [
    (negb (dt_aware (apr_selected_at r)), u "selected_at must include a timezone")]
|}.

Inductive StateReadStatus := SR_FOUND | SR_MISSING | SR_UNAVAILABLE.
#[export] Instance StateReadStatus_eq_dec : EqDecision StateReadStatus.
Proof. solve_decision. Defined.

Record ActivePickRead := {
  apd_status : StateReadStatus;
  apd_reference : option ActivePickReference
}.
#[export] Instance ActivePickRead_contract : Contract ActivePickRead := {|
  fields_ok _ := true;
  model_validator r := first_error [
    (xorb (bool_decide (apd_status r = SR_FOUND)) (bool_decide (is_Some (apd_reference r))),
     u "only found active-pick reads contain a reference")]
|}.

Record StateWriteResult := {
  sw_success : bool;
  sw_state_available : bool
}.
#[export] Instance StateWriteResult_contract : Contract StateWriteResult := {|
  fields_ok _ := true;
  model_validator r := first_error [
    (sw_success r && negb (sw_state_available r), u "successful writes require available state")]
|}.

Inductive ActivePickResolutionStatus :=
| RS_CONFIRMED | RS_MISSING | RS_STALE | RS_STATE_UNAVAILABLE | RS_UPSTREAM_UNAVAILABLE.
#[export] Instance ActivePickResolutionStatus_eq_dec : EqDecision ActivePickResolutionStatus.
Proof. solve_decision. Defined.

Record ActivePickResolution := {
  res_status : ActivePickResolutionStatus;
  res_pick : option AvailablePick;
  res_source : option ActivePickSource;
  res_context_persisted : bool;
  res_error_code : option ToolErrorCode
}.
#[export] Instance ActivePickResolution_contract : Contract ActivePickResolution := {|
  fields_ok _ := true;
  model_validator r :=
    let confirmed := bool_decide (res_status r = RS_CONFIRMED) in
    let evidence := match res_pick r, res_source r with Some _, Some _ => true | _, _ => false end in
    first_error [
      (xorb confirmed evidence, u "only confirmed resolutions contain pick evidence and source");
      (confirmed && bool_decide (is_Some (res_error_code r)),
       u "confirmed resolutions cannot contain an error")]
|}.

(** A resolution without evidence. *)
Definition unresolved (status : ActivePickResolutionStatus) (error_code : option ToolErrorCode)
    : ActivePickResolution :=
  {| res_status := status; res_pick := None; res_source := None; res_context_persisted := false;
     res_error_code := error_code |}.

(** ** [RedisActivePickStore] *)

Definition key_for (scope : ConversationScope) : str :=
  lock_prefix ++ u ":" ++ conversation_scope_digest scope ++ u ":active-pick".

Section store.
Context `{SqlEngine} `{RedisServer} `{Env} `{!JsonCodec ActivePickReference}.
Variable ttl_seconds : Z.

Definition set (scope : ConversationScope) (reference : ActivePickReference) : M StateWriteResult :=
  stored ← redis_try (CSet (key_for scope) (model_dump_json reference) ttl_seconds false);
  match stored with
  | None => lift (construct {| sw_success := false; sw_state_available := false |})
  | Some r => lift (construct {| sw_success := reply_truthy r; sw_state_available := true |})
  end.

Definition clear (scope : ConversationScope) : M StateWriteResult :=
  deleted ← redis_try (CDel (key_for scope));
  match deleted with
  | None => lift (construct {| sw_success := false; sw_state_available := false |})
  | Some _ => lift (construct {| sw_success := true; sw_state_available := true |})
  end.

Definition get (scope : ConversationScope) : M ActivePickRead :=
  payload ← redis_try (CGet (key_for scope));
  match payload with
  | None => lift (construct {| apd_status := SR_UNAVAILABLE; apd_reference := None |})
  | Some r =>
      match reply_text r with
      | None => lift (construct {| apd_status := SR_MISSING; apd_reference := None |})
      | Some text =>
          match model_validate_json text with
          | None =>
              clear scope;;
              lift (construct {| apd_status := SR_UNAVAILABLE; apd_reference := None |})
          | Some reference =>
              lift (construct {| apd_status := SR_FOUND; apd_reference := Some reference |})
          end
      end
  end.

(** ** [ActivePickService] *)

(** [self._client.get_available_pick]. *)
Variable client : str -> M AvailablePick.

Definition remember (scope : ConversationScope) (pick : AvailablePick) (source : ActivePickSource)
    : M StateWriteResult :=
  t ← now;
  reference ← lift (construct {| apr_pick_id := ap_id pick; apr_commerce_id := pm_id (ap_commerce pick);
                                 apr_selected_at := utc t; apr_source := source |});
  set scope reference.

(** The part of [resolve] that starts with [try:]: [reference] is the stored
    reference, [explicit] whether the caller named the pick. *)
Definition confirm (scope : ConversationScope) (pick_id : str)
    (reference : option ActivePickReference) (source : ActivePickSource) (explicit : bool)
    : M ActivePickResolution :=
  asked ← try_except (pick ← client pick_id; mret (inl pick))
    (fun e => match e with
      | BuenPickClientError code _ _ => Some (
          if bool_decide (code = TE_NOT_FOUND) then
            (match reference with Some _ => _ ← clear scope; mret tt | None => mret tt end);;
            r ← lift (construct (unresolved RS_STALE (Some code))); mret (inr r)
          else
            r ← lift (construct (unresolved RS_UPSTREAM_UNAVAILABLE (Some code))); mret (inr r))
      | _ => None
      end);
  match asked with
  | inr resolution => mret resolution
  | inl pick =>
      persisted ← (if explicit then write ← remember scope pick source; mret (sw_success write)
                   else mret true);
      lift (construct {| res_status := RS_CONFIRMED; res_pick := Some pick;
                         res_source := Some source; res_context_persisted := persisted;
                         res_error_code := None |})
  end.

Definition resolve (scope : ConversationScope) (explicit_pick_id : option str)
    : M ActivePickResolution :=
  match explicit_pick_id with
  | None =>
      active ← get scope;
      match apd_status active with
      | SR_UNAVAILABLE => lift (construct (unresolved RS_STATE_UNAVAILABLE None))
      | SR_MISSING => lift (construct (unresolved RS_MISSING None))
      | SR_FOUND =>
          match apd_reference active with
          | None => raise (AssertionError (u "found active pick must contain a reference"))
          | Some reference =>
              confirm scope (apr_pick_id reference) (Some reference) (apr_source reference) false
          end
      end
  | Some explicit =>
      let pick_id := strip explicit in
      if negb (truthy pick_id) then lift (construct (unresolved RS_MISSING None))
      else confirm scope pick_id None AS_EXPLICIT_REFERENCE true
  end.
End store.

(** ** Lemmas *)

Section lemmas.
Context `{SqlEngine} `{RedisServer} `{Env} `{!JsonCodec ActivePickReference}.

(** The reference stored for a scope, as the server sees it at the start of a
    run. *)
Definition stored_text (scope : ConversationScope) (w : World) : option str :=
  live (clock (w_tick w)) (dump (w_redis w)) (key_for scope).

Definition found (reference : ActivePickReference) : ActivePickRead :=
  {| apd_status := SR_FOUND; apd_reference := Some reference |}.
Definition not_found (status : StateReadStatus) : ActivePickRead :=
  {| apd_status := status; apd_reference := None |}.

Lemma pick_clear_run scope w :
  exists r w', clear scope w = (Ok r, w') /\
    (sw_success r = true -> dump (w_redis w') = delete (key_for scope) (dump (w_redis w))).
Proof.
  unfold clear. destruct (redis_try_run (CDel (key_for scope)) w) as (o & w' & Hrun & _ & _ & Ho).
  erewrite bind_ok_run by exact Hrun. destruct o as [rep|]; rewrite construct_good by done;
    do 2 eexists; (split; [reflexivity|done || idtac]). cbn in Ho. by injection Ho.
Qed.

Lemma pick_set_run ttl scope r w :
  exists s w', set ttl scope r w = (Ok s, w') /\
    (sw_success s = true ->
     dump (w_redis w') = <[key_for scope := (model_dump_json r, clock (w_tick w) + ttl * 1000000)]>
       (dump (w_redis w))).
Proof.
  unfold set. destruct (redis_try_run (CSet (key_for scope) (model_dump_json r) ttl false) w)
    as (o & w1 & Hrun & _ & _ & Ho). erewrite bind_ok_run by exact Hrun. destruct o as [rep|].
  - cbn in Ho. injection Ho as -> Hdump. rewrite construct_good by done.
    do 2 eexists. split; [reflexivity|]. done.
  - rewrite construct_good by done. by do 2 eexists.
Qed.

(** A read never raises; it finds only a reference that is stored and valid. *)
Lemma pick_get_run scope w :
  exists r w', get scope w = (Ok r, w') /\
    (r = not_found SR_UNAVAILABLE \/
     (r = not_found SR_MISSING /\ stored_text scope w = None) \/
     exists t reference, r = found reference /\ stored_text scope w = Some t /\
       model_validate_json t = Some reference /\ dump (w_redis w') = dump (w_redis w)).
Proof.
  unfold get, stored_text.
  destruct (redis_try_run (CGet (key_for scope)) w) as (o & w1 & Hrun & _ & _ & Ho).
  erewrite bind_ok_run by exact Hrun. destruct o as [rep|]; cycle 1.
  { rewrite construct_good by done. do 2 eexists. split; [reflexivity|]. by left. }
  cbn in Ho. injection Ho as -> Hdump. destruct (live _ _ _) as [t|]; cbn [reply_text reply_of].
  - destruct (model_validate_json t) as [reference|] eqn:Hv.
    + rewrite construct_good by done. do 2 eexists. split; [reflexivity|]. right; right.
      by exists t, reference.
    + destruct (pick_clear_run scope w1) as (r & w2 & Hclear & _).
      erewrite bind_ok_run by exact Hclear. rewrite construct_good by done.
      do 2 eexists. split; [reflexivity|]. by left.
  - rewrite construct_good by done. do 2 eexists. split; [reflexivity|]. right; left. done.
Qed.

(** Identifiers that fit a reference. *)
Definition storable (pick : AvailablePick) : Prop :=
  1 <= py_len (ap_id pick) <= 255 /\ 1 <= py_len (pm_id (ap_commerce pick)) <= 255.

Lemma remember_run ttl scope pick source w :
  storable pick ->
  exists s w' reference, remember ttl scope pick source w = (Ok s, w') /\
    contract_ok reference = true /\ apr_pick_id reference = ap_id pick /\
    apr_commerce_id reference = pm_id (ap_commerce pick) /\ apr_source reference = source /\
    (sw_success s = true -> exists expiry,
       dump (w_redis w') !! key_for scope = Some (model_dump_json reference, expiry)).
Proof.
  intros [Hp Hc]. unfold remember. rewrite bind_run. unfold now at 1. cbv beta iota zeta.
  set (reference := {| apr_pick_id := _ |}).
  assert (contract_ok reference = true) as Hok.
  { unfold contract_ok. cbn -[len_in]. rewrite andb_true_r, andb_true_iff, !len_in_spec. done. }
  rewrite construct_good by done. erewrite bind_ok_run by reflexivity.
  destruct (pick_set_run ttl scope reference (tick w)) as (s & w' & Hrun & Hd).
  exists s, w', reference. split; [exact Hrun|]. do 4 (split; [done|]).
  intros Hs. rewrite (Hd Hs), lookup_insert_eq. eauto.
Qed.
End lemmas.

(** ** Properties *)

Section properties.
Context `{SqlEngine} `{RedisServer} `{Env} `{!JsonCodec ActivePickReference}.
Variables (ttl : Z) (client : str -> M AvailablePick).

(** The client keeps its promise: it answers a pick whose identifiers fit a
    reference, or raises [BuenPickClientError]. *)
Definition client_answers : Prop := forall pick_id w,
  match (client pick_id w).1 with
  | Ok pick => storable pick
  | Raise e => client_exn e
  end.

(** Which pick a resolution asks about, and where the name comes from. *)
Definition asked_for (scope : ConversationScope) (explicit : option str) (w : World)
    (pick_id : str) (source : ActivePickSource) : Prop :=
  match explicit with
  | Some s => pick_id = strip s /\ pick_id <> [] /\ source = AS_EXPLICIT_REFERENCE
  | None => exists t reference, stored_text scope w = Some t /\
      model_validate_json t = Some reference /\ pick_id = apr_pick_id reference /\
      source = apr_source reference
  end.

(** What a confirmation answers, after asking the client once. *)
Lemma confirm_run scope pick_id reference source explicit w :
  client_answers ->
  exists r w', confirm ttl client scope pick_id reference source explicit w = (Ok r, w') /\
    match (client pick_id w).1 with
    | Ok pick => res_status r = RS_CONFIRMED /\ res_pick r = Some pick /\ res_source r = Some source /\
        (explicit = true -> res_context_persisted r = true -> exists ref expiry,
           dump (w_redis w') !! key_for scope = Some (model_dump_json ref, expiry) /\
           contract_ok ref = true /\ apr_pick_id ref = ap_id pick /\
           apr_commerce_id ref = pm_id (ap_commerce pick))
    | Raise (BuenPickClientError code _ _) =>
        res_error_code r = Some code /\ res_pick r = None /\
        res_status r = if bool_decide (code = TE_NOT_FOUND) then RS_STALE else RS_UPSTREAM_UNAVAILABLE
    | Raise _ => False
    end.
Proof.
  intros Hcl. specialize (Hcl pick_id w). unfold confirm. rewrite bind_run. unfold try_except.
  rewrite bind_run. destruct (client pick_id w) as [[pick|e] w1]; cbn [fst] in Hcl |- *.
  - cbn [mret M_ret]. destruct explicit.
    + destruct (remember_run ttl scope pick source w1 Hcl) as (s & w2 & ref & Hrem & Hok & Hid & Hco & _ & Hd).
      erewrite bind_ok_run; [|erewrite bind_ok_run by exact Hrem; reflexivity].
      rewrite construct_good by done. do 2 eexists. split; [reflexivity|]. cbn. do 3 (split; [done|]).
      intros _ (expiry & Hl)%Hd. eauto 10.
    + erewrite bind_ok_run by reflexivity. rewrite construct_good by done.
      do 2 eexists. by split; [reflexivity|].
  - destruct Hcl as (code & msg & sc & -> & _).
    destruct (bool_decide (code = TE_NOT_FOUND)) eqn:Hc.
    2: (rewrite construct_good by done; erewrite bind_ok_run by reflexivity;
              do 2 eexists; by split; [reflexivity|]).
    assert (exists w2, (match reference with Some _ => _ ← clear scope; mret tt | None => mret tt end) w1
      = (Ok tt, w2)) as (w2 & Hclr).
    { destruct reference; [|by eexists]. destruct (pick_clear_run scope w1) as (r & w2 & Hrun & _).
      exists w2. by erewrite bind_ok_run by exact Hrun. }
    rewrite bind_run, Hclr. rewrite construct_good by done.
    do 2 eexists. by split; [reflexivity|].
Qed.

(** *** What a resolution sends *)

Lemma no_io_clear scope : keeps no_io (clear scope).
Proof. unfold clear. repeat io_step. Qed.

Lemma no_io_get scope : keeps no_io (get scope).
Proof.
  unfold get. apply keeps_bind; [apply _|apply no_io_redis_try|]. intros [r|]; [|apply keeps_lift, _].
  destruct (reply_text r) as [t|]; [|apply keeps_lift, _].
  destruct (model_validate_json t); [apply keeps_lift, _|].
  apply keeps_bind; [apply _|apply no_io_clear|]. intros. apply keeps_lift, _.
Qed.

Lemma no_io_remember scope pick source : keeps no_io (remember ttl scope pick source).
Proof. unfold remember, set. repeat io_step. Qed.

(** Only the call of the client sends anything. *)
Lemma confirm_io scope pick_id reference source explicit w :
  w_io (confirm ttl client scope pick_id reference source explicit w).2 = w_io (client pick_id w).2.
Proof.
  unfold confirm. rewrite bind_run.
  assert (forall asked : AvailablePick + ActivePickResolution, keeps no_io (match asked with
    | inr resolution => mret resolution
    | inl pick =>
        persisted ← (if explicit then write ← remember ttl scope pick source; mret (sw_success write)
                     else mret true);
        lift (construct {| res_status := RS_CONFIRMED; res_pick := Some pick;
                           res_source := Some source; res_context_persisted := persisted;
                           res_error_code := None |})
    end)) as Hrest.
  { intros [pick|r]; [|apply keeps_ret, _]. apply keeps_bind; [apply _| |intros; apply keeps_lift, _].
    destruct explicit; [|apply keeps_ret, _].
    apply keeps_bind; [apply _|apply no_io_remember|]. intros. apply keeps_ret, _. }
  match goal with |- w_io (match ?m w with _ => _ end).2 = _ =>
    assert (w_io (m w).2 = w_io (client pick_id w).2) as Hasked end.
  { unfold try_except. rewrite bind_run. destruct (client pick_id w) as [[pick|e] w1]; [done|].
    destruct e; try done. cbn [snd]. match goal with |- w_io (?m w1).2 = _ =>
      assert (keeps no_io m) as Hm; [|exact (Hm w1)] end.
    case_bool_decide; [|repeat io_step]. apply keeps_bind; [apply _| |intros; repeat io_step].
    destruct reference; [|apply keeps_ret, _].
    apply keeps_bind; [apply _|apply no_io_clear|]. intros. apply keeps_ret, _. }
  match goal with |- w_io (match ?m w with _ => _ end).2 = _ =>
    destruct (m w) as [[asked|] w2] end; [|exact Hasked].
  rewrite <- Hasked. apply Hrest.
Qed.

(** The pick that is asked about, with the source of its name: the one the
    caller named, or the one the stored reference names when Redis answers it;
    none otherwise. *)
Definition asks (scope : ConversationScope) (explicit : option str) (w : World)
    : option (str * ActivePickSource) :=
  match explicit with
  | Some s => if truthy (strip s) then Some (strip s, AS_EXPLICIT_REFERENCE) else None
  | None =>
      match (get scope w).1 with
      | Ok active => (fun reference => (apr_pick_id reference, apr_source reference)) <$> apd_reference active
      | Raise _ => None
      end
  end.

(** The world in which the API is asked. *)
Definition asking_world (scope : ConversationScope) (explicit : option str) (w : World) : World :=
  match explicit with Some _ => w | None => (get scope w).2 end.

(** What a resolution says of the API's answer in the run that produced it. *)
Definition resolution_says (scope : ConversationScope) (explicit : option str) (w : World)
    (r : ActivePickResolution) (w' : World) : Prop :=
  match asks scope explicit w with
  | Some (pick_id, source) =>
      let call := client pick_id (asking_world scope explicit w) in
      asked_for scope explicit w pick_id source /\ w_io w' = w_io call.2 /\
      match call.1 with
      | Ok pick => res_status r = RS_CONFIRMED /\ res_pick r = Some pick /\ res_source r = Some source
      | Raise (BuenPickClientError code _ _) =>
          res_error_code r = Some code /\ res_pick r = None /\
          res_status r = if bool_decide (code = TE_NOT_FOUND) then RS_STALE else RS_UPSTREAM_UNAVAILABLE
      | Raise _ => False
      end
  | None =>
      w_io w' = w_io w /\ res_pick r = None /\
      match explicit with
      | Some s => strip s = [] /\ res_status r = RS_MISSING
      | None => stored_text scope w = None /\ res_status r = RS_MISSING \/
          res_status r = RS_STATE_UNAVAILABLE
      end
  end.

Lemma confirm_says scope pick_id reference source explicit w :
  client_answers ->
  exists r w', confirm ttl client scope pick_id reference source explicit w = (Ok r, w') /\
    w_io w' = w_io (client pick_id w).2 /\
    match (client pick_id w).1 with
    | Ok pick => res_status r = RS_CONFIRMED /\ res_pick r = Some pick /\ res_source r = Some source
    | Raise (BuenPickClientError code _ _) =>
        res_error_code r = Some code /\ res_pick r = None /\
        res_status r = if bool_decide (code = TE_NOT_FOUND) then RS_STALE else RS_UPSTREAM_UNAVAILABLE
    | Raise _ => False
    end.
Proof.
  intros Hcl. destruct (confirm_run scope pick_id reference source explicit w Hcl) as (r & w' & Hrun & Hr).
  exists r, w'. split; [exact Hrun|].
  pose proof (confirm_io scope pick_id reference source explicit w) as Hio. rewrite Hrun in Hio.
  split; [exact Hio|]. destruct (client pick_id w).1 as [pick|e]; [by destruct Hr as (? & ? & ? & _)|exact Hr].
Qed.

Lemma resolve_run scope explicit w :
  client_answers ->
  exists r w', resolve ttl client scope explicit w = (Ok r, w') /\ resolution_says scope explicit w r w'.
Proof.
  intros Hcl. unfold resolve, resolution_says, asks, asking_world. destruct explicit as [s|].
  - destruct (truthy (strip s)) eqn:Ht; cbn [negb].
    + destruct (confirm_says scope (strip s) None AS_EXPLICIT_REFERENCE true w Hcl) as (r & w' & Hrun & Hr).
      exists r, w'. split; [exact Hrun|]. split; [|exact Hr]. split; [done|]. split; [|reflexivity].
      intros He. by rewrite He in Ht.
    + rewrite construct_good by done. do 2 eexists. split; [reflexivity|]. split_and!; try done.
      by apply truthy_false.
  - destruct (pick_get_run scope w) as (a & w1 & Hget & Ha). erewrite bind_ok_run by exact Hget.
    pose proof (no_io_get scope w) as Hio. rewrite Hget in Hio |- *. cbn [fst snd] in *. unfold no_io in Hio.
    destruct Ha as [-> |[[-> Hno]|(t & reference & -> & Hst & Hv & _)]]; cbn [apd_status apd_reference found not_found].
    + rewrite construct_good by done. do 2 eexists. split; [reflexivity|]. split_and!; [done|done|]. by right.
    + rewrite construct_good by done. do 2 eexists. split; [reflexivity|]. split_and!; [done|done|]. by left.
    + destruct (confirm_says scope (apr_pick_id reference) (Some reference) (apr_source reference) false w1 Hcl)
        as (r & w' & Hrun & Hr).
      exists r, w'. split; [exact Hrun|]. split; [|exact Hr]. by exists t, reference.
Qed.


(** A pick named by the user is remembered.  When an explicit resolution
    reports its context as persisted, the reference of the confirmed pick is
    stored; until it expires, and while nothing else writes the key, a read
    finds it, or Redis unavailable, so that a later resolution without a name
    asks the API for this pick. *)
Theorem explicit_pick_remembered {A} scope s w r w1 (others : M A) o w2 :
  client_answers -> resolve ttl client scope (Some s) w = (Ok r, w1) ->
  res_status r = RS_CONFIRMED -> res_context_persisted r = true ->
  exists pick reference expiry, res_pick r = Some pick /\
    apr_pick_id reference = ap_id pick /\ apr_commerce_id reference = pm_id (ap_commerce pick) /\
    (keeps (key_frame (key_for scope) (model_dump_json reference) expiry) others ->
     others w1 = (o, w2) -> (forall n, (w_tick w1 <= n <= w_tick w2)%nat -> clock n < expiry) ->
     exists a w3, get scope w2 = (Ok a, w3) /\
       (a = found reference \/ a = not_found SR_UNAVAILABLE)).
Proof.
  intros Hcl Hrun Hst Hper. unfold resolve in Hrun. destruct (truthy (strip s)); cbn [negb] in Hrun; cycle 1.
  { rewrite construct_good in Hrun by done. by injection Hrun as <- _. }
  destruct (confirm_run scope (strip s) None AS_EXPLICIT_REFERENCE true w Hcl) as (r' & w1' & Hc & Hr).
  rewrite Hrun in Hc. injection Hc as <- <-.
  destruct (client (strip s) w).1 as [pick|e]; cycle 1.
  { destruct e; try done. destruct Hr as (_ & _ & He). rewrite Hst in He. by case_bool_decide. }
  destruct Hr as (_ & Hp & _ & Hd). destruct (Hd eq_refl Hper) as (ref & expiry & Hl & Hok & Hid & Hco).
  exists pick, ref, expiry. do 3 (split; [done|]). intros Hkeep Hoth Hclock.
  specialize (Hkeep w1). rewrite Hoth in Hkeep. destruct Hkeep as [Ht Hkeep]. cbn in Ht, Hkeep.
  assert (stored_text scope w2 = Some (model_dump_json ref)) as Hst2.
  { unfold stored_text, live. rewrite Hkeep; [|intros n Hn; apply Hclock; lia|exact Hl].
    by rewrite (proj2 (Z.ltb_lt _ _)) by (apply Hclock; lia). }
  destruct (pick_get_run scope w2) as (a & w3 & Hget & Ha). exists a, w3. split; [exact Hget|].
  destruct Ha as [-> |[[_ Hno]|(t & reference & -> & Htx & Hv & _)]]; [by right|congruence|].
  left. rewrite Hst2 in Htx. injection Htx as <-. rewrite codec_roundtrip in Hv by done. congruence.
Qed.
End properties.

Section concrete.
#[local] Existing Instances map_engine scheduled_server sample_env.

#[export] Instance ActivePickSource_countable : Countable ActivePickSource.
Proof.
  apply (inj_countable' (fun k => bool_decide (k = AS_EXPLICIT_REFERENCE))
    (fun b : bool => if b then AS_EXPLICIT_REFERENCE else AS_UNAMBIGUOUS_RESULT)). by intros [].
Defined.
#[export] Instance ActivePickReference_countable : Countable ActivePickReference.
Proof.
  apply (inj_countable' (fun r => (apr_pick_id r, apr_commerce_id r, apr_selected_at r, apr_source r))
    (fun p => Build_ActivePickReference p.1.1.1 p.1.1.2 p.1.2 p.2)). by intros [].
Defined.
#[local] Instance reference_codec : JsonCodec ActivePickReference := countable_codec.

Definition sample_commerce : PickCommerce := {|
  pm_id := u "c1"; pm_name := u "Panadería"; pm_description := u "Pan"; pm_address := u "Calle 1";
  pm_city := u "Rosario"; pm_zone := u "Centro"; pm_status := u "active"; pm_opening_hours := None |}.
Definition sample_pick : AvailablePick := {|
  ap_id := u "p1"; ap_title := u "Pan"; ap_description := u "Pan del día"; ap_price := 150000;
  ap_original_price := 300000; ap_available_quantity := 2; ap_status := u "AVAILABLE";
  ap_image_url := None; ap_images := []; ap_category := u "panaderia";
  ap_pickup := {| pw_starts_at := utc 0; pw_ends_at := utc 1 |};
  ap_conditions := {| pc_quantity_available := 2; pc_approx_weight_grams := None;
    pc_fulfillment := {| ff_pickup := true; ff_delivery_enabled := false;
      ff_delivery_eta_min_minutes := None; ff_delivery_eta_max_minutes := None |} |};
  ap_commerce := sample_commerce; ap_public_url := u "https://buenpick.com.ar/p1" |}.

(** A client that knows one pick. *)
Definition sample_lookup (pick_id : str) : M AvailablePick :=
  if bool_decide (pick_id = u "p1") then mret sample_pick
  else raise (BuenPickClientError TE_NOT_FOUND (u "no") (Some 404)).

Lemma sample_client_answers : client_answers sample_lookup.
Proof.
  intros pick_id w. unfold sample_lookup. case_bool_decide; cbn.
  - split; split; vm_compute; discriminate.
  - by do 3 eexists.
Qed.

Definition picked_world : World :=
  (resolve 60 sample_lookup sample_scope (Some (u " p1 ")) sample_world).2.

Definition sample_resolution (persisted : bool) (source : ActivePickSource) : ActivePickResolution := {|
  res_status := RS_CONFIRMED; res_pick := Some sample_pick; res_source := Some source;
  res_context_persisted := persisted; res_error_code := None |}.

Lemma picked_run :
  (resolve 60 sample_lookup sample_scope (Some (u " p1 ")) sample_world).1 =
    Ok (sample_resolution true AS_EXPLICIT_REFERENCE).
Proof. vm_compute. reflexivity. Qed.


Lemma explicit_pick_remembered_witness :
  exists pick, res_pick (sample_resolution true AS_EXPLICIT_REFERENCE) = Some pick /\
    ap_id pick = u "p1".
Proof.
  destruct (explicit_pick_remembered 60 sample_lookup sample_scope (u " p1 ") sample_world
    (sample_resolution true AS_EXPLICIT_REFERENCE) picked_world (mret tt : M unit) (Ok tt) picked_world
    sample_client_answers (run_fst _ _ _ picked_run) eq_refl eq_refl)
    as (pick & reference & expiry & Hp & _). exists pick. split; [exact Hp|]. by injection Hp as <-.
Defined.
End concrete.
