(* ===== verification/Ingress.v ===== *)
(** * The Meta ingress ([src/piki/integrations/meta/ingress.py])

    [DefaultMetaWebhookIngress.ingest]: the messages of a webhook are stored
    and enqueued in one transaction, then marked in the deduplication cache,
    then the delivery callbacks are applied, each in its own transaction. *)
From S2P Require Import Prelude PyStr Errors Sha256 Contracts Events Sql Redis Models.
From S2P Require Import World.
From S2P Require Import Session Sample MetaWebhook Delivery DeliveryLaws State.
From S2P Require Import Coordination.
From S2P Require Import Conversations DeliveryProps.

Local Open Scope Z_scope.

Section ingress.
Context `{SqlEngine} `{RedisServer} `{Env} `{!DeliveryStore}.
Variable dedup_ttl_seconds : Z.

(** The body of the loop over [events.messages]: the account, the identifier,
    and whether the message was there already. *)
Definition store_message (message : InboundMessage) : M (str * str * PersistStatus) :=
  let phone_number_id := default [] (im_metadata message !! u "phone_number_id") in
  if negb (truthy phone_number_id)
  then raise (MetaIngressRetryableError (u "normalized message has no phone number ID"))
  else
    persisted ← record_inbound phone_number_id message (u "meta:" ++ im_message_id message) true;
    mret (phone_number_id, im_message_id message, pi_status persisted).

(** The first phase of [ingest]. *)
Definition store_messages (messages : list InboundMessage) : M (list (str * str * PersistStatus)) :=
  session (m_map store_message messages).

(** The body of the loop over [events.statuses]. *)
Definition apply_status (callback : MetaStatusUpdate) : M CallbackApplyStatus :=
  result ← store_apply_callback callback;
  match result with
  | CB_MISSING_ATTEMPT =>
      raise (MetaIngressRetryableError
               (u "delivery callback arrived before its durable attempt"))
  | _ => mret result
  end.

Definition count {A} `{EqDecision A} (x : A) (l : list A) : Z :=
  Z.of_nat (length (filter (fun y => y = x) l)).

Definition ingest (events : MetaWebhookEvents) : M WebhookIngestResult :=
  stored ← store_messages (we_messages events);
  _ ← m_map (fun s => dedup_claim dedup_ttl_seconds s.1.1 s.1.2) stored;
  results ← m_map apply_status (we_statuses events);
  lift (construct {|
    wr_accepted_messages := count PS_CREATED stored.*2;
    wr_duplicate_messages := count PS_DUPLICATE stored.*2;
    wr_accepted_statuses := count CB_APPLIED results;
    wr_duplicate_statuses := count CB_DUPLICATE results;
    wr_ignored_statuses := count CB_IGNORED_REGRESSION results |}).
End ingress.

(** ** Lemmas *)

Lemma count_nonneg {A} `{EqDecision A} (x : A) l : 0 <= count x l.
Proof. unfold count. lia. Qed.

Lemma count_cons {A} `{EqDecision A} (x y : A) l :
  count x (y :: l) = (if decide (y = x) then 1 else 0) + count x l.
Proof. unfold count. rewrite filter_cons. case_decide; cbn [length]; lia. Qed.

Lemma count_statuses l : count PS_CREATED l + count PS_DUPLICATE l = Z.of_nat (length l).
Proof.
  induction l as [|s l IH]; [done|]. rewrite !count_cons. cbn [length].
  destruct s; repeat case_decide; try done; lia.
Qed.

#[local] Abbreviation messages w := (rows (db_messages (w_db w))).

Section lemmas.
Context `{SqlEngine} `{RedisServer} `{Env}.


(** The messages of a batch are all stored, or the transaction raises. *)
Lemma store_all_inv l w stored w' :
  m_map store_message l w = (Ok stored, w') ->
  length stored = length l /\ messages_grow w w' /\
  forall m, m ∈ l -> known_message (im_message_id m) w' /\ py_len (u "meta:" ++ im_message_id m) <= 128.
Proof.
  revert w stored w'. induction l as [|m l IH]; intros w stored w' Hrun; cbn [m_map] in Hrun.
  - injection Hrun as <- <-. split; [done|]. split; [done|]. set_solver.
  - apply bind_ok_inv in Hrun as (s & w1 & Hs & Hrun).
    apply bind_ok_inv in Hrun as (ss & w2 & Hss & Hret).
    apply ret_ok_inv in Hret as [-> ->]. unfold store_message in Hs.
    destruct (negb _); [done|]. apply bind_ok_inv in Hs as (p & w3 & Hp & Hret).
    apply ret_ok_inv in Hret as [-> ->].
    apply record_inbound_ok_inv in Hp as (Hk & Hg & Ht).
    destruct (IH _ _ _ Hss) as (Hl & Hg2 & Hall). split; [cbn; by rewrite Hl|].
    split; [by etrans|]. intros m' [->|Hm']%elem_of_cons; [|by apply Hall].
    split; [by apply Hg2|exact Ht].
Qed.

Lemma grow_dedup ttl a m : keeps messages_grow (dedup_claim ttl a m).
Proof.
  intros w. apply grow_same. unfold dedup_claim. destruct (_ || _); [done|].
  rewrite bind_run. destruct (redis_try_run (CSet (dedup_key_for a m) (u "1") ttl true) w)
    as (o & w' & -> & Hd & _). cbn. by rewrite Hd.
Qed.

Lemma grow_session {A} (m : M A) : keeps messages_grow m -> keeps messages_grow (session m).
Proof.
  intros Hm w. specialize (Hm w). unfold session. destruct (m w) as [[a|e] w1]; cbn in *.
  - destruct (db_up _); [done|]. by apply grow_same.
  - by apply grow_same.
Qed.

Lemma store_known l w stored w' :
  (forall m, m ∈ l -> known_message (im_message_id m) w) ->
  m_map store_message l w = (Ok stored, w') ->
  messages w' = messages w /\ Forall (eq PS_DUPLICATE) stored.*2.
Proof.
  revert w stored w'. induction l as [|m l IH]; intros w stored w' Hk Hrun; cbn [m_map] in Hrun.
  - injection Hrun as <- <-. by split; [|constructor].
  - apply bind_ok_inv in Hrun as (s & w1 & Hs & Hrun).
    apply bind_ok_inv in Hrun as (ss & w2 & Hss & Hret).
    apply ret_ok_inv in Hret as [-> ->]. unfold store_message in Hs.
    destruct (negb _); [done|]. apply bind_ok_inv in Hs as (p & w3 & Hp & Hret).
    apply ret_ok_inv in Hret as [-> ->].
    match type of Hp with record_inbound ?a _ ?t ?e _ = _ =>
      pose proof (record_known_keeps a m t e w) as Hone end.
    rewrite Hp in Hone. destruct (Hone (Hk m ltac:(set_solver)) p eq_refl) as [Hm Hst].
    destruct (IH _ _ _ ltac:(intros m' Hm'; destruct (Hk m' ltac:(set_solver)) as (k & x & ? & ?);
      exists k, x; by rewrite Hm) Hss) as [Hm2 Hall].
    split; [by rewrite Hm2|]. by constructor.
Qed.

Lemma count_all {A} `{EqDecision A} (x : A) l :
  Forall (eq x) l -> count x l = Z.of_nat (length l).
Proof.
  induction 1 as [|y l <- _ IH]; [done|]. rewrite count_cons, IH.
  case_decide; [|done]. cbn [length]. lia.
Qed.

(** *** The two phases after the transaction *)

Definition same_messages : relation World := fun w w' => messages w' = messages w.
#[export] Instance same_messages_preorder : PreOrder same_messages.
Proof. split; unfold same_messages; [done|]. intros ? ? ? Hx Hy. by rewrite Hy, Hx. Qed.

Lemma same_grow w w' : same_messages w w' -> messages_grow w w'.
Proof. apply grow_same. Qed.

Lemma same_dedup ttl a m : keeps same_messages (dedup_claim ttl a m).
Proof.
  intros w. unfold same_messages, dedup_claim. destruct (_ || _); [done|].
  rewrite bind_run. destruct (redis_try_run (CSet (dedup_key_for a m) (u "1") ttl true) w)
    as (o & w' & -> & Hd & _). cbn. by rewrite Hd.
Qed.

Lemma callback_effect_messages cb d st tr d' :
  callback_effect cb d st tr d' -> db_messages d' = db_messages d.
Proof. destruct 1; unfold outside in *; destruct_and?; done. Qed.

Lemma apply_callback_messages cb w : messages (apply_callback cb w).2 = messages w.
Proof.
  pose proof (apply_callback_cases cb w) as Hc. destruct (apply_callback cb w) as [r w']. cbn.
  destruct Hc as [[-> _]|(st & tr & Hc%callback_effect_messages & _)]; [done|by rewrite Hc].
Qed.

Lemma same_apply_status cb : keeps same_messages (apply_status cb).
Proof.
  unfold apply_status. apply keeps_bind; [apply _| |].
  - intros w. apply apply_callback_messages.
  - intros st. destruct st; first [apply keeps_ret, _ | apply keeps_raise, _].
Qed.

Lemma apply_statuses_inv l w results w' :
  m_map apply_status l w = (Ok results, w') ->
  length results = length l /\ Forall (fun s => s <> CB_MISSING_ATTEMPT) results.
Proof.
  revert w results w'. induction l as [|cb l IH]; intros w results w' Hrun; cbn [m_map] in Hrun.
  - injection Hrun as <- <-. by split; [|constructor].
  - apply bind_ok_inv in Hrun as (s & w1 & Hs & Hrun).
    apply bind_ok_inv in Hrun as (ss & w2 & Hss & Hret). apply ret_ok_inv in Hret as [-> ->].
    destruct (IH _ _ _ Hss) as [Hl Hall]. split; [cbn; by rewrite Hl|]. constructor; [|done].
    unfold apply_status in Hs. apply bind_ok_inv in Hs as (st & w3 & _ & Hs).
    by destruct st; [injection Hs as <- _|injection Hs as <- _|injection Hs as <- _|].
Qed.

Lemma count_callbacks l :
  Forall (fun s => s <> CB_MISSING_ATTEMPT) l ->
  count CB_APPLIED l + count CB_DUPLICATE l + count CB_IGNORED_REGRESSION l = Z.of_nat (length l).
Proof.
  induction 1 as [|s l Hs _ IH]; [done|]. rewrite !count_cons. cbn [length].
  destruct s; repeat case_decide; try done; lia.
Qed.

(** An ingest that returns, phase by phase. *)
Lemma ingest_ok_inv ttl ev w r w' :
  ingest ttl ev w = (Ok r, w') ->
  exists stored results w1 w2,
    m_map store_message (we_messages ev) w = (Ok stored, w1) /\
    same_messages w1 w' /\ m_map apply_status (we_statuses ev) w2 = (Ok results, w') /\
    wr_accepted_messages r = count PS_CREATED stored.*2 /\
    wr_duplicate_messages r = count PS_DUPLICATE stored.*2 /\
    wr_accepted_statuses r = count CB_APPLIED results /\
    wr_duplicate_statuses r = count CB_DUPLICATE results /\
    wr_ignored_statuses r = count CB_IGNORED_REGRESSION results.
Proof.
  unfold ingest. intros (stored & w0 & Hst & Hr)%bind_ok_inv.
  apply session_ok_inv in Hst as (w1 & Hst & ->).
  apply bind_ok_inv in Hr as (ds & w2 & Hd & Hr).
  apply bind_ok_inv in Hr as (results & w3 & Hres & Hr). apply lift_ok_inv in Hr as [Hr ->].
  apply construct_ok in Hr as [_ ->].
  exists stored, results, w1, w2. split; [done|]. split; [|done].
  change (same_messages (tick w1) w3). transitivity w2.
  - pose proof (keeps_map same_messages (fun s => dedup_claim ttl s.1.1 s.1.2) stored
      (fun s => same_dedup ttl s.1.1 s.1.2) (tick w1)) as Hk. by rewrite Hd in Hk.
  - pose proof (keeps_map same_messages apply_status (we_statuses ev)
      same_apply_status w2) as Hk. by rewrite Hres in Hk.
Qed.

(** An ingest of stored messages, whatever it answers. *)
Lemma ingest_known_same ttl ev w :
  (forall m, m ∈ we_messages ev -> known_message (im_message_id m) w) ->
  messages (ingest ttl ev w).2 = messages w.
Proof.
  intros Hk. unfold ingest. rewrite bind_run.
  destruct (store_messages (we_messages ev) w) as [[stored|e] w1] eqn:Hst; cbn.
  - apply session_ok_inv in Hst as (w2 & Hst & ->). apply store_known in Hst as [Hm _]; [|done].
    transitivity (messages (tick w2)); [|exact Hm].
    match goal with |- messages (?m ?w0).2 = _ => change (same_messages w0 (m w0).2) end.
    apply keeps_bind; [apply _| |].
    { apply keeps_map; [apply _|]. intros. apply same_dedup. }
    intros ds. apply keeps_bind; [apply _| |].
    { apply keeps_map; [apply _|]. apply same_apply_status. }
    intros results. apply keeps_lift, _.
  - by apply session_raise_db in Hst as ->.
Qed.

(** An ingest that returns has every message stored, and lost none. *)
Lemma ingest_stored ttl ev w r w' :
  ingest ttl ev w = (Ok r, w') ->
  (forall m, m ∈ we_messages ev -> known_message (im_message_id m) w') /\
  (forall e, known_message e w -> known_message e w').
Proof.
  intros (stored & results & w1 & w2 & Hst & Hsame & _)%ingest_ok_inv.
  apply same_grow in Hsame. apply store_all_inv in Hst as (_ & Hg & Hall). split.
  - intros m Hm. by apply Hsame, Hall.
  - intros e He. by apply Hsame, Hg.
Qed.

(** ** Properties *)

(** C22. An ingest that acknowledges a webhook has stored every message of it, lost
    none of the messages stored before, and accounts for every message and
    every status: each is counted exactly once. *)
Theorem acknowledged_messages_stored ttl ev w r w' :
  ingest ttl ev w = (Ok r, w') ->
  (forall m, m ∈ we_messages ev -> known_message (im_message_id m) w') /\
  (forall e, known_message e w -> known_message e w') /\
  wr_accepted_messages r + wr_duplicate_messages r = Z.of_nat (length (we_messages ev)) /\
  wr_accepted_statuses r + wr_duplicate_statuses r + wr_ignored_statuses r =
    Z.of_nat (length (we_statuses ev)).
Proof.
  intros Hi. destruct (ingest_stored _ _ _ _ _ Hi) as [Hall Hg]. split; [done|]. split; [done|].
  apply ingest_ok_inv in Hi as (stored & results & w1 & w2 & Hst & _ & Hres & -> & -> & -> & -> & ->).
  apply store_all_inv in Hst as (Hl & _). apply apply_statuses_inv in Hres as [Hl2 Hok].
  by rewrite count_statuses, length_fmap, Hl, count_callbacks, Hl2.
Qed.

(** C23. The webhook the provider delivers again, after an acknowledged delivery,
    stores no message, whatever fails meanwhile; acknowledged again, it counts
    every message as a duplicate. *)
Theorem redelivery_stores_nothing ttl ev w r w1 :
  ingest ttl ev w = (Ok r, w1) ->
  let '(again, w2) := ingest ttl ev w1 in
  messages w2 = messages w1 /\
  forall r2, again = Ok r2 -> wr_accepted_messages r2 = 0 /\
    wr_duplicate_messages r2 = Z.of_nat (length (we_messages ev)).
Proof.
  intros (stored & _ & w0 & _ & Hst & Hsame & _)%ingest_ok_inv.
  apply store_all_inv in Hst as (_ & _ & Hall).
  assert (forall m, m ∈ we_messages ev -> known_message (im_message_id m) w1) as Hk
    by (intros m Hm; by apply (same_grow _ _ Hsame), Hall).
  pose proof (ingest_known_same ttl ev w1 Hk) as Hms.
  destruct (ingest ttl ev w1) as [again w2] eqn:Hagain. split; [exact Hms|]. intros r2 ->.
  apply ingest_ok_inv in Hagain as (stored2 & _ & w3 & _ & Hst2 & _ & _ & -> & -> & _).
  pose proof (store_all_inv _ _ _ _ Hst2) as (Hl2 & _).
  apply store_known in Hst2 as [_ Hd]; [|exact Hk].
  pose proof (count_statuses stored2.*2) as Hc. rewrite (count_all PS_DUPLICATE) in * by done.
  rewrite length_fmap, Hl2 in *. split; [lia|done].
Qed.

(** A message whose identifier does not fit the trace column makes the ingest
    raise with the database unchanged: none of the messages of its batch is
    stored, at any attempt. *)
Theorem oversized_message_blocks_batch ttl ev m w :
  m ∈ we_messages ev -> 123 < py_len (im_message_id m) ->
  exists e, (ingest ttl ev w).1 = Raise e /\ w_db (ingest ttl ev w).2 = w_db w.
Proof.
  intros Hm Hlen. unfold ingest. rewrite bind_run.
  destruct (store_messages (we_messages ev) w) as [[stored|e] w1] eqn:Hst.
  - apply session_ok_inv in Hst as (w2 & Hst & _). apply store_all_inv in Hst as (_ & _ & Hall).
    destruct (Hall m Hm) as [_ Ht]. unfold py_len in *. rewrite length_app in Ht.
    change (length (u "meta:")) with 5%nat in Ht. lia.
  - exists e. split; [done|]. by apply session_raise_db in Hst.
Qed.
End lemmas.

(** ** Evaluations *)

Section concrete.
#[local] Existing Instances map_engine scheduled_server sample_env.

Definition meta_message (id : str) : InboundMessage := {|
  im_message_id := id; im_channel := WHATSAPP; im_conversation_id := u "5491";
  im_sender_id := u "5491"; im_kind := MK_TEXT; im_text := Some (u "hola");
  im_received_at := utc 0; im_metadata := {[ u "phone_number_id" := u "phone-1" ]} |}.

(** Two messages and a callback for the attempt of [sent_world]. *)
Definition sample_events : MetaWebhookEvents := {|
  we_messages := [meta_message (u "wamid.a"); meta_message (u "wamid.b")];
  we_statuses := [sample_callback DS_SENT None] |}.

Definition sample_counts (accepted duplicate applied repeated : Z) : WebhookIngestResult := {|
  wr_accepted_messages := accepted; wr_duplicate_messages := duplicate;
  wr_accepted_statuses := applied; wr_duplicate_statuses := repeated; wr_ignored_statuses := 0 |}.

Definition ingested_world : World := (ingest 3600 sample_events sent_world).2.

Lemma ingest_sample :
  ingest 3600 sample_events sent_world = (Ok (sample_counts 2 0 1 0), ingested_world).
Proof.
  unfold ingested_world. apply (run_fst (ingest 3600 sample_events) sent_world).
  vm_compute. reflexivity.
Qed.

Lemma acknowledged_messages_stored_witness :
  known_message (u "wamid.b") ingested_world.
Proof.
  destruct (acknowledged_messages_stored 3600 sample_events _ _ _ ingest_sample) as [Hk _].
  apply (Hk (meta_message (u "wamid.b"))). right. left.
Defined.

Lemma redelivery_stores_nothing_witness :
  (ingest 3600 sample_events ingested_world).1 = Ok (sample_counts 0 2 0 1) /\
  messages (ingest 3600 sample_events ingested_world).2 = messages ingested_world.
Proof.
  pose proof (redelivery_stores_nothing 3600 sample_events _ _ _ ingest_sample) as Hr.
  destruct (ingest 3600 sample_events ingested_world) as [again w2] eqn:He.
  destruct Hr as [Hm _]. split; [|exact Hm].
  change again with (again, w2).1. rewrite <- He. vm_compute. reflexivity.
Defined.

Lemma oversized_message_blocks_batch_witness :
  let ev := {| we_messages := [meta_message (u "wamid.a"); meta_message (replicate 124 65)];
               we_statuses := [] |} in
  exists e, (ingest 3600 ev sample_world).1 = Raise e /\
    w_db (ingest 3600 ev sample_world).2 = w_db sample_world.
Proof.
  intros ev. apply (oversized_message_blocks_batch 3600 ev (meta_message (replicate 124 65))).
  - right. left.
  - vm_compute. reflexivity.
Defined.
End concrete.
