(* ===== verification/MetaDelivery.v ===== *)
(** * The Meta delivery adapter ([src/piki/integrations/meta/delivery.py])

    [MetaDeliveryAdapter]: its configuration, the bodies it posts to the Graph
    API, and [send], which turns every answer of the provider into a
    [DeliveryResult]. *)
From S2P Require Import Prelude PyStr Errors Sha256 Contracts Pydantic Events Sql Redis.
From S2P Require Import Models World.
From S2P Require Import Session Sample.

Local Open Scope Z_scope.

(** [repr] of the decoded numbers and containers whose text depends on the
    interpreter's formatting of floats and of nested strings. *)
Class PyRepr := { py_repr : json -> str }.

(** [str(value)] of a decoded JSON value. *)
Definition py_str `{PyRepr} (j : json) : str :=
  match j with
  | JStr s => s
  | JInt n => str_of_Z n
  | JBool b => if b then u "True" else u "False"
  | JNull => u "None"
  | JFloat _ | JArr _ | JObj _ => py_repr j
  end.

(** ** Response models *)

Record MetaMessageIdentifier := { mi_id : str }.
Record MetaSendResponse := {
  msr_messaging_product : str;
  msr_messages : list MetaMessageIdentifier
}.

Definition parse_identifier : json -> option MetaMessageIdentifier := as_obj (fun o =>
  id ← field as_str (u "id") o; Some {| mi_id := id |}).

Definition parse_send_response : json -> option MetaSendResponse := as_obj (fun o =>
  product ← field as_str (u "messaging_product") o;
  messages ← field (as_tuple parse_identifier) (u "messages") o;
  Some {| msr_messaging_product := product; msr_messages := messages |}).

(** ** Construction *)

Record AdapterOptions := { mo_phone_number_id : str; mo_base_url : str }.

Definition new_meta_adapter (graph_base_url graph_api_version phone_number_id access_token : str)
    : res AdapterOptions :=
  if existsb (fun value => negb (truthy (strip value)))
       [graph_api_version; phone_number_id; access_token]
  then Raise (ValueError (u "Meta delivery configuration is incomplete"))
  else Ok {| mo_phone_number_id := strip phone_number_id;
             mo_base_url := rstrip_chars (u "/") graph_base_url ++ u "/" ++
                            strip_chars (u "/") (strip graph_api_version) ++ u "/" |}.

(** ** Local failures *)

Definition _local_failure (request : DeliveryRequest) (code : str) : res DeliveryResult :=
  construct {| dres_status := DS_FAILED; dres_provider_message_id := None;
               dres_error_code := Some code;
               dres_error_message := Some (u "El mensaje no cumple el contrato de entrega de Meta.");
               dres_trace_id := dr_trace_id request; dres_metadata := [] |}.

Definition window_reason (window : CustomerServiceWindow) : str * str :=
  if bool_decide (window = CSW_CLOSED)
  then (u "META_TEMPLATE_REQUIRED",
        u "La ventana de atención está cerrada; se requiere un template aprobado.")
  else (u "META_WINDOW_UNCONFIRMED",
        u "No se pudo confirmar la ventana de atención para el envío libre.").

Definition _window_failure (request : DeliveryRequest) : res DeliveryResult :=
  let '(code, message) := window_reason (dr_customer_service_window request) in
  construct {| dres_status := DS_FAILED; dres_provider_message_id := None;
               dres_error_code := Some code; dres_error_message := Some message;
               dres_trace_id := dr_trace_id request; dres_metadata := [] |}.

(** ** The request body *)

(** A [str | None] in a JSON body. *)
Definition json_opt (o : option str) : json := match o with Some s => JStr s | None => JNull end.

Definition button (option : InteractiveOption) : json :=
  JObj [(u "type", JStr (u "reply"));
        (u "reply", JObj [(u "id", JStr (io_id option)); (u "title", JStr (io_title option))])].

Definition template_components (parameters : list str) : list (str * json) :=
  if bool_decide (parameters = []) then []
  else [(u "components", JArr [JObj [
          (u "type", JStr (u "body"));
          (u "parameters", JArr (map (fun value =>
             JObj [(u "type", JStr (u "text")); (u "text", JStr value)]) parameters))]])].

(** The fields each kind adds to the common ones. *)
Definition kind_fields (request : DeliveryRequest) : list (str * json) :=
  match dr_kind request with
  | DK_TEXT =>
      [(u "type", JStr (u "text"));
       (u "text", JObj [(u "preview_url", JBool false); (u "body", json_opt (dr_text request))])]
  | DK_IMAGE =>
      [(u "type", JStr (u "image"));
       (u "image", JObj ([(u "link", JStr (default (u "None") (dr_media_url request)))] ++
          if truthy_opt (dr_text request) then [(u "caption", json_opt (dr_text request))] else []))]
  | DK_INTERACTIVE =>
      [(u "type", JStr (u "interactive"));
       (u "interactive", JObj [
          (u "type", JStr (u "button"));
          (u "body", JObj [(u "text", json_opt (dr_text request))]);
          (u "action", JObj [(u "buttons", JArr (map button (dr_interactive_options request)))])])]
  | DK_TEMPLATE =>
      [(u "type", JStr (u "template"));
       (u "template", JObj ([
          (u "name", json_opt (dr_template_name request));
          (u "language", JObj [(u "code", json_opt (dr_template_language request))])] ++
          template_components (dr_template_parameters request)))]
  end.

Definition caption_too_long (request : DeliveryRequest) : bool :=
  truthy_opt (dr_text request) && (1024 <? py_len (default [] (dr_text request))).

(** The body to post, or the result that replaces it. *)
Definition _build_body (request : DeliveryRequest) : res (json + DeliveryResult) :=
  if bool_decide (dr_kind request = DK_IMAGE) && caption_too_long request
  then failure ← _local_failure request (u "META_IMAGE_CAPTION_TOO_LONG"); Ok (inr failure)
  else Ok (inl (JObj ([
    (u "messaging_product", JStr (u "whatsapp"));
    (u "recipient_type", JStr (u "individual"));
    (u "to", JStr (dr_conversation_id request))] ++ kind_fields request))).

(** ** [send] *)

(** The UNKNOWN results. *)
Definition uncertain (code message : str) (request : DeliveryRequest) : res DeliveryResult :=
  construct {| dres_status := DS_UNKNOWN; dres_provider_message_id := None;
               dres_error_code := Some code; dres_error_message := Some message;
               dres_trace_id := dr_trace_id request; dres_metadata := [] |}.

(** The code the error body names, when it names one. *)
Definition meta_error_code `{PyRepr} (body : option json) : option str :=
  match body with
  | Some (JObj payload) =>
      match default (JObj []) (obj_get (u "error") payload) with
      | JObj meta_error =>
          match obj_get (u "code") meta_error with
          | None | Some JNull => None
          | Some code => Some (u "META_" ++ py_str code)
          end
      | _ => None
      end
  | _ => None
  end.

Definition _rejected_result `{PyRepr} (status : Z) (body : option json) (trace_id : str)
    : res DeliveryResult :=
  construct {| dres_status := DS_FAILED; dres_provider_message_id := None;
               dres_error_code :=
                 Some (default (u "META_HTTP_" ++ str_of_Z status) (meta_error_code body));
               dres_error_message := Some (u "Meta rechazó el mensaje.");
               dres_trace_id := trace_id;
               dres_metadata := [(u "http_status", JInt status)] |}.

(** The [try] around the decoding of a success: the product and the identifier
    of the first message. *)
Definition accepted_message (body : option json) : option (str * str) :=
  payload ← body ≫= parse_send_response;
  message ← head (msr_messages payload);
  if truthy (strip (mi_id message)) then Some (msr_messaging_product payload, mi_id message)
  else None.

(** What [send] makes of the answer. *)
Definition read_response `{PyRepr} (request : DeliveryRequest) (outcome : HttpOutcome)
    : res DeliveryResult :=
  match outcome with
  | HTimeout =>
      uncertain (u "META_TIMEOUT_UNCERTAIN")
        (u "Meta no confirmó si aceptó el mensaje antes del timeout.") request
  | HRequestError =>
      uncertain (u "META_NETWORK_UNCERTAIN")
        (u "No se pudo confirmar el resultado del envío con Meta.") request
  | HResponse status body =>
      if is_error status then _rejected_result status body (dr_trace_id request)
      else match accepted_message body with
           | None =>
               uncertain (u "META_INVALID_SUCCESS_RESPONSE")
                 (u "Meta respondió sin un identificador de mensaje válido.") request
           | Some (product, provider_message_id) =>
               construct {| dres_status := DS_ACCEPTED;
                            dres_provider_message_id := Some provider_message_id;
                            dres_error_code := None; dres_error_message := None;
                            dres_trace_id := dr_trace_id request;
                            dres_metadata := [(u "messaging_product", JStr product)] |}
           end
  end.

Definition messages_request (options : AdapterOptions) (body : json) : HttpRequest :=
  {| hq_service := SVC_META; hq_path := mo_phone_number_id options ++ u "/messages";
     hq_params := []; hq_body := Some body |}.

Definition outside_window (request : DeliveryRequest) : bool :=
  negb (bool_decide (dr_kind request = DK_TEMPLATE)) &&
  negb (bool_decide (dr_customer_service_window request = CSW_OPEN)).

Section send.
Context `{PyRepr} `{SqlEngine} `{RedisServer} `{Env}.
Variable options : AdapterOptions.

Definition meta_send (request : DeliveryRequest) : M DeliveryResult :=
  if outside_window request then lift (_window_failure request)
  else
    body_or_error ← lift (_build_body request);
    match body_or_error with
    | inr result => mret result
    | inl body =>
        outcome ← http (messages_request options body);
        lift (read_response request outcome)
    end.
End send.

(** ** Lemmas *)

Lemma str_of_status_len status : 400 <= status <= 599 -> py_len (str_of_Z status) = 3.
Proof.
  intros Hs. unfold str_of_Z. destruct (status <? 0) eqn:Hneg; [lia|].
  assert (exists n, (n < 200)%nat /\ status = 400 + Z.of_nat n) as (n & Hn & ->)
    by (exists (Z.to_nat (status - 400)); lia).
  do 200 (destruct n as [|n]; [by vm_compute|]). lia.
Qed.

(** The texts of the provider that end up in bounded columns fit there. *)
Definition answer_fits `{PyRepr} (outcome : HttpOutcome) : Prop :=
  match outcome with
  | HResponse status body =>
      (is_error status = true -> forall code, meta_error_code body = Some code -> py_len code <= 100) /\
      forall product id, accepted_message body = Some (product, id) -> py_len id <= 255
  | _ => True
  end.

Section reading.
Context `{PyRepr}.
Variable request : DeliveryRequest.
Hypothesis trace_fits : len_in 1 128 (dr_trace_id request) = true.

Lemma failed_ok code message metadata :
  truthy code = true -> py_len code <= 100 -> py_len message <= 500 ->
  contract_ok {| dres_status := DS_FAILED; dres_provider_message_id := None;
    dres_error_code := Some code; dres_error_message := Some message;
    dres_trace_id := dr_trace_id request; dres_metadata := metadata |} = true.
Proof.
  intros Ht Hc Hm. unfold contract_ok. cbn -[py_len u truthy len_in]. rewrite trace_fits, Ht.
  rewrite !andb_true_iff, !len_in_spec. unfold py_len in *. repeat split; lia.
Qed.

Lemma uncertain_ok code message :
  truthy code = true -> py_len code <= 100 -> py_len message <= 500 ->
  exists r, uncertain code message request = Ok r /\ dres_status r = DS_UNKNOWN /\
    dres_trace_id r = dr_trace_id request.
Proof.
  intros Ht Hc Hm. unfold uncertain. rewrite construct_good; [eauto|].
  unfold contract_ok. cbn -[py_len u truthy len_in]. rewrite trace_fits, Ht.
  rewrite !andb_true_iff, !len_in_spec. unfold py_len in *. repeat split; lia.
Qed.

Lemma meta_code_prefix body code :
  meta_error_code body = Some code -> exists j, code = u "META_" ++ py_str j.
Proof.
  unfold meta_error_code. intros Hc. destruct body as [[]|]; try done. destruct (default _ _); try done.
  destruct (obj_get _ _) as [j|]; [|done]. exists j. destruct j; congruence.
Qed.

Lemma accepted_nonblank body product id :
  accepted_message body = Some (product, id) ->
  truthy id = true /\ exists j m ms, body = Some j /\ parse_send_response j =
    Some {| msr_messaging_product := product; msr_messages := m :: ms |} /\ mi_id m = id.
Proof.
  unfold accepted_message. intros ([p l] & Hp & (m & Hm & Hid)%bind_Some)%bind_Some. cbn in *.
  destruct (truthy (strip (mi_id m))) eqn:Ht; [|done]. injection Hid as <- <-.
  apply bind_Some in Hp as (j & -> & Hj). destruct l as [|m' ms]; [done|]. injection Hm as ->.
  split; [|by eexists j, m, ms]. by destruct (mi_id m).
Qed.

(** The answers of [send], for every outcome whose texts fit. *)
Lemma read_response_ok outcome :
  answer_fits outcome -> exists r, read_response request outcome = Ok r.
Proof.
  unfold read_response, answer_fits. destruct outcome as [status body| |].
  2,3: intros _; edestruct uncertain_ok as (r & -> & _); [by vm_compute..|eauto].
  intros [Herr Hid]. destruct (is_error status) eqn:He.
  - unfold _rejected_result. rewrite construct_good; [eauto|]. apply failed_ok.
    + destruct (meta_error_code body) eqn:Hc; cbn; [|done].
      by apply meta_code_prefix in Hc as (j & ->).
    + destruct (meta_error_code body) as [code|] eqn:Hc; cbn; [by apply Herr|].
      unfold is_error in He. bools. pose proof (str_of_status_len status) as Hl.
      unfold py_len in *. rewrite length_app. change (length (u "META_HTTP_")) with 10%nat. lia.
    + by vm_compute.
  - destruct (accepted_message body) as [[product id]|] eqn:Ha;
      [|edestruct uncertain_ok as (r & -> & _); [by vm_compute..|eauto]].
    apply accepted_nonblank in Ha as Hn. destruct Hn as [Ht _].
    rewrite construct_good; [eauto|]. unfold contract_ok. cbn -[py_len truthy len_in].
    rewrite trace_fits, Ht. specialize (Hid _ _ eq_refl). rewrite !andb_true_iff, !len_in_spec.
    unfold py_len in *. repeat split; lia.
Qed.
End reading.

(** What a result says of the answer it was read from. *)
Definition truthful (request : DeliveryRequest) (answer : HttpOutcome) (r : DeliveryResult) : Prop :=
  match dres_status r with
  | DS_ACCEPTED => exists status j product m ms, answer = HResponse status (Some j) /\
      is_error status = false /\ dres_provider_message_id r = Some (mi_id m) /\
      parse_send_response j =
        Some {| msr_messaging_product := product; msr_messages := m :: ms |}
  | DS_FAILED => exists status body, answer = HResponse status body /\ is_error status = true
  | DS_UNKNOWN => match answer with
      | HResponse status body => is_error status = false /\ accepted_message body = None
      | _ => True
      end
  | _ => False
  end.

Lemma read_response_truthful `{PyRepr} request answer r :
  read_response request answer = Ok r ->
  truthful request answer r /\ dres_trace_id r = dr_trace_id request.
Proof.
  unfold read_response, truthful, uncertain, _rejected_result.
  destruct answer as [status body| |]; [|by intros [_ ->]%construct_ok..].
  destruct (is_error status) eqn:He; [intros [_ ->]%construct_ok; cbn; eauto|].
  destruct (accepted_message body) as [[product id]|] eqn:Ha;
    [|by intros [_ ->]%construct_ok].
  intros [_ ->]%construct_ok. cbn. split; [|done].
  apply accepted_nonblank in Ha as (_ & j & m & ms & -> & Hp & <-).
  by exists status, j, product, m, ms.
Qed.

Lemma build_body_cases request :
  (exists body, _build_body request = Ok (inl body)) \/
  _build_body request = (r ← _local_failure request (u "META_IMAGE_CAPTION_TOO_LONG"); Ok (inr r)).
Proof. unfold _build_body. destruct (_ && _); eauto. Qed.

Lemma window_failure_inv request r :
  _window_failure request = Ok r -> dres_status r = DS_FAILED /\ dres_trace_id r = dr_trace_id request.
Proof.
  unfold _window_failure. destruct (window_reason _). by intros [_ ->]%construct_ok.
Qed.

Lemma request_trace_fits request :
  contract_ok request = true -> len_in 1 128 (dr_trace_id request) = true.
Proof. unfold contract_ok. intros [Hf _]%andb_true_iff. cbn -[len_in py_len] in Hf. by bools. Qed.

(** ** Properties *)

Section properties.
Context `{PyRepr} `{SqlEngine} `{RedisServer} `{Env}.
Variable options : AdapterOptions.

(** C28. The adapter is truthful.  It writes no state and posts at most one request;
    a message the service window does not allow posts none; and a result that
    says accepted, rejected or unknown is backed by what the provider answered
    to that request: accepted only with the identifier of its reply, failed
    only when nothing was sent or the provider refused it, unknown only when no
    usable answer came back. *)
Theorem meta_send_truthful request w :
  let '(o, w') := meta_send options request w in
  w_db w' = w_db w /\ w_redis w' = w_redis w /\
  (outside_window request = true -> w' = w) /\
  (w' = w \/ exists body, w_io w' = IoHttp (messages_request options body) :: w_io w) /\
  forall r, o = Ok r -> dres_trace_id r = dr_trace_id request /\
    ((w' = w /\ dres_status r = DS_FAILED) \/
     exists body, _build_body request = Ok (inl body) /\
       w_io w' = IoHttp (messages_request options body) :: w_io w /\
       truthful request (transport (w_io w) (messages_request options body)) r).
Proof.
  unfold meta_send. destruct (outside_window request).
  { cbn [lift]. split_and!; try done; [by left|]. intros r [? ?]%window_failure_inv. auto. }
  destruct (build_body_cases request) as [[body Hb]|Hb]; rewrite bind_run; unfold lift at 1; rewrite Hb.
  - rewrite bind_run. unfold http. cbv beta iota zeta. unfold lift.
    split_and!; try done; [right; by exists body|]. intros r [Ht Htr]%read_response_truthful.
    split; [done|]. right. by exists body.
  - unfold _local_failure. match goal with |- context [construct ?r] => destruct (construct r) as [x|e] eqn:Hc end;
      cbn; split_and!; try done; try (by left).
    apply construct_ok in Hc as [_ ->]. intros r [= <-]. split; [done|]. by left.
Qed.

(** A valid request is answered, never raised: the adapter returns a result
    whatever the transport does, provided the error code or the identifier the
    provider sends back fits its field. *)
Theorem meta_send_answers request w :
  contract_ok request = true ->
  (forall q, answer_fits (transport (w_io w) q)) ->
  exists r w', meta_send options request w = (Ok r, w').
Proof.
  intros Hreq Hfits. apply request_trace_fits in Hreq as Htr. unfold meta_send.
  destruct (outside_window request).
  { unfold _window_failure, lift. destruct (window_reason _) as [code message] eqn:Hw.
    unfold window_reason in Hw. rewrite construct_good; [by do 2 eexists|].
    case_bool_decide; injection Hw as <- <-; apply failed_ok; first [done | by vm_compute]. }
  destruct (build_body_cases request) as [[body Hb]|Hb]; rewrite bind_run; unfold lift at 1; rewrite Hb.
  - rewrite bind_run. unfold http. cbv beta iota zeta. unfold lift.
    destruct (read_response_ok request Htr _ (Hfits (messages_request options body))) as [r ->].
    by do 2 eexists.
  - unfold _local_failure. rewrite construct_good; [by do 2 eexists|].
    apply failed_ok; first [done | by vm_compute].
Qed.
End properties.

(** ** Evaluations *)

#[local] Instance no_repr : PyRepr := {| py_repr _ := [] |}.

Definition sample_options : AdapterOptions :=
  {| mo_phone_number_id := u "phone-1"; mo_base_url := u "https://graph.facebook.com/v20.0/" |}.

Example construction_trims :
  new_meta_adapter (u "https://graph.facebook.com/") (u " /v20.0/ ") (u " phone-1 ") (u "token") =
  Ok sample_options.
Proof. vm_compute. reflexivity. Qed.

Definition answering (outcome : HttpOutcome) : Env := {|
  clock n := 1700000000000000 + Z.of_nat n;
  perf_counter n := 1000 * Z.of_nat n;
  db_up _ := true;
  transport _ _ := outcome;
  token_urlsafe _ := replicate 43 65 |}.

Definition accepted_reply : json := JObj [
  (u "messaging_product", JStr (u "whatsapp"));
  (u "messages", JArr [JObj [(u "id", JStr (u "wamid.9"))]])].

Section concrete.
#[local] Existing Instances map_engine scheduled_server.

Lemma meta_send_answers_witness :
  exists r w', @meta_send _ _ _ (answering (HResponse 200 (Some accepted_reply))) sample_options
    sample_request sample_world = (Ok r, w').
Proof.
  apply meta_send_answers; [by vm_compute|]. intros q. split; [done|].
  intros product id [= <- <-]. by vm_compute.
Defined.

Example accepted_message_sent :
  (@meta_send _ _ _ (answering (HResponse 200 (Some accepted_reply))) sample_options
    sample_request sample_world).1 =
  Ok {| dres_status := DS_ACCEPTED; dres_provider_message_id := Some (u "wamid.9");
        dres_error_code := None; dres_error_message := None; dres_trace_id := u "trace-1";
        dres_metadata := [(u "messaging_product", JStr (u "whatsapp"))] |}.
Proof. vm_compute. reflexivity. Qed.

(** A refusal whose code does not fit the result raises instead. *)
Example long_code_raises :
  exists msg, (@meta_send _ _ _ (answering (HResponse 400 (Some (JObj
      [(u "error", JObj [(u "code", JStr (replicate 96 65))])])))) sample_options
    sample_request sample_world).1 = Raise (ValidationError msg).
Proof. eexists. vm_compute. reflexivity. Qed.
End concrete.
