(* ===== verification/Tools.v ===== *)
(** * The BuenPick tools ([src/piki/tools/buenpick.py])

    [BuenPickReader] is the protocol of the same name, the instance
    [BuenPickClientReader] the client that implements it.  [BuenPickTools] wraps
    every call of a reader into a [ToolResult], with the lifecycle events around
    it. *)
From S2P Require Import Prelude PyStr Errors Sha256 Contracts Pydantic BuenPickModels.
From S2P Require Import BuenPick.
From S2P Require Import Events Sql Redis Models World Session Sample ActivePick.

Local Open Scope Z_scope.

Class BuenPickReader `{SqlEngine} `{RedisServer} := {
  br_search : option str -> option str -> M PickSearchResponse;
  br_pick : str -> M AvailablePick;
  br_commerce : str -> M Commerce;
  br_order : str -> option str -> option str -> M CustomerOrder
}.

Definition BuenPickClientReader `{LaxInt} `{LaxTypes} `{SqlEngine} `{RedisServer} `{Env}
    (options : ClientOptions) : BuenPickReader := {|
  br_search := search_available_picks options;
  br_pick := get_available_pick options;
  br_commerce := get_commerce options;
  br_order := get_customer_order options |}.

Record PickImageEvidence := { pie_pick_id : str; pie_title : str; pie_image_url : str }.
#[export] Instance PickImageEvidence_contract : Contract PickImageEvidence := {|
  fields_ok _ := true;
  model_validator _ := None
|}.

(** [int((now - started) * 1000)], instants in microseconds. *)
Definition latency_ms (now started : Z) : Z := Z.quot (now - started) 1000.

Section tools.
Context `{SqlEngine} `{RedisServer} `{Env}.

Definition _run {DataT} (trace_id tool_name : str) (operation : M DataT) : M (ToolResult DataT) :=
  started ← perf;
  observed_at ← started_at;
  emit EV_TOOL_STARTED trace_id tool_name EO_STARTED None None None None;;
  try_except (
    data ← operation;
    emit EV_TOOL_FINISHED trace_id tool_name EO_SUCCEEDED (Some observed_at) None None None;;
    finished ← perf;
    lift (construct {| tr_success := true; tr_data := Some data; tr_error_code := None;
                       tr_user_safe_message := None;
                       tr_latency_ms := latency_ms finished started; tr_trace_id := trace_id |}))
    (fun e => match e with
      | BuenPickClientError code user_safe_message _ => Some (
          emit EV_TOOL_FINISHED trace_id tool_name EO_FAILED (Some observed_at)
            (Some (enum_value code)) None None;;
          finished ← perf;
          lift (construct {| tr_success := false; tr_data := None; tr_error_code := Some code;
                             tr_user_safe_message := Some user_safe_message;
                             tr_latency_ms := latency_ms finished started;
                             tr_trace_id := trace_id |}))
      | _ => None
      end).

Section operations.
Context `{!BuenPickReader}.

Definition tool_search (query commerce_id : option str) (trace_id : str)
    : M (ToolResult PickSearchResponse) :=
  _run trace_id (u "search_available_picks") (br_search query commerce_id).

Definition tool_pick (pick_id trace_id : str) : M (ToolResult AvailablePick) :=
  _run trace_id (u "get_available_pick") (br_pick pick_id).

Definition tool_commerce (commerce_id trace_id : str) : M (ToolResult Commerce) :=
  _run trace_id (u "get_commerce") (br_commerce commerce_id).

Definition tool_order (order_id : str) (customer_phone customer_reference : option str)
    (trace_id : str) : M (ToolResult CustomerOrder) :=
  _run trace_id (u "get_customer_order")
    (br_order order_id customer_phone customer_reference).

(** [pick.images[0] if pick.images else pick.image_url]. *)
Definition first_image (pick : AvailablePick) : option str :=
  match ap_images pick with
  | image :: _ => Some image
  | [] => ap_image_url pick
  end.

Definition collect (pick_id : str) : M PickImageEvidence :=
  pick ← br_pick pick_id;
  match first_image pick with
  | None =>
      raise (BuenPickClientError TE_NOT_FOUND
               (u "BuenPick no tiene una imagen disponible para este pick.") None)
  | Some image_url =>
      lift (construct {| pie_pick_id := ap_id pick; pie_title := ap_title pick;
                         pie_image_url := image_url |})
  end.

Definition get_pick_image (pick_id trace_id : str) : M (ToolResult PickImageEvidence) :=
  _run trace_id (u "get_pick_image") (collect pick_id).
End operations.
End tools.

(** ** What a reader promises *)

(** A run only moves the clocks forward. *)
Definition later `{SqlEngine} `{RedisServer} : relation World :=
  fun w w' => (w_tick w <= w_tick w')%nat.
#[export] Instance later_preorder `{SqlEngine} `{RedisServer} : PreOrder later.
Proof. split; unfold later; intros ?; [done|]. intros; lia. Qed.

(** An operation ends, and fails only with the client's error. *)
Definition client_call `{SqlEngine} `{RedisServer} {A} (m : M A) : Prop :=
  (forall w e, (m w).1 = Raise e -> client_exn e) /\ keeps later m.

Class ReaderLaws `{SqlEngine} `{RedisServer} (R : BuenPickReader) : Prop := {
  law_search q c : client_call (br_search q c);
  law_pick p : client_call (br_pick p);
  law_commerce c : client_call (br_commerce c);
  law_order o p r : client_call (br_order o p r)
}.

Section client.
Context `{LaxInt} `{LaxTypes} `{SqlEngine} `{RedisServer} `{Env}.

Lemma http_later q : keeps later (http q).
Proof. intros w. unfold later. cbn. lia. Qed.

Lemma sleep_later t : keeps later (sleep t).
Proof. intros w. unfold later. cbn. lia. Qed.

Lemma request_client_call {A} options path (validate : json -> option A) params :
  1 <= bo_max_attempts options -> client_call (_request options path validate params).
Proof.
  intros Hm. split.
  - intros w e. by apply request_raises.
  - unfold _request. generalize (Z.to_nat (bo_max_attempts options)), 1%Z.
    intros left. induction left as [|left IH]; intros attempt; cbn [attempts];
      [apply keeps_raise, _|].
    apply keeps_bind; [apply _|apply http_later|]. intros answer.
    assert (keeps later (sleep (100000 * 2 ^ (attempt - 1));;
      attempts options (api_request path params) validate left (attempt + 1))) as Hretry.
    { apply keeps_bind; [apply _|apply sleep_later|]. intros. apply IH. }
    destruct answer; repeat case_match;
      first [exact Hretry | apply keeps_raise, _ | apply keeps_ret, _].
Qed.

(** A constructed client keeps the promises of the protocol. *)
Lemma client_reader_laws options :
  1 <= bo_max_attempts options -> ReaderLaws (BuenPickClientReader options).
Proof.
  intros Hm. split; cbn; intros; [by apply request_client_call..|].
  unfold get_customer_order. destruct (eqb _ _); [|by apply request_client_call].
  split; [|apply keeps_raise, _]. intros w e [= <-]. client_error.
Qed.

(** Looking for an image is a call of the client too. *)
Lemma collect_client_call `{!BuenPickReader} `{!ReaderLaws BuenPickReader0} pick_id :
  client_call (collect pick_id).
Proof.
  destruct (law_pick pick_id) as [Hex Hl]. unfold collect. split.
  - intros w e. rewrite bind_run. specialize (Hex w). destruct (br_pick pick_id w) as [[p|x] w1];
      cbn in *; [|naive_solver]. destruct (first_image p); [done|]. intros [= <-]. client_error.
  - apply keeps_bind; [apply _|done|]. intros p.
    destruct (first_image p); [apply keeps_lift, _|apply keeps_raise, _].
Qed.
End client.

(** ** Runs of a tool *)

Section runs.
Context `{SqlEngine} `{RedisServer} `{Env}.

(** [time.monotonic()] never goes back. *)
Definition monotonic : Prop := forall n m, (n <= m)%nat -> perf_counter n <= perf_counter m.

Definition tool_event (trace_id tool_name : str) (outcome : EventOutcome) (duration : Z)
    (error_code : option str) (event : LifecycleEvent) : LifecycleRecord :=
  {| lr_event := event; lr_trace_id := trace_id; lr_component := tool_name;
     lr_outcome := outcome; lr_duration_ms := duration; lr_error_code := error_code;
     lr_confirmed_count := None; lr_unavailable_count := None |}.

(** The result a tool makes of what the operation answered. *)
Definition reports {A} (trace_id : str) (o : res A) (r : ToolResult A) : Prop :=
  tr_trace_id r = trace_id /\ 0 <= tr_latency_ms r /\
  match o with
  | Ok data => tr_success r = true /\ tr_data r = Some data /\ tr_error_code r = None
  | Raise (BuenPickClientError code message _) =>
      tr_success r = false /\ tr_data r = None /\ tr_error_code r = Some code /\
      tr_user_safe_message r = Some message
  | Raise _ => False
  end.

Lemma tool_event_emitted ev trace name ou st er w :
  1 <= py_len trace <= 128 -> 1 <= py_len name <= 100 -> opt_len_in 0 100 er = true ->
  exists d w', emit ev trace name ou st er None None w = (Ok tt, w') /\ 0 <= d /\
    w_db w' = w_db w /\ w_redis w' = w_redis w /\ w_io w' = w_io w /\
    (w_tick w <= w_tick w')%nat /\
    w_lifecycle w' = tool_event trace name ou d er ev :: w_lifecycle w.
Proof.
  intros Htr Hn Her.
  assert (forall d w0, 0 <= d -> emit_record (tool_event trace name ou d er ev) w0 =
    (Ok tt, log_event (tool_event trace name ou d er ev) w0)) as Hrec.
  { intros d w0 Hd. unfold emit_record. rewrite construct_good; [done|].
    unfold contract_ok. cbn -[len_in py_len opt_len_in]. rewrite Her, !andb_true_r.
    by rewrite !andb_true_iff, !len_in_spec, Z.leb_le. }
  unfold emit. destruct st as [s|].
  - exists (duration_ms (perf_counter (w_tick w)) s). eexists. split.
    + erewrite bind_ok_run; [|reflexivity]. apply Hrec. unfold duration_ms. lia.
    + unfold duration_ms. cbn. split_and!; try done; lia.
  - exists 0. eexists. split; [erewrite bind_ok_run; [|reflexivity]; by apply Hrec|]. done.
Qed.

Lemma tool_event_started trace name w :
  1 <= py_len trace <= 128 -> 1 <= py_len name <= 100 ->
  exists w', emit EV_TOOL_STARTED trace name EO_STARTED None None None None w = (Ok tt, w') /\
    w_db w' = w_db w /\ w_redis w' = w_redis w /\ w_io w' = w_io w /\
    (w_tick w <= w_tick w')%nat /\
    w_lifecycle w' = tool_event trace name EO_STARTED 0 None EV_TOOL_STARTED :: w_lifecycle w.
Proof.
  intros Htr Hn. unfold emit. erewrite bind_ok_run by reflexivity. unfold emit_record.
  rewrite construct_good; [by eexists|]. unfold contract_ok. cbn -[len_in py_len].
  rewrite !andb_true_r. by rewrite !andb_true_iff, !len_in_spec.
Qed.

Lemma latency_nonneg a b : a <= b -> 0 <= latency_ms b a.
Proof. intros. unfold latency_ms. apply Z.quot_pos; lia. Qed.

Lemma enum_code_len (code : ToolErrorCode) : opt_len_in 0 100 (Some (enum_value code)) = true.
Proof. by destruct code. Qed.

(** What a tool does: an event, the operation, an event that agrees with the
    result, and a valid result that reports what the operation answered. *)
Definition tool_answers {A} (trace name : str) (op : M A) (w : World)
    (run : res (ToolResult A) * World) : Prop :=
  exists w1 r w', run = (Ok r, w') /\ contract_ok r = true /\ reports trace (op w1).1 r /\
    w_db w1 = w_db w /\ w_redis w1 = w_redis w /\ w_io w1 = w_io w /\
    w_lifecycle w1 = tool_event trace name EO_STARTED 0 None EV_TOOL_STARTED :: w_lifecycle w /\
    w_db w' = w_db (op w1).2 /\ w_redis w' = w_redis (op w1).2 /\ w_io w' = w_io (op w1).2 /\
    exists d, w_lifecycle w' =
      tool_event trace name (if tr_success r then EO_SUCCEEDED else EO_FAILED) d
        (enum_value <$> tr_error_code r) EV_TOOL_FINISHED :: w_lifecycle (op w1).2.

Lemma tool_success_ok {A} (data : A) t trace :
  0 <= t -> 1 <= py_len trace <= 128 ->
  contract_ok {| tr_success := true; tr_data := Some data; tr_error_code := None;
    tr_user_safe_message := None; tr_latency_ms := t; tr_trace_id := trace |} = true.
Proof.
  intros Ht Htr. unfold contract_ok. cbn -[len_in py_len]. rewrite !andb_true_r.
  by rewrite !andb_true_iff, len_in_spec, Z.leb_le.
Qed.

Lemma tool_failure_ok {A} code msg t trace :
  0 <= t -> 1 <= py_len trace <= 128 -> truthy msg = true -> py_len msg <= 500 ->
  contract_ok {| tr_success := false; tr_data := @None A; tr_error_code := Some code;
    tr_user_safe_message := Some msg; tr_latency_ms := t; tr_trace_id := trace |} = true.
Proof.
  intros Ht Htr Hmt Hml. unfold contract_ok. cbn -[len_in py_len truthy]. rewrite Hmt.
  rewrite !andb_true_iff, !len_in_spec, Z.leb_le. unfold py_len in *. repeat split; lia.
Qed.

(** A tool whose operation is a call of the client. *)
Lemma tool_run {A} (trace name : str) (op : M A) w :
  monotonic -> client_call op -> 1 <= py_len trace <= 128 -> 1 <= py_len name <= 100 ->
  tool_answers trace name op w (_run trace name op w).
Proof.
  intros Hmono [Hex Hlater] Htr Hn. unfold _run. set (t0 := w_tick w).
  erewrite bind_ok_run by reflexivity. erewrite bind_ok_run by reflexivity.
  destruct (tool_event_started trace name (tick (tick w)) Htr Hn)
    as (w1 & Hemit & Hd1 & Hr1 & Hi1 & Ht1 & Hl1). cbn [tick w_tick] in Ht1.
  erewrite bind_ok_run by exact Hemit. exists w1. unfold try_except. rewrite bind_run.
  specialize (Hex w1). specialize (Hlater w1). unfold later in Hlater.
  assert (forall w3, (w_tick w1 <= w_tick w3)%nat ->
    0 <= latency_ms (perf_counter (w_tick w3)) (perf_counter t0)) as Hlat
    by (intros; apply latency_nonneg, Hmono; lia).
  destruct (op w1) as [[data|e] w2]; cbn [fst snd] in *.
  - destruct (tool_event_emitted EV_TOOL_FINISHED trace name EO_SUCCEEDED
      (Some (perf_counter (w_tick (tick w)))) None w2 Htr Hn eq_refl)
      as (d & w3 & Hem & _ & Hd3 & Hr3 & Hi3 & Ht3 & Hl3).
    erewrite bind_ok_run by exact Hem. erewrite bind_ok_run by reflexivity.
    assert (w_tick w1 <= w_tick w3)%nat as H13 by lia. specialize (Hlat w3 H13).
    pose proof (tool_success_ok data _ trace Hlat Htr) as Hok.
    unfold lift. rewrite construct_good by exact Hok. do 2 eexists. split; [reflexivity|].
    split; [exact Hok|]. split; [done|]. do 7 (split; [done|]). by exists d.
  - destruct (Hex e eq_refl) as (code & msg & sc & -> & Hmt & Hml).
    destruct (tool_event_emitted EV_TOOL_FINISHED trace name EO_FAILED
      (Some (perf_counter (w_tick (tick w)))) (Some (enum_value code)) w2 Htr Hn (enum_code_len code))
      as (d & w3 & Hem & _ & Hd3 & Hr3 & Hi3 & Ht3 & Hl3).
    erewrite bind_ok_run by exact Hem. erewrite bind_ok_run by reflexivity.
    assert (w_tick w1 <= w_tick w3)%nat as H13 by lia. specialize (Hlat w3 H13).
    pose proof (@tool_failure_ok A code msg _ trace Hlat Htr Hmt Hml) as Hok.
    unfold lift. rewrite construct_good by exact Hok. do 2 eexists. split; [reflexivity|].
    split; [exact Hok|]. split; [done|]. do 7 (split; [done|]). by exists d.
Qed.
End runs.

(** ** Properties *)

(** Over any reader that keeps the promises of the protocol, every tool answers
    with a valid [ToolResult] that reports exactly what the reader answered (the
    data, or the error code and the message for the person), between one
    started and one finished event, and adds nothing else to the state. *)
Theorem tools_report_reader `{SqlEngine} `{RedisServer} `{Env} `{R : !BuenPickReader}
    `{!ReaderLaws R} query commerce_id pick_id commerce_id' order_id phone reference trace w :
  monotonic -> 1 <= py_len trace <= 128 ->
  tool_answers trace (u "search_available_picks") (br_search query commerce_id) w
    (tool_search query commerce_id trace w) /\
  tool_answers trace (u "get_available_pick") (br_pick pick_id) w (tool_pick pick_id trace w) /\
  tool_answers trace (u "get_commerce") (br_commerce commerce_id') w
    (tool_commerce commerce_id' trace w) /\
  tool_answers trace (u "get_customer_order") (br_order order_id phone reference) w
    (tool_order order_id phone reference trace w) /\
  tool_answers trace (u "get_pick_image") (collect pick_id) w (get_pick_image pick_id trace w).
Proof.
  intros Hm Htr. split_and!; apply tool_run; try done.
  - apply law_search.
  - apply law_pick.
  - apply law_commerce.
  - apply law_order.
  - apply collect_client_call.
Qed.

(** ** Evaluations *)

Section concrete.
#[local] Existing Instances map_engine scheduled_server sample_env.

(** A reader that knows one pick and finds nothing else. *)
Definition sample_reader : BuenPickReader := {|
  br_search _ _ := mret {| sr_items := []; sr_total := 0 |};
  br_pick := sample_lookup;
  br_commerce _ := raise (BuenPickClientError TE_NOT_FOUND (u "no") (Some 404));
  br_order _ _ _ := raise (BuenPickClientError TE_UNAUTHORIZED (u "no") (Some 401)) |}.

Lemma sample_reader_laws : ReaderLaws sample_reader.
Proof.
  split; intros; split; cbn; unfold sample_lookup; try case_bool_decide;
    first [apply keeps_ret, _ | apply keeps_raise, _ | intros w e; cbn; intros [= <-]; client_error | done].
Qed.

Lemma sample_monotonic : monotonic.
Proof. intros n m Hnm. cbn. lia. Qed.

Lemma tools_report_reader_witness :
  exists r w', @get_pick_image _ _ _ sample_reader (u "p1") (u "t") sample_world = (Ok r, w') /\ contract_ok r = true.
Proof.
  destruct (@tools_report_reader _ _ _ sample_reader sample_reader_laws None None (u "p1") (u "c1")
    (u "o1") None None (u "t") sample_world sample_monotonic) as (_ & _ & _ & _ & Himg);
    [by vm_compute|].
  destruct Himg as (w1 & r & w' & Hrun & Hok & _). by exists r, w'.
Defined.
End concrete.
