(* ===== verification/Evidence.v ===== *)
(** * Evidence from tool results ([src/piki/evidence/buenpick.py])

    The bundles of confirmed data, unavailable data and performed actions that
    the results of the search and order tools become. *)
From S2P Require Import Prelude PyStr Errors Contracts BuenPickModels.

Local Open Scope Z_scope.

Record ToolEvidenceBundle := {
  te_confirmed_data : list EvidenceItem;
  te_unavailable_data : list str;
  te_actions_performed : list PerformedAction
}.
#[export] Instance ToolEvidenceBundle_contract : Contract ToolEvidenceBundle := {|
  fields_ok _ := true;
  model_validator _ := None
|}.

Definition performed (name : str) (outcome : ActionOutcome) : res PerformedAction :=
  construct {| pa_name := name; pa_outcome := outcome; pa_reference := None |}.

(** An item confirmed by the internal API. *)
Definition api_item (label value : str) (source_reference : option str) : res EvidenceItem :=
  construct {| ev_label := label; ev_value := value; ev_source := BUENPICK_INTERNAL_API;
               ev_source_reference := source_reference |}.

(** [enumerate(l, start=1)]. *)
Definition enumerate1 {A} (l : list A) : list (Z * A) := imap (fun i x => (Z.of_nat i + 1, x)) l.

(** The bundle of a failed call. *)
Definition failed_bundle {A} (result : ToolResult A) (tool message : str) : res ToolEvidenceBundle :=
  action ← performed tool AO_failed;
  construct {| te_confirmed_data := [];
               te_unavailable_data := [or_else (tr_user_safe_message result) message];
               te_actions_performed := [action] |}.

Section search.
Context `{UCD}.

Definition pick_value (price : str) (pick : PickSummary) : str :=
  u "Title: " ++ ps_title pick ++ u "; Commerce: " ++ cs_name (ps_commerce pick) ++
  u "; Price ARS: " ++ price ++ u "; Available quantity: " ++
  str_of_Z (ps_available_quantity pick) ++ u "; Status: available".

Definition pick_item (entry : Z * PickSummary) : res EvidenceItem :=
  let '(index, pick) := entry in
  price ← format_ars_cents (ps_price pick);
  api_item (u "available_pick_" ++ str_of_Z index) (pick_value price pick) (Some (ps_id pick)).

Definition surprise (pick : PickSummary) : bool := contains (u "sorpresa") (casefold (ps_title pick)).

Definition search_result_evidence (result : ToolResult PickSearchResponse)
    : res ToolEvidenceBundle :=
  match tr_success result, tr_data result with
  | true, Some data =>
      action ← performed (u "search_available_picks") AO_succeeded;
      if bool_decide (length (sr_items data) = O) then
        item ← api_item (u "search_availability")
          (u "BuenPick returned no available picks for this search.") None;
        construct {| te_confirmed_data := [item]; te_unavailable_data := [];
                     te_actions_performed := [action] |}
      else
        evidence ← res_map pick_item (enumerate1 (sr_items data));
        construct {| te_confirmed_data := evidence;
                     te_unavailable_data :=
                       if existsb surprise (sr_items data)
                       then [u "El contenido exacto de una bolsa sorpresa no está confirmado por BuenPick."]
                       else [];
                     te_actions_performed := [action] |}
  | _, _ =>
      failed_bundle result (u "search_available_picks")
        (u "No se pudo confirmar la búsqueda en BuenPick.")
  end.
End search.

Definition order_pick_value (total : str) (pick : OrderPick) : str :=
  u "Title: " ++ op_title pick ++ u "; Quantity: " ++ str_of_Z (op_quantity pick) ++
  u "; Line total ARS: " ++ total.

Definition order_pick_item (order_id : str) (entry : Z * OrderPick) : res EvidenceItem :=
  let '(index, pick) := entry in
  total ← format_ars_cents (op_line_total pick);
  api_item (u "order_pick_" ++ str_of_Z index) (order_pick_value total pick) (Some order_id).

(** An item present when the text is. *)
Definition optional_item (label : str) (text : option str) (order_id : str)
    : res (list EvidenceItem) :=
  if truthy_opt text then item ← api_item label (default [] text) (Some order_id); Ok [item]
  else Ok [].

Definition order_result_evidence (result : ToolResult CustomerOrder) : res ToolEvidenceBundle :=
  match tr_success result, tr_data result with
  | true, Some order =>
      let reference := Some (co_id order) in
      status ← api_item (u "order_status") (co_status order) reference;
      commerce ← api_item (u "order_commerce") (oc_name (co_commerce order)) reference;
      total_text ← format_ars_cents (co_total order);
      total ← api_item (u "order_total_ars") total_text reference;
      fulfillment ← api_item (u "fulfillment_type") (of_type (co_fulfillment order)) reference;
      picks ← res_map (order_pick_item (co_id order)) (enumerate1 (co_picks order));
      code ← optional_item (u "pickup_code") (of_pickup_code (co_fulfillment order)) (co_id order);
      instructions ← optional_item (u "pickup_instructions") (ou_instructions (co_pickup order))
        (co_id order);
      address ← api_item (u "pickup_store_address") (ou_store_address (co_pickup order)) reference;
      action ← performed (u "get_customer_order") AO_succeeded;
      construct {| te_confirmed_data := [status; commerce; total; fulfillment] ++ picks ++ code ++
                     instructions ++ [address];
                   te_unavailable_data := []; te_actions_performed := [action] |}
  | _, _ =>
      failed_bundle result (u "get_customer_order")
        (u "No se pudo confirmar una orden perteneciente a esta persona.")
  end.

(** ** Lemmas *)

Lemma api_item_ok label value reference item :
  api_item label value reference = Ok item <->
  len_in 1 100 label = true /\ len_in 1 2000 value = true /\ opt_len_in 0 255 reference = true /\
  item = {| ev_label := label; ev_value := value; ev_source := BUENPICK_INTERNAL_API;
            ev_source_reference := reference |}.
Proof.
  unfold api_item. rewrite construct_ok. unfold contract_ok. cbn -[len_in opt_len_in].
  rewrite andb_true_r, !andb_true_iff. tauto.
Qed.

Lemma api_item_raises label value reference e :
  api_item label value reference = Raise e -> exists msg, e = ValidationError msg.
Proof. unfold api_item. by intros [_ ?]%construct_raises. Qed.

Lemma performed_eq tool outcome :
  1 <= py_len tool <= 100 ->
  performed tool outcome = Ok {| pa_name := tool; pa_outcome := outcome; pa_reference := None |}.
Proof.
  intros Ht. apply construct_good. unfold contract_ok. cbn -[len_in py_len].
  by rewrite !andb_true_r, len_in_spec.
Qed.

Lemma failed_bundle_eq {A} (result : ToolResult A) tool message :
  1 <= py_len tool <= 100 ->
  failed_bundle result tool message =
  Ok {| te_confirmed_data := []; te_unavailable_data := [or_else (tr_user_safe_message result) message];
        te_actions_performed := [{| pa_name := tool; pa_outcome := AO_failed; pa_reference := None |}] |}.
Proof. intros Ht. unfold failed_bundle. by rewrite performed_eq. Qed.

Lemma enumerate1_lookup {A} (l : list A) i :
  enumerate1 l !! i = (fun x => (Z.of_nat i + 1, x)) <$> l !! i.
Proof. unfold enumerate1. by rewrite list_lookup_imap. Qed.

Lemma elem_of_enumerate1 {A} (l : list A) n x :
  (n, x) ∈ enumerate1 l -> x ∈ l /\ 1 <= n <= Z.of_nat (length l).
Proof.
  intros (i & Hi)%list_elem_of_lookup_1. rewrite enumerate1_lookup in Hi.
  apply fmap_Some in Hi as (y & Hy & [= -> ->]). split; [by eapply list_elem_of_lookup_2|].
  apply lookup_lt_Some in Hy. lia.
Qed.

Lemma index_label_fits prefix n :
  1 <= py_len prefix <= 20 -> 1 <= n < 10 ^ 80 -> len_in 1 100 (prefix ++ str_of_Z n) = true.
Proof.
  intros Hp Hn. unfold str_of_Z. rewrite (proj2 (Z.ltb_ge _ _)) by lia. unfold digits.
  pose proof (digits_aux_length (S (Z.to_nat (Z.log2 n))) n [] 80 ltac:(lia) ltac:(lia)) as Hl.
  rewrite len_in_spec. unfold py_len in *. rewrite length_app. cbn [length] in Hl. lia.
Qed.

Lemma format_ars_ok cents : 0 <= cents -> exists s, format_ars_cents cents = Ok s.
Proof. intros Hc. unfold format_ars_cents. rewrite (proj2 (Z.ltb_ge _ _)) by lia. eauto. Qed.

(** ** What the bundle of a search says *)

Section claims.
Context `{UCD}.

(** The pick can be shown: its line and its reference fit their fields. *)
Definition pick_fits (pick : PickSummary) : Prop :=
  0 <= ps_price pick /\ py_len (ps_id pick) <= 255 /\
  forall price, format_ars_cents (ps_price pick) = Ok price -> py_len (pick_value price pick) <= 2000.

Definition shows (item : EvidenceItem) (i : nat) (pick : PickSummary) : Prop :=
  exists price, format_ars_cents (ps_price pick) = Ok price /\
    item = {| ev_label := u "available_pick_" ++ str_of_Z (Z.of_nat i + 1);
              ev_value := pick_value price pick; ev_source := BUENPICK_INTERNAL_API;
              ev_source_reference := Some (ps_id pick) |}.

Definition tool_action (tool : str) (outcome : ActionOutcome) : PerformedAction :=
  {| pa_name := tool; pa_outcome := outcome; pa_reference := None |}.

Definition search_bundle (result : ToolResult PickSearchResponse) (b : ToolEvidenceBundle) : Prop :=
  match tr_success result, tr_data result with
  | true, Some data =>
      te_actions_performed b = [tool_action (u "search_available_picks") AO_succeeded] /\
      (sr_items data = [] -> te_unavailable_data b = [] /\ te_confirmed_data b =
         [{| ev_label := u "search_availability";
             ev_value := u "BuenPick returned no available picks for this search.";
             ev_source := BUENPICK_INTERNAL_API; ev_source_reference := None |}]) /\
      (sr_items data <> [] -> length (te_confirmed_data b) = length (sr_items data) /\
         te_unavailable_data b =
           (if existsb surprise (sr_items data)
            then [u "El contenido exacto de una bolsa sorpresa no está confirmado por BuenPick."] else []) /\
         forall i pick, sr_items data !! i = Some pick ->
           exists item, te_confirmed_data b !! i = Some item /\ shows item i pick)
  | _, _ => te_confirmed_data b = [] /\
      te_actions_performed b = [tool_action (u "search_available_picks") AO_failed] /\
      te_unavailable_data b = [or_else (tr_user_safe_message result)
        (u "No se pudo confirmar la búsqueda en BuenPick.")]
  end.

Lemma pick_item_raises n pick e :
  1 <= n < 10 ^ 80 -> pick_item (n, pick) = Raise e -> ~ pick_fits pick.
Proof.
  intros Hn Hr (Hp & Hid & Hv). unfold pick_item in Hr.
  destruct (format_ars_ok _ Hp) as [price Hprice].
  apply res_bind_raise in Hr as [Hr|(price' & Hprice' & Hr)]; [congruence|].
  specialize (Hv _ Hprice'). unfold api_item in Hr. apply construct_raises in Hr as [Hr _].
  apply not_true_iff_false in Hr. apply Hr. unfold contract_ok. cbn -[len_in py_len u pick_value].
  rewrite index_label_fits by (try lia; by vm_compute).
  rewrite !andb_true_iff, !len_in_spec. unfold py_len in *. repeat split; try lia.
  unfold pick_value. rewrite length_app. change (length (u "Title: ")) with 7%nat. lia.
Qed.

(** The search bundle says what BuenPick answered: one item per pick, in order,
    with its title, commerce, price and quantity and its identifier as
    reference; one item when nothing was found; nothing confirmed and a reason
    when the call failed; the surprise-bag reservation exactly when a title
    calls for it.  It raises only for a pick too long to be shown. *)
Theorem search_evidence_exact result :
  (forall data, tr_data result = Some data -> Z.of_nat (length (sr_items data)) < 10 ^ 80) ->
  match search_result_evidence result with
  | Ok b => search_bundle result b
  | Raise _ => exists data pick, tr_success result = true /\ tr_data result = Some data /\
      pick ∈ sr_items data /\ ~ pick_fits pick
  end.
Proof.
  intros Hsize. unfold search_result_evidence, search_bundle.
  destruct (tr_success result), (tr_data result) as [data|] eqn:Hdata;
    try (rewrite failed_bundle_eq by (by vm_compute); by split_and!).
  rewrite performed_eq by (by vm_compute). cbn [mbind res_bind]. case_bool_decide as He.
  { apply nil_length_inv in He. rewrite (proj2 (api_item_ok _ _ None _)) by (split_and!; [by vm_compute..|reflexivity]).
    cbn. rewrite He. by split_and!. }
  destruct (res_map pick_item _) as [items|e] eqn:Hm; cbn.
  - apply res_map_ok in Hm. split; [done|]. split; [intros Hnil; by rewrite Hnil in He|]. intros _.
    assert (length items = length (sr_items data)) as Hl.
    { apply Forall2_length in Hm. unfold enumerate1 in Hm. by rewrite length_imap in Hm. }
    split; [done|]. split; [done|].
    intros i pick Hi. destruct (Forall2_lookup_l _ _ _ i (Z.of_nat i + 1, pick) Hm) as (item & Hit & Hp).
    { by rewrite enumerate1_lookup, Hi. }
    exists item. split; [done|]. unfold pick_item in Hp. apply res_bind_ok in Hp as (price & Hpr & Hp).
    apply api_item_ok in Hp as (_ & _ & _ & ->). by exists price.
  - apply res_map_raise in Hm as ([n pick] & Hin & Hp). apply elem_of_enumerate1 in Hin as [Hin Hn].
    exists data, pick. do 3 (split; [done|]). eapply pick_item_raises; [|exact Hp].
    specialize (Hsize _ eq_refl). lia.
Qed.
End claims.

(** ** What any bundle says *)

(** Every confirmed item comes from the internal API, within its bounds; a
    failed call confirms nothing and says so. *)
Definition backed {A} (result : ToolResult A) (b : ToolEvidenceBundle) : Prop :=
  Forall (fun item => ev_source item = BUENPICK_INTERNAL_API /\ contract_ok item = true)
    (te_confirmed_data b) /\
  (tr_success result = false \/ tr_data result = None ->
     te_confirmed_data b = [] /\ exists reason, te_unavailable_data b = [reason]) /\
  (tr_success result = true -> is_Some (tr_data result) -> te_confirmed_data b <> []).

Lemma backed_item label value reference item :
  api_item label value reference = Ok item ->
  ev_source item = BUENPICK_INTERNAL_API /\ contract_ok item = true.
Proof. unfold api_item. by intros [Hok ->]%construct_ok. Qed.

Lemma backed_map {A} (f : A -> res EvidenceItem) l items :
  (forall x item, f x = Ok item -> ev_source item = BUENPICK_INTERNAL_API /\ contract_ok item = true) ->
  res_map f l = Ok items ->
  Forall (fun item => ev_source item = BUENPICK_INTERNAL_API /\ contract_ok item = true) items.
Proof.
  intros Hf Hm%res_map_ok. apply Forall_forall. intros item Hi.
  destruct (Forall2_elem_r _ _ _ _ Hm Hi) as (x & _ & Hx). by eapply Hf.
Qed.

Lemma backed_optional label text order_id items :
  optional_item label text order_id = Ok items ->
  Forall (fun item => ev_source item = BUENPICK_INTERNAL_API /\ contract_ok item = true) items.
Proof.
  unfold optional_item. destruct (truthy_opt text); [|by intros [= <-]].
  intros (item & Hi & [= <-])%res_bind_ok. constructor; [by eapply backed_item|done].
Qed.

Lemma failed_backed {A} (result : ToolResult A) tool message b :
  1 <= py_len tool <= 100 -> tr_success result = false \/ tr_data result = None ->
  failed_bundle result tool message = Ok b -> backed result b.
Proof.
  intros Ht Hf. rewrite failed_bundle_eq by done. intros [= <-]. split; [constructor|].
  split; [eauto|]. intros Hs Hd. destruct Hf as [Hf|Hf]; [congruence|]. rewrite Hf in Hd. by destruct Hd.
Qed.

Lemma search_backed `{UCD} search b : search_result_evidence search = Ok b -> backed search b.
Proof.
  unfold search_result_evidence.
  destruct (tr_success search) eqn:Hs, (tr_data search) as [data|] eqn:Hd;
    try (apply failed_backed; [by vm_compute|auto]).
  intros (action & _ & Hb)%res_bind_ok. case_bool_decide as He.
  + apply res_bind_ok in Hb as (item & Hi & Hb). apply construct_ok in Hb as [_ ->].
    apply backed_item in Hi. split; cbn; [by constructor|]. split; [|done].
    intros [?|?]; congruence.
  + apply res_bind_ok in Hb as (items & Hm & Hb). apply construct_ok in Hb as [_ ->].
    split; cbn; [|split; [intros [?|?]; congruence|]].
    * eapply backed_map; [|exact Hm]. intros [n pick] item Hi. unfold pick_item in Hi.
      apply res_bind_ok in Hi as (price & _ & Hi). by eapply backed_item.
    * intros _ _ ->. apply res_map_length in Hm. unfold enumerate1 in Hm. rewrite length_imap in Hm.
      by destruct (sr_items data).
Qed.

Lemma order_backed order b : order_result_evidence order = Ok b -> backed order b.
Proof.
  unfold order_result_evidence.
  destruct (tr_success order) eqn:Hs, (tr_data order) as [o|] eqn:Hd;
    try (apply failed_backed; [by vm_compute|auto]).
  intros (s & Hst%backed_item & Hb)%res_bind_ok.
  apply res_bind_ok in Hb as (c & Hc%backed_item & Hb).
  apply res_bind_ok in Hb as (tt' & _ & Hb).
  apply res_bind_ok in Hb as (t & Ht%backed_item & Hb).
  apply res_bind_ok in Hb as (f & Hf%backed_item & Hb).
  apply res_bind_ok in Hb as (picks & Hp & Hb).
  apply res_bind_ok in Hb as (code & Hcode%backed_optional & Hb).
  apply res_bind_ok in Hb as (ins & Hins%backed_optional & Hb).
  apply res_bind_ok in Hb as (addr & Ha%backed_item & Hb).
  apply res_bind_ok in Hb as (action & _ & Hb). apply construct_ok in Hb as [_ ->].
  split; cbn; [|split; [intros [?|?]; congruence|done]].
  repeat (constructor; [done|]). rewrite !Forall_app. split_and!; [|done|done|by constructor].
  eapply backed_map; [|exact Hp]. intros [n pick] item Hi. unfold order_pick_item in Hi.
  apply res_bind_ok in Hi as (total & _ & Hi). by eapply backed_item.
Qed.

(** ** What the bundle of an order says *)

(** The items of an order, in their order; [total] and [lines] are its amounts
    as they are written. *)
Definition order_items (o : CustomerOrder) (total : str) (lines : list str) : list EvidenceItem :=
  let fact label value :=
    {| ev_label := label; ev_value := value; ev_source := BUENPICK_INTERNAL_API;
       ev_source_reference := Some (co_id o) |} in
  let when_present label text := if truthy_opt text then [fact label (default [] text)] else [] in
  [fact (u "order_status") (co_status o);
   fact (u "order_commerce") (oc_name (co_commerce o));
   fact (u "order_total_ars") total;
   fact (u "fulfillment_type") (of_type (co_fulfillment o))] ++
  imap (fun i pt => fact (u "order_pick_" ++ str_of_Z (Z.of_nat i + 1)) (order_pick_value pt.2 pt.1))
    (zip (co_picks o) lines) ++
  when_present (u "pickup_code") (of_pickup_code (co_fulfillment o)) ++
  when_present (u "pickup_instructions") (ou_instructions (co_pickup o)) ++
  [fact (u "pickup_store_address") (ou_store_address (co_pickup o))].

(** The amounts, written by [format_ars_cents]. *)
Definition order_amounts (o : CustomerOrder) (total : str) (lines : list str) : Prop :=
  format_ars_cents (co_total o) = Ok total /\
  Forall2 (fun pick line => format_ars_cents (op_line_total pick) = Ok line) (co_picks o) lines.

Definition order_bundle (result : ToolResult CustomerOrder) (b : ToolEvidenceBundle) : Prop :=
  match tr_success result, tr_data result with
  | true, Some o => exists total lines, order_amounts o total lines /\
      b = {| te_confirmed_data := order_items o total lines; te_unavailable_data := [];
             te_actions_performed := [tool_action (u "get_customer_order") AO_succeeded] |}
  | _, _ =>
      b = {| te_confirmed_data := [];
             te_unavailable_data := [or_else (tr_user_safe_message result)
               (u "No se pudo confirmar una orden perteneciente a esta persona.")];
             te_actions_performed := [tool_action (u "get_customer_order") AO_failed] |}
  end.

(** The order can be shown: no amount is negative and every text fits. *)
Definition order_fits (o : CustomerOrder) : Prop :=
  0 <= co_total o /\ Forall (fun pick => 0 <= op_line_total pick) (co_picks o) /\
  forall total lines, order_amounts o total lines ->
    Forall (fun item => contract_ok item = true) (order_items o total lines).

Lemma api_item_fits label value reference :
  let item := {| ev_label := label; ev_value := value; ev_source := BUENPICK_INTERNAL_API;
                 ev_source_reference := reference |} in
  contract_ok item = true -> api_item label value reference = Ok item.
Proof. cbv zeta. apply construct_good. Qed.

Lemma api_item_inv label value reference item :
  api_item label value reference = Ok item ->
  item = {| ev_label := label; ev_value := value; ev_source := BUENPICK_INTERNAL_API;
            ev_source_reference := reference |}.
Proof. by intros (_ & _ & _ & ->)%api_item_ok. Qed.

Lemma optional_item_inv label text order_id items :
  optional_item label text order_id = Ok items ->
  items = if truthy_opt text then [{| ev_label := label; ev_value := default [] text;
            ev_source := BUENPICK_INTERNAL_API; ev_source_reference := Some order_id |}] else [].
Proof.
  unfold optional_item. destruct (truthy_opt text); [|by intros [= <-]].
  by intros (item & ->%api_item_inv & [= <-])%res_bind_ok.
Qed.

(** The lines of the picks, numbered from [n + 1]. *)
Definition order_line (order_id : str) (n : nat) (i : nat) (pt : OrderPick * str) : EvidenceItem :=
  {| ev_label := u "order_pick_" ++ str_of_Z (Z.of_nat (n + i) + 1); ev_value := order_pick_value pt.2 pt.1;
     ev_source := BUENPICK_INTERNAL_API; ev_source_reference := Some order_id |}.

Lemma order_lines_inv order_id n picks items :
  res_map (order_pick_item order_id) (imap (fun i x => (Z.of_nat (n + i) + 1, x)) picks) = Ok items ->
  exists lines, Forall2 (fun pick line => format_ars_cents (op_line_total pick) = Ok line) picks lines /\
    items = imap (order_line order_id n) (zip picks lines).
Proof.
  revert n items. induction picks as [|pick picks IH]; intros n items.
  { intros [= <-]. exists []. by split. }
  cbn [imap res_map]. intros (item & Hi & Hr)%res_bind_ok. apply res_bind_ok in Hr as (rest & Hrest & [= <-]).
  unfold order_pick_item in Hi. apply res_bind_ok in Hi as (line & Hl & ->%api_item_inv).
  destruct (IH (S n) rest) as (lines & Hall & ->).
  { rewrite <- Hrest. f_equal. apply imap_ext. intros i x _. cbn. do 2 f_equal. lia. }
  exists (line :: lines). split; [by constructor|]. 
  change (zip (pick :: picks) (line :: lines)) with ((pick, line) :: zip picks lines). rewrite imap_cons. f_equal.
  apply imap_ext. intros i x _. unfold order_line. cbn. do 4 f_equal. lia.
Qed.

Lemma order_lines_fit order_id n picks lines :
  Forall2 (fun pick line => format_ars_cents (op_line_total pick) = Ok line) picks lines ->
  Forall (fun item => contract_ok item = true) (imap (order_line order_id n) (zip picks lines)) ->
  res_map (order_pick_item order_id) (imap (fun i x => (Z.of_nat (n + i) + 1, x)) picks) =
    Ok (imap (order_line order_id n) (zip picks lines)).
Proof.
  intros Hall. revert n. induction Hall as [|pick line picks lines Hl Hall IH]; intros n Hok; [done|].
  change (zip (pick :: picks) (line :: lines)) with ((pick, line) :: zip picks lines) in *.
  rewrite !imap_cons in *. apply Forall_cons in Hok as [Ho Hok]. cbn [res_map order_pick_item].
  rewrite Hl. cbn [mbind res_bind].
  assert (api_item (u "order_pick_" ++ str_of_Z (Z.of_nat (n + 0) + 1)) (order_pick_value line pick) (Some order_id)
    = Ok (order_line order_id n 0 (pick, line))) as -> by exact (api_item_fits _ _ _ Ho).
  specialize (IH (S n)). cbn [mbind res_bind]. revert Hok IH.
  assert (imap (order_line order_id n ∘ S) (zip picks lines) =
    imap (order_line order_id (S n)) (zip picks lines)) as Hz.
  { apply imap_ext. intros i x _. unfold order_line. cbn. do 4 f_equal. lia. }
  rewrite Hz. intros Hok IH. specialize (IH Hok).
  replace (imap ((fun i x => (Z.of_nat (n + i) + 1, x)) ∘ S) picks) with
    (imap (fun i (x : OrderPick) => (Z.of_nat (S n + i) + 1, x)) picks)
    by (apply imap_ext; intros i x _; cbn; do 2 f_equal; lia).
  by rewrite IH.
Qed.

Lemma amounts_exist o :
  0 <= co_total o -> Forall (fun pick => 0 <= op_line_total pick) (co_picks o) ->
  exists total lines, order_amounts o total lines.
Proof.
  intros [total Ht]%format_ars_ok Hl. exists total. unfold order_amounts.
  induction Hl as [|pick picks [line Hline]%format_ars_ok _ (lines & _ & Hall)]; [by exists []|].
  exists (line :: lines). split; [done|]. by constructor.
Qed.

Lemma optional_item_fits label text order_id :
  Forall (fun item => contract_ok item = true) (if truthy_opt text then [{| ev_label := label;
    ev_value := default [] text; ev_source := BUENPICK_INTERNAL_API; ev_source_reference := Some order_id |}] else []) ->
  exists items, optional_item label text order_id = Ok items.
Proof.
  unfold optional_item. destruct (truthy_opt text); [|by eexists].
  intros [Hok _]%Forall_cons. rewrite (api_item_fits _ _ _ Hok). by eexists.
Qed.

Lemma order_built o e result :
  tr_success result = true -> tr_data result = Some o -> order_fits o ->
  order_result_evidence result <> Raise e.
Proof.
  intros Hs Hd (Ht & Hl & Hfit). destruct (amounts_exist o Ht Hl) as (total & lines & Ha).
  specialize (Hfit _ _ Ha). destruct Ha as [Htot Hlines]. unfold order_items in Hfit. cbv zeta in Hfit.
  rewrite !Forall_app in Hfit. destruct Hfit as (H4 & Hp & Hc & Hi & Had).
  rewrite !Forall_cons in H4. destruct H4 as (H1 & H2 & H3 & H4 & _). apply Forall_cons in Had as [Had _].
  unfold order_result_evidence. rewrite Hs, Hd, Htot.
  rewrite (api_item_fits _ _ _ H1), (api_item_fits _ _ _ H2). cbn [mbind res_bind].
  rewrite (api_item_fits _ _ _ H3), (api_item_fits _ _ _ H4). cbn [mbind res_bind].
  pose proof (order_lines_fit (co_id o) 0 _ _ Hlines Hp) as Hm. unfold enumerate1. cbn [Nat.add] in Hm.
  rewrite Hm. cbn [mbind res_bind].
  destruct (optional_item_fits _ _ _ Hc) as [code ->]. destruct (optional_item_fits _ _ _ Hi) as [ins ->].
  cbn [mbind res_bind]. rewrite (api_item_fits _ _ _ Had), performed_eq by (by vm_compute). done.
Qed.

Lemma order_says result b : order_result_evidence result = Ok b -> order_bundle result b.
Proof.
  unfold order_result_evidence, order_bundle.
  destruct (tr_success result), (tr_data result) as [o|];
    try (rewrite failed_bundle_eq by (by vm_compute); by intros [= <-]).
  intros (s & ->%api_item_inv & Hb)%res_bind_ok.
  apply res_bind_ok in Hb as (c & ->%api_item_inv & Hb).
  apply res_bind_ok in Hb as (total & Htot & Hb).
  apply res_bind_ok in Hb as (t & ->%api_item_inv & Hb).
  apply res_bind_ok in Hb as (f & ->%api_item_inv & Hb).
  apply res_bind_ok in Hb as (picks & Hp & Hb).
  apply res_bind_ok in Hb as (code & ->%optional_item_inv & Hb).
  apply res_bind_ok in Hb as (ins & ->%optional_item_inv & Hb).
  apply res_bind_ok in Hb as (addr & ->%api_item_inv & Hb).
  rewrite performed_eq in Hb by (by vm_compute). apply res_bind_ok in Hb as (a & [= <-] & Hb).
  apply construct_ok in Hb as [_ ->].
  destruct (order_lines_inv (co_id o) 0 (co_picks o) picks Hp) as (lines & Hl & ->).
  exists total, lines. split; [by split|]. done.
Qed.

(** C34. The evidence is what BuenPick answered, and nothing else.  A search
    confirms one item per pick, in order, made of its title, commerce, price,
    quantity and identifier, or one fixed item when no pick was found, and
    reserves the content of surprise bags exactly when a title names one; an
    order confirms exactly its status, commerce, total, fulfilment, picks,
    pickup code and instructions when present, and store address, with its
    identifier as reference; a call that failed confirms nothing and gives as
    its one reason the message of the result.  The builders raise only for a
    pick or an order that cannot be shown: a negative amount, or a text beyond
    the bounds of an evidence item. *)
Theorem evidence_exact `{UCD} search order :
  (forall data, tr_data search = Some data -> Z.of_nat (length (sr_items data)) < 10 ^ 80) ->
  match search_result_evidence search with
  | Ok b => search_bundle search b
  | Raise _ => exists data pick, tr_success search = true /\ tr_data search = Some data /\
      pick ∈ sr_items data /\ ~ pick_fits pick
  end /\
  match order_result_evidence order with
  | Ok b => order_bundle order b
  | Raise _ => exists o, tr_success order = true /\ tr_data order = Some o /\ ~ order_fits o
  end.
Proof.
  intros Hsize. split; [by apply search_evidence_exact|].
  destruct (order_result_evidence order) as [b|e] eqn:Ho; [by apply order_says|].
  destruct (tr_success order) eqn:Hs, (tr_data order) as [o|] eqn:Hd;
    try (exfalso; unfold order_result_evidence in Ho; rewrite Hs, ?Hd in Ho;
         rewrite failed_bundle_eq in Ho by (by vm_compute); discriminate Ho).
  exists o. split_and!; [done|done|]. intros Hf. by eapply order_built.
Qed.

(** ** Evaluations *)

Section concrete.
#[local] Existing Instance latin1_ucd.

Definition sample_summary : PickSummary := {|
  ps_id := u "p1"; ps_title := u "Bolsa SORPRESA"; ps_description := []; ps_price := 123450;
  ps_original_price := 200000; ps_available_quantity := 2; ps_status := u "AVAILABLE";
  ps_image_url := None; ps_commerce := {| cs_id := u "c1"; cs_name := u "Panadería" |} |}.

Definition sample_search (items : list PickSummary) : ToolResult PickSearchResponse := {|
  tr_success := true; tr_data := Some {| sr_items := items; sr_total := 1 |};
  tr_error_code := None; tr_user_safe_message := None; tr_latency_ms := 0; tr_trace_id := u "t" |}.

Example search_bundle_example :
  (fun b => (map (fun i => (ev_label i, ev_value i)) (te_confirmed_data b),
             length (te_unavailable_data b))) <$>
  match search_result_evidence (sample_search [sample_summary]) with Ok b => Some b | _ => None end =
  Some ([(u "available_pick_1", u "Title: Bolsa SORPRESA; Commerce: Panadería; Price ARS: $1.234,50; Available quantity: 2; Status: available")], 1%nat).
Proof. vm_compute. reflexivity. Qed.

Lemma search_evidence_exact_witness :
  exists b, search_result_evidence (sample_search [sample_summary]) = Ok b /\
    length (te_confirmed_data b) = 1%nat /\ te_unavailable_data b <> [].
Proof.
  pose proof (search_evidence_exact (sample_search [sample_summary])) as Hx.
  assert (forall data, tr_data (sample_search [sample_summary]) = Some data ->
    Z.of_nat (length (sr_items data)) < 10 ^ 80) as Hsize by (intros data [= <-]; by vm_compute).
  specialize (Hx Hsize).
  destruct (search_result_evidence (sample_search [sample_summary])) as [b|e] eqn:He.
  - exists b. split; [done|]. destruct Hx as (_ & _ & Hx). destruct Hx as (Hl & Hu & _); [done|].
    split; [exact Hl|]. rewrite Hu. by vm_compute.
  - exfalso. revert He. by vm_compute.
Defined.

(** A call that failed. *)
Definition failed_call {A} : ToolResult A := {| tr_success := false; tr_data := None;
  tr_error_code := None; tr_user_safe_message := None; tr_latency_ms := 0; tr_trace_id := [] |}.

Definition found_bundle : ToolEvidenceBundle :=
  match search_result_evidence (sample_search [sample_summary]) with
  | Ok b => b
  | Raise _ => {| te_confirmed_data := []; te_unavailable_data := []; te_actions_performed := [] |}
  end.

Example found_one : search_result_evidence (sample_search [sample_summary]) = Ok found_bundle.
Proof. vm_compute. reflexivity. Qed.

Lemma evidence_exact_witness : search_bundle (sample_search [sample_summary]) found_bundle.
Proof.
  destruct (evidence_exact (sample_search [sample_summary]) failed_call) as [Hx _];
    [intros data [= <-]; by vm_compute|].
  rewrite found_one in Hx. exact Hx.
Defined.
End concrete.
