(* ===== verification/Policies.v ===== *)
(** * Response policies ([src/piki/prompts/policies.py])

    The policy of every task: its mode, its tools, its writing rules and the
    context packet it builds. *)
From S2P Require Import Prelude PyStr Errors Contracts.

Local Open Scope Z_scope.

Inductive PolicyName :=
| PN_DISCOVER_PICKS | PN_PICK_DETAIL | PN_COMMERCE_INFO | PN_ORDER_STATUS | PN_PICK_IMAGE
| PN_HUMAN_HANDOFF | PN_EXPLAIN_BUENPICK.
#[export] Instance PolicyName_eq_dec : EqDecision PolicyName.
Proof. solve_decision. Defined.
#[export] Program Instance PolicyName_enum : StrEnum PolicyName := {|
  enum_all := [PN_DISCOVER_PICKS; PN_PICK_DETAIL; PN_COMMERCE_INFO; PN_ORDER_STATUS;
               PN_PICK_IMAGE; PN_HUMAN_HANDOFF; PN_EXPLAIN_BUENPICK];
  enum_value n :=
    match n with
    | PN_DISCOVER_PICKS => u "discover_picks"
    | PN_PICK_DETAIL => u "pick_detail"
    | PN_COMMERCE_INFO => u "commerce_info"
    | PN_ORDER_STATUS => u "order_status"
    | PN_PICK_IMAGE => u "pick_image"
    | PN_HUMAN_HANDOFF => u "human_handoff"
    | PN_EXPLAIN_BUENPICK => u "explain_buenpick"
    end
|}.
Solve All Obligations with enum_laws.

Inductive ToolName :=
| TN_SEARCH_AVAILABLE_PICKS | TN_GET_AVAILABLE_PICK | TN_GET_COMMERCE | TN_GET_CUSTOMER_ORDER
| TN_GET_PICK_IMAGE | TN_REQUEST_HUMAN_HANDOFF.
#[export] Instance ToolName_eq_dec : EqDecision ToolName.
Proof. solve_decision. Defined.

Record PolicyDefinition := {
  pd_name : PolicyName;
  pd_task : str;
  pd_response_mode : ResponseMode;
  pd_allowed_tools : list ToolName;
  pd_writing_rules : list str;
  pd_commercial : bool;
  pd_requires_confirmed_evidence : bool
}.

(** [len(set(l)) != len(l)]. *)
Definition repeated {A} `{EqDecision A} (l : list A) : bool :=
  negb (bool_decide (length (remove_dups l) = length l)).

#[export] Instance PolicyDefinition_contract : Contract PolicyDefinition := {|
  fields_ok _ := true;
  model_validator p := first_error [
    (pd_commercial p && bool_decide (pd_response_mode p = NON_COMMERCIAL_LLM),
     u "commercial policy cannot use non-commercial LLM mode");
    (pd_commercial p && negb (pd_requires_confirmed_evidence p),
     u "commercial policy must require confirmed evidence");
    (repeated (pd_allowed_tools p), u "policy tools must be unique")]
|}.

Definition context_packet (policy : PolicyDefinition) (query trace_id : str)
    (confirmed_data : list EvidenceItem) (unavailable_data : list str)
    (actions_performed : list PerformedAction) (active_pick_id : option str)
    : res ContextPacket :=
  if pd_requires_confirmed_evidence policy && bool_decide (length confirmed_data = O)
  then Raise (ValueError (u "policy " ++ enum_value (pd_name policy) ++
                          u " requires confirmed evidence"))
  else construct {|
    cp_task := pd_task policy; cp_query := query; cp_confirmed_data := confirmed_data;
    cp_unavailable_data := unavailable_data; cp_actions_performed := actions_performed;
    cp_writing_rules := pd_writing_rules policy; cp_response_mode := pd_response_mode policy;
    cp_active_pick_id := active_pick_id; cp_trace_id := trace_id |}.

(** A commercial policy, and one that is not. *)
Definition commercial (name : PolicyName) (task : str) (mode : ResponseMode)
    (tools : list ToolName) (rules : list str) : PolicyDefinition :=
  {| pd_name := name; pd_task := task; pd_response_mode := mode; pd_allowed_tools := tools;
     pd_writing_rules := rules; pd_commercial := true; pd_requires_confirmed_evidence := true |}.
Definition plain (name : PolicyName) (task : str) (mode : ResponseMode)
    (tools : list ToolName) (rules : list str) : PolicyDefinition :=
  {| pd_name := name; pd_task := task; pd_response_mode := mode; pd_allowed_tools := tools;
     pd_writing_rules := rules; pd_commercial := false; pd_requires_confirmed_evidence := false |}.

Definition discover_picks_policy : PolicyDefinition :=
  commercial PN_DISCOVER_PICKS
    (u "Ayudar a descubrir picks de alimentos disponibles en BuenPick.")
    JINJA_LLM [TN_SEARCH_AVAILABLE_PICKS]
    [u "Presentar únicamente picks devueltos como disponibles.";
     u "Distinguir una búsqueda sin resultados de un error de la fuente.";
     u "No prometer el contenido exacto de una bolsa sorpresa.";
     u "Cerrar con un único próximo paso útil."].

Definition pick_detail_policy : PolicyDefinition :=
  commercial PN_PICK_DETAIL
    (u "Explicar un pick disponible y cómo continuar el rescate en BuenPick.")
    JINJA_LLM [TN_GET_AVAILABLE_PICK]
    [u "Usar precio, disponibilidad, retiro, imagen y enlace sólo si están confirmados.";
     u "Aclarar los datos no disponibles sin completarlos por contexto.";
     u "Dirigir a la URL pública confirmada; no crear checkout dentro de Piki."].

Definition commerce_info_policy : PolicyDefinition :=
  commercial PN_COMMERCE_INFO
    (u "Explicar datos operativos confirmados de un comercio BuenPick.")
    JINJA_LLM [TN_GET_COMMERCE]
    [u "No inferir horarios, cobertura o entrega desde la descripción del comercio.";
     u "Separar claramente retiro de entrega."].

Definition order_status_policy : PolicyDefinition :=
  commercial PN_ORDER_STATUS
    (u "Informar el estado confirmado de una orden perteneciente a la persona.")
    JINJA_LLM [TN_GET_CUSTOMER_ORDER]
    [u "No revelar una orden sin prueba de pertenencia validada por BuenPick.";
     u "No reinterpretar el estado ni inventar fechas o códigos de retiro.";
     u "No repetir datos de pertenencia en la respuesta."].

Definition pick_image_policy : PolicyDefinition :=
  commercial PN_PICK_IMAGE (u "Preparar la imagen confirmada del pick activo.")
    DETERMINISTIC [TN_GET_AVAILABLE_PICK; TN_GET_PICK_IMAGE]
    [u "Usar sólo la imagen del pick reconfirmado.";
     u "Si no hay imagen, informar la limitación sin simular un envío."].

Definition human_handoff_policy : PolicyDefinition :=
  plain PN_HUMAN_HANDOFF
    (u "Confirmar de forma determinista la solicitud de atención humana.")
    DETERMINISTIC [TN_REQUEST_HUMAN_HANDOFF]
    [u "No afirmar que una persona respondió hasta que exista ese evento."].

Definition explain_buenpick_policy : PolicyDefinition :=
  plain PN_EXPLAIN_BUENPICK
    (u "Explicar de forma breve cómo BuenPick ayuda a rescatar alimentos.")
    NON_COMMERCIAL_LLM []
    [u "Explicar el concepto sin afirmar que existe un pick concreto.";
     u "No afirmar presencia ni ausencia actual de picks sin consultar BuenPick.";
     u "No convertir la explicación en un catálogo estable."].

(** [POLICIES[name]]. *)
Definition get_policy (name : PolicyName) : PolicyDefinition :=
  match name with
  | PN_DISCOVER_PICKS => discover_picks_policy
  | PN_PICK_DETAIL => pick_detail_policy
  | PN_COMMERCE_INFO => commerce_info_policy
  | PN_ORDER_STATUS => order_status_policy
  | PN_PICK_IMAGE => pick_image_policy
  | PN_HUMAN_HANDOFF => human_handoff_policy
  | PN_EXPLAIN_BUENPICK => explain_buenpick_policy
  end.

(** ** Lemmas *)

Lemma policy_name name : pd_name (get_policy name) = name.
Proof. by destruct name. Qed.

(** The module imports: every policy is valid, under its own name. *)
Lemma policies_valid name : contract_ok (get_policy name) = true.
Proof. by destruct name; vm_compute. Qed.

Lemma task_fits name : len_in 1 500 (pd_task (get_policy name)) = true.
Proof. by destruct name; vm_compute. Qed.

(** The packet of a policy. *)
Definition packet_of (name : PolicyName) (query trace_id : str) (confirmed : list EvidenceItem)
    (unavailable : list str) (actions : list PerformedAction) (active : option str)
    : ContextPacket :=
  {| cp_task := pd_task (get_policy name); cp_query := query; cp_confirmed_data := confirmed;
     cp_unavailable_data := unavailable; cp_actions_performed := actions;
     cp_writing_rules := pd_writing_rules (get_policy name);
     cp_response_mode := pd_response_mode (get_policy name);
     cp_active_pick_id := active; cp_trace_id := trace_id |}.

Lemma context_packet_ok name query trace confirmed unavailable actions active packet :
  context_packet (get_policy name) query trace confirmed unavailable actions active = Ok packet <->
  (pd_requires_confirmed_evidence (get_policy name) = true -> confirmed <> []) /\
  len_in 1 4096 query = true /\ opt_len_in 0 255 active = true /\ len_in 1 128 trace = true /\
  packet = packet_of name query trace confirmed unavailable actions active.
Proof.
  unfold context_packet. destruct (pd_requires_confirmed_evidence (get_policy name) && _) eqn:Hb.
  { bools. split; [done|]. intros [Hc _]. exfalso. apply Hc; [done|]. by apply nil_length_inv. }
  rewrite construct_ok. unfold contract_ok. cbn -[len_in opt_len_in]. rewrite task_fits, andb_true_r.
  rewrite !andb_true_iff. split; [|tauto]. intros [[[[_ Hq] Ha] Ht] Hp].
  split_and!; try done. intros Hreq ->. by rewrite Hreq in Hb.
Qed.

Lemma context_packet_valid name query trace confirmed unavailable actions active packet :
  context_packet (get_policy name) query trace confirmed unavailable actions active = Ok packet ->
  contract_ok packet = true /\ packet = packet_of name query trace confirmed unavailable actions active.
Proof.
  intros (_ & Hq & Ha & Ht & ->)%context_packet_ok. split; [|done].
  unfold contract_ok. cbn -[len_in opt_len_in]. by rewrite task_fits, Hq, Ha, Ht.
Qed.

Lemma context_packet_empty_query name trace confirmed unavailable actions active :
  exists e, context_packet (get_policy name) [] trace confirmed unavailable actions active = Raise e.
Proof.
  destruct (context_packet _ _ _ _ _ _ _) as [p|e] eqn:Hp; [|eauto].
  apply context_packet_ok in Hp as (_ & Hq & _). done.
Qed.

(** ** Properties *)

(** Every policy of the table is valid and stands under its own name, and its
    packets are safe: one is built exactly when the query, the trace and the
    active pick fit and, for a commercial policy, some evidence is confirmed;
    and a commercial packet is never in the mode whose answers are not checked
    against evidence. *)
Theorem policy_packets_safe name query trace confirmed unavailable actions active :
  contract_ok (get_policy name) = true /\ pd_name (get_policy name) = name /\
  ((exists packet, context_packet (get_policy name) query trace confirmed unavailable actions active
      = Ok packet) <->
   1 <= py_len query <= 4096 /\ 1 <= py_len trace <= 128 /\
   opt_len_in 0 255 active = true /\ (pd_commercial (get_policy name) = true -> confirmed <> [])) /\
  forall packet,
    context_packet (get_policy name) query trace confirmed unavailable actions active = Ok packet ->
    contract_ok packet = true /\ cp_confirmed_data packet = confirmed /\
    (cp_response_mode packet = NON_COMMERCIAL_LLM -> pd_commercial (get_policy name) = false).
Proof.
  split; [apply policies_valid|]. split; [apply policy_name|]. setoid_rewrite context_packet_ok.
  assert (pd_requires_confirmed_evidence (get_policy name) = pd_commercial (get_policy name)) as ->
    by by destruct name.
  split.
  - rewrite <- !len_in_spec. split; [naive_solver|]. intros (? & ? & ? & ?). eexists. split_and!; done.
  - intros packet (_ & Hq & Ha & Ht & ->). split; [|split; [done|by destruct name]].
    unfold contract_ok. cbn -[len_in opt_len_in]. by rewrite task_fits, Hq, Ha, Ht.
Qed.
