(* ===== verification/PickImage.v ===== *)
(** * Preparing a pick's image ([src/piki/use_cases/pick_image.py])

    [PickImagePreparer.prepare]: resolve the active pick of the conversation,
    then ask for its image; both collaborators are the protocols of the module,
    implemented by [ActivePick.resolve] and [Tools.get_pick_image]. *)
From S2P Require Import Prelude PyStr Errors Sha256 Contracts Pydantic BuenPickModels.
From S2P Require Import BuenPick.
From S2P Require Import Events Sql Redis Models World Session Sample State Coordination.
From S2P Require Import ActivePick.
From S2P Require Import Tools Evidence.

Local Open Scope Z_scope.

Record PickImagePreparation := {
  pip_success : bool;
  pip_active_pick_id : option str;
  pip_media_url : option str;
  pip_confirmed_data : list EvidenceItem;
  pip_actions_performed : list PerformedAction;
  pip_error_code : option ToolErrorCode;
  pip_user_safe_message : option str;
  pip_trace_id : str
}.
#[export] Instance PickImagePreparation_contract : Contract PickImagePreparation := {|
  fields_ok _ := true;
  model_validator p := first_error [
    (pip_success p &&
       (negb (bool_decide (is_Some (pip_active_pick_id p))) ||
        negb (bool_decide (is_Some (pip_media_url p))) ||
        bool_decide (length (pip_confirmed_data p) = O) ||
        bool_decide (is_Some (pip_error_code p)) ||
        bool_decide (is_Some (pip_user_safe_message p))),
     u "successful image preparation requires confirmed media");
    (negb (pip_success p) &&
       (negb (bool_decide (is_Some (pip_error_code p))) ||
        negb (truthy_opt (pip_user_safe_message p))),
     u "failed image preparation requires a safe error")]
|}.

(** A preparation that failed after the actions [actions]. *)
Definition failed_preparation (error_code : ToolErrorCode) (message : str) (tool : str)
    (trace_id : str) : res PickImagePreparation :=
  action ← performed tool AO_failed;
  construct {| pip_success := false; pip_active_pick_id := None; pip_media_url := None;
               pip_confirmed_data := []; pip_actions_performed := [action];
               pip_error_code := Some error_code; pip_user_safe_message := Some message;
               pip_trace_id := trace_id |}.

(** The table [failures]; a confirmed resolution has no entry. *)
Definition failure_of (resolution : ActivePickResolution) : res (ToolErrorCode * str) :=
  match res_status resolution with
  | RS_MISSING => Ok (TE_BAD_REQUEST, u "Elegí un pick disponible antes de pedirme la foto.")
  | RS_STALE =>
      Ok (TE_NOT_FOUND, u "Ese pick ya no está disponible. Busquemos otra opción para rescatar.")
  | RS_STATE_UNAVAILABLE =>
      Ok (TE_UPSTREAM_UNAVAILABLE,
          u "No pude recuperar el pick de esta conversación. Decime cuál querías ver.")
  | RS_UPSTREAM_UNAVAILABLE =>
      Ok (default TE_UPSTREAM_UNAVAILABLE (res_error_code resolution),
          u "No pude confirmar la disponibilidad ni la imagen en este momento.")
  | RS_CONFIRMED => Raise KeyError
  end.

Definition _resolution_failure (resolution : ActivePickResolution) (trace_id : str)
    : res PickImagePreparation :=
  '(error_code, message) ← failure_of resolution;
  failed_preparation error_code message (u "get_available_pick") trace_id.

(** The preparation of a found image. *)
Definition image_preparation (image : PickImageEvidence) (trace_id : str)
    : res PickImagePreparation :=
  title ← api_item (u "pick_title") (pie_title image) (Some (pie_pick_id image));
  url ← api_item (u "pick_image_url") (pie_image_url image) (Some (pie_pick_id image));
  pick_action ← performed (u "get_available_pick") AO_succeeded;
  image_action ← performed (u "get_pick_image") AO_succeeded;
  construct {| pip_success := true; pip_active_pick_id := Some (pie_pick_id image);
               pip_media_url := Some (pie_image_url image);
               pip_confirmed_data := [title; url];
               pip_actions_performed := [pick_action; image_action];
               pip_error_code := None; pip_user_safe_message := None; pip_trace_id := trace_id |}.

Section preparer.
Context `{SqlEngine} `{RedisServer} `{Env}.
Variable active_picks_resolve : ConversationScope -> M ActivePickResolution.
Variable image_tool : str -> str -> M (ToolResult PickImageEvidence).

Definition prepare (scope : ConversationScope) (trace_id : str) : M PickImagePreparation :=
  resolution ← active_picks_resolve scope;
  if negb (bool_decide (res_status resolution = RS_CONFIRMED))
  then lift (_resolution_failure resolution trace_id)
  else match res_pick resolution with
  | None => raise (AssertionError (u "confirmed active pick requires pick evidence"))
  | Some pick =>
      image_result ← image_tool (ap_id pick) trace_id;
      match tr_success image_result, tr_data image_result with
      | true, Some image => lift (image_preparation image trace_id)
      | _, _ =>
          lift (failed_preparation (default TE_INTERNAL_ERROR (tr_error_code image_result))
                  (or_else (tr_user_safe_message image_result)
                     (u "No pude confirmar una imagen para ese pick."))
                  (u "get_pick_image") trace_id)
      end
  end.
End preparer.

(** ** Lemmas *)

(** An image whose texts fit the evidence. *)
Definition image_fits (image : PickImageEvidence) : Prop :=
  1 <= py_len (pie_title image) <= 2000 /\ 1 <= py_len (pie_image_url image) <= 2000 /\
  py_len (pie_pick_id image) <= 255.

Lemma failed_preparation_eq code message tool trace :
  truthy message = true -> 1 <= py_len tool <= 100 ->
  failed_preparation code message tool trace =
  Ok {| pip_success := false; pip_active_pick_id := None; pip_media_url := None;
        pip_confirmed_data := [];
        pip_actions_performed := [{| pa_name := tool; pa_outcome := AO_failed; pa_reference := None |}];
        pip_error_code := Some code; pip_user_safe_message := Some message;
        pip_trace_id := trace |}.
Proof.
  intros Hm Ht. unfold failed_preparation. rewrite performed_eq by done. cbn [mbind res_bind].
  apply construct_good. unfold contract_ok. cbn -[truthy]. by rewrite Hm.
Qed.

Definition failed_image (p : PickImagePreparation) : Prop :=
  pip_success p = false /\ pip_media_url p = None /\ pip_confirmed_data p = [] /\
  is_Some (pip_error_code p) /\ truthy_opt (pip_user_safe_message p) = true.

Lemma failed_preparation_run code message tool trace :
  truthy message = true -> 1 <= py_len tool <= 100 ->
  exists p, failed_preparation code message tool trace = Ok p /\ failed_image p.
Proof.
  intros Hm Ht. rewrite failed_preparation_eq by done. eexists. split; [done|].
  split_and!; done.
Qed.

Lemma resolution_failure_run resolution trace :
  res_status resolution <> RS_CONFIRMED ->
  exists p, _resolution_failure resolution trace = Ok p /\ failed_image p.
Proof.
  intros Hs. unfold _resolution_failure, failure_of.
  destruct (res_status resolution); try done; apply failed_preparation_run; by vm_compute.
Qed.

Lemma image_preparation_ok image trace p :
  image_preparation image trace = Ok p ->
  pip_success p = true /\ pip_media_url p = Some (pie_image_url image) /\
  pip_active_pick_id p = Some (pie_pick_id image) /\
  Forall (fun item => ev_source item = BUENPICK_INTERNAL_API /\
    ev_source_reference item = Some (pie_pick_id image)) (pip_confirmed_data p).
Proof.
  unfold image_preparation. intros (t & Ht & Hr)%res_bind_ok. apply api_item_ok in Ht as (_ & _ & _ & ->).
  apply res_bind_ok in Hr as (url & Hu & Hr). apply api_item_ok in Hu as (_ & _ & _ & ->).
  apply res_bind_ok in Hr as (a1 & _ & Hr). apply res_bind_ok in Hr as (a2 & _ & Hr).
  apply construct_ok in Hr as [_ ->]. cbn. split_and!; try done. by repeat constructor.
Qed.

Lemma image_preparation_fits image trace :
  image_fits image -> exists p, image_preparation image trace = Ok p.
Proof.
  intros ((Ht1 & Ht2) & (Hu1 & Hu2) & Hid). unfold image_preparation.
  assert (forall label value, len_in 1 100 label = true -> 1 <= py_len value <= 2000 ->
    api_item label value (Some (pie_pick_id image)) = Ok {| ev_label := label; ev_value := value;
      ev_source := BUENPICK_INTERNAL_API; ev_source_reference := Some (pie_pick_id image) |}) as Hitem.
  { intros label value Hl Hv. apply api_item_ok. split; [done|]. rewrite len_in_spec.
    split; [done|]. split; [|done]. cbn. apply len_in_spec. unfold py_len in *. lia. }
  rewrite !Hitem by done. cbn [mbind res_bind]. rewrite !performed_eq by by vm_compute. cbn [mbind res_bind].
  rewrite construct_good by done. by eexists.
Qed.

(** ** Properties *)

Section properties.
Context `{SqlEngine} `{RedisServer} `{Env} `{!JsonCodec ActivePickReference}.
Context `{R : !BuenPickReader} `{!ReaderLaws R}.
Variable ttl : Z.

(** [PickImagePreparer] over the active picks and the tools of one reader. *)
Definition prepare_image : ConversationScope -> str -> M PickImagePreparation :=
  prepare (fun scope => resolve ttl br_pick scope None) get_pick_image.

(** What the API answered for the pick the conversation is about: the stored
    reference names it, the API confirms it, and answers an image for it. *)
Definition image_of_active_pick (scope : ConversationScope) (w : World)
    (image : PickImageEvidence) : Prop :=
  exists pick_id source pick pick' w2, asked_for scope None w pick_id source /\
    (br_pick pick_id (asking_world scope None w)).1 = Ok pick /\ (br_pick (ap_id pick) w2).1 = Ok pick' /\
    first_image pick' = Some (pie_image_url image) /\ pie_pick_id image = ap_id pick' /\
    pie_title image = ap_title pick'.

Lemma collect_ok_inv pick_id w image w' :
  collect pick_id w = (Ok image, w') -> exists pick, (br_pick pick_id w).1 = Ok pick /\
    first_image pick = Some (pie_image_url image) /\ pie_pick_id image = ap_id pick /\
    pie_title image = ap_title pick.
Proof.
  unfold collect. rewrite bind_run. destruct (br_pick pick_id w) as [[pick|e] w1]; [|done].
  destruct (first_image pick) as [url|] eqn:Hu; [|done]. intros [Hc ->]%lift_ok_inv.
  apply construct_ok in Hc as [_ ->]. by exists pick.
Qed.

(** The image that is sent belongs to the conversation's active pick.  A
    preparation that succeeds carries the first image the API gave, in this
    call, for the pick the stored reference names and the API reconfirmed, and
    evidence that refers to it; every other preparation is a failure with an
    error code, a message for the person and no media.  It raises only when the
    image's texts do not fit the evidence. *)
Theorem prepared_image_is_active scope trace w :
  client_answers br_pick -> monotonic -> 1 <= py_len trace <= 128 ->
  match (prepare_image scope trace w).1 with
  | Ok p => failed_image p \/ (pip_success p = true /\ exists image,
      image_of_active_pick scope w image /\ pip_media_url p = Some (pie_image_url image) /\
      pip_active_pick_id p = Some (pie_pick_id image) /\
      Forall (fun item => ev_source item = BUENPICK_INTERNAL_API /\
        ev_source_reference item = Some (pie_pick_id image)) (pip_confirmed_data p))
  | Raise _ => exists image, image_of_active_pick scope w image /\ ~ image_fits image
  end.
Proof.
  intros Hcl Hmono Htr. unfold prepare_image, prepare. rewrite bind_run.
  destruct (resolve_run ttl br_pick scope None w Hcl) as (r & w1 & Hrun & Hr). rewrite Hrun.
  destruct (bool_decide (res_status r = RS_CONFIRMED)) eqn:Hs; bools; cbn [negb].
  2: { destruct (resolution_failure_run r trace Hs) as (p & -> & Hp). by left. }
  unfold resolution_says in Hr. destruct (asks scope None w) as [[pick_id source]|].
  2: { destruct Hr as (_ & _ & [[_ Hr]|Hr]); congruence. }
  destruct Hr as (Hask & _ & Hr).
  destruct (br_pick pick_id (asking_world scope None w)).1 as [pick|e] eqn:Hpick.
  2: { destruct e; try done. destruct Hr as (_ & _ & Hr). rewrite Hs in Hr. by case_bool_decide. }
  destruct Hr as (_ & -> & _).
  rewrite bind_run.
  destruct (tool_run trace (u "get_pick_image") (collect (ap_id pick)) w1 Hmono
    (collect_client_call _) Htr ltac:(by vm_compute))
    as (w2 & t & w3 & Hrun2 & Hok & (_ & _ & Hrep) & _).
  unfold get_pick_image. rewrite Hrun2.
  destruct (collect (ap_id pick) w2) as [[image|e] w4] eqn:Hc; cbn [fst] in Hrep.
  - destruct Hrep as (-> & -> & _). apply collect_ok_inv in Hc as (pick' & Hp' & Hfi & Hid & Hti).
    assert (image_of_active_pick scope w image) as Hact by (by exists pick_id, source, pick, pick', w2).
    unfold lift. cbn [fst]. destruct (image_preparation image trace) as [p|e] eqn:Hip.
    + apply image_preparation_ok in Hip as (? & ? & ? & ?). right. split; [done|]. by exists image.
    + exists image. split; [done|]. intros Hfit.
      apply (image_preparation_fits image trace) in Hfit as [p Hp]. congruence.
  - destruct e; try done. destruct Hrep as (-> & _ & -> & Hmsg).
    assert (truthy user_safe_message = true) as Hm.
    { destruct (collect_client_call (ap_id pick)) as [Hex _].
      destruct (Hex w2 (BuenPickClientError code user_safe_message status_code)) as (? & ? & ? & Heq & ? & _);
        [by rewrite Hc|]. by injection Heq as -> -> ->. }
    unfold lift. rewrite Hmsg. unfold or_else. rewrite Hm. cbn [fst].
    destruct (failed_preparation_run (default TE_INTERNAL_ERROR (Some code)) user_safe_message
      (u "get_pick_image") trace Hm ltac:(by vm_compute)) as (p & -> & Hf). by left.
Qed.
End properties.

(** ** Evaluations *)

Section concrete.
#[local] Existing Instances map_engine scheduled_server sample_env reference_codec.

(** The sample pick, with images. *)
Definition pictured_pick : AvailablePick := {|
  ap_id := u "p1"; ap_title := ap_title sample_pick; ap_description := ap_description sample_pick;
  ap_price := ap_price sample_pick; ap_original_price := ap_original_price sample_pick;
  ap_available_quantity := ap_available_quantity sample_pick; ap_status := ap_status sample_pick;
  ap_image_url := None; ap_images := [u "https://img.example/1.jpg"; u "https://img.example/2.jpg"];
  ap_category := ap_category sample_pick; ap_pickup := ap_pickup sample_pick;
  ap_conditions := ap_conditions sample_pick; ap_commerce := ap_commerce sample_pick;
  ap_public_url := ap_public_url sample_pick |}.

Definition pictured_lookup (pick_id : str) : M AvailablePick :=
  if bool_decide (pick_id = u "p1") then mret pictured_pick
  else raise (BuenPickClientError TE_NOT_FOUND (u "no") (Some 404)).

Definition pictured_reader : BuenPickReader := {|
  br_search _ _ := mret {| sr_items := []; sr_total := 0 |};
  br_pick := pictured_lookup;
  br_commerce _ := raise (BuenPickClientError TE_NOT_FOUND (u "no") (Some 404));
  br_order _ _ _ := raise (BuenPickClientError TE_UNAUTHORIZED (u "no") (Some 401)) |}.

Lemma pictured_reader_laws : ReaderLaws pictured_reader.
Proof.
  split; intros; split; cbn; unfold pictured_lookup; try case_bool_decide;
    first [apply keeps_ret, _ | apply keeps_raise, _ | intros w e; cbn; intros [= <-]; client_error | done].
Qed.

Lemma pictured_answers : client_answers pictured_lookup.
Proof.
  intros pick_id w. unfold pictured_lookup. case_bool_decide; cbn.
  - split; split; vm_compute; discriminate.
  - client_error.
Qed.

Lemma prepared_image_is_active_witness :
  exists p, (@prepare_image _ _ _ _ pictured_reader 60 sample_scope (u "t") picked_world).1 = Ok p /\
    pip_media_url p = Some (u "https://img.example/1.jpg").
Proof.
  pose proof (@prepared_image_is_active _ _ _ _ pictured_reader pictured_reader_laws 60 sample_scope
    (u "t") picked_world pictured_answers sample_monotonic ltac:(by vm_compute)) as Hp.
  destruct (prepare_image 60 sample_scope (u "t") picked_world).1 as [p|e] eqn:He.
  - exists p. split; [reflexivity|]. revert He. vm_compute. intros [= <-]. reflexivity.
  - exfalso. revert He. vm_compute. discriminate.
Defined.
End concrete.
