(* ===== verification/Orchestrator.v ===== *)
(** * The conversation orchestrator ([src/piki/conversation/service.py])

    The intent resolver, and [ConversationOrchestrator]: one turn of a
    conversation under the lock of its scope, from the stored inbound message
    to the stored reply.  The response engine is the interface
    [ResponseEngine], implemented by [Composition.respond]; the tools are those
    of a [BuenPickReader], or absent. *)
From S2P Require Import Prelude PyStr PyRegex Errors Sha256 Contracts Grounding Prompt.
From S2P Require Import Pydantic.
From S2P Require Import Events Sql Redis Models World Session Sample State Coordination.
From S2P Require Import Composition BuenPickModels BuenPick Conversations Handoffs Tools.
From S2P Require Import Evidence.
From S2P Require Import Policies.

Local Open Scope Z_scope.

(** ** Intents *)

Inductive ConversationIntent :=
| CI_GREETING | CI_DISCOVER_PICKS | CI_HUMAN_HANDOFF | CI_EXPLAIN_BUENPICK.
#[export] Instance ConversationIntent_eq_dec : EqDecision ConversationIntent.
Proof. solve_decision. Defined.
#[export] Program Instance ConversationIntent_enum : StrEnum ConversationIntent := {|
  enum_all := [CI_GREETING; CI_DISCOVER_PICKS; CI_HUMAN_HANDOFF; CI_EXPLAIN_BUENPICK];
  enum_value i :=
    match i with
    | CI_GREETING => u "greeting"
    | CI_DISCOVER_PICKS => u "discover_picks"
    | CI_HUMAN_HANDOFF => u "human_handoff"
    | CI_EXPLAIN_BUENPICK => u "explain_buenpick"
    end
|}.
Solve All Obligations with enum_laws.

Section resolver.
Context `{UCD}.

Definition intent_normalized (text : str) : str :=
  let decomposed := nfkd (casefold text) in
  let plain := filter (fun char => combining char = false) decomposed in
  join (u " ") (split plain).

Definition _handoff_terms : list str :=
  map u ["humano"; "persona"; "operador"; "asesor"; "atencion"]%string.
Definition _search_terms : list str :=
  map u ["pick"; "rescat"; "busc"; "disponible"; "comida"; "alimento"; "hay"; "quiero "]%string.
Definition _explain_terms : list str :=
  map u ["que es buenpick"; "como funciona"; "buenpick"]%string.
Definition _greetings : list str :=
  map u ["hola"; "buenas"; "buen dia"; "buenas tardes"; "buenas noches"; "hola piki"]%string.

Definition any_term (terms : list str) (text : str) : bool :=
  existsb (fun term => contains term text) terms.

Definition resolve_intent (text : str) : ConversationIntent :=
  let normalized := intent_normalized text in
  if any_term _handoff_terms normalized then CI_HUMAN_HANDOFF
  else if bool_decide (normalized ∈ _greetings) then CI_GREETING
  else if any_term _search_terms normalized then CI_DISCOVER_PICKS
  else if any_term _explain_terms normalized then CI_EXPLAIN_BUENPICK
  else CI_EXPLAIN_BUENPICK.
End resolver.

Record ConversationReply := {
  rp_conversation_id : Z;
  rp_text : str;
  rp_intent : ConversationIntent;
  rp_trace_id : str;
  rp_used_fallback : bool;
  rp_duplicate : bool
}.
#[export] Instance ConversationReply_contract : Contract ConversationReply := {|
  fields_ok r := len_in 1 4096 (rp_text r) && len_in 1 128 (rp_trace_id r);
  model_validator _ := None
|}.

(** ** The response engine *)

Class ResponseEngine `{SqlEngine} `{RedisServer} := {
  engine_respond : ContextPacket -> list ConversationTurn -> option str -> M ResponseOutcome
}.

Definition ComposerEngine `{UCD} `{SqlEngine} `{RedisServer} `{Env}
    (adapter : CompositionRequest -> M CompositionResult) (system_prompt : str)
    : ResponseEngine := {|
  engine_respond := Composition.respond adapter system_prompt |}.

(** ** Composing the reply *)

Definition has_text (item : StoredMessage) : bool := truthy_opt (sm_content_text item).

Definition turn_of (item : StoredMessage) : res ConversationTurn :=
  construct {| ct_role := if bool_decide (sm_direction item = u "outbound") then ROLE_ASSISTANT
                          else ROLE_USER;
               ct_text := default [] (sm_content_text item) |}.

Definition turns_of (history : list StoredMessage) : res (list ConversationTurn) :=
  res_map turn_of (filter (fun item => has_text item = true) history).

Definition handoff_text : str :=
  u "Listo, pedí atención humana. Tu conversación quedó en espera; todavía no significa que una persona haya respondido.".
Definition no_tools_text : str :=
  u "Todavía no está configurado el acceso local a la API de BuenPick. Puedo conversar, pero no voy a inventar picks, precios ni stock.".

Section orchestrator.
Context `{UCD} `{SqlEngine} `{RedisServer} `{Env} `{!ResponseEngine}.
Variable lock_ttl_seconds : Z.
Variable tools : option BuenPickReader.

(** The three branches of [_compose_reply]. *)
Definition reply_handoff (turns : list ConversationTurn) (query trace_id : str)
    (conversation_id : Z) (message_id : str) : M (str * bool) :=
  session (
    handoff ← lift (construct {|
      hr_conversation_id := conversation_id; hr_idempotency_key := u "handoff:" ++ message_id;
      hr_reason := u "La persona solicitó atención humana."; hr_trace_id := trace_id |});
    request handoff);;
  action ← lift (performed (u "request_human_handoff") AO_succeeded);
  packet ← lift (context_packet (get_policy PN_HUMAN_HANDOFF) query trace_id [] [] [action] None);
  outcome ← engine_respond packet turns (Some handoff_text);
  mret (ro_text outcome, ro_used_fallback outcome).

Definition reply_discover (turns : list ConversationTurn) (query trace_id : str)
    : M (str * bool) :=
  match tools with
  | None => mret (no_tools_text, true)
  | Some reader =>
      result ← tool_search (Some query) None trace_id;
      evidence ← lift (search_result_evidence result);
      if bool_decide (length (te_confirmed_data evidence) = O)
      then mret (default (u "No pude confirmar picks disponibles en este momento.")
                   (head (te_unavailable_data evidence)), true)
      else
        packet ← lift (context_packet (get_policy PN_DISCOVER_PICKS) query trace_id
          (te_confirmed_data evidence) (te_unavailable_data evidence)
          (te_actions_performed evidence) None);
        outcome ← engine_respond packet turns None;
        mret (ro_text outcome, ro_used_fallback outcome)
  end.

Definition reply_explain (turns : list ConversationTurn) (query trace_id : str)
    : M (str * bool) :=
  packet ← lift (context_packet (get_policy PN_EXPLAIN_BUENPICK) query trace_id [] [] [] None);
  outcome ← engine_respond packet turns None;
  mret (ro_text outcome, ro_used_fallback outcome).

Definition _compose_reply (intent : ConversationIntent) (query trace_id : str)
    (conversation_id : Z) (history : list StoredMessage) (message_id : str) : M (str * bool) :=
  turns ← lift (turns_of history);
  match intent with
  | CI_HUMAN_HANDOFF => reply_handoff turns query trace_id conversation_id message_id
  | CI_DISCOVER_PICKS => reply_discover turns query trace_id
  | _ => reply_explain turns query trace_id
  end.

(** ** One turn *)

Definition message_text (message : InboundMessage) : str := default [] (im_text message).
Definition trace_of (message : InboundMessage) : str := u "conversation:" ++ im_message_id message.
Definition reply_id_of (message : InboundMessage) : str := u "piki-reply:" ++ im_message_id message.

Definition scope_of (message : InboundMessage) (channel_account_id : str) : res ConversationScope :=
  construct {| sc_channel := im_channel message; sc_channel_account_id := channel_account_id;
               sc_conversation_id := im_conversation_id message |}.

(** The reply stored earlier for this message. *)
Definition stored_reply (conversation_id : Z) (message : InboundMessage) (existing : StoredMessage)
    : res ConversationReply :=
  construct {| rp_conversation_id := conversation_id;
               rp_text := default [] (sm_content_text existing);
               rp_intent := resolve_intent (message_text message);
               rp_trace_id := sm_trace_id existing; rp_used_fallback := false;
               rp_duplicate := true |}.

(** From the resolved intent to the reply, the end of both entry points. *)
Definition finish_turn (message : InboundMessage) (trace_id : str) (conversation_id : Z)
    (history : list StoredMessage) : M ConversationReply :=
  let intent := resolve_intent (message_text message) in
  emit EV_INTENT_RESOLVED trace_id (enum_value intent) EO_SUCCEEDED None None None None;;
  reply ← _compose_reply intent (message_text message) trace_id conversation_id history
    (im_message_id message);
  session (record_outbound conversation_id reply.1 trace_id (reply_id_of message));;
  lift (construct {| rp_conversation_id := conversation_id; rp_text := reply.1;
                     rp_intent := intent; rp_trace_id := trace_id;
                     rp_used_fallback := reply.2; rp_duplicate := false |}).

(** The first session of [_respond_locked]: the reply of a duplicate, or the
    conversation and its history. *)
Definition receive (message : InboundMessage) (channel_account_id trace_id : str)
    : M (ConversationReply + Z * list StoredMessage) :=
  session (
    persisted ← record_inbound channel_account_id message trace_id false;
    match pi_status persisted with
    | PS_DUPLICATE =>
        existing ← find_message (reply_id_of message);
        match existing with
        | Some stored =>
            if has_text stored
            then reply ← lift (stored_reply (pi_conversation_id persisted) message stored);
                 mret (inl reply)
            else raise (ConversationBusyError (u "duplicate message reply is not ready"))
        | None => raise (ConversationBusyError (u "duplicate message reply is not ready"))
        end
    | PS_CREATED =>
        history ← recent_messages (pi_conversation_id persisted) 20;
        mret (inr (pi_conversation_id persisted, history))
    end).

Definition _respond_locked (message : InboundMessage) (channel_account_id trace_id : str)
    : M ConversationReply :=
  received ← receive message channel_account_id trace_id;
  match received with
  | inl reply => mret reply
  | inr (conversation_id, history) => finish_turn message trace_id conversation_id history
  end.

(** The lease, or the busy error. *)
Definition owner_of (lease : LockLease) : res str :=
  match ll_status lease, ll_owner_token lease with
  | LK_ACQUIRED, Some owner_token => Ok owner_token
  | _, _ => Raise (ConversationBusyError (u "conversation is already being processed"))
  end.

Definition release_observed (scope : ConversationScope) (owner_token trace_id : str) : M unit :=
  released ← release scope owner_token;
  if bool_decide (released = LR_UNAVAILABLE)
  then emit EV_INTENT_RESOLVED trace_id (u "conversation_lock") EO_FAILED None
         (Some (u "lock_release_unavailable")) None None
  else mret tt.

Definition orchestrator_respond (message : InboundMessage) (channel_account_id : str)
    : M ConversationReply :=
  emit EV_MESSAGE_RECEIVED (trace_of message) (u "conversation") EO_SUCCEEDED None None None None;;
  scope ← lift (scope_of message channel_account_id);
  lease ← acquire lock_ttl_seconds scope;
  owner_token ← lift (owner_of lease);
  try_finally (_respond_locked message channel_account_id (trace_of message))
    (release_observed scope owner_token (trace_of message)).

(** The body of the [try] of [respond_persisted]. *)
Definition recall (message : InboundMessage) (conversation_record_id : Z)
    : M (ConversationReply + list StoredMessage) :=
  session (
    existing ← find_message (reply_id_of message);
    match existing with
    | Some stored =>
        if has_text stored
        then reply ← lift (stored_reply conversation_record_id message stored); mret (inl reply)
        else history ← recent_messages conversation_record_id 20; mret (inr history)
    | None => history ← recent_messages conversation_record_id 20; mret (inr history)
    end).

Definition respond_persisted_locked (message : InboundMessage) (conversation_record_id : Z)
    : M ConversationReply :=
  recalled ← recall message conversation_record_id;
  match recalled with
  | inl reply => mret reply
  | inr history => finish_turn message (trace_of message) conversation_record_id history
  end.

Definition respond_persisted (message : InboundMessage) (channel_account_id : str)
    (conversation_record_id : Z) : M ConversationReply :=
  emit EV_MESSAGE_RECEIVED (trace_of message) (u "conversation_worker") EO_SUCCEEDED
    None None None None;;
  scope ← lift (scope_of message channel_account_id);
  lease ← acquire lock_ttl_seconds scope;
  owner_token ← lift (owner_of lease);
  try_finally (respond_persisted_locked message conversation_record_id)
    (release scope owner_token;; mret tt).

(** ** [history] *)

Definition history (channel : Channel) (channel_account_id conversation_id : str)
    : M (list StoredMessage) :=
  session (
    internal_id ← find_conversation_id channel channel_account_id conversation_id;
    match internal_id with
    | None => mret []
    | Some id => recent_messages id 100
    end).
End orchestrator.

(** ** Examples of intents *)

#[local] Existing Instance latin1_ucd.

Example intents :
  map (fun s => resolve_intent (u s))
    ["  HOLA  Piki "; "Buen día"; "¿Qué hay disponible?"; "quiero comida";
     "necesito un ASESOR"; "Atención por favor"; "¿Cómo funciona?"; ""; "gracias"]%string =
  [CI_GREETING; CI_GREETING; CI_DISCOVER_PICKS; CI_DISCOVER_PICKS; CI_HUMAN_HANDOFF;
   CI_HUMAN_HANDOFF; CI_EXPLAIN_BUENPICK; CI_EXPLAIN_BUENPICK; CI_EXPLAIN_BUENPICK].
Proof. vm_compute. reflexivity. Qed.
