(* ===== verification/TurnLaws.v ===== *)
(** * One turn of a conversation: lemmas

    What the orchestrator of [Orchestrator] leaves alone (stored messages are
    never altered), what a reply that was stored looks like afterwards, and the
    laws of its collaborators: an engine and a reader that do not touch the
    database. *)
From S2P Require Import Prelude PyStr PyRegex Errors Sha256 Contracts Grounding Prompt.
From S2P Require Import Pydantic.
From S2P Require Import Events Sql Redis Models World Session Traffic Sample State Coordination.
From S2P Require Import Composition BuenPickModels BuenPick Conversations Handoffs Tools.
From S2P Require Import Evidence.
From S2P Require Import Policies Orchestrator.

Local Open Scope Z_scope.

#[local] Abbreviation messages d := (rows (db_messages d)).

Section effects.
Context `{SqlEngine} `{RedisServer} `{Env} {R : Type} `{!InDb R}.

(** What a statement may do to the database: nothing, or a new table. *)
Lemma insert_effect (a un : R -> R -> bool) fk k mk w :
  w_db (insert_row a un fk k mk w).2 = w_db w \/
  exists t tb, w_db (insert_row a un fk k mk w).2 = set_tbl tb (w_db w) /\
    rows (tbl (w_db w)) !! k = None /\ rows tb = <[k := mk t]> (rows (tbl (w_db w))).
Proof.
  destruct (insert_row a un fk k mk w) as [[o|e] w'] eqn:Hr; cbn.
  - apply insert_ok_inv in Hr as [(r & t & -> & _ & _ & _ & Hk & _ & _ & tb & Hd & Hr)|(_ & Hd & _)];
      [right; eauto|by left].
  - left. revert Hr. unfold insert_row, stmt. split_all; naive_solver.
Qed.

Lemma update_effect (p : Z -> R -> bool) f w :
  w_db (update_returning p f w).2 = w_db w \/
  exists t tb, w_db (update_returning p f w).2 = set_tbl tb (w_db w) /\
    rows tb = update_spec p (f t) (rows (tbl (w_db w))).
Proof.
  destruct (update_returning p f w) as [[o|e] w'] eqn:Hr; cbn.
  - apply update_ok_inv in Hr as (t & tb & _ & Hd & Hr). right. eauto.
  - left. revert Hr. unfold update_returning, stmt. split_all; naive_solver.
Qed.

Lemma upsert_effect (a un : R -> R -> bool) fk k mk f w :
  w_db (upsert_returning a un fk k mk f w).2 = w_db w \/
  exists tb, w_db (upsert_returning a un fk k mk f w).2 = set_tbl tb (w_db w).
Proof.
  destruct (upsert_returning a un fk k mk f w) as [[o|e] w'] eqn:Hr; cbn.
  - apply upsert_ok_inv in Hr as (t & tb & Hd & _). right. eauto.
  - left. revert Hr. unfold upsert_returning, stmt. split_all; naive_solver.
Qed.
End effects.

(** ** Stored messages are never altered *)

Section kept.
Context `{SqlEngine} `{RedisServer} `{Env}.

Definition messages_kept : relation Db := fun d d' =>
  forall k m, messages d !! k = Some m -> messages d' !! k = Some m.
#[export] Instance messages_kept_preorder : PreOrder messages_kept.
Proof. split; unfold messages_kept; intros ?; naive_solver. Qed.

Lemma keeps_db_eq (Rd : relation Db) `{!PreOrder Rd} {A} (m : M A) : keeps_db (=) m -> keeps_db Rd m.
Proof. intros Hm w. specialize (Hm w). unfold db_rel in *. by rewrite <- Hm. Qed.

Lemma kept_insert_message a un fk k mk :
  keeps_db messages_kept (insert_row (R := MessageRecord) a un fk k mk).
Proof.
  intros w. destruct (insert_effect a un fk k mk w) as [Hd|(t & tb & Hd & Hk & Hr)];
    unfold db_rel; rewrite Hd; [by intros k0 m0|]. intros k' m Hm. cbn. rewrite Hr.
  rewrite lookup_insert_ne; [done|]. intros ->. change (messages (w_db w) !! k' = None) in Hk. congruence.
Qed.

Lemma kept_insert_handoff a un fk k mk :
  keeps_db messages_kept (insert_row (R := HandoffRecord) a un fk k mk).
Proof.
  intros w. destruct (insert_effect a un fk k mk w) as [Hd|(t & tb & Hd & _)];
    unfold db_rel; rewrite Hd; by intros k0 m0.
Qed.

Lemma kept_update_conversation p f :
  keeps_db messages_kept (update_returning (R := ConversationRecord) p f).
Proof.
  intros w. destruct (update_effect p f w) as [Hd|(t & tb & Hd & _)]; unfold db_rel; rewrite Hd; by intros k0 m0.
Qed.

Lemma kept_upsert_conversation a un fk k mk f :
  keeps_db messages_kept (upsert_returning (R := ConversationRecord) a un fk k mk f).
Proof.
  intros w. destruct (upsert_effect a un fk k mk f w) as [Hd|(tb & Hd)]; unfold db_rel; rewrite Hd; by intros k0 m0.
Qed.

Ltac kept_auto :=
  repeat first [apply kept_insert_message | apply kept_insert_handoff
               | apply kept_update_conversation | apply kept_upsert_conversation | keeps_step].

Lemma record_inbound_kept acct message trace enqueue :
  keeps_db messages_kept (record_inbound acct message trace enqueue).
Proof. unfold record_inbound. kept_auto. Qed.

Lemma record_outbound_kept cid text trace ext :
  keeps_db messages_kept (record_outbound cid text trace ext).
Proof. unfold record_outbound. kept_auto. Qed.

Lemma request_kept r : keeps_db messages_kept (request r).
Proof. unfold request. kept_auto. Qed.

Lemma find_message_db e : keeps_db (=) (find_message e).
Proof. unfold find_message. keeps_auto. Qed.

Lemma recent_messages_db cid limit : keeps_db (=) (recent_messages cid limit).
Proof. unfold recent_messages. keeps_auto. Qed.

Lemma redis_try_db c : keeps_db (=) (redis_try c).
Proof. intros w. destruct (redis_try_run c w) as (o & w' & -> & Hd & _). symmetry. exact Hd. Qed.

Lemma acquire_db ttl scope : keeps_db (=) (acquire ttl scope).
Proof.
  unfold acquire. apply keeps_bind; [apply _|apply keeps_db_token; apply _|]. intros t.
  apply keeps_bind; [apply _|apply redis_try_db|]. intros [r|]; [|apply keeps_lift, _].
  apply keeps_if; apply keeps_lift, _.
Qed.

Lemma release_db scope token : keeps_db (=) (release scope token).
Proof.
  unfold release. apply keeps_bind; [apply _|apply redis_try_db|]. intros. apply keeps_ret, _.
Qed.
End kept.

(** ** The collaborators *)

(** An engine writes no table and answers a text that can be stored. *)
Class EngineLaws `{SqlEngine} `{RedisServer} (E : ResponseEngine) : Prop := {
  engine_db packet turns text : keeps_db (=) (engine_respond packet turns text);
  engine_text packet turns text w o w' :
    engine_respond packet turns text w = (Ok o, w') -> 1 <= py_len (ro_text o) <= 4096
}.

(** A reader writes no table. *)
Class ReaderFrame `{SqlEngine} `{RedisServer} (R : BuenPickReader) : Prop := {
  reader_search_db query commerce_id : keeps_db (=) (br_search query commerce_id)
}.

Section collaborators.
Context `{SqlEngine} `{RedisServer} `{Env}.

Lemma emit_db_eq ev tr co ou st er cc uc : keeps_db (=) (emit ev tr co ou st er cc uc).
Proof. apply keeps_db_emit, _. Qed.

(** The engine of the program relates its worlds by what emitting an event,
    reading the clock and its adapter relate them by. *)
Lemma respond_relates `{UCD} (R : relation World) `{!PreOrder R} adapter system_prompt packet turns text :
  (forall ev tr co ou st er cc uc, keeps R (emit ev tr co ou st er cc uc)) -> keeps R started_at ->
  (forall r, keeps R (adapter r)) ->
  keeps R (Composition.respond adapter system_prompt packet turns text).
Proof.
  intros Hemit Hperf Had. unfold Composition.respond.
  assert (forall text pid, keeps R (validated_outcome packet text pid)) as Hv.
  { intros text' pid. unfold validated_outcome, _emit_grounding.
    apply keeps_bind; [apply _|exact Hperf|]. intros t.
    apply keeps_bind; [apply _|apply keeps_lift, _|]. intros v.
    apply keeps_bind; [apply _|apply Hemit|]. intros _. destruct (gr_safe v), (gr_text v); apply keeps_lift, _. }
  apply keeps_bind; [apply _|apply Hemit|]. intros _.
  assert (keeps R (llm_started ← started_at;
      emit EV_LLM_STARTED (cp_trace_id packet) (u "llm") EO_STARTED None None None None;;
      composed ← try_compose adapter system_prompt packet turns llm_started;
      match composed with
      | None => lift (_fallback packet [])
      | Some result =>
          emit EV_LLM_FINISHED (cp_trace_id packet) (u "llm") EO_SUCCEEDED (Some llm_started)
            None None None;;
          validated_outcome packet (cr_text result) (Some (cr_provider_response_id result))
      end)) as Hllm.
  { apply keeps_bind; [apply _|exact Hperf|]. intros t.
    apply keeps_bind; [apply _|apply Hemit|]. intros _.
    apply keeps_bind; [apply _| |].
    - unfold try_compose. apply keeps_try; [apply _| |].
      + apply keeps_bind; [apply _| |intros; apply keeps_ret, _]. unfold compose.
        apply keeps_if; [apply keeps_raise, _|].
        apply keeps_bind; [apply _|exact Hperf|]. intros r.
        apply keeps_bind; [apply _|apply Hemit|]. intros _.
        apply keeps_bind; [apply _|apply keeps_lift, _|]. apply Had.
      + intros e m' Hm. destruct e; try done. injection Hm as <-.
        apply keeps_bind; [apply _|apply Hemit|]. intros. apply keeps_ret, _.
    - intros [c|]; [|apply keeps_lift, _]. apply keeps_bind; [apply _|apply Hemit|]. intros _.
      apply Hv. }
  destruct (cp_response_mode packet); [|apply keeps_lift, _|exact Hllm..].
  destruct text; [apply Hv|apply keeps_raise, _].
Qed.

(** Every outcome of the engine was validated. *)
Lemma respond_text_length `{UCD} adapter system_prompt packet turns text w o w' :
  Composition.respond adapter system_prompt packet turns text w = (Ok o, w') ->
  1 <= py_len (ro_text o) <= 4096.
Proof.
  assert (forall t pid w0, validated_outcome packet t pid w0 = (Ok o, w') -> 1 <= py_len (ro_text o) <= 4096)
    as Hv by (intros t pid w0 Hr; by apply validated_outcome_safe in Hr as (_ & _ & ? & _)).
  assert (forall w0, lift (_fallback packet []) w0 = (Ok o, w') -> 1 <= py_len (ro_text o) <= 4096)
    as Hf by (intros w0 [Hr _]%lift_ok_inv; by apply fallback_safe in Hr as (_ & _ & ? & _)).
  unfold Composition.respond. intros (x & w1 & _ & Hr)%bind_ok_inv.
  destruct (cp_response_mode packet); [destruct text; [by eapply Hv|done]|by eapply Hf|..];
    apply bind_ok_inv in Hr as (t & w2 & _ & Hr); apply bind_ok_inv in Hr as (y & w3 & _ & Hr);
    apply bind_ok_inv in Hr as ([c|] & w4 & _ & Hr); try by eapply Hf.
  all: apply bind_ok_inv in Hr as (z & w5 & _ & Hr); by eapply Hv.
Qed.

(** The engine of the program keeps the promises when its adapter does. *)
Lemma composer_engine_laws `{UCD} adapter system_prompt :
  (forall r, keeps_db (=) (adapter r)) -> EngineLaws (ComposerEngine adapter system_prompt).
Proof.
  intros Had. split; intros packet turns text.
  - apply respond_relates; [apply _|apply emit_db_eq|apply keeps_db_started_at, _|exact Had].
  - apply respond_text_length.
Qed.

Lemma client_reader_frame `{LaxInt} `{LaxTypes} options : ReaderFrame (BuenPickClientReader options).
Proof.
  split. intros q c. cbn [br_search BuenPickClientReader]. unfold search_available_picks, _request.
  generalize (Z.to_nat (bo_max_attempts options)), 1%Z.
  intros left. induction left as [|left IH]; intros attempt; cbn [attempts]; [apply keeps_raise, _|].
  apply keeps_bind; [apply _|apply keeps_db_http, _|]. intros answer.
  assert (keeps_db (=) (sleep (100000 * 2 ^ (attempt - 1));;
    attempts options (api_request (u "picks/search") (search_params q c)) parse_search left (attempt + 1)))
    as Hretry.
  { apply keeps_bind; [apply _|apply keeps_db_sleep, _|]. intros. apply IH. }
  destruct answer; repeat case_match; first [exact Hretry | apply keeps_raise, _ | apply keeps_ret, _].
Qed.

Lemma tool_search_db `{R : !BuenPickReader} `{!ReaderFrame R} query commerce_id trace :
  keeps_db (=) (tool_search query commerce_id trace).
Proof.
  unfold tool_search, _run.
  do 2 (apply keeps_bind; [apply _|first [apply keeps_db_perf, _ | apply keeps_db_started_at, _]|]; intros ?).
  apply keeps_bind; [apply _|apply emit_db_eq|]. intros _. apply keeps_try; [apply _| |].
  - apply keeps_bind; [apply _|apply reader_search_db|]. intros. keeps_auto.
  - intros e m' Hm. destruct e; try done. injection Hm as <-. keeps_auto.
Qed.
End collaborators.

(** ** What a turn composes can be stored *)

Section composed.
Context `{UCD} `{SqlEngine} `{RedisServer} `{Env}.

Lemma keeps_bind_run (R : relation World) `{!PreOrder R} {A B} (m : M A) (f : A -> M B) :
  keeps R m -> (forall w a w', m w = (Ok a, w') -> keeps R (f a)) -> keeps R (m ≫= f).
Proof.
  intros Hm Hf w. rewrite bind_run. specialize (Hm w). destruct (m w) as [[a|e] w1] eqn:Hr; [|exact Hm].
  etrans; [exact Hm|]. by eapply Hf.
Qed.

(** A result of a tool was validated. *)
Lemma tool_result_valid {A} trace name (op : M A) w result w' :
  _run trace name op w = (Ok result, w') -> contract_ok result = true.
Proof.
  unfold _run. intros (t & w1 & _ & Hr)%bind_ok_inv. apply bind_ok_inv in Hr as (t' & w2 & _ & Hr).
  apply bind_ok_inv in Hr as (x & w3 & _ & Hr). unfold try_except in Hr. case_match eqn:Hm.
  destruct r as [r|e].
  - injection Hr as -> ->. apply bind_ok_inv in Hm as (d & w4 & _ & Hm). apply bind_ok_inv in Hm as (y & w5 & _ & Hm).
    apply bind_ok_inv in Hm as (f & w6 & _ & Hm). by apply lift_ok_inv in Hm as [[? ->]%construct_ok _].
  - destruct e; try done. apply bind_ok_inv in Hr as (y & w5 & _ & Hr).
    apply bind_ok_inv in Hr as (f & w6 & _ & Hr). by apply lift_ok_inv in Hr as [[? ->]%construct_ok _].
Qed.

(** The reason a search that confirmed nothing gives. *)
Lemma search_reason_fits result b :
  contract_ok result = true -> search_result_evidence result = Ok b ->
  Forall (fun reason => 1 <= py_len reason <= 500) (te_unavailable_data b).
Proof.
  intros [Hf _]%fields_and_validator Hb. cbn -[opt_len_in len_in] in Hf. bools.
  unfold search_result_evidence in Hb.
  assert (forall tool message, 1 <= py_len tool <= 100 -> 1 <= py_len message <= 500 ->
    failed_bundle result tool message = Ok b ->
    Forall (fun reason => 1 <= py_len reason <= 500) (te_unavailable_data b)) as Hfail.
  { intros tool msg Ht Hm He. rewrite failed_bundle_eq in He by done. injection He as <-.
    apply Forall_singleton. unfold or_else. destruct (tr_user_safe_message result) as [m|]; [|done].
    destruct (truthy m) eqn:Htr; [|done]. apply truthy_len in Htr. split; [done|].
    match goal with Hx : opt_len_in 0 500 (Some m) = true |- _ => apply len_in_spec in Hx; lia end. }
  destruct (tr_success result), (tr_data result) as [data|];
    try (eapply Hfail; [| |exact Hb]; by vm_compute).
  apply res_bind_ok in Hb as (action & _ & Hb). case_bool_decide.
  - apply res_bind_ok in Hb as (item & _ & [_ ->]%construct_ok). apply Forall_nil_2.
  - apply res_bind_ok in Hb as (items & _ & [_ ->]%construct_ok). cbn -[py_len u].
    destruct (existsb _ _); [apply Forall_singleton; by vm_compute|apply Forall_nil_2].
Qed.

Context `{E : !ResponseEngine} `{!EngineLaws E}.

Lemma compose_text_fits tools intent query trace cid hist mid w text fb w' :
  _compose_reply tools intent query trace cid hist mid w = (Ok (text, fb), w') ->
  1 <= py_len text <= 4096.
Proof.
  unfold _compose_reply. intros (turns & w1 & _ & Hr)%bind_ok_inv.
  assert (forall packet turns dt w0, (outcome ← engine_respond packet turns dt;
      mret (ro_text outcome, ro_used_fallback outcome)) w0 = (Ok (text, fb), w') -> 1 <= py_len text <= 4096)
    as Heng.
  { intros packet ts dt w0 (o & w2 & Ho & [[= -> _] _]%ret_ok_inv)%bind_ok_inv. by eapply engine_text. }
  destruct intent.
  2: { unfold reply_discover in Hr. destruct tools as [reader|].
    2: { apply ret_ok_inv in Hr as [[= -> _] _]. by vm_compute. }
    apply bind_ok_inv in Hr as (result & w2 & Hres%tool_result_valid & Hr).
    apply bind_ok_inv in Hr as (b & w3 & [Hb _]%lift_ok_inv & Hr). case_bool_decide.
    - apply ret_ok_inv in Hr as [[= -> _] _]. pose proof (search_reason_fits _ _ Hres Hb) as Hall.
      destruct (te_unavailable_data b) as [|x l]; [by vm_compute|]. apply Forall_cons in Hall as [? _]. cbn -[py_len]. lia.
    - apply bind_ok_inv in Hr as (packet & w4 & _ & Hr). by eapply Heng. }
  2: { unfold reply_handoff in Hr. apply bind_ok_inv in Hr as (h & w2 & _ & Hr).
    apply bind_ok_inv in Hr as (a & w3 & _ & Hr). apply bind_ok_inv in Hr as (p & w4 & _ & Hr). by eapply Heng. }
  all: unfold reply_explain in Hr; apply bind_ok_inv in Hr as (p & w4 & _ & Hr); by eapply Heng.
Qed.
End composed.

(** ** A turn keeps what its statements keep *)

Section turn_keeps.
Context `{UCD} `{SqlEngine} `{RedisServer} `{Env} `{E : !ResponseEngine} `{!EngineLaws E}.
Variables (lock_ttl : Z) (tools : option BuenPickReader).
Hypothesis tools_frame : forall reader, tools = Some reader -> ReaderFrame reader.
Context (Rd : relation Db) `{!PreOrder Rd}.
Hypothesis keeps_outbound : forall cid text trace ext,
  py_len text <= 4096 -> keeps_db Rd (record_outbound cid text trace ext).
Hypothesis keeps_request : forall r, keeps_db Rd (request r).

Lemma compose_reply_keeps intent query trace cid hist mid :
  keeps_db Rd (_compose_reply tools intent query trace cid hist mid).
Proof.
  unfold _compose_reply. apply keeps_bind; [apply _|apply keeps_lift, _|]. intros turns.
  assert (keeps_db Rd (reply_explain turns query trace)) as Hexp.
  { unfold reply_explain. apply keeps_bind; [apply _|apply keeps_lift, _|]. intros packet.
    apply keeps_bind; [apply _|apply keeps_db_eq; [apply _|apply engine_db]|].
    intros. apply keeps_ret, _. }
  destruct intent; [exact Hexp| | |exact Hexp].
  - unfold reply_discover. destruct tools as [reader|] eqn:Ht; [|apply keeps_ret, _].
    specialize (tools_frame reader eq_refl).
    apply keeps_bind; [apply _|apply keeps_db_eq; [apply _|apply tool_search_db]|]. intros result.
    apply keeps_bind; [apply _|apply keeps_lift, _|]. intros evidence.
    case_bool_decide; [apply keeps_ret, _|].
    apply keeps_bind; [apply _|apply keeps_lift, _|]. intros packet.
    apply keeps_bind; [apply _|apply keeps_db_eq; [apply _|apply engine_db]|].
    intros. apply keeps_ret, _.
  - unfold reply_handoff. apply keeps_bind; [apply _| |].
    { apply keeps_db_session; [apply _|]. apply keeps_bind; [apply _|apply keeps_lift, _|].
      intros. apply keeps_request. }
    intros _. apply keeps_bind; [apply _|apply keeps_lift, _|]. intros a.
    apply keeps_bind; [apply _|apply keeps_lift, _|]. intros packet.
    apply keeps_bind; [apply _|apply keeps_db_eq; [apply _|apply engine_db]|].
    intros. apply keeps_ret, _.
Qed.

Lemma finish_turn_keeps message trace cid hist :
  keeps_db Rd (finish_turn tools message trace cid hist).
Proof.
  unfold finish_turn. apply keeps_bind; [apply _|apply keeps_db_emit, _|]. intros _.
  apply keeps_bind_run; [apply _|apply compose_reply_keeps|]. intros w1 [text fb] w2 Hc.
  apply keeps_bind; [apply _|apply keeps_db_session; [apply _|]|].
  { apply keeps_outbound. by apply compose_text_fits in Hc as [_ ?]. }
  intros. apply keeps_lift, _.
Qed.

Lemma receive_keeps message acct trace :
  keeps_db Rd (record_inbound acct message trace false) -> keeps_db Rd (receive message acct trace).
Proof.
  intros Hin. unfold receive. apply keeps_db_session; [apply _|].
  apply keeps_bind; [apply _|exact Hin|]. intros p. destruct (pi_status p).
  - apply keeps_bind; [apply _|apply keeps_db_eq; [apply _|apply recent_messages_db]|].
    intros. apply keeps_ret, _.
  - apply keeps_bind; [apply _|apply keeps_db_eq; [apply _|apply find_message_db]|].
    intros [stored|]; [|apply keeps_raise, _]. destruct (has_text stored); [|apply keeps_raise, _].
    apply keeps_bind; [apply _|apply keeps_lift, _|]. intros. apply keeps_ret, _.
Qed.

Lemma recall_db message cid : keeps_db (=) (recall message cid).
Proof.
  unfold recall. apply keeps_db_session; [apply _|].
  apply keeps_bind; [apply _|apply find_message_db|]. intros o.
  assert (keeps_db (=) (history ← recent_messages cid 20;
    mret (inr history : ConversationReply + list StoredMessage))) as Hh.
  { apply keeps_bind; [apply _|apply recent_messages_db|]. intros. apply keeps_ret, _. }
  destruct o as [stored|]; [|exact Hh]. destruct (has_text stored); [|exact Hh].
  apply keeps_bind; [apply _|apply keeps_lift, _|]. intros. apply keeps_ret, _.
Qed.

Lemma respond_keeps message acct :
  keeps_db Rd (record_inbound acct message (trace_of message) false) ->
  keeps_db Rd (orchestrator_respond lock_ttl tools message acct).
Proof.
  intros Hin. unfold orchestrator_respond. apply keeps_bind; [apply _|apply keeps_db_emit, _|]. intros _.
  apply keeps_bind; [apply _|apply keeps_lift, _|]. intros scope.
  apply keeps_bind; [apply _|apply keeps_db_eq; [apply _|apply acquire_db]|]. intros lease.
  apply keeps_bind; [apply _|apply keeps_lift, _|]. intros token.
  apply keeps_finally; [apply _| |].
  - unfold _respond_locked. apply keeps_bind; [apply _|by apply receive_keeps|].
    intros [reply|[cid hist]]; [apply keeps_ret, _|apply finish_turn_keeps].
  - unfold release_observed. apply keeps_bind; [apply _|apply keeps_db_eq; [apply _|apply release_db]|].
    intros st. case_bool_decide; [apply keeps_db_emit, _|apply keeps_ret, _].
Qed.

Lemma respond_persisted_keeps message acct cid :
  keeps_db Rd (respond_persisted lock_ttl tools message acct cid).
Proof.
  unfold respond_persisted. apply keeps_bind; [apply _|apply keeps_db_emit, _|]. intros _.
  apply keeps_bind; [apply _|apply keeps_lift, _|]. intros scope.
  apply keeps_bind; [apply _|apply keeps_db_eq; [apply _|apply acquire_db]|]. intros lease.
  apply keeps_bind; [apply _|apply keeps_lift, _|]. intros token.
  apply keeps_finally; [apply _| |].
  - unfold respond_persisted_locked.
    apply keeps_bind; [apply _|apply keeps_db_eq; [apply _|apply recall_db]|].
    intros [reply|hist]; [apply keeps_ret, _|apply finish_turn_keeps].
  - apply keeps_bind; [apply _|apply keeps_db_eq; [apply _|apply release_db]|].
    intros. apply keeps_ret, _.
Qed.
End turn_keeps.

(** ** Sessions that send nothing *)

Section silent.
Context `{SqlEngine} `{RedisServer} `{Env}.

Lemma no_io_record_inbound acct message trace enqueue :
  keeps no_io (record_inbound acct message trace enqueue).
Proof.
  unfold record_inbound, upsert_returning, insert_row. repeat io_step.
Qed.

Lemma no_io_find e : keeps no_io (find_message e).
Proof. unfold find_message, select. repeat io_step. Qed.

Lemma no_io_recent cid limit : keeps no_io (recent_messages cid limit).
Proof. unfold recent_messages, select. repeat io_step. Qed.

Lemma no_io_receive `{UCD} message acct trace : keeps no_io (receive message acct trace).
Proof.
  unfold receive. apply no_io_session. apply keeps_bind; [apply _|apply no_io_record_inbound|].
  intros p. destruct (pi_status p).
  - apply keeps_bind; [apply _|apply no_io_recent|]. intros. apply keeps_ret, _.
  - apply keeps_bind; [apply _|apply no_io_find|]. intros. repeat io_step.
Qed.

Lemma no_io_recall `{UCD} message cid : keeps no_io (recall message cid).
Proof.
  unfold recall. apply no_io_session. apply keeps_bind; [apply _|apply no_io_find|]. intros o.
  destruct o as [s|]; [destruct (has_text s)|].
  - repeat io_step.
  - apply keeps_bind; [apply _|apply no_io_recent|]. intros. apply keeps_ret, _.
  - apply keeps_bind; [apply _|apply no_io_recent|]. intros. apply keeps_ret, _.
Qed.

Lemma no_io_acquire ttl scope : keeps no_io (acquire ttl scope).
Proof. unfold acquire, new_token. repeat io_step. Qed.

Lemma no_io_release scope token : keeps no_io (release scope token).
Proof. unfold release. repeat io_step. Qed.

Lemma no_io_release_observed scope token trace : keeps no_io (release_observed scope token trace).
Proof.
  unfold release_observed. apply keeps_bind; [apply _|apply no_io_release|]. intros st.
  case_bool_decide; repeat io_step.
Qed.
End silent.

(** ** Stored replies *)

Section replies.
Context `{UCD} `{SqlEngine} `{RedisServer} `{Env}.

(** The reply to the message is stored with this text. *)
Definition stored_answer (message : InboundMessage) (text : str) (d : Db) : Prop :=
  exists k m, messages d !! k = Some m /\ m_external_message_id m = Some (reply_id_of message) /\
    m_content_text m = Some text /\ truthy text = true.

Lemma stored_answer_kept message text d d' :
  messages_kept d d' -> stored_answer message text d -> stored_answer message text d'.
Proof. intros Hk (k & m & Hm & ?). exists k, m. eauto. Qed.

Lemma find_message_inv e w o w' :
  find_message e w = (Ok o, w') -> w_db w' = w_db w /\
  match o with
  | Some s => exists k m, messages (w_db w) !! k = Some m /\ m_external_message_id m = Some e /\
      sm_content_text s = m_content_text m /\ sm_trace_id s = m_trace_id m
  | None => ~ known_message e w
  end.
Proof.
  unfold find_message. intros (l & w1 & Hs & Hr)%bind_ok_inv. apply select_ok_inv in Hs as [-> Hd].
  apply bind_ok_inv in Hr as (row & w2 & [Hone ->]%lift_ok_inv & Hr). apply ret_ok_inv in Hr as [-> ->].
  split; [exact Hd|]. destruct row as [[k m]|]; cbn.
  - apply one_or_none_some in Hone. apply select_one_inv in Hone as (Hk & Hp & _). bools.
    unfold has_external_id in Hp. bools. by exists k, m.
  - apply one_or_none_none in Hone. intros (k & m & Hk & He).
    assert ((k, m) ∈ sql_select (has_external_id e) unordered (tbl (w_db w))) as Hin.
    { apply elem_of_select. split; [exact Hk|]. unfold has_external_id. by apply bool_decide_eq_true. }
    rewrite Hone in Hin. set_solver.
Qed.

Lemma answer_unique message text d k m :
  conversations_wf d -> stored_answer message text d -> messages d !! k = Some m ->
  m_external_message_id m = Some (reply_id_of message) -> m_content_text m = Some text.
Proof.
  intros Hwf (k' & m' & Hk' & He' & Ht & _) Hk He.
  assert (k = k') as ->.
  { eapply (wf_external_id _ Hwf); [exact Hk|exact Hk'|]. apply uq_external_true. eauto. }
  congruence.
Qed.

Lemma reply_id_other message : reply_id_of message <> im_message_id message.
Proof.
  intros Heq. apply (f_equal length) in Heq. unfold reply_id_of in Heq. rewrite length_app in Heq.
  change (length (u "piki-reply:")) with 11%nat in Heq. lia.
Qed.

(** A recording adds the message it records and no other. *)
Lemma record_inbound_new acct message trace enqueue w p w' e :
  record_inbound acct message trace enqueue w = (Ok p, w') ->
  known_message e w' -> known_message e w \/ e = im_message_id message.
Proof.
  unfold record_inbound. intros (n & w1 & Hu & Hr)%bind_ok_inv. injection Hu as _ <-.
  apply bind_ok_inv in Hr as (ids & w2 & Hup & Hr).
  apply upsert_ok_inv in Hup as (t & tb & Hd2 & _).
  apply bind_ok_inv in Hr as (cid & w3 & [_ ->]%lift_ok_inv & Hr).
  apply bind_ok_inv in Hr as (mid & w4 & Hu4 & Hr). injection Hu4 as _ <-.
  apply bind_ok_inv in Hr as (av & w5 & Hav & Hr).
  assert (messages (w_db w5) = messages (w_db w)) as Hm5.
  { assert (w_db w5 = w_db w2) as -> by (destruct enqueue; injection Hav as _ <-; done).
    by rewrite Hd2. }
  apply bind_ok_inv in Hr as (stored & w6 & Hins & Hr).
  assert (w' = w6) as -> by (destruct stored; by apply lift_ok_inv in Hr as [_ ->]).
  intros (k & m & Hk & He).
  apply insert_ok_inv in Hins as [(r & t' & -> & _ & _ & _ & _ & _ & _ & tb' & Hd6 & Hr6)|(_ & Hd6 & _)].
  - rewrite Hd6 in Hk. change (rows tb' !! k = Some m) in Hk. rewrite Hr6 in Hk.
    apply lookup_insert_Some in Hk as [[_ <-]|[_ Hk]]; [right; by injection He as <-|].
    change (messages (w_db w5) !! k = Some m) in Hk. rewrite Hm5 in Hk. left. by exists k, m.
  - rewrite Hd6, Hm5 in Hk. left. by exists k, m.
Qed.

(** The two first sessions: a reply that is stored, or none yet. *)
Lemma stored_reply_inv cid message s r :
  stored_reply cid message s = Ok r ->
  rp_text r = default [] (sm_content_text s) /\ rp_duplicate r = true /\ rp_conversation_id r = cid.
Proof. unfold stored_reply. by intros [_ ->]%construct_ok. Qed.

Lemma receive_inv message acct trace w x w' :
  receive message acct trace w = (Ok x, w') ->
  known_message (im_message_id message) w' /\
  match x with
  | inl r => rp_duplicate r = true /\ known_message (reply_id_of message) w /\
      exists k m, messages (w_db w') !! k = Some m /\
        m_external_message_id m = Some (reply_id_of message) /\
        m_content_text m = Some (rp_text r)
  | inr _ => ~ known_message (reply_id_of message) w -> ~ known_message (reply_id_of message) w'
  end.
Proof.
  unfold receive. intros (w1 & Hr & ->)%session_ok_inv.
  apply bind_ok_inv in Hr as (p & w2 & Hp & Hr).
  pose proof (record_inbound_ok_inv _ _ _ _ _ _ _ Hp) as (Hin & _).
  assert (forall w3, w_db w3 = w_db w2 -> forall e, known_message e w3 <-> known_message e w2) as Hsame
    by (intros w3 Hd e; unfold known_message; by rewrite Hd).
  assert (known_message (reply_id_of message) w2 -> known_message (reply_id_of message) w) as Hback.
  { intros Hk. destruct (record_inbound_new _ _ _ _ _ _ _ _ Hp Hk) as [?|Heq]; [done|].
    by apply reply_id_other in Heq. }
  destruct (pi_status p).
  - apply bind_ok_inv in Hr as (h & w3 & Hh & Hr). apply ret_ok_inv in Hr as [-> ->].
    pose proof (recent_messages_db (pi_conversation_id p) 20 w2) as Hd. rewrite Hh in Hd.
    rewrite !(Hsame (tick w3)) by done. tauto.
  - apply bind_ok_inv in Hr as (o & w3 & Ho & Hr). apply find_message_inv in Ho as [Hd Ho].
    destruct o as [s|]; [|done]. destruct (has_text s) eqn:Hs; [|done].
    apply bind_ok_inv in Hr as (r & w4 & [Hst ->]%lift_ok_inv & Hr). apply ret_ok_inv in Hr as [-> ->].
    rewrite !(Hsame (tick w3)) by done. split; [done|].
    apply stored_reply_inv in Hst as (Ht & -> & _). split; [done|].
    destruct Ho as (k & m & Hk & He & Hc & _). split; [apply Hback; by exists k, m|].
    exists k, m. cbn [tick w_db]. rewrite Hd. split; [done|]. split; [done|].
    rewrite Ht, Hc. unfold has_text in Hs. rewrite Hc in Hs. by destruct (m_content_text m).
Qed.

(** A message that is stored already adds none, and is answered from its
    stored reply or not at all. *)
Lemma receive_known message acct trace w x w' :
  known_message (im_message_id message) w -> receive message acct trace w = (Ok x, w') ->
  messages (w_db w') = messages (w_db w) /\ exists r, x = inl r.
Proof.
  intros Hk. unfold receive. intros (w1 & Hr & ->)%session_ok_inv.
  apply bind_ok_inv in Hr as (p & w2 & Hp & Hr).
  pose proof (record_known_keeps acct message trace false w Hk) as Hrec. rewrite Hp in Hrec.
  destruct (Hrec p eq_refl) as [Hm Hst]. rewrite Hst in Hr.
  apply bind_ok_inv in Hr as (o & w3 & Ho & Hr). apply find_message_inv in Ho as [Hd _].
  destruct o as [s|]; [|done]. destruct (has_text s); [|done].
  apply bind_ok_inv in Hr as (r & w4 & [_ ->]%lift_ok_inv & Hr). apply ret_ok_inv in Hr as [-> ->].
  split; [|by exists r]. change (messages (w_db w3) = messages (w_db w)). by rewrite Hd.
Qed.

Lemma recall_inv message cid w x w' :
  recall message cid w = (Ok x, w') -> w_db w' = w_db w /\
  match x with
  | inl r => rp_duplicate r = true /\ exists k m, messages (w_db w) !! k = Some m /\
      m_external_message_id m = Some (reply_id_of message) /\ m_content_text m = Some (rp_text r)
  | inr _ => forall text, conversations_wf (w_db w) -> ~ stored_answer message text (w_db w)
  end.
Proof.
  intros Hr. pose proof (recall_db message cid w) as Hd. rewrite Hr in Hd. split; [done|].
  unfold recall in Hr. apply session_ok_inv in Hr as (w1 & Hr & ->).
  apply bind_ok_inv in Hr as (o & w3 & Ho & Hr). apply find_message_inv in Ho as [Hd3 Ho].
  destruct o as [s|].
  - destruct Ho as (k & m & Hk & He & Hc & _). destruct (has_text s) eqn:Hs.
    + apply bind_ok_inv in Hr as (r' & w4 & [Hst ->]%lift_ok_inv & Hr). apply ret_ok_inv in Hr as [-> ->].
      apply stored_reply_inv in Hst as (Ht & -> & _). split; [done|]. exists k, m. split; [done|].
      split; [done|]. rewrite Ht, Hc. unfold has_text in Hs. rewrite Hc in Hs. by destruct (m_content_text m).
    + apply bind_ok_inv in Hr as (h & w4 & _ & Hr). apply ret_ok_inv in Hr as [-> ->].
      intros text Hwf Hans. pose proof (answer_unique _ _ _ _ _ Hwf Hans Hk He) as Ht.
      destruct Hans as (_ & _ & _ & _ & _ & Htr). unfold has_text in Hs. rewrite Hc, Ht in Hs. cbn in Hs. congruence.
  - apply bind_ok_inv in Hr as (h & w4 & _ & Hr). apply ret_ok_inv in Hr as [-> ->].
    intros text _ (k & m & Hk & He & _). apply Ho. by exists k, m.
Qed.
End replies.
