(* ===== verification/TurnProps.v ===== *)
(** * One turn of a conversation: properties

    The theorems about [Orchestrator]: a message is answered once, a message
    without a text never, the lock of the scope is released, and what a reply
    may say. *)
From S2P Require Import Prelude PyStr PyRegex Errors Sha256 Contracts Grounding Prompt.
From S2P Require Import Pydantic.
From S2P Require Import Events Sql Redis Models World Session Traffic Sample State Coordination.
From S2P Require Import Composition BuenPickModels BuenPick Conversations Handoffs Tools.
From S2P Require Import Evidence.
From S2P Require Import Policies Orchestrator TurnLaws.

Local Open Scope Z_scope.

#[local] Abbreviation messages d := (rows (db_messages d)).

(** ** Runs of a turn *)

Section turns.
Context `{UCD} `{SqlEngine} `{RedisServer} `{Env} `{E : !ResponseEngine} `{!EngineLaws E}.
Variables (lock_ttl : Z) (tools : option BuenPickReader).
Hypothesis tools_frame : forall reader, tools = Some reader -> ReaderFrame reader.

Definition same_db_messages : relation Db := fun d d' => db_messages d' = db_messages d.
#[export] Instance same_db_messages_preorder : PreOrder same_db_messages.
Proof. split; unfold same_db_messages; [done|]. intros x y z Hxy Hyz. congruence. Qed.

Lemma request_same_messages r : keeps_db same_db_messages (request r).
Proof.
  unfold request. apply keeps_bind; [apply _|apply keeps_db_uuid4, _|]. intros k.
  apply keeps_bind; [apply _| |].
  { intros w. destruct (insert_effect any_handoff_conflict no_constraint
      (conversation_exists (hr_conversation_id r)) k (handoff_row r) w) as [Hd|(t & tb & Hd & _)];
      unfold db_rel; by rewrite Hd. }
  intros o. apply keeps_bind; [apply _| |].
  { destruct o; [apply keeps_ret, _|]. apply keeps_bind; [apply _|apply keeps_db_select, _|].
    intros. apply keeps_lift, _. }
  intros [id row]. apply keeps_bind; [apply _| |].
  { intros w. destruct (update_effect (fun k0 _ => k0 =? hr_conversation_id r) needs_human w)
      as [Hd|(t & tb & Hd & _)]; unfold db_rel; by rewrite Hd. }
  intros _. apply keeps_bind; [apply _|apply keeps_lift, _|]. intros. apply keeps_ret, _.
Qed.

Lemma compose_same_messages intent query trace cid hist mid :
  keeps_db same_db_messages (_compose_reply tools intent query trace cid hist mid).
Proof. apply compose_reply_keeps; [done|apply _|apply request_same_messages]. Qed.

Lemma emit_run_db ev tr co ou st er cc uc w r w' :
  emit ev tr co ou st er cc uc w = (r, w') -> w_db w' = w_db w.
Proof. intros He. pose proof (emit_db_eq ev tr co ou st er cc uc w) as Hd. rewrite He in Hd. done. Qed.

Lemma record_outbound_new cid text trace ext w p w' :
  record_outbound cid text trace ext w = (Ok p, w') -> ~ known_message ext w ->
  exists k m, messages (w_db w') !! k = Some m /\ m_external_message_id m = Some ext /\
    m_content_text m = Some text.
Proof.
  unfold record_outbound. intros (n & w1 & Hu & Hr)%bind_ok_inv Hn. injection Hu as <- <-.
  apply bind_ok_inv in Hr as (o & w2 & Hins & Hr).
  apply insert_ok_inv in Hins as [(r & t & -> & -> & _ & _ & _ & _ & _ & tb & Hd & Hrows)|(-> & _ & t & Hc)].
  - apply ret_ok_inv in Hr as [_ ->]. exists (w_next_id w), (outbound_row cid text trace ext t).
    rewrite Hd. split; [|done].
    change (rows tb !! w_next_id w = Some (outbound_row cid text trace ext t)).
    by rewrite Hrows, lookup_insert_eq.
  - exfalso. apply Hn. apply conflicts_true in Hc as (k & m & Hk & Hu).
    apply uq_external_true in Hu as (e & [= <-] & He). by exists k, m.
Qed.

(** A turn that composes: what was composed is what is stored and answered. *)
Lemma finish_turn_inv message trace cid hist w r w' :
  finish_turn tools message trace cid hist w = (Ok r, w') ->
  rp_duplicate r = false /\ 1 <= py_len (rp_text r) <= 4096 /\ rp_trace_id r = trace /\
  rp_intent r = resolve_intent (message_text message) /\
  (exists w1 w2, _compose_reply tools (resolve_intent (message_text message)) (message_text message)
     trace cid hist (im_message_id message) w1 = (Ok (rp_text r, rp_used_fallback r), w2)) /\
  (~ known_message (reply_id_of message) w -> stored_answer message (rp_text r) (w_db w')).
Proof.
  unfold finish_turn. intros ([] & w1 & He & Hr)%bind_ok_inv. apply emit_run_db in He.
  apply bind_ok_inv in Hr as ([text fb] & w2 & Hc & Hr).
  apply bind_ok_inv in Hr as (p & w3 & Ho & Hr). apply session_ok_inv in Ho as (w4 & Ho & ->).
  apply lift_ok_inv in Hr as [Hr ->]. apply construct_ok in Hr as [Hok ->]. cbn.
  assert (1 <= py_len text <= 4096) as Hlen.
  { unfold contract_ok in Hok. cbn -[len_in py_len] in Hok. bools. by apply len_in_spec. }
  split; [done|]. split; [exact Hlen|]. split; [done|]. split; [done|]. split; [by exists w1, w2|].
  intros Hn. pose proof (compose_same_messages (resolve_intent (message_text message))
    (message_text message) trace cid hist (im_message_id message) w1) as Hs.
  rewrite Hc in Hs. unfold db_rel, same_db_messages in Hs. cbn in Hs.
  assert (~ known_message (reply_id_of message) w2) as Hn2.
  { intros (k & m & Hk & Hm). apply Hn. exists k, m. by rewrite <- He, <- Hs. }
  destruct (record_outbound_new _ _ _ _ _ _ _ Ho Hn2) as (k & m & Hk & Hm & Ht).
  exists k, m. split; [exact Hk|]. split; [done|]. split; [done|]. apply truthy_len. cbn in Hlen. lia.
Qed.

(** The runs of the two entry points that answer. *)
Lemma respond_ok_inv message acct w r w' :
  orchestrator_respond lock_ttl tools message acct w = (Ok r, w') ->
  exists scope token w1 w2, scope_of message acct = Ok scope /\
    w_db w1 = w_db w /\ w_io w1 = w_io w /\
    _respond_locked tools message acct (trace_of message) w1 = (Ok r, w2) /\
    release_observed scope token (trace_of message) w2 = (Ok tt, w').
Proof.
  unfold orchestrator_respond. intros ([] & w1 & He & Hr)%bind_ok_inv.
  pose proof (no_io_emit EV_MESSAGE_RECEIVED (trace_of message) (u "conversation") EO_SUCCEEDED
    None None None None w) as Hio1. rewrite He in Hio1. apply emit_run_db in He.
  apply bind_ok_inv in Hr as (scope & w2 & [Hs ->]%lift_ok_inv & Hr).
  apply bind_ok_inv in Hr as (lease & w3 & Ha & Hr).
  pose proof (acquire_db lock_ttl scope w1) as Hd. pose proof (no_io_acquire lock_ttl scope w1) as Hio.
  rewrite Ha in Hd, Hio. apply bind_ok_inv in Hr as (token & w4 & [Ht ->]%lift_ok_inv & Hr).
  unfold try_finally in Hr. destruct (_respond_locked _ _ _ _ w3) as [o w5] eqn:Hl.
  destruct (release_observed scope token (trace_of message) w5) as [[[]|e] w6] eqn:Hrel; [|done].
  injection Hr as -> ->. exists scope, token, w3, w5.
  unfold db_rel, no_io in *. cbn in *. split_and!; try done; congruence.
Qed.

Lemma respond_persisted_ok_inv message acct cid w r w' :
  respond_persisted lock_ttl tools message acct cid w = (Ok r, w') ->
  exists scope token w1 w2, scope_of message acct = Ok scope /\
    w_db w1 = w_db w /\ w_io w1 = w_io w /\
    respond_persisted_locked tools message cid w1 = (Ok r, w2) /\
    (release scope token;; mret tt) w2 = (Ok tt, w').
Proof.
  unfold respond_persisted. intros ([] & w1 & He & Hr)%bind_ok_inv.
  pose proof (no_io_emit EV_MESSAGE_RECEIVED (trace_of message) (u "conversation_worker") EO_SUCCEEDED
    None None None None w) as Hio1. rewrite He in Hio1. apply emit_run_db in He.
  apply bind_ok_inv in Hr as (scope & w2 & [Hs ->]%lift_ok_inv & Hr).
  apply bind_ok_inv in Hr as (lease & w3 & Ha & Hr).
  pose proof (acquire_db lock_ttl scope w1) as Hd. pose proof (no_io_acquire lock_ttl scope w1) as Hio.
  rewrite Ha in Hd, Hio. apply bind_ok_inv in Hr as (token & w4 & [Ht ->]%lift_ok_inv & Hr).
  unfold try_finally in Hr. destruct (respond_persisted_locked _ _ _ w3) as [o w5] eqn:Hl.
  destruct ((release scope token;; mret tt) w5) as [[[]|e] w6] eqn:Hrel; [|done].
  injection Hr as -> ->. exists scope, token, w3, w5.
  unfold db_rel, no_io in *. cbn in *. split_and!; try done; congruence.
Qed.

Lemma release_observed_db scope token trace : keeps_db (=) (release_observed scope token trace).
Proof.
  unfold release_observed. apply keeps_bind; [apply _|apply release_db|]. intros st.
  case_bool_decide; [apply emit_db_eq|apply keeps_ret, _].
Qed.
End turns.

(** ** Properties *)

Section once.
Context `{UCD} `{SqlEngine} `{RedisServer} `{Env} `{E : !ResponseEngine} `{!EngineLaws E}.
Variables (lock_ttl : Z) (tools : option BuenPickReader).
Hypothesis tools_frame : forall reader, tools = Some reader -> ReaderFrame reader.

(** A call that answers the message: from the web, or by the worker for a
    message that is stored. *)
Definition answers (message : InboundMessage) (w : World) (r : ConversationReply) (w' : World) : Prop :=
  (exists acct, orchestrator_respond lock_ttl tools message acct w = (Ok r, w')) \/
  (known_message (im_message_id message) w /\
   exists acct cid, respond_persisted lock_ttl tools message acct cid w = (Ok r, w')).

Lemma finish_turn_answers message trace cid hist w r w' :
  finish_turn tools message trace cid hist w = (Ok r, w') ->
  ~ known_message (reply_id_of message) w -> known_message (im_message_id message) w ->
  rp_duplicate r = false /\ stored_answer message (rp_text r) (w_db w') /\
  known_message (im_message_id message) w'.
Proof.
  intros Hl Hn (k & m & Hk & He).
  pose proof (finish_turn_keeps tools tools_frame messages_kept
    (fun cid text trace ext _ => record_outbound_kept cid text trace ext) request_kept
    message trace cid hist w) as Hkept. rewrite Hl in Hkept.
  apply finish_turn_inv in Hl as (-> & _ & _ & _ & _ & Hst); [|done].
  split; [done|]. split; [by apply Hst|]. exists k, m. split; [by apply Hkept|done].
Qed.

Lemma first_answer message w r w' :
  answers message w r w' -> ~ known_message (reply_id_of message) w ->
  rp_duplicate r = false /\ stored_answer message (rp_text r) (w_db w') /\
  known_message (im_message_id message) w'.
Proof.
  intros [(acct & Hr)|(Hin & acct & cid & Hr)] Hn.
  - apply respond_ok_inv in Hr as (scope & token & w1 & w2 & _ & Hd & _ & Hl & Hrel).
    pose proof (release_observed_db scope token (trace_of message) w2) as Hd2. rewrite Hrel in Hd2.
    unfold db_rel in Hd2. cbn in Hd2. unfold known_message. rewrite <- Hd2. clear Hrel Hd2 w'.
    unfold _respond_locked in Hl. apply bind_ok_inv in Hl as (x & w3 & Hrec & Hl).
    apply receive_inv in Hrec as [Hin3 Hx].
    assert (~ known_message (reply_id_of message) w1) as Hn1
      by (intros (k & m & Hk & He); apply Hn; exists k, m; by rewrite <- Hd).
    destruct x as [r'|[cid hist]]; [by destruct Hx as (_ & Hx & _)|].
    by destruct (finish_turn_answers _ _ _ _ _ _ _ Hl (Hx Hn1) Hin3).
  - apply respond_persisted_ok_inv in Hr as (scope & token & w1 & w2 & _ & Hd & _ & Hl & Hrel).
    apply bind_ok_inv in Hrel as (st & w9 & Hrel & Hret). apply ret_ok_inv in Hret as [_ ->].
    pose proof (release_db scope token w2) as Hd2. rewrite Hrel in Hd2.
    unfold db_rel in Hd2. cbn in Hd2. unfold known_message. rewrite <- Hd2. clear Hrel Hd2 w9.
    unfold respond_persisted_locked in Hl. apply bind_ok_inv in Hl as (x & w3 & Hrec & Hl).
    apply recall_inv in Hrec as [Hd3 Hx]. destruct x as [r'|hist].
    + exfalso. destruct Hx as (_ & k & m & Hk & He & _). apply Hn. exists k, m. by rewrite <- Hd.
    + apply (finish_turn_answers _ _ _ _ _ _ _ Hl).
      * intros (k & m & Hk & He). apply Hn. exists k, m. by rewrite <- Hd, <- Hd3.
      * destruct Hin as (k & m & Hk & He). exists k, m. by rewrite Hd3, Hd.
Qed.

(** An answer while the reply is stored. *)
Lemma later_answer message text w r w' :
  answers message w r w' -> known_message (im_message_id message) w ->
  stored_answer message text (w_db w) -> conversations_wf (w_db w) ->
  rp_text r = text /\ rp_duplicate r = true /\ w_io w' = w_io w /\
  messages (w_db w') = messages (w_db w).
Proof.
  intros [(acct & Hr)|(_ & acct & cid & Hr)] Hin Hans Hwf.
  - apply respond_ok_inv in Hr as (scope & token & w1 & w2 & _ & Hd & Hio & Hl & Hrel).
    pose proof (release_observed_db scope token (trace_of message) w2) as Hd2.
    pose proof (no_io_release_observed scope token (trace_of message) w2) as Hio2.
    rewrite Hrel in Hd2, Hio2. unfold db_rel, no_io in Hd2, Hio2. cbn in Hd2, Hio2.
    rewrite <- Hd2, Hio2. clear Hrel Hd2 Hio2 w'. rewrite <- Hio, <- Hd in *.
    assert (known_message (im_message_id message) w1) as Hin1
      by (destruct Hin as (k & m & Hk & He); exists k, m; by rewrite Hd).
    unfold _respond_locked in Hl. apply bind_ok_inv in Hl as (x & w3 & Hrec & Hl).
    assert (w_io w3 = w_io w1) as Hio3.
    { pose proof (no_io_receive message acct (trace_of message) w1) as Hx. by rewrite Hrec in Hx. }
    destruct (receive_known _ _ _ _ _ _ Hin1 Hrec) as (Hm & r' & ->).
    apply ret_ok_inv in Hl as [-> ->].
    destruct (receive_inv _ _ _ _ _ _ Hrec) as (_ & -> & _ & k & m & Hk & He & Ht).
    rewrite Hm in Hk. pose proof (answer_unique _ _ _ _ _ Hwf Hans Hk He). split_and!; try done; congruence.
  - apply respond_persisted_ok_inv in Hr as (scope & token & w1 & w2 & _ & Hd & Hio & Hl & Hrel).
    apply bind_ok_inv in Hrel as (st & w9 & Hrel & Hret). apply ret_ok_inv in Hret as [_ ->].
    pose proof (release_db scope token w2) as Hd2. pose proof (no_io_release scope token w2) as Hio2.
    rewrite Hrel in Hd2, Hio2. unfold db_rel, no_io in Hd2, Hio2. cbn in Hd2, Hio2.
    rewrite <- Hd2, Hio2. clear Hrel Hd2 Hio2 w9. rewrite <- Hio, <- Hd in *.
    unfold respond_persisted_locked in Hl. apply bind_ok_inv in Hl as (x & w3 & Hrec & Hl).
    assert (w_io w3 = w_io w1) as Hio3.
    { pose proof (no_io_recall message cid w1) as Hx. by rewrite Hrec in Hx. }
    apply recall_inv in Hrec as [Hd3 Hx]. destruct x as [r'|hist]; [|by destruct (Hx text Hwf)].
    apply ret_ok_inv in Hl as [-> ->]. destruct Hx as (-> & k & m & Hk & He & Ht).
    pose proof (answer_unique _ _ _ _ _ Hwf Hans Hk He). rewrite Hd3. split_and!; try done; congruence.
Qed.

(** C7. A message is answered once.  The first answer, from the web or from the
    worker, is stored; as long as stored messages stay, every later answer to
    the same message repeats its text, marked as a duplicate, without asking
    the model or the API again and without storing another message. *)
Theorem message_answered_once message w r w1 w2 :
  answers message w r w1 -> ~ known_message (reply_id_of message) w ->
  messages_kept (w_db w1) (w_db w2) -> conversations_wf (w_db w2) ->
  rp_duplicate r = false /\ stored_answer message (rp_text r) (w_db w1) /\
  forall r2 w3, answers message w2 r2 w3 ->
    rp_text r2 = rp_text r /\ rp_duplicate r2 = true /\ w_io w3 = w_io w2 /\
    messages (w_db w3) = messages (w_db w2).
Proof.
  intros Hr Hn Hkept Hwf. apply first_answer in Hr as (Hdup & Hans & k & m & Hk & He); [|done].
  split; [done|]. split; [done|]. intros r2 w3 Hr2. eapply later_answer; [exact Hr2| | |done].
  - exists k, m. split; [by apply Hkept|done].
  - by eapply stored_answer_kept.
Qed.

(** A message stored by a web call that failed before its reply was stored is
    never answered: until a reply is stored by other means, no later web call
    with the same identifier returns. *)
Theorem unanswered_web_message_stays_busy message acct w :
  known_message (im_message_id message) w -> ~ known_message (reply_id_of message) w ->
  forall r w', orchestrator_respond lock_ttl tools message acct w <> (Ok r, w').
Proof.
  intros Hin Hn r w' Hr.
  apply respond_ok_inv in Hr as (scope & token & w1 & w2 & _ & Hd & _ & Hl & _).
  unfold _respond_locked in Hl. apply bind_ok_inv in Hl as (x & w3 & Hrec & _).
  assert (forall e, known_message e w1 <-> known_message e w) as Hsame
    by (intros; unfold known_message; by rewrite Hd).
  destruct (receive_known _ _ _ _ _ _ (proj2 (Hsame _) Hin) Hrec) as (_ & r' & ->).
  destruct (receive_inv _ _ _ _ _ _ Hrec) as (_ & _ & Hk & _). by apply Hn, Hsame.
Qed.

(** A message without text, such as an image without a caption, is never
    answered: with no reply stored for it, neither entry point returns one. *)
Theorem textless_message_unanswered message w r w' :
  message_text message = [] -> ~ known_message (reply_id_of message) w ->
  ~ answers message w r w'.
Proof.
  intros Htext Hn Hr.
  assert (forall trace cid hist w1 r' w2,
    finish_turn tools message trace cid hist w1 <> (Ok r', w2)) as Hfin.
  { intros trace cid hist w1 r' w2 Hf. apply finish_turn_inv in Hf as (_ & _ & _ & _ & (w3 & w4 & Hc) & _);
      [|done]. rewrite Htext in Hc. change (resolve_intent []) with CI_EXPLAIN_BUENPICK in Hc.
    unfold _compose_reply in Hc. apply bind_ok_inv in Hc as (turns & w5 & _ & Hc).
    unfold reply_explain in Hc. apply bind_ok_inv in Hc as (packet & w6 & [Hp _]%lift_ok_inv & _).
    destruct (context_packet_empty_query PN_EXPLAIN_BUENPICK trace [] [] [] None) as [e He]. congruence. }
  pose proof (first_answer message w r w' Hr Hn) as (Hdup & _).
  destruct Hr as [(acct & Hr)|(_ & acct & cid & Hr)].
  - apply respond_ok_inv in Hr as (scope & token & w1 & w2 & _ & _ & _ & Hl & _).
    unfold _respond_locked in Hl. apply bind_ok_inv in Hl as (x & w3 & Hrec & Hl).
    destruct x as [r'|[cid hist]]; [|by apply Hfin in Hl].
    apply ret_ok_inv in Hl as [-> ->].
    destruct (receive_inv _ _ _ _ _ _ Hrec) as (_ & Hd & _). congruence.
  - apply respond_persisted_ok_inv in Hr as (scope & token & w1 & w2 & _ & _ & _ & Hl & _).
    unfold respond_persisted_locked in Hl. apply bind_ok_inv in Hl as (x & w3 & Hrec & Hl).
    destruct x as [r'|hist]; [|by apply Hfin in Hl].
    apply ret_ok_inv in Hl as [-> ->]. apply recall_inv in Hrec as (_ & Hd & _). congruence.
Qed.
End once.

(** ** The parts of a turn

    The two entry points share their beginning, the acquisition of the lock of
    the conversation, and their end; [turn_start], [locked_body] and [leave] cut
    them there, and [until_reply] is the run up to the composition of the
    reply. *)

Section parts.
Context `{UCD} `{SqlEngine} `{RedisServer} `{Env} `{E : !ResponseEngine}.
Variables (lock_ttl : Z) (tools : option BuenPickReader).

(** A message from the web, or a stored message that the worker claimed. *)
Inductive entry := FromWeb | FromQueue (conversation_record_id : Z).

Definition run_entry (e : entry) (message : InboundMessage) (acct : str) : M ConversationReply :=
  match e with
  | FromWeb => orchestrator_respond lock_ttl tools message acct
  | FromQueue cid => respond_persisted lock_ttl tools message acct cid
  end.

Definition turn_start (e : entry) (message : InboundMessage) (acct : str) : M (ConversationScope * str) :=
  emit EV_MESSAGE_RECEIVED (trace_of message)
    (match e with FromWeb => u "conversation" | FromQueue _ => u "conversation_worker" end)
    EO_SUCCEEDED None None None None;;
  scope ← lift (scope_of message acct);
  lease ← acquire lock_ttl scope;
  owner_token ← lift (owner_of lease);
  mret (scope, owner_token).

Definition locked_body (e : entry) (message : InboundMessage) (acct : str) : M ConversationReply :=
  match e with
  | FromWeb => _respond_locked tools message acct (trace_of message)
  | FromQueue cid => respond_persisted_locked tools message cid
  end.

Definition leave (e : entry) (message : InboundMessage) (scope : ConversationScope) (token : str) : M unit :=
  match e with
  | FromWeb => release_observed scope token (trace_of message)
  | FromQueue _ => release scope token;; mret tt
  end.

(** The conversation and the history the reply is composed from. *)
Definition turn_context (e : entry) (message : InboundMessage) (acct : str)
    : M (ConversationReply + Z * list StoredMessage) :=
  match e with
  | FromWeb => receive message acct (trace_of message)
  | FromQueue cid =>
      recalled ← recall message cid;
      mret (match recalled with inl reply => inl reply | inr history => inr (cid, history) end)
  end.

Definition until_reply (e : entry) (message : InboundMessage) (acct : str)
    : M (ConversationReply + Z * list StoredMessage) :=
  _ ← turn_start e message acct;
  context ← turn_context e message acct;
  match context with
  | inl reply => mret (inl reply)
  | inr context =>
      emit EV_INTENT_RESOLVED (trace_of message) (enum_value (resolve_intent (message_text message)))
        EO_SUCCEEDED None None None None;;
      mret (inr context)
  end.

Lemma entry_cut e message acct w :
  run_entry e message acct w =
  ('(scope, token) ← turn_start e message acct;
   try_finally (locked_body e message acct) (leave e message scope token)) w.
Proof.
  destruct e; cbn [run_entry locked_body leave]; unfold turn_start, orchestrator_respond, respond_persisted;
    rewrite !bind_run; (destruct (emit _ _ _ _ _ _ _ _ w) as [[[]|err] w1]; [|done]);
    rewrite !bind_run; unfold lift at 1 3; (destruct (scope_of message acct) as [scope|err]; [|done]);
    rewrite !bind_run; (destruct (acquire lock_ttl scope w1) as [[lease|err] w2]; [|done]);
    rewrite !bind_run; unfold lift at 1 2; by destruct (owner_of lease).
Qed.

(** The reply a body answers is the one of its context, or is composed. *)
Lemma body_cut e message acct w :
  locked_body e message acct w =
  (context ← turn_context e message acct;
   match context with
   | inl reply => mret reply
   | inr (cid, hist) => finish_turn tools message (trace_of message) cid hist
   end) w.
Proof.
  destruct e as [|cid]; cbn [locked_body turn_context]; unfold _respond_locked, respond_persisted_locked;
    [done|]. rewrite !bind_run. destruct (recall message cid w) as [[[reply|hist]|err] w1]; done.
Qed.

(** What the run up to the composition and the composition answer. *)
Lemma entry_composes e message acct w r w' :
  run_entry e message acct w = (Ok r, w') ->
  (exists w1, until_reply e message acct w = (Ok (inl r), w1)) \/
  exists cid hist w1 w2, until_reply e message acct w = (Ok (inr (cid, hist)), w1) /\
    _compose_reply tools (resolve_intent (message_text message)) (message_text message)
      (trace_of message) cid hist (im_message_id message) w1 = (Ok (rp_text r, rp_used_fallback r), w2) /\
    rp_intent r = resolve_intent (message_text message) /\ rp_duplicate r = false /\
    contract_ok r = true.
Proof.
  rewrite entry_cut. intros ([scope token] & w1 & Hs & Hr)%bind_ok_inv.
  unfold try_finally in Hr. destruct (locked_body e message acct w1) as [o w2] eqn:Hb.
  assert (o = Ok r) as ->.
  { destruct (leave e message scope token w2) as [[[]|err] w3]; [|done]. by injection Hr as -> _. }
  rewrite body_cut in Hb. apply bind_ok_inv in Hb as (context & w3 & Hc & Hb).
  unfold until_reply. rewrite bind_run, Hs, bind_run, Hc. destruct context as [reply|[cid hist]].
  - apply ret_ok_inv in Hb as [-> _]. left. by eexists.
  - right. unfold finish_turn in Hb. apply bind_ok_inv in Hb as ([] & w4 & He & Hb).
    apply bind_ok_inv in Hb as ([text fb] & w5 & Hcomp & Hb).
    apply bind_ok_inv in Hb as (p & w6 & _ & Hb). apply lift_ok_inv in Hb as [[Hok ->]%construct_ok _].
    exists cid, hist, w4, w5. rewrite bind_run, He. done.
Qed.

(** A reply of the context was stored. *)
Lemma until_reply_stored e message acct w r w1 :
  until_reply e message acct w = (Ok (inl r), w1) -> rp_duplicate r = true.
Proof.
  unfold until_reply. intros (st & w2 & _ & Hr)%bind_ok_inv.
  apply bind_ok_inv in Hr as (context & w3 & Hc & Hr).
  destruct context as [reply|context]; [|by apply bind_ok_inv in Hr as (? & ? & _ & [? _]%ret_ok_inv)].
  apply ret_ok_inv in Hr as [[= ->] _]. destruct e; cbn [turn_context] in Hc.
  - by apply receive_inv in Hc as (_ & Hd & _).
  - apply bind_ok_inv in Hc as ([reply'|hist] & w4 & Hrec & [[= ->] _]%ret_ok_inv).
    by apply recall_inv in Hrec as (_ & Hd & _).
Qed.
End parts.

(** ** What a reply may say *)

Section grounded.
Context `{UL : UCDLaws} `{SqlEngine} `{RedisServer} `{Env}.
Variables (adapter : CompositionRequest -> M CompositionResult) (system_prompt : str).
Hypothesis adapter_db : forall request, keeps_db (=) (adapter request).
Variables (lock_ttl : Z) (tools : option BuenPickReader).
Hypothesis tools_frame : forall reader, tools = Some reader -> ReaderFrame reader.

#[local] Instance engine : ResponseEngine := ComposerEngine adapter system_prompt.
#[local] Instance engine_laws : EngineLaws engine := composer_engine_laws adapter system_prompt adapter_db.

(** The packet of a reply: the policy, the query, the trace, and the evidence. *)
Definition reply_packet (name : PolicyName) (message : InboundMessage) (evidence : ToolEvidenceBundle) : ContextPacket :=
  packet_of name (message_text message) (trace_of message) (te_confirmed_data evidence)
    (te_unavailable_data evidence) (te_actions_performed evidence) None.

(** A text for a packet: free of internal markers, of legal length, and
    accepted by the grounding rules, or made of the data of the packet when it
    is a fallback. *)
Definition grounded_text (packet : ContextPacket) (text : str) (fallback : bool) : Prop :=
  clean text /\ 1 <= py_len text <= 4096 /\
  if fallback then text = factual_fallback packet else forall f, ~ failure_due text packet f.

Definition no_evidence (actions : list PerformedAction) : ToolEvidenceBundle :=
  {| te_confirmed_data := []; te_unavailable_data := []; te_actions_performed := actions |}.

(** What the reply says, composed in world [w] for a conversation.  To someone
    who asks for picks: that there is no access to the API; or, with the result
    the search gives in [w], the reason it failed, or a text for the packet of
    its evidence.  To someone who asks for a person: a text for the packet of
    the handoff, after the request was stored.  To anyone else: a text for the
    packet without evidence. *)
Definition reply_says (message : InboundMessage) (cid : Z) (w : World) (r : ConversationReply) : Prop :=
  match rp_intent r with
  | CI_DISCOVER_PICKS =>
      match tools with
      | None => rp_text r = no_tools_text /\ rp_used_fallback r = true
      | Some reader =>
          exists result w2, tool_search (Some (message_text message)) None (trace_of message) w = (Ok result, w2) /\
          exists evidence, search_result_evidence result = Ok evidence /\
          if bool_decide (te_confirmed_data evidence = [])
          then (tr_success result = false \/ tr_data result = None) /\ rp_used_fallback r = true /\
               rp_text r = or_else (tr_user_safe_message result)
                 (u "No se pudo confirmar la búsqueda en BuenPick.")
          else grounded_text (reply_packet PN_DISCOVER_PICKS message evidence) (rp_text r) (rp_used_fallback r)
      end
  | CI_HUMAN_HANDOFF =>
      (exists h w2, session (handoff ← lift (construct {|
           hr_conversation_id := cid; hr_idempotency_key := u "handoff:" ++ im_message_id message;
           hr_reason := u "La persona solicitó atención humana."; hr_trace_id := trace_of message |});
         request handoff) w = (Ok h, w2)) /\
      grounded_text (reply_packet PN_HUMAN_HANDOFF message
        (no_evidence [tool_action (u "request_human_handoff") AO_succeeded])) (rp_text r) (rp_used_fallback r)
  | _ => grounded_text (reply_packet PN_EXPLAIN_BUENPICK message (no_evidence []))
           (rp_text r) (rp_used_fallback r)
  end.

Lemma grounded_outcome packet turns dt w o w' :
  engine_respond packet turns dt w = (Ok o, w') ->
  grounded_text packet (ro_text o) (ro_used_fallback o).
Proof.
  intros Hr. apply respond_outcome_safe in Hr as (Hc & _ & _ & Hlen & Hs).
  split; [done|]. split; [exact Hlen|]. destruct (ro_used_fallback o); [done|]. apply Hs.
Qed.

Lemma search_empty_failed result b :
  search_result_evidence result = Ok b -> te_confirmed_data b = [] ->
  (tr_success result = false \/ tr_data result = None) /\
  te_unavailable_data b = [or_else (tr_user_safe_message result)
    (u "No se pudo confirmar la búsqueda en BuenPick.")].
Proof.
  intros Hb Hnil. pose proof (search_backed result b Hb) as (_ & _ & Hsome).
  destruct (tr_success result) eqn:Hs, (tr_data result) as [data|] eqn:Hd;
    [exfalso; apply Hsome; [done|by eexists|done]|..];
    (split; [auto|]); unfold search_result_evidence in Hb; rewrite Hs, ?Hd in Hb;
    rewrite failed_bundle_eq in Hb by (by vm_compute); by injection Hb as <-.
Qed.

Lemma compose_says message cid hist w r w' :
  _compose_reply tools (rp_intent r) (message_text message) (trace_of message) cid hist
    (im_message_id message) w = (Ok (rp_text r, rp_used_fallback r), w') ->
  reply_says message cid w r.
Proof.
  clear tools_frame. unfold _compose_reply, reply_says. intros (turns & w1 & [_ ->]%lift_ok_inv & Hr)%bind_ok_inv.
  assert (reply_explain turns (message_text message) (trace_of message) w =
      (Ok (rp_text r, rp_used_fallback r), w') ->
    grounded_text (reply_packet PN_EXPLAIN_BUENPICK message (no_evidence [])) (rp_text r) (rp_used_fallback r))
    as Hexp.
  { unfold reply_explain. intros (packet & w2 & [Hp _]%lift_ok_inv & Hr')%bind_ok_inv.
    apply bind_ok_inv in Hr' as (o & w3 & Ho & Hr'). apply ret_ok_inv in Hr' as [[= -> ->] _].
    apply context_packet_valid in Hp as [_ ->]. by eapply grounded_outcome. }
  destruct (rp_intent r); [by apply Hexp| | |by apply Hexp].
  - unfold reply_discover in Hr. destruct tools as [reader|] eqn:Ht.
    2: { by apply ret_ok_inv in Hr as [[= -> ->] _]. }
    apply bind_ok_inv in Hr as (result & w2 & Hres & Hr). exists result, w2. split; [exact Hres|].
    apply bind_ok_inv in Hr as (b & w3 & [Hb _]%lift_ok_inv & Hr). exists b. split; [exact Hb|].
    case_bool_decide as He; case_bool_decide as Hnil.
    + apply ret_ok_inv in Hr as [[= -> ->] _]. by destruct (search_empty_failed _ _ Hb Hnil) as [? ->].
    + exfalso. by apply nil_length_inv in He.
    + exfalso. by rewrite Hnil in He.
    + apply bind_ok_inv in Hr as (packet & w4 & [Hp _]%lift_ok_inv & Hr).
      apply bind_ok_inv in Hr as (o & w5 & Ho & Hr). apply ret_ok_inv in Hr as [[= -> ->] _].
      apply context_packet_valid in Hp as [_ ->]. by eapply grounded_outcome.
  - unfold reply_handoff in Hr. apply bind_ok_inv in Hr as (h & w2 & Hh & Hr). split; [by exists h, w2|].
    apply bind_ok_inv in Hr as (a & w3 & [Ha _]%lift_ok_inv & Hr).
    rewrite performed_eq in Ha by (by vm_compute). injection Ha as <-.
    apply bind_ok_inv in Hr as (packet & w4 & [Hp _]%lift_ok_inv & Hr).
    apply bind_ok_inv in Hr as (o & w5 & Ho & Hr). apply ret_ok_inv in Hr as [[= -> ->] _].
    apply context_packet_valid in Hp as [_ ->]. by eapply grounded_outcome.
Qed.

(** C8. Whatever the model answers, a new reply of either entry point says only
    what it may.  The run up to the composition of the reply fixes the
    conversation and the world [w1] it is composed in; the reply is of legal
    length and has the intent of the message, and to someone who asks for
    picks it says that there is no access to the API, or why the search of the
    message's text, run in [w1], failed, or a text for the packet of exactly
    the evidence of that search; to someone who asks for a person, whose
    request was stored, a text for the packet of the handoff; to anyone else a
    text for a packet without evidence.  A text for a packet is accepted by the
    grounding rules for it, or made of its data. *)
Theorem new_reply_grounded e message acct w r w' :
  run_entry lock_ttl tools e message acct w = (Ok r, w') -> rp_duplicate r = false ->
  1 <= py_len (rp_text r) <= 4096 /\ rp_intent r = resolve_intent (message_text message) /\
  exists cid hist w1, until_reply lock_ttl e message acct w = (Ok (inr (cid, hist)), w1) /\
    reply_says message cid w1 r.
Proof.
  intros Hr Hdup.
  apply entry_composes in Hr as [[w1 Hr]|(cid & hist & w1 & w2 & Hu & Hc & Hi & _ & Hok)].
  { apply until_reply_stored in Hr. congruence. }
  split. { unfold contract_ok in Hok. cbn -[len_in py_len] in Hok. bools. by apply len_in_spec. }
  split; [exact Hi|]. exists cid, hist, w1. split; [exact Hu|].
  eapply compose_says. rewrite Hi. exact Hc.
Qed.
End grounded.

(** ** The lock of a turn *)

Section locks.
Context `{UCD} `{SqlEngine} `{RedisServer} `{Env} `{E : !ResponseEngine}.
Variables (lock_ttl : Z) (tools : option BuenPickReader).

Lemma emit_redis ev tr co ou st er cc uc w :
  w_redis (emit ev tr co ou st er cc uc w).2 = w_redis w /\
  (w_tick w <= w_tick (emit ev tr co ou st er cc uc w).2)%nat.
Proof.
  assert (forall r w0, w_redis (emit_record r w0).2 = w_redis w0 /\ w_tick (emit_record r w0).2 = w_tick w0) as He.
  { intros r w0. unfold emit_record. by destruct (construct r). }
  unfold emit. rewrite bind_run. destruct st as [t|].
  - rewrite bind_run. unfold perf. cbv beta iota zeta. cbn [mret M_ret].
    match goal with |- context [emit_record ?r ?w0] => destruct (He r w0) as [-> ->] end. split; [done|cbn; lia].
  - cbn [mret M_ret]. match goal with |- context [emit_record ?r ?w0] => destruct (He r w0) as [-> ->] end. done.
Qed.

Lemma turn_start_cases e message acct w :
  (forall n, token_ok (token_urlsafe n)) ->
  let run := turn_start lock_ttl e message acct w in
  w_db run.2 = w_db w /\ w_io run.2 = w_io w /\
  match run.1 with
  | Raise _ => True
  | Ok (scope, token) => scope_of message acct = Ok scope /\
      token = token_urlsafe (w_tick run.2 - 2) /\
      dump (w_redis run.2) !! lock_key_for scope =
        Some (token, clock (w_tick run.2 - 1) + lock_ttl * 1000000)
  end.
Proof.
  intros Htok run. assert (run = turn_start lock_ttl e message acct w) as Hrun by done. clearbody run.
  unfold turn_start in Hrun. rewrite bind_run in Hrun.
  set (component := match e with FromWeb => _ | FromQueue _ => _ end) in Hrun.
  pose proof (emit_db_eq EV_MESSAGE_RECEIVED (trace_of message) component EO_SUCCEEDED None None None None w) as Hed.
  pose proof (no_io_emit EV_MESSAGE_RECEIVED (trace_of message) component EO_SUCCEEDED None None None None w) as Hei.
  unfold db_rel, no_io in *.
  destruct (emit _ _ _ _ _ _ _ _ w) as [[[]|err] w1]; cbn [snd] in *; [|by subst run].
  rewrite bind_run in Hrun. unfold lift at 1 in Hrun.
  destruct (scope_of message acct) as [scope|err]; [|by subst run].
  rewrite bind_run in Hrun. destruct (acquire_run lock_ttl scope w1 (Htok _)) as (l & w2 & Ha & Hd & Htick & Hl).
  pose proof (no_io_acquire lock_ttl scope w1) as Hio. rewrite Ha in Hio, Hrun. unfold no_io in Hio.
  cbn [snd] in Hio. rewrite bind_run in Hrun. unfold lift at 1, owner_of in Hrun.
  destruct (ll_status l) eqn:Hst; [|subst run; cbn [fst snd]; split_and!; first [done|congruence]..].
  destruct Hl as (_ & Htk & Hdump). rewrite Htk in Hrun.
  assert (run = (Ok (scope, token_urlsafe (w_tick w1)), w2)) as -> by exact Hrun. clear Hrun.
  cbn [fst snd]. split; [congruence|]. split; [congruence|]. split; [reflexivity|].
  split; [rewrite Htick; f_equal; lia|].
  rewrite Hdump, lookup_insert_eq, Htick. by replace (S (S (w_tick w1)) - 1)%nat with (S (w_tick w1)) by lia.
Qed.

(** The last command of a turn to Redis is its release. *)
Lemma leave_redis e message scope token w :
  w_redis (leave e message scope token w).2 = w_redis (release scope token w).2 /\
  w_db (leave e message scope token w).2 = w_db w.
Proof.
  pose proof (release_db scope token w) as Hd. unfold db_rel in Hd. destruct e; cbn [leave].
  - unfold release_observed. rewrite bind_run. destruct (release scope token w) as [[st|err] w1]; [|done].
    case_bool_decide; [|done]. unfold emit. rewrite bind_run. cbn -[u construct]. unfold emit_record.
    by destruct (construct _).
  - rewrite bind_run. by destruct (release scope token w) as [[st|err] w1].
Qed.

Lemma release_leaves scope token w :
  let run := release scope token w in
  run.1 = Ok LR_UNAVAILABLE \/
  live (clock (w_tick w)) (dump (w_redis run.2)) (lock_key_for scope) <> Some token.
Proof.
  destruct (release_run scope token w) as (st & w3 & Hr & _ & Hst). rewrite Hr. cbn [fst snd].
  destruct st; [right|right|by left].
  - destruct Hst as [_ ->]. unfold live. by rewrite lookup_delete_eq.
  - by destruct Hst as [? ->].
Qed.

(** C25. A turn never keeps the lock of its conversation, whatever happens inside
    it.  Either it did not get in, and then it raises what the acquisition
    raised, with the database untouched and nothing sent; or it holds the lock
    of the message's scope with a token of its own, runs its body, and its last
    command to Redis releases that scope with that token, after a return and
    after every exception: the lock is then not live under its token, unless
    Redis could not be reached for the release. *)
Theorem turn_releases_lock e message acct w :
  (forall n, token_ok (token_urlsafe n)) ->
  let run := run_entry lock_ttl tools e message acct w in
  let start := turn_start lock_ttl e message acct w in
  match start.1 with
  | Raise err => run = (Raise err, start.2) /\ w_db start.2 = w_db w /\ w_io start.2 = w_io w
  | Ok (scope, token) =>
      let body := locked_body tools e message acct start.2 in
      let released := release scope token body.2 in
      scope_of message acct = Ok scope /\
      dump (w_redis start.2) !! lock_key_for scope =
        Some (token, clock (w_tick start.2 - 1) + lock_ttl * 1000000) /\
      w_redis run.2 = w_redis released.2 /\ w_db run.2 = w_db body.2 /\
      (released.1 = Ok LR_UNAVAILABLE \/
       live (clock (w_tick body.2)) (dump (w_redis run.2)) (lock_key_for scope) <> Some token)
  end.
Proof.
  intros Htok. cbv zeta. rewrite entry_cut, bind_run.
  pose proof (turn_start_cases e message acct w Htok) as (Hd & Hio & Hs).
  destruct (turn_start lock_ttl e message acct w) as [[[scope token]|err] w1]; cbn [fst snd] in *; [|done].
  destruct Hs as (Hscope & _ & Hheld). unfold try_finally.
  destruct (locked_body tools e message acct w1) as [o w2]; cbn [snd].
  pose proof (leave_redis e message scope token w2) as [Hrd Hdb].
  assert (forall r : res ConversationReply * World,
    r = match leave e message scope token w2 with
        | (Ok _, w3) => (o, w3)
        | (Raise err, w3) => (Raise err, w3)
        end -> w_redis r.2 = w_redis (release scope token w2).2 /\ w_db r.2 = w_db w2) as Hfin.
  { intros r ->. by destruct (leave e message scope token w2) as [[[]|err] w3]. }
  match goal with |- context [w_redis (?m).2 = _] => destruct (Hfin m eq_refl) as [Hr Hdr] end.
  split_and!; [done|done|exact Hr|exact Hdr|]. rewrite Hr. apply release_leaves.
Qed.

(** C26. Turns of one conversation exclude each other.  While another turn holds
    the lock of the scope, a turn on the same conversation raises, from the web
    and from the queue alike: the database is untouched, nothing is sent, the
    body is not run, and the lock stays as its owner left it. *)
Theorem turn_excluded e message acct w scope token expiry :
  (forall n, token_ok (token_urlsafe n)) -> scope_of message acct = Ok scope ->
  dump (w_redis w) !! lock_key_for scope = Some (token, expiry) ->
  (forall n, (w_tick w <= n <= w_tick (turn_start lock_ttl e message acct w).2)%nat -> clock n < expiry) ->
  exists err w', run_entry lock_ttl tools e message acct w = (Raise err, w') /\
    w_db w' = w_db w /\ w_io w' = w_io w /\
    dump (w_redis w') !! lock_key_for scope = Some (token, expiry).
Proof.
  intros Htok Hscope Hheld. rewrite entry_cut, bind_run.
  pose proof (turn_start_cases e message acct w Htok) as (Hd & Hio & _). cbv zeta in Hd, Hio.
  remember (turn_start lock_ttl e message acct w) as run eqn:Hrun. intros Hclock.
  assert (exists err, run.1 = Raise err /\
    dump (w_redis run.2) !! lock_key_for scope = Some (token, expiry)) as (err & Hs & Hk).
  { unfold turn_start in Hrun. rewrite bind_run in Hrun.
    set (component := match e with FromWeb => _ | FromQueue _ => _ end) in Hrun.
    pose proof (emit_redis EV_MESSAGE_RECEIVED (trace_of message) component EO_SUCCEEDED None None None None w)
      as [Her Het].
    destruct (emit _ _ _ _ _ _ _ _ w) as [[[]|err] w1]; cbn [snd] in Her, Het;
      [|subst run; exists err; by rewrite <- Her in Hheld].
    rewrite bind_run, Hscope in Hrun. unfold lift at 1 in Hrun. rewrite bind_run in Hrun.
    destruct (acquire_run lock_ttl scope w1 (Htok _)) as (l & w2 & Ha & _ & Htick & Hl).
    pose proof (keeps_acquire (lock_key_for scope) token expiry lock_ttl scope w1) as [_ Hkeep].
    rewrite Ha in Hkeep, Hrun. cbn [snd] in Hkeep. rewrite bind_run in Hrun.
    assert (w_tick run.2 = w_tick w2) as Hw2
      by (subst run; unfold lift, owner_of; by destruct (ll_status l), (ll_owner_token l)).
    assert (dump (w_redis w2) !! lock_key_for scope = Some (token, expiry)) as Hk2.
    { apply Hkeep; [intros n Hn; apply Hclock; lia|by rewrite Her]. }
    unfold lift at 1, owner_of in Hrun.
    destruct (ll_status l) eqn:Hst; [|subst run; eexists; by split..].
    exfalso. destruct Hl as (Hn & _). unfold live in Hn. rewrite Her, Hheld in Hn.
    by rewrite (proj2 (Z.ltb_lt _ _)) in Hn by (apply Hclock; lia). }
  destruct run as [[[scope' token']|err'] w']; cbn [fst snd] in *; [done|]. injection Hs as ->.
  by exists err, w'.
Qed.
End locks.

(** ** The tables stay well formed *)

Section wf.
Context `{SqlEngine} `{RedisServer} `{Env}.

Lemma request_keeps_wf r : keeps_db keeps_conversations_wf (request r).
Proof.
  unfold request. apply keeps_bind; [apply _|apply keeps_db_uuid4, _|]. intros k.
  apply keeps_bind; [apply _| |].
  { intros w. destruct (insert_effect any_handoff_conflict no_constraint
      (conversation_exists (hr_conversation_id r)) k (handoff_row r) w) as [Hd|(t & tb & Hd & _)];
      unfold db_rel; rewrite Hd; intros [Hi He Hc]; by split. }
  intros o. apply keeps_bind; [apply _| |].
  { destruct o; [apply keeps_ret, _|]. apply keeps_bind; [apply _|apply keeps_db_select, _|].
    intros. apply keeps_lift, _. }
  intros [id row]. apply keeps_bind; [apply _|by apply keeps_wf_update_conversation|].
  intros _. apply keeps_bind; [apply _|apply keeps_lift, _|]. intros. apply keeps_ret, _.
Qed.

(** A turn keeps the unique constraints and the foreign keys of the
    conversation tables. *)
Lemma respond_keeps_wf `{UCD} `{E : !ResponseEngine} `{!EngineLaws E} ttl tools message acct :
  (forall reader, tools = Some reader -> ReaderFrame reader) ->
  keeps_db keeps_conversations_wf (orchestrator_respond ttl tools message acct).
Proof.
  intros Htools. apply respond_keeps; [done|apply _|..].
  - intros. apply record_outbound_keeps_wf.
  - apply request_keeps_wf.
  - apply record_inbound_keeps_wf.
Qed.
End wf.

(** The external identifiers of the stored messages. *)
Definition external_ids `{SqlEngine} `{RedisServer} (w : World) : list (option str) :=
  (fun kr : Z * MessageRecord => m_external_message_id kr.2) <$> map_to_list (messages (w_db w)).

Lemma known_external `{SqlEngine} `{RedisServer} e w : known_message e w <-> Some e ∈ external_ids w.
Proof.
  unfold external_ids. rewrite list_elem_of_fmap. split.
  - intros (k & m & Hk & He). exists (k, m). split; [done|]. by apply elem_of_map_to_list.
  - intros ([k m] & He & Hk%elem_of_map_to_list). by exists k, m.
Qed.

(** ** Evaluations *)

Section concrete.
#[local] Existing Instances latin1_ucd map_engine scheduled_server sample_env.

Definition friendly_adapter : CompositionRequest -> M CompositionResult :=
  sample_adapter (u "¡Hola! BuenPick ayuda a rescatar alimentos.").

Lemma friendly_db r : keeps_db (=) (friendly_adapter r).
Proof. apply keeps_ret, _. Qed.

#[local] Instance friendly_engine : ResponseEngine := ComposerEngine friendly_adapter (u "sys").
#[local] Instance friendly_laws : EngineLaws friendly_engine :=
  composer_engine_laws friendly_adapter (u "sys") friendly_db.

Definition web_message (id conversation : str) (text : option str) : InboundMessage := {|
  im_message_id := id; im_channel := WEB; im_conversation_id := conversation;
  im_sender_id := conversation; im_kind := if text then MK_TEXT else MK_IMAGE; im_text := text;
  im_received_at := utc 0; im_metadata := ∅ |}.

Definition console : str := u "piki-local-console".
Definition hello : InboundMessage := web_message (u "m1") (u "alice") (Some (u "hola")).
Definition no_tools : option BuenPickReader := None.

Lemma no_tools_frame : forall reader, no_tools = Some reader -> ReaderFrame reader.
Proof. done. Qed.

Definition hello_reply (duplicate : bool) : ConversationReply := {|
  rp_conversation_id := 100; rp_text := u "¡Hola! BuenPick ayuda a rescatar alimentos.";
  rp_intent := CI_GREETING; rp_trace_id := u "conversation:m1"; rp_used_fallback := false;
  rp_duplicate := duplicate |}.

Definition greeted_world : World := (orchestrator_respond 30 no_tools hello console sample_world).2.

Lemma greeted_run :
  orchestrator_respond 30 no_tools hello console sample_world = (Ok (hello_reply false), greeted_world).
Proof.
  unfold greeted_world. apply (run_fst (orchestrator_respond 30 no_tools hello console) sample_world).
  vm_compute. reflexivity.
Qed.

Lemma nothing_known e : ~ known_message e sample_world.
Proof. by intros (k & m & Hk & _). Qed.

Lemma message_answered_once_witness :
  (orchestrator_respond 30 no_tools hello console greeted_world).1 = Ok
    {| rp_conversation_id := 100; rp_text := rp_text (hello_reply false); rp_intent := CI_GREETING;
       rp_trace_id := u "conversation:m1"; rp_used_fallback := false; rp_duplicate := true |} /\
  w_io (orchestrator_respond 30 no_tools hello console greeted_world).2 = w_io greeted_world.
Proof.
  split; [vm_compute; reflexivity|].
  assert (conversations_wf (w_db greeted_world)) as Hwf.
  { pose proof (respond_keeps_wf 30 no_tools hello console no_tools_frame sample_world
      sample_conversations_wf) as Hk. exact Hk. }
  destruct (message_answered_once 30 no_tools no_tools_frame hello sample_world (hello_reply false)
    greeted_world greeted_world) as (_ & _ & Hlater).
  - left. exists console. apply greeted_run.
  - apply nothing_known.
  - reflexivity.
  - exact Hwf.
  - destruct (Hlater (hello_reply true)
      (orchestrator_respond 30 no_tools hello console greeted_world).2) as (_ & _ & Hio & _);
      [|exact Hio].
    left. exists console. apply (run_fst (orchestrator_respond 30 no_tools hello console) greeted_world).
    vm_compute. reflexivity.
Defined.

(** A message without text whose turn failed: it stays stored, unanswered. *)
Definition picture : InboundMessage := web_message (u "m2") (u "alice") None.
Definition failed_world : World := (orchestrator_respond 30 no_tools picture console sample_world).2.

Lemma textless_message_unanswered_witness :
  exists e, (orchestrator_respond 30 no_tools picture console sample_world).1 = Raise e.
Proof.
  destruct (orchestrator_respond 30 no_tools picture console sample_world) as [[r|e] w'] eqn:Hr; [|by exists e].
  exfalso. apply (textless_message_unanswered 30 no_tools no_tools_frame picture sample_world r w').
  - reflexivity.
  - apply nothing_known.
  - left. by exists console.
Defined.

Lemma failed_known : known_message (u "m2") failed_world /\ ~ known_message (u "piki-reply:m2") failed_world.
Proof.
  assert (external_ids failed_world = [Some (u "m2")]) as Hl by (vm_compute; reflexivity).
  rewrite !known_external, Hl. split; [left|].
  intros Hin%list_elem_of_singleton. injection Hin. vm_compute. discriminate.
Qed.

Lemma unanswered_web_message_stays_busy_witness :
  exists e, (orchestrator_respond 30 no_tools picture console failed_world).1 = Raise e.
Proof.
  destruct (orchestrator_respond 30 no_tools picture console failed_world) as [[r|e] w'] eqn:Hr;
    [|by exists e].
  exfalso. destruct failed_known as [Hk Hn].
  apply (unanswered_web_message_stays_busy 30 no_tools picture console failed_world Hk Hn r w' Hr).
Defined.

Lemma new_reply_grounded_witness :
  exists cid hist w1, until_reply 30 FromWeb hello console sample_world = (Ok (inr (cid, hist)), w1) /\
    grounded_text (reply_packet PN_EXPLAIN_BUENPICK hello (no_evidence []))
      (rp_text (hello_reply false)) false.
Proof.
  destruct (@new_reply_grounded latin1_ucd latin1_laws _ _ _ friendly_adapter (u "sys")
    30 no_tools FromWeb hello console sample_world (hello_reply false) greeted_world)
    as (_ & _ & cid & hist & w1 & Hu & Hs).
  - apply greeted_run.
  - reflexivity.
  - exists cid, hist, w1. split; [exact Hu|exact Hs].
Defined.

Lemma turn_releases_lock_witness :
  let start := turn_start 30 FromWeb hello console sample_world in
  let body := locked_body no_tools FromWeb hello console start.2 in
  exists scope token, start.1 = Ok (scope, token) /\
    ((release scope token body.2).1 = Ok LR_UNAVAILABLE \/
     live (clock (w_tick body.2)) (dump (w_redis greeted_world)) (lock_key_for scope) <> Some token).
Proof.
  pose proof (turn_releases_lock 30 no_tools FromWeb hello console sample_world) as Hl.
  assert (forall n, token_ok (token_urlsafe n)) as Htok by (intros n; vm_compute; done).
  specialize (Hl Htok). cbv zeta in *.
  destruct (turn_start 30 FromWeb hello console sample_world).1 as [[scope token]|err] eqn:Hs;
    [|exfalso; vm_compute in Hs; discriminate Hs].
  exists scope, token. split; [done|]. apply Hl.
Defined.

(** Alice's second message while the turn of the first one runs. *)
Definition busy_world : World := (turn_start 30 FromWeb hello console sample_world).2.

Definition next_hello : InboundMessage := web_message (u "m2") (u "alice") (Some (u "hola")).
Definition alice_scope : ConversationScope :=
  {| sc_channel := im_channel next_hello; sc_channel_account_id := console; sc_conversation_id := u "alice" |}.
Definition busy_lock : str * Z := default ([], 0) (dump (w_redis busy_world) !! lock_key_for alice_scope).

Lemma busy_held : dump (w_redis busy_world) !! lock_key_for alice_scope = Some (busy_lock.1, busy_lock.2).
Proof. vm_compute. reflexivity. Qed.

Lemma busy_ends : w_tick (turn_start 30 FromWeb next_hello console busy_world).2 = 4%nat /\
  busy_lock.2 = clock 1 + 30000000.
Proof. split; vm_compute; reflexivity. Qed.

Lemma turn_excluded_witness :
  exists err w', orchestrator_respond 30 no_tools next_hello console busy_world = (Raise err, w') /\
    w_db w' = w_db busy_world.
Proof.
  destruct (turn_excluded 30 no_tools FromWeb next_hello console
    busy_world alice_scope busy_lock.1 busy_lock.2) as (err & w' & Hrun & Hdb & _).
  - intros n. vm_compute. done.
  - vm_compute. reflexivity.
  - exact busy_held.
  - destruct busy_ends as [-> ->]. intros n [_ Hn]. cbn [clock sample_env]. lia.
  - exists err, w'. split; [exact Hrun|exact Hdb].
Defined.

(** The identifier of a message is not tied to its conversation: the web call
    of another conversation that names it receives the reply stored for it. *)
Theorem foreign_reply_returned :
  rp_text <$> (match (orchestrator_respond 30 no_tools
      (web_message (u "m1") (u "mallory") (Some (u "hola"))) console greeted_world).1 with
    | Ok r => Some r | Raise _ => None end) = Some (rp_text (hello_reply false)).
Proof. vm_compute. reflexivity. Qed.

(** Human attention does not pause the automated replies: the conversation
    whose message asked for a person is [needs_human], and its next message is
    answered by the model with a new reply, the state left as it is. *)
Definition person : InboundMessage :=
  web_message (u "m1") (u "alice") (Some (u "quiero hablar con una persona")).
Definition waiting_world : World := (orchestrator_respond 30 no_tools person console sample_world).2.

Definition status_of (cid : Z) (w : World) : option str :=
  c_status <$> rows (db_conversations (w_db w)) !! cid.

Theorem human_attention_keeps_answering :
  status_of 100 waiting_world = Some (enum_value CW_NEEDS_HUMAN) /\
  (let '(r, w) := orchestrator_respond 30 no_tools
      (web_message (u "m2") (u "alice") (Some (u "hola"))) console waiting_world in
   (exists reply, r = Ok reply /\ rp_conversation_id reply = 100 /\
      rp_text reply = rp_text (hello_reply false) /\
      rp_used_fallback reply = false /\ rp_duplicate reply = false) /\
   status_of 100 w = Some (enum_value CW_NEEDS_HUMAN)).
Proof.
  split; [vm_compute; reflexivity|]. vm_compute (orchestrator_respond _ _ _ _ _).
  split; [eexists; repeat split|]; vm_compute; reflexivity.
Qed.
End concrete.
