(* ===== verification/Worker.v ===== *)
(** * The processing worker ([src/piki/conversation/worker.py])

    [ConversationProcessingWorker.process_once]: claim a job, answer it with
    the orchestrator, deliver the reply, and end the job.  The worker composes
    [Processing], [Orchestrator] and [Delivery]; the delivery adapter is any
    computation, the response engine and the reader are the interfaces of
    [Orchestrator]. *)
From S2P Require Import Prelude PyStr PyRegex Errors Sha256 Contracts Grounding Prompt.
From S2P Require Import Pydantic.
From S2P Require Import Events Sql Redis Models World Session Sample MetaWebhook.
From S2P Require Import Delivery DeliveryLaws DeliveryProps State Coordination.
From S2P Require Import Composition BuenPickModels BuenPick Conversations Handoffs Processing Tools.
From S2P Require Import Evidence Policies Orchestrator TurnLaws TurnProps.

Local Open Scope Z_scope.

#[local] Abbreviation messages d := (rows (db_messages d)).

(** [datetime.now(UTC) - d] at the clock value [t]: a [TypeError] when [d] has
    no time zone. *)
Definition since (t : Z) (d : datetime) : res Z :=
  if dt_aware d then Ok (t - dt_us d) else Raise TypeError.

Definition window_at (t : Z) (received_at : datetime) : res CustomerServiceWindow :=
  elapsed ← since t received_at;
  Ok (if elapsed <=? 24 * 3600 * second then CSW_OPEN else CSW_UNKNOWN).

Definition reply_key (message : InboundMessage) : str := u "reply:" ++ im_message_id message.

Definition reply_request (message : InboundMessage) (reply : ConversationReply)
    (window : CustomerServiceWindow) : res DeliveryRequest :=
  construct {| dr_idempotency_key := reply_key message;
               dr_conversation_id := im_conversation_id message; dr_kind := DK_TEXT;
               dr_text := Some (rp_text reply); dr_media_url := None;
               dr_interactive_options := []; dr_template_name := None;
               dr_template_language := None; dr_template_parameters := [];
               dr_customer_service_window := window; dr_trace_id := rp_trace_id reply |}.

Section worker.
Context `{UCD} `{SqlEngine} `{RedisServer} `{Env} `{RowLocks} `{!ResponseEngine}.
Variables (lock_ttl_seconds claim_timeout_seconds max_attempts : Z).
Variable tools : option BuenPickReader.
Variable adapter : DeliveryRequest -> M DeliveryResult.

(** The reply, delivered. *)
Definition answer_job (job : ClaimedInbound) : M DeliveryResult :=
  reply ← respond_persisted lock_ttl_seconds tools (ci_message job) (ci_channel_account_id job)
    (ci_conversation_record_id job);
  t ← now;
  window ← lift (window_at t (im_received_at (ci_message job)));
  request ← lift (reply_request (ci_message job) reply window);
  send adapter (ci_conversation_record_id job) request.

Definition settle_job (job : ClaimedInbound) (result : DeliveryResult) : M unit :=
  if provider_status (dres_status result) then complete (ci_message_record_id job)
  else fail (ci_message_record_id job)
         (or_else (dres_error_code result) (u "delivery_failed")) false second.

(** The two [except] clauses. *)
Definition failure_code (e : exn) : str :=
  if is_busy e then u "conversation_busy" else take 100 (casefold (exn_name e)).
Definition job_failed (job : ClaimedInbound) (e : exn) : M unit :=
  fail (ci_message_record_id job) (failure_code e) (ci_attempts job <? max_attempts) second.

Definition process_job (job : ClaimedInbound) : M bool :=
  try_except (result ← answer_job job; settle_job job result;; mret true)
    (fun e => Some (job_failed job e;; mret true)).

Definition process_once : M bool :=
  claimed ← claim_next claim_timeout_seconds;
  match claimed with
  | None => mret false
  | Some job => process_job job
  end.
End worker.

(** ** What the worker leaves alone *)

Section frames.
Context `{SqlEngine} `{RedisServer} `{Env}.

Lemma set_tbl_frame {R} `{!InDb R} (Rd : relation Db) `{!PreOrder Rd} :
  (forall (tb : table R) d, Rd d (set_tbl tb d)) ->
  (forall (a un : R -> R -> bool) fk k mk, keeps_db Rd (insert_row a un fk k mk)) /\
  (forall (p : Z -> R -> bool) f, keeps_db Rd (update_returning p f)) /\
  (forall (a un : R -> R -> bool) fk k mk f, keeps_db Rd (upsert_returning a un fk k mk f)).
Proof.
  intros Hset. split_and!.
  - intros a un fk k mk w. unfold db_rel.
    destruct (insert_effect a un fk k mk w) as [->|(t & tb & -> & _)]; [done|apply Hset].
  - intros p f w. unfold db_rel.
    destruct (update_effect p f w) as [->|(t & tb & -> & _)]; [done|apply Hset].
  - intros a un fk k mk f w. unfold db_rel.
    destruct (upsert_effect a un fk k mk f w) as [->|(tb & ->)]; [done|apply Hset].
Qed.

Definition same_attempts : relation Db := fun d d' => db_attempts d' = db_attempts d.
#[export] Instance same_attempts_preorder : PreOrder same_attempts.
Proof. split; unfold same_attempts; [done|]. intros x y z Hxy Hyz. congruence. Qed.

Ltac frame_step := first
  [ apply set_tbl_frame; [apply _|by intros ? ?] | keeps_step ].

Lemma same_attempts_progress {A} (m : M A) :
  keeps_db same_attempts m -> keeps_db ledger_progress m.
Proof. intros Hm w. apply ledger_progress_same. apply Hm. Qed.

Lemma record_inbound_attempts acct message trace enqueue :
  keeps_db same_attempts (record_inbound acct message trace enqueue).
Proof. unfold record_inbound. repeat frame_step. Qed.

Lemma record_outbound_attempts cid text trace ext :
  keeps_db same_attempts (record_outbound cid text trace ext).
Proof. unfold record_outbound. repeat frame_step. Qed.

Lemma request_attempts r : keeps_db same_attempts (request r).
Proof. unfold request. repeat frame_step. Qed.

(** Delivery writes no message. *)
Lemma send_same_messages adapter cid req :
  (forall r, keeps_db same_db_messages (adapter r)) ->
  keeps_db same_db_messages (send adapter cid req).
Proof.
  intros Had. apply send_keeps; [apply _| |apply Had|].
  - unfold claim. repeat frame_step.
  - intros id result. unfold finalize. repeat frame_step.
Qed.
End frames.

(** ** The jobs of the queue *)

Section jobs.
Context `{SqlEngine} `{RedisServer} `{Env}.

(** The messages that are jobs: enqueued once, whatever became of them. *)
Definition jobs (d : Db) : gmap Z MessageRecord :=
  filter (fun kr : Z * MessageRecord => m_processing_status kr.2 <> None) (messages d).

Lemma lookup_jobs d k m :
  jobs d !! k = Some m <-> messages d !! k = Some m /\ m_processing_status m <> None.
Proof. apply map_lookup_filter_Some. Qed.

Lemma jobs_same d d' : db_messages d' = db_messages d -> jobs d' = jobs d.
Proof. unfold jobs. by intros ->. Qed.

Lemma jobs_put d d' k m :
  messages d' = <[k := m]> (messages d) -> m_processing_status m <> None ->
  jobs d' = <[k := m]> (jobs d).
Proof. intros Hd Hm. unfold jobs. rewrite Hd. by apply map_filter_insert_True. Qed.

(** A message that is no job, added. *)
Lemma jobs_add d d' k m :
  messages d' = <[k := m]> (messages d) -> messages d !! k = None -> m_processing_status m = None ->
  jobs d' = jobs d.
Proof.
  intros Hd Hk Hm. unfold jobs. rewrite Hd, map_filter_insert_False by (cbn; tauto).
  by rewrite delete_id.
Qed.

Definition same_jobs : relation Db := fun d d' => jobs d' = jobs d.
#[export] Instance same_jobs_preorder : PreOrder same_jobs.
Proof. split; unfold same_jobs; [done|]. intros x y z Hxy Hyz. congruence. Qed.

Lemma jobs_insert (a un : MessageRecord -> MessageRecord -> bool) fk k mk :
  (forall t, m_processing_status (mk t) = None) -> keeps_db same_jobs (insert_row a un fk k mk).
Proof.
  intros Hmk w. unfold db_rel. destruct (insert_effect a un fk k mk w) as [->|(t & tb & -> & Hk & Hr)]; [done|].
  by apply (jobs_add _ _ k (mk t)).
Qed.

Lemma keeps_ret_bind {A B} (R : relation World) (a : A) (f : A -> M B) :
  keeps R (f a) -> keeps R (mret a ≫= f).
Proof. done. Qed.

Ltac jobs_step := first
  [ match goal with |- keeps _ (mret _ ≫= _) => apply keeps_ret_bind end
  | apply set_tbl_frame; [apply _|by intros ? ?]
  | apply jobs_insert; done
  | keeps_step ].

Lemma record_inbound_jobs acct message trace :
  keeps_db same_jobs (record_inbound acct message trace false).
Proof. unfold record_inbound. cbv iota. repeat jobs_step. Qed.

Lemma record_outbound_jobs cid text trace ext :
  keeps_db same_jobs (record_outbound cid text trace ext).
Proof. unfold record_outbound. repeat jobs_step. Qed.

Lemma request_jobs r : keeps_db same_jobs (request r).
Proof. unfold request. repeat jobs_step. Qed.
End jobs.

(** ** Runs of the worker *)

Section runs.
Context `{UL : UCDLaws} `{SqlEngine} `{RedisServer} `{Env} `{RowLocks}.
Context `{E : !ResponseEngine} `{!EngineLaws E}.
Variables (lock_ttl timeout max_attempts : Z) (tools : option BuenPickReader).
Hypothesis tools_frame : forall reader, tools = Some reader -> ReaderFrame reader.

Section adapter.
Variable adapter : DeliveryRequest -> M DeliveryResult.
Hypothesis adapter_messages : forall r, keeps_db same_db_messages (adapter r).

Abbreviation answer := (answer_job lock_ttl tools adapter).
Abbreviation process := (process_once lock_ttl timeout max_attempts tools adapter).

Lemma answer_jobs job : keeps_db same_jobs (answer job).
Proof.
  unfold answer_job. apply keeps_bind; [apply _| |].
  { apply respond_persisted_keeps; [done|apply _|intros; apply record_outbound_jobs|apply request_jobs]. }
  intros reply. apply keeps_bind; [apply _|apply keeps_db_now, _|]. intros t.
  apply keeps_bind; [apply _|apply keeps_lift, _|]. intros window.
  apply keeps_bind; [apply _|apply keeps_lift, _|]. intros request.
  intros w. apply jobs_same. by apply send_same_messages.
Qed.

Lemma failure_code_fits e : fits_opt 100 (Some (failure_code e)) = true.
Proof.
  unfold failure_code. case_match; [by vm_compute|]. unfold fits_opt, fits. cbn.
  rewrite Z.leb_le. unfold py_len. rewrite length_take. lia.
Qed.

(** The error code a delivery stores fits its column. *)
Lemma result_code_fits result :
  contract_ok result = true -> fits 100 (or_else (dres_error_code result) (u "delivery_failed")) = true.
Proof.
  intros [Hf _]%fields_and_validator. cbn -[opt_len_in] in Hf. bools. unfold or_else.
  destruct (dres_error_code result) as [code|]; [|by vm_compute]. destruct (truthy code); [|by vm_compute].
  match goal with Hc : opt_len_in 0 100 (Some code) = true |- _ => revert Hc end.
  unfold opt_len_in, len_in, fits. by intros [_ ?]%andb_true_iff.
Qed.

Lemma send_result_ok cid req w r w' :
  (forall w0 x w0', adapter req w0 = (Ok x, w0') -> contract_ok x = true) ->
  send adapter cid req w = (Ok r, w') -> contract_ok r = true.
Proof.
  intros Had. unfold send. intros (t & w1 & _ & Hr)%bind_ok_inv.
  apply bind_ok_inv in Hr as (c & w2 & _ & Hr). destruct (negb (claim_created c)).
  - apply bind_ok_inv in Hr as (x & w3 & [Hx ->]%lift_ok_inv & Hr).
    apply bind_ok_inv in Hr as (y & w4 & _ & [-> _]%ret_ok_inv).
    revert Hx. unfold _existing_result. case_bool_decide; [by intros [? ->]%construct_ok|].
    by intros (st & _ & [? ->]%construct_ok)%res_bind_ok.
  - apply bind_ok_inv in Hr as (x & w3 & Hx & Hr). apply Had in Hx.
    apply bind_ok_inv in Hr as (y & w4 & _ & Hr). by apply bind_ok_inv in Hr as (z & w5 & _ & [-> _]%ret_ok_inv).
Qed.

(** *** The effect of a run on the jobs *)

Lemma claim_jobs w job w1 :
  claim_next timeout w = (Ok (Some job), w1) -> exists m c,
    jobs (w_db w) !! ci_message_record_id job = Some m /\
    jobs (w_db w1) = <[ci_message_record_id job := mark_claimed (clock (w_tick w)) m]> (jobs (w_db w)) /\
    eligible (clock (w_tick w)) (clock (w_tick w) - timeout * second) m = true /\
    row_locked (S (w_tick w)) (ci_message_record_id job) = false /\
    claimed_inbound (ci_message_record_id job) (mark_claimed (clock (w_tick w)) m) c = Ok job.
Proof.
  intros (id & m & c & l & tb & Hl & Hjob & Hd & Hr)%claim_ok_inv.
  destruct (claimed_fields _ _ _ _ Hjob) as (Hid & _). rewrite Hid.
  assert ((id, m, c) ∈ (id, m, c) :: l) as Hin by by left. rewrite <- Hl in Hin.
  apply elem_of_due in Hin as (Hm & He & Hlk & _). exists m, c. split_and!; try done.
  - apply lookup_jobs. split; [done|]. apply eligible_status in He as [_ [Hs|Hs]]; by rewrite Hs.
  - apply jobs_put; [by rewrite Hd|done].
Qed.

Lemma transition_jobs id status err av w w' :
  _transition id status err av w = (Ok tt, w') -> exists m,
    jobs (w_db w) !! id = Some m /\ status_is PR_PROCESSING m = true /\
    jobs (w_db w') = <[id := transitioned status err av m]> (jobs (w_db w)) /\
    db_attempts (w_db w') = db_attempts (w_db w).
Proof.
  intros (m & tb & Hm & Hp & Hd & Hr)%transition_ok_inv. exists m. split_and!; try done.
  - apply lookup_jobs. split; [done|]. apply bool_decide_eq_true in Hp. by rewrite Hp.
  - apply jobs_put; [by rewrite Hd|done].
  - by rewrite Hd.
Qed.

(** How a job that was claimed ends, after its answer. *)
Inductive ending (job : ClaimedInbound) (o : res DeliveryResult)
    : ProcessingStatus -> option str -> option Z -> Prop :=
| ending_completed result :
    o = Ok result -> provider_status (dres_status result) = true -> ending job o PR_COMPLETED None None
| ending_failed code : ending job o PR_FAILED (Some code) None
| ending_again code t :
    ci_attempts job < max_attempts -> ending job o PR_PENDING (Some code) (Some t).

(** One transition of the claimed row: as recorded, or nothing was. *)
Definition ends (job : ClaimedInbound) (o : res DeliveryResult) (m : MessageRecord)
    (w : World) (run : res unit * World) : Prop :=
  match run.1 with
  | Ok _ => exists status err av, ending job o status err av /\
      jobs (w_db run.2) = <[ci_message_record_id job := transitioned status err av m]> (jobs (w_db w)) /\
      db_attempts (w_db run.2) = db_attempts (w_db w)
  | Raise _ => w_db run.2 = w_db w
  end.

Lemma transition_ends job o m status err av w :
  jobs (w_db w) !! ci_message_record_id job = Some m -> ending job o status err av ->
  ends job o m w (_transition (ci_message_record_id job) status err av w).
Proof.
  intros Hm Hend. unfold ends. destruct (_transition _ _ _ _ w) as [[[]|e] w'] eqn:Hr; cbn [fst snd].
  - apply transition_jobs in Hr as (m' & Hm' & _ & Hj & Ha). exists status, err, av.
    split_and!; [done| |done]. rewrite Hj. congruence.
  - by apply session_raise_db in Hr.
Qed.

Lemma fail_ends job o m code retry w :
  jobs (w_db w) !! ci_message_record_id job = Some m ->
  (retry = true -> ci_attempts job < max_attempts) ->
  ends job o m w (fail (ci_message_record_id job) code retry second w).
Proof.
  intros Hm Hretry. unfold fail. destruct retry.
  - apply (transition_ends _ _ _ _ _ _ (tick w)); [done|]. apply ending_again. by apply Hretry.
  - apply transition_ends; [done|]. apply ending_failed.
Qed.

Lemma settle_ends job result m w :
  jobs (w_db w) !! ci_message_record_id job = Some m ->
  ends job (Ok result) m w (settle_job job result w).
Proof.
  intros Hm. unfold settle_job. destruct (provider_status (dres_status result)) eqn:Hp.
  - apply transition_ends; [done|]. by econstructor.
  - by apply fail_ends.
Qed.

(** A claimed job that is processed: answered, then ended, or the end was lost. *)
Lemma process_job_inv job m w r w' :
  jobs (w_db w) !! ci_message_record_id job = Some m ->
  process_job lock_ttl max_attempts tools adapter job w = (r, w') ->
  exists o w2, answer job w = (o, w2) /\
    db_attempts (w_db w') = db_attempts (w_db w2) /\
    ((r = Ok true /\ exists status err av, ending job o status err av /\
        jobs (w_db w') = <[ci_message_record_id job := transitioned status err av m]> (jobs (w_db w))) \/
     ((exists e, r = Raise e) /\ jobs (w_db w') = jobs (w_db w))).
Proof.
  intros Hm. unfold process_job, try_except. rewrite bind_run.
  pose proof (answer_jobs job w) as Hj. destruct (answer job w) as [o w2]. cbn in Hj.
  rewrite <- Hj in Hm |- *. intros Hr. exists o, w2. split; [done|]. revert Hr.
  assert (forall w3 e, w_db w3 = w_db w2 ->
    (job_failed max_attempts job e;; mret true) w3 = (r, w') ->
    db_attempts (w_db w') = db_attempts (w_db w2) /\
    ((r = Ok true /\ exists status err av, ending job o status err av /\
        jobs (w_db w') = <[ci_message_record_id job := transitioned status err av m]> (jobs (w_db w2))) \/
     ((exists e, r = Raise e) /\ jobs (w_db w') = jobs (w_db w2)))) as Hfail.
  { intros w3 e Hd. rewrite bind_run. unfold job_failed.
    pose proof (fail_ends job o m (failure_code e) (ci_attempts job <? max_attempts) w3) as He.
    rewrite Hd in He. specialize (He Hm (proj1 (Z.ltb_lt _ _))). revert He. unfold ends. rewrite Hd.
    destruct (fail _ _ _ _ w3) as [[[]|e'] w4]; cbn [fst snd]; intros He [= <- <-].
    - destruct He as (st & err & av & ? & ? & ?). eauto 10.
    - rewrite He. eauto 10. }
  destruct o as [result|e]; [|by apply Hfail]. rewrite bind_run.
  pose proof (settle_ends job result m w2 Hm) as He. unfold ends in He.
  destruct (settle_job job result w2) as [[[]|e] w3]; cbn [fst snd] in He; [|by apply Hfail].
  intros [= <- <-]. destruct He as (st & err & av & ? & ? & ?). eauto 10.
Qed.

(** *** Runs while the database answers *)

(** A row held by a claim, that can be ended. *)
Definition held (id : Z) (m : MessageRecord) (w : World) : Prop :=
  jobs (w_db w) !! id = Some m /\ status_is PR_PROCESSING m = true /\ message_fits m = true.

Lemma transition_held id status err av w m :
  (forall n, db_up n = true) -> held id m w -> fits_opt 100 err = true ->
  exists w', _transition id status err av w = (Ok tt, w').
Proof. intros up ([Hm _]%lookup_jobs & Hp & Hf) He. by eapply transition_up. Qed.

Lemma fail_held id code retry delay w m :
  (forall n, db_up n = true) -> held id m w -> fits 100 code = true ->
  exists w', fail id code retry delay w = (Ok tt, w').
Proof.
  intros up Hh He. unfold fail. destruct retry.
  - exact (transition_held id PR_PENDING (Some code) (Some (clock (w_tick w) + delay)) (tick w) m up Hh He).
  - exact (transition_held id PR_FAILED (Some code) None w m up Hh He).
Qed.

Lemma settle_held job result w m :
  (forall n, db_up n = true) -> held (ci_message_record_id job) m w -> contract_ok result = true ->
  exists w', settle_job job result w = (Ok tt, w').
Proof.
  intros up Hh Hok. unfold settle_job. destruct (provider_status (dres_status result)).
  - by apply (transition_held _ _ None None w m).
  - apply (fail_held _ _ _ _ w m); [done..|]. by apply result_code_fits.
Qed.

Lemma process_job_up job m w :
  (forall n, db_up n = true) ->
  (forall req w0 x w0', adapter req w0 = (Ok x, w0') -> contract_ok x = true) ->
  held (ci_message_record_id job) m w ->
  exists w', process_job lock_ttl max_attempts tools adapter job w = (Ok true, w').
Proof.
  intros up Had Hh. unfold process_job, try_except. rewrite bind_run.
  pose proof (answer_jobs job w) as Hj. destruct (answer job w) as [[result|e] w2] eqn:Ha; cbn in Hj;
    assert (held (ci_message_record_id job) m w2) as Hh2 by (unfold held; by rewrite Hj).
  - rewrite bind_run. destruct (settle_held job result w2 m) as (w3 & Hs); [done..| |].
    + unfold answer_job in Ha. apply bind_ok_inv in Ha as (reply & wa & _ & Ha).
      apply bind_ok_inv in Ha as (t & wb & _ & Ha). apply bind_ok_inv in Ha as (win & wc & _ & Ha).
      apply bind_ok_inv in Ha as (req & wd & _ & Ha). eapply send_result_ok; [apply Had|exact Ha].
    + rewrite Hs. by eexists.
  - destruct (fail_held (ci_message_record_id job) (failure_code e) (ci_attempts job <? max_attempts)
      second w2 m) as (w3 & Hs); [done|done|apply failure_code_fits|].
    exists w3. erewrite bind_ok_run; [reflexivity|exact Hs].
Qed.

(** *** Runs *)

Lemma process_inv w r w' :
  process w = (r, w') ->
  (r <> Ok true /\ w_db w' = w_db w) \/
  exists job w1 m o w2, claim_next timeout w = (Ok (Some job), w1) /\ answer job w1 = (o, w2) /\
    jobs (w_db w) !! ci_message_record_id job = Some m /\
    ci_attempts job = m_processing_attempts m + 1 /\
    db_attempts (w_db w') = db_attempts (w_db w2) /\
    let claimed := mark_claimed (clock (w_tick w)) m in
    let put m' := jobs (w_db w') = <[ci_message_record_id job := m']> (jobs (w_db w)) in
    ((r = Ok true /\ exists status err av,
        ending job o status err av /\ put (transitioned status err av claimed)) \/
     ((exists e, r = Raise e) /\ put claimed)).
Proof.
  unfold process_once. rewrite bind_run.
  destruct (claim_next timeout w) as [[[job|]|e] w1] eqn:Hc.
  - destruct (claim_jobs _ _ _ Hc) as (m & c & Hm & Hj & _ & _ & Hjob). intros Hr.
    destruct (claimed_fields _ _ _ _ Hjob) as (_ & _ & Hat & _).
    apply (process_job_inv _ (mark_claimed (clock (w_tick w)) m)) in Hr as (o & w2 & Ha & Hat2 & Hend);
      [|by rewrite Hj, lookup_insert_eq].
    right. exists job, w1, m, o, w2. split_and!; try done. rewrite Hj in Hend.
    destruct Hend as [(-> & st & err & av & He & Hput)|(He & Hput)]; [left|right]; [|done].
    split; [done|]. exists st, err, av. split; [done|]. by rewrite Hput, insert_insert_eq.
  - intros [= <- <-]. left. split; [done|]. by apply claim_ok_inv in Hc as [_ ?].
  - intros [= <- <-]. left. split; [done|]. by eapply claim_raise_db.
Qed.
End adapter.
End runs.

(** ** The ledger of a run *)

Section ledger.
Context `{UCD} `{SqlEngine} `{RedisServer} `{Env} `{RowLocks}.
Context `{E : !ResponseEngine} `{!EngineLaws E}.
Variables (lock_ttl timeout max_attempts : Z) (tools : option BuenPickReader).
Hypothesis tools_frame : forall reader, tools = Some reader -> ReaderFrame reader.
Variable adapter : DeliveryRequest -> M DeliveryResult.

Abbreviation answer a := (answer_job lock_ttl tools a).
Abbreviation process a := (process_once lock_ttl timeout max_attempts tools a).

Lemma claim_key cid req w c w' :
  claim cid req w = (Ok c, w') ->
  (claim_created c = true -> ~ has_key w (dr_idempotency_key req)) /\
  exists r, rows (db_attempts (w_db w')) !! snap_id (claim_attempt c) = Some r /\
    a_idempotency_key r = dr_idempotency_key req.
Proof.
  intros He%claim_run. remember (w_db w') as d' eqn:Hd'.
  destruct He as [id t snap d' Hn Hk Hd _ _ (st & _ & [_ ->]%construct_ok)%res_bind_ok
                 |id r snap Hr Hkey (st & _ & [_ ->]%construct_ok)%res_bind_ok]; cbn [claim_created claim_attempt snap_id].
  - split; [intros _ (k & r & Hr & Hkey); by eapply Hk|].
    exists (pending_row cid req t). split; [|done]. rewrite Hd. by rewrite lookup_insert_eq.
  - split; [done|]. by exists r.
Qed.

(** With the key in the ledger, [send] does not look at the adapter. *)
Lemma send_known adapter' cid req w :
  has_key w (dr_idempotency_key req) -> send adapter cid req w = send adapter' cid req w.
Proof.
  intros Hk. unfold send. rewrite !bind_run. destruct (started_at w) as [[t|e] w0] eqn:Ht; [|done].
  injection Ht as _ <-. rewrite !bind_run. cbn [store_claim PostgresDeliveryStore].
  destruct (claim cid req (tick w)) as [[c|e] w1] eqn:Hc; [|done].
  apply claim_key in Hc as [Hn _]. destruct (claim_created c); [|done]. by destruct (Hn eq_refl).
Qed.

Hypothesis adapter_ledger : forall r, keeps_db ledger_progress (adapter r).

Lemma send_ledger cid req : keeps_db ledger_progress (send adapter cid req).
Proof. apply send_keeps; [apply _|apply keeps_claim|apply adapter_ledger|]. intros. apply keeps_finalize. Qed.

(** With the key not in the ledger afterwards, it did not either. *)
Lemma send_unrecorded adapter' cid req w r w' :
  send adapter cid req w = (r, w') -> ~ has_key w' (dr_idempotency_key req) ->
  send adapter' cid req w = (r, w').
Proof.
  intros Hs Hn. pose proof (send_ledger cid req w) as Hp. rewrite Hs in Hp.
  revert Hs. unfold send. rewrite !bind_run. destruct (started_at w) as [[t|e] w0] eqn:Ht; [|done].
  rewrite !bind_run. cbn [store_claim PostgresDeliveryStore].
  destruct (claim cid req w0) as [[c|e] w1] eqn:Hc; [|done].
  destruct (claim_created c) eqn:Hcr; [|done]. cbn [negb]. intros Hs. exfalso. apply Hn.
  assert (keeps_db ledger_progress (result ← adapter req;
    store_finalize (snap_id (claim_attempt c)) result;; _emit_attempt result t;; mret result)) as Hk.
  { apply keeps_bind; [apply _|apply adapter_ledger|]. intros x.
    apply keeps_bind; [apply _|apply keeps_finalize|]. intros _. unfold _emit_attempt. keeps_auto. }
  specialize (Hk w1). rewrite Hs in Hk. apply claim_key in Hc as (_ & row & Hr & Hkey).
  eapply has_key_progress; [exact Hk|by eexists _, _].
Qed.

(** A result of the provider is recorded under the key of the request. *)
Lemma send_recorded cid req w r w' :
  send adapter cid req w = (Ok r, w') -> provider_status (dres_status r) = true ->
  exists id row, rows (db_attempts (w_db w')) !! id = Some row /\
    a_idempotency_key row = dr_idempotency_key req /\ a_status row = enum_value (dres_status r).
Proof.
  unfold send. intros (t & w1 & _ & Hr)%bind_ok_inv Hp.
  apply bind_ok_inv in Hr as (c & w2 & Hc & Hr). cbn [store_claim PostgresDeliveryStore] in Hc.
  pose proof (claim_key _ _ _ _ _ Hc) as (_ & row & Hrow & Hkey).
  assert (forall o x w3, _emit_attempt o t x = (Ok tt, w3) -> w_db w3 = w_db x) as Hem.
  { intros o x w3 He. assert (keeps_db (=) (_emit_attempt o t)) as Hk by (unfold _emit_attempt; keeps_auto).
    specialize (Hk x). by rewrite He in Hk. }
  destruct (claim_created c) eqn:Hcr; cbn [negb] in Hr.
  - apply bind_ok_inv in Hr as (x & w3 & Hx & Hr). apply bind_ok_inv in Hr as ([] & w4 & Hf & Hr).
    apply bind_ok_inv in Hr as ([] & w5 & He%Hem & [-> ->]%ret_ok_inv). rewrite He.
    cbn [store_finalize PostgresDeliveryStore] in Hf. apply finalize_run in Hf as (row' & t' & _ & _ & Hr' & _ & Hd & _).
    rewrite Hd. exists (snap_id (claim_attempt c)), (finalized_row x t' row').
    rewrite lookup_insert_eq. split; [done|]. split; [|done]. cbn.
    pose proof (adapter_ledger req w2 (snap_id (claim_attempt c)) row Hrow) as (row2 & Hr2 & _ & Hk2 & _).
    rewrite Hx in Hr2. cbn in Hr2. congruence.
  - apply bind_ok_inv in Hr as (x & w3 & [Hx ->]%lift_ok_inv & Hr).
    apply bind_ok_inv in Hr as ([] & w5 & He%Hem & [-> ->]%ret_ok_inv). rewrite He.
    exists (snap_id (claim_attempt c)), row. split; [done|]. split; [done|].
    apply claim_run in Hc. remember (w_db w2) as d2 eqn:Hd2.
    destruct Hc as [|id row0 snap Hr0 _ Hs]; [done|]. cbn [claim_attempt] in *.
    apply res_bind_ok in Hs as (st & Hst & [_ ->]%construct_ok). cbn [snap_id] in *.
    assert (row0 = row) as -> by congruence. revert Hx. unfold _existing_result. cbn [snap_state].
    unfold attempt_state in Hst. destruct (enum_of (a_status row)) as [st'|] eqn:Hst'; [|done].
    injection Hst as <-. apply enum_of_Some in Hst'. case_bool_decide.
    + intros [_ ->]%construct_ok. done.
    + intros (ds & Hds & [_ ->]%construct_ok)%res_bind_ok. cbn. rewrite <- Hst'.
      unfold delivery_status in Hds. destruct (enum_of (enum_value st')) as [ds'|] eqn:He'; [|done].
      injection Hds as <-. by apply enum_of_Some in He'.
Qed.

(** An answer the provider accepted is in the ledger under its key. *)
Lemma answer_recorded job w result w' :
  answer adapter job w = (Ok result, w') ->
  provider_status (dres_status result) = true ->
  exists id row, rows (db_attempts (w_db w')) !! id = Some row /\
    a_idempotency_key row = reply_key (ci_message job) /\ a_status row = enum_value (dres_status result).
Proof.
  intros Ha Hprov. unfold answer_job in Ha. apply bind_ok_inv in Ha as (reply & wa & _ & Ha).
  apply bind_ok_inv in Ha as (t & wb & _ & Ha). apply bind_ok_inv in Ha as (win & wc & _ & Ha).
  apply bind_ok_inv in Ha as (req & wd & [Hreq ->]%lift_ok_inv & Ha).
  apply construct_ok in Hreq as [_ ->]. exact (send_recorded _ _ _ _ _ Ha Hprov).
Qed.
End ledger.
