(* ===== verification/Frames.v ===== *)
(** * What every part of a turn relates

    A relation of worlds that the primitive steps keep, a statement, a session, a
    command to Redis, a reading of the clock, an event, an identifier, is kept
    by everything the program makes of them; what leaves the process, the
    engine, the reader and the adapter, is asked to keep it.  Two relations are
    used: [later], the clock has moved, and [no_posts], the provider got no
    request. *)
From S2P Require Import Prelude PyStr PyRegex Errors Sha256 Contracts Grounding Prompt.
From S2P Require Import Pydantic.
From S2P Require Import Events Sql Redis Models World Session Traffic Sample MetaWebhook.
From S2P Require Import Delivery DeliveryLaws DeliveryProps State Coordination.
From S2P Require Import Composition BuenPickModels BuenPick Conversations Handoffs Processing Tools.
From S2P Require Import Evidence Policies Orchestrator TurnLaws TurnProps Worker.

Local Open Scope Z_scope.

(** What the primitive steps keep. *)
Class Primitives `{SqlEngine} `{RedisServer} `{Env} (R : relation World) : Prop := {
  prim_order :: PreOrder R;
  prim_stmt {A} (f : Z -> Db -> res A * Db) : keeps R (stmt f);
  prim_session {A} (body : M A) : keeps R body -> keeps R (session body);
  prim_redis c : keeps R (redis c);
  prim_record r : keeps R (emit_record r);
  prim_now : keeps R now;
  prim_perf : keeps R perf;
  prim_uuid4 : keeps R uuid4;
  prim_token : keeps R new_token
}.

Section instances.
Context `{SqlEngine} `{RedisServer} `{Env}.

#[export] Instance later_primitives : Primitives later.
Proof.
  split; [apply _|..]; try (intros w; unfold later; cbn; lia).
  - intros A f w. unfold later, stmt. destruct (db_up _); [|cbn; lia]. destruct (f _ _). cbn. lia.
  - intros A body Hb w. specialize (Hb w). unfold later, session in *.
    destruct (body w) as [[a|e] w1]; cbn in *; [|lia]. destruct (db_up _); cbn; lia.
  - intros c w. unfold later, redis. destruct (redis_exec _ _ _) as [[r|] s]; cbn; lia.
  - intros r w. unfold later, emit_record. destruct (construct r); cbn; lia.
Qed.

#[export] Instance no_posts_primitives : Primitives no_posts.
Proof.
  split; [apply _|..]; try by intros w.
  - intros A f. apply no_io_posts, no_io_stmt.
  - intros A body Hb w. specialize (Hb w). unfold no_posts, posts, session in *.
    destruct (body w) as [[a|e] w1]; [|exact Hb]. by destruct (db_up _).
  - intros c w. unfold no_posts, posts, redis. by destruct (redis_exec _ _ _) as [[r|] s].
  - intros r w. unfold no_posts, posts, emit_record. by destruct (construct r).
Qed.
End instances.

Ltac frame_step :=
  lazymatch goal with
  | |- keeps _ (stmt _) => apply prim_stmt
  | |- keeps _ (session _) => apply prim_session
  | |- keeps _ (redis _) => apply prim_redis
  | |- keeps _ (emit_record _) => apply prim_record
  | |- keeps _ now => apply prim_now
  | |- keeps _ perf => apply prim_perf
  | |- keeps _ started_at => apply prim_perf
  | |- keeps _ uuid4 => apply prim_uuid4
  | |- keeps _ new_token => apply prim_token
  | |- keeps _ (insert_row _ _ _ _ _) => apply prim_stmt
  | |- keeps _ (update_returning _ _) => apply prim_stmt
  | |- keeps _ (select _ _) => apply prim_stmt
  | |- keeps _ (upsert_returning _ _ _ _ _ _) => apply prim_stmt
  | |- keeps _ (mret _) => apply keeps_ret, _
  | |- keeps _ (raise _) => apply keeps_raise, _
  | |- keeps _ (lift _) => apply keeps_lift, _
  | |- keeps _ (mbind _ _) => apply keeps_bind; [apply _| |intros ?]
  | |- keeps _ (try_except _ _) =>
      apply keeps_try; [apply _| |];
      [|let e := fresh "e" in let m' := fresh "m'" in let Hm := fresh "Hm" in
        intros e m' Hm; first [injection Hm as <-|destruct e; try discriminate Hm; injection Hm as <-]]
  | |- keeps _ (try_finally _ _) => apply keeps_finally; [apply _| |]
  | |- keeps _ (let _ := _ in _) => cbv zeta
  | |- keeps _ (match ?x with _ => _ end) => case_eq x; intros
  end.

Section turns.
Context `{UCD} `{SqlEngine} `{RedisServer} `{Env} `{RowLocks} `{E : !ResponseEngine}.
Context (R : relation World) `{!Primitives R}.
Variables (lock_ttl timeout max_attempts : Z) (tools : option BuenPickReader).
Variable adapter : DeliveryRequest -> M DeliveryResult.
Hypothesis engine_frame : forall packet turns text, keeps R (engine_respond packet turns text).
Hypothesis reader_frame : forall reader query commerce,
  tools = Some reader -> keeps R (br_search query commerce).

Lemma redis_try_frame c : keeps R (redis_try c).
Proof.
  unfold redis_try. apply keeps_try; [apply _| |].
  - repeat frame_step.
  - intros [] m' [= <-]; repeat frame_step.
Qed.

Lemma emit_frame ev tr co ou st er cc uc : keeps R (emit ev tr co ou st er cc uc).
Proof. unfold emit. repeat frame_step. Qed.

Lemma acquire_frame ttl scope : keeps R (acquire ttl scope).
Proof.
  unfold acquire. repeat lazymatch goal with
  | |- keeps _ (redis_try _) => apply redis_try_frame
  | _ => frame_step
  end.
Qed.

Lemma release_frame scope token : keeps R (release scope token).
Proof.
  unfold release. repeat lazymatch goal with
  | |- keeps _ (redis_try _) => apply redis_try_frame
  | _ => frame_step
  end.
Qed.

Lemma tool_search_frame (reader : BuenPickReader) query trace :
  tools = Some reader -> keeps R (tool_search query None trace).
Proof.
  intros Ht. unfold tool_search, _run.
  repeat lazymatch goal with
  | |- keeps _ (br_search _ _) => by apply reader_frame
  | |- keeps _ (emit _ _ _ _ _ _ _ _) => apply emit_frame
  | _ => frame_step
  end.
Qed.

Ltac turn_step :=
  lazymatch goal with
  | |- keeps _ (emit _ _ _ _ _ _ _ _) => apply emit_frame
  | |- keeps _ (redis_try _) => apply redis_try_frame
  | |- keeps _ (acquire _ _) => apply acquire_frame
  | |- keeps _ (release _ _) => apply release_frame
  | |- keeps _ (tool_search _ _ _) => by apply tool_search_frame
  | |- keeps _ (engine_respond _ _ _) => apply engine_frame
  | _ => frame_step
  end.

Lemma finish_turn_frame message trace cid hist : keeps R (finish_turn tools message trace cid hist).
Proof.
  unfold finish_turn, _compose_reply, reply_handoff, reply_discover, reply_explain, request, record_outbound.
  repeat turn_step.
Qed.

Lemma respond_persisted_frame message acct cid : keeps R (respond_persisted lock_ttl tools message acct cid).
Proof.
  unfold respond_persisted, respond_persisted_locked, recall, find_message, recent_messages.
  repeat lazymatch goal with
  | |- keeps _ (finish_turn _ _ _ _ _) => apply finish_turn_frame
  | _ => turn_step
  end.
Qed.

Lemma orchestrator_respond_frame message acct : keeps R (orchestrator_respond lock_ttl tools message acct).
Proof.
  unfold orchestrator_respond, _respond_locked, receive, record_inbound, find_message, recent_messages,
    release_observed.
  repeat lazymatch goal with
  | |- keeps _ (finish_turn _ _ _ _ _) => apply finish_turn_frame
  | _ => turn_step
  end.
Qed.

(** *** The worker *)

Lemma transition_frame id status err av : keeps R (_transition id status err av).
Proof. unfold _transition. repeat turn_step. Qed.

Lemma settle_frame job result : keeps R (settle_job job result).
Proof. unfold settle_job, complete, fail, _transition. repeat turn_step. Qed.

Lemma job_failed_frame job e : keeps R (job_failed max_attempts job e).
Proof. unfold job_failed, fail, _transition. repeat turn_step. Qed.

Lemma claim_next_frame : keeps R (claim_next timeout).
Proof.
  unfold claim_next. apply keeps_bind; [apply _|apply prim_now|]. intros t. apply prim_session.
  apply keeps_bind; [apply _|intros w0; apply prim_stmt|]. intros found. repeat turn_step.
Qed.

Hypothesis adapter_frame : forall request, keeps R (adapter request).

Lemma send_frame cid req : keeps R (send adapter cid req).
Proof.
  unfold send, _emit_attempt. cbn [store_claim store_finalize PostgresDeliveryStore]. unfold claim, finalize.
  repeat lazymatch goal with
  | |- keeps _ (adapter _) => apply adapter_frame
  | _ => turn_step
  end.
Qed.

Lemma process_job_frame job : keeps R (process_job lock_ttl max_attempts tools adapter job).
Proof.
  unfold process_job, answer_job.
  repeat lazymatch goal with
  | |- keeps _ (respond_persisted _ _ _ _ _) => apply respond_persisted_frame
  | |- keeps _ (send _ _ _) => apply send_frame
  | |- keeps _ (settle_job _ _) => apply settle_frame
  | |- keeps _ (job_failed _ _ _) => apply job_failed_frame
  | _ => turn_step
  end.
Qed.
End turns.

(** The engine of the program keeps what its adapter keeps. *)
Lemma composer_frame `{UCD} `{SqlEngine} `{RedisServer} `{Env} (R : relation World) `{!Primitives R}
    llm system_prompt packet turns text :
  (forall r, keeps R (llm r)) -> keeps R (Composition.respond llm system_prompt packet turns text).
Proof. intros Hllm. apply respond_relates; [apply _|intros; by apply emit_frame|apply prim_perf|exact Hllm]. Qed.
