(* ===== verification/WorkerProps.v ===== *)
(** * The processing worker: properties

    Every job a run claims is ended; consecutive runs end; a completed job was
    accepted by the provider; the provider is asked once per message. *)
From S2P Require Import Prelude PyStr PyRegex Errors Sha256 Contracts Grounding Prompt.
From S2P Require Import Pydantic.
From S2P Require Import Events Sql Redis Models World Session Traffic Sample MetaWebhook.
From S2P Require Import Delivery DeliveryLaws DeliveryProps State Coordination.
From S2P Require Import Composition BuenPickModels BuenPick Conversations Handoffs Processing Tools.
From S2P Require Import Evidence Policies Orchestrator TurnLaws TurnProps Worker Frames.

Local Open Scope Z_scope.

#[local] Abbreviation messages d := (rows (db_messages d)).

Section properties.
Context `{UL : UCDLaws} `{SqlEngine} `{RedisServer} `{Env} `{RowLocks}.
Context `{E : !ResponseEngine} `{!EngineLaws E}.
Variables (lock_ttl timeout max_attempts : Z) (tools : option BuenPickReader).
Hypothesis tools_frame : forall reader, tools = Some reader -> ReaderFrame reader.
Variable adapter : DeliveryRequest -> M DeliveryResult.
Hypothesis adapter_messages : forall r, keeps_db same_db_messages (adapter r).

Abbreviation process a := (process_once lock_ttl timeout max_attempts tools a).

(** A job claimed at [t] that was ended: completed, failed, or put back while
    it had attempts left. *)
Definition job_ended (t : Z) (m m' : MessageRecord) : Prop :=
  exists status error_code available_at,
    m' = transitioned status error_code available_at (mark_claimed t m) /\
    status <> PR_PROCESSING /\
    (status = PR_PENDING ->
     m_processing_attempts m + 1 < max_attempts /\ is_Some available_at /\ is_Some error_code).

Lemma ending_ended t m job o status err av :
  ci_attempts job = m_processing_attempts m + 1 -> ending max_attempts job o status err av ->
  job_ended t m (transitioned status err av (mark_claimed t m)).
Proof.
  intros Hat He. exists status, err, av. split; [done|].
  destruct He; (split; [done|]); intros; try done. split_and!; [lia|by eexists..].
Qed.

(** While the database answers, a run ends the job it claims, if any. *)
Lemma run_up w :
  (forall n, db_up n = true) -> queue_wf (w_db w) ->
  (forall req w0 x w0', adapter req w0 = (Ok x, w0') -> contract_ok x = true) ->
  exists o w1, claim_next timeout w = (Ok o, w1) /\
    match o with
    | Some job => exists w', process adapter w = (Ok true, w')
    | None => process adapter w = (Ok false, w1)
    end.
Proof.
  intros up Hq Had. destruct (claim_up timeout w up Hq) as (o & w1 & Hc). exists o, w1.
  split; [done|]. unfold process_once. destruct o as [job|]; [|by erewrite bind_ok_run by exact Hc].
  destruct (claim_jobs _ _ _ _ Hc) as (m & c & Hm & Hj & He & _).
  erewrite bind_ok_run by exact Hc.
  apply (process_job_up lock_ttl max_attempts tools tools_frame adapter adapter_messages
    job (mark_claimed (clock (w_tick w)) m) w1 up Had).
  split; [by rewrite Hj, lookup_insert_eq|]. split; [done|]. apply mark_fits.
  apply lookup_jobs in Hm as [Hm Hs]. apply eligible_status in He as [Hd _].
  by destruct (Hq _ _ Hm Hd Hs).
Qed.

(** C4. While the database answers, the worker never raises and never leaves a
    job behind.  A run answers [False] exactly when no job is due, and then
    writes nothing; otherwise it takes one due job and ends it (completed,
    failed, or back in the queue while it has attempts left), whatever the
    model, the API and the provider do, and changes no other job. *)
Theorem worker_ends_claimed_job w :
  (forall n, db_up n = true) -> queue_wf (w_db w) ->
  (forall req w0 x w0', adapter req w0 = (Ok x, w0') -> contract_ok x = true) ->
  exists busy w', process adapter w = (Ok busy, w') /\
    if busy
    then exists k m m', due timeout w k m /\ job_ended (clock (w_tick w)) m m' /\
           jobs (w_db w') = <[k := m']> (jobs (w_db w))
    else (forall k m, ~ due timeout w k m) /\ w_db w' = w_db w.
Proof.
  intros up Hq Had. destruct (run_up w up Hq Had) as ([job|] & w1 & Hc & Hrun).
  - destruct Hrun as [w' Hrun]. exists true, w'. split; [done|].
    destruct (claim_jobs _ _ _ _ Hc) as (m & c & Hm & _ & He & Hlk & _).
    apply process_inv in Hrun
      as [[? _]|(job' & w1' & m' & o & w2 & Hc' & _ & Hm' & Hat & _ & Hend)]; [done| |done..].
    rewrite Hc in Hc'. injection Hc' as <- <-. rewrite Hm in Hm'. injection Hm' as <-.
    destruct Hend as [(_ & st & err & av & Hend & Hput)|((e & [=]) & _)].
    exists (ci_message_record_id job), m, (transitioned st err av (mark_claimed (clock (w_tick w)) m)).
    split; [by apply lookup_jobs in Hm as [? _]|]. split; [by eapply ending_ended|done].
  - exists false, w1. pose proof Hc as [Hn Hd]%claim_ok_inv. split; [done|]. split; [|done].
    intros k m (c & Hin)%due_listed; [|done]. rewrite Hn in Hin. by apply elem_of_nil in Hin.
Qed.

(** *** The runs of a worker *)

(** [n] runs, one after the other; how many of them processed a job. *)
Fixpoint worker_runs (n : nat) (w : World) : Z * World :=
  match n with
  | O => (0, w)
  | S n =>
      let '(r, w1) := process adapter w in
      let '(busy, w2) := worker_runs n w1 in
      (if decide (r = Ok true) then 1 + busy else busy, w2)
  end.

(** The attempts a job may still take. *)
Definition job_work (m : MessageRecord) : Z :=
  if status_is PR_PENDING m || status_is PR_PROCESSING m
  then Z.max 1 (max_attempts - m_processing_attempts m) else 0.
Definition work (d : Db) : Z := map_fold (fun _ m n => job_work m + n) 0 (jobs d).

Lemma job_work_nonneg m : 0 <= job_work m.
Proof. unfold job_work. destruct (_ || _); lia. Qed.

Lemma job_work_transitioned st err av m :
  job_work (transitioned st err av m) =
    match st with
    | PR_PENDING | PR_PROCESSING => Z.max 1 (max_attempts - m_processing_attempts m)
    | _ => 0
    end.
Proof. by destruct st. Qed.

Lemma job_work_claimed t m :
  job_work (mark_claimed t m) = Z.max 1 (max_attempts - (m_processing_attempts m + 1)).
Proof. done. Qed.

Lemma work_put d d' k m m' :
  jobs d !! k = Some m -> jobs d' = <[k := m']> (jobs d) ->
  work d' = work d - job_work m + job_work m'.
Proof.
  intros Hk Hd. unfold work.
  rewrite Hd, <- (insert_delete_id (jobs d) k m Hk) at 1. rewrite insert_insert_eq.
  rewrite <- (insert_delete_id (jobs d) k m Hk) at 2.
  rewrite !map_fold_insert_L by (try (intros; lia); apply lookup_delete_eq). lia.
Qed.

Lemma work_nonneg d : 0 <= work d.
Proof.
  unfold work. apply (map_fold_weak_ind (fun n _ => 0 <= n)); [lia|].
  intros _ m ms n _ Hn. pose proof (job_work_nonneg m). lia.
Qed.

Lemma run_work w r w' :
  process adapter w = (r, w') ->
  work (w_db w') + (if decide (r = Ok true) then 1 else 0) <= work (w_db w).
Proof.
  intros Hp. apply process_inv in Hp
    as [[Hr ->]|(job & w1 & m & o & w2 & Hc & _ & Hm & Hat & _ & Hend)]; [| |done..].
  { destruct (decide (r = Ok true)); [done|lia]. }
  destruct (claim_jobs _ _ _ _ Hc) as (m0 & c & Hm0 & _ & He & _). rewrite Hm in Hm0. injection Hm0 as <-.
  assert (job_work m = Z.max 1 (max_attempts - m_processing_attempts m)) as Hw.
  { unfold job_work, status_is. apply eligible_status in He as [_ He].
    rewrite (proj2 (orb_true_iff _ _)); [done|]. rewrite !bool_decide_eq_true. exact He. }
  destruct Hend as [(-> & st & err & av & Hending & Hput)|((e & ->) & Hput)];
    rewrite (work_put _ _ _ _ _ Hm Hput), Hw; cbn [decide].
  - rewrite decide_True by done. rewrite job_work_transitioned. destruct Hending; cbn [m_processing_attempts mark_claimed]; lia.
  - rewrite decide_False, job_work_claimed by done. lia.
Qed.

(** The worker stops finding work.  Whatever the database, the model, the API
    and the provider answer, of any number of consecutive runs at most [work]
    process a job: each one uses up an attempt of a job that has attempts left,
    or ends a job for good, and no run adds a job. *)
Theorem worker_drains n w :
  let '(busy, w') := worker_runs n w in busy + work (w_db w') <= work (w_db w).
Proof.
  revert w. induction n as [|n IH]; intros w; cbn [worker_runs]; [lia|].
  destruct (process adapter w) as [r w1] eqn:Hp. specialize (IH w1).
  destruct (worker_runs n w1) as [busy w2]. apply run_work in Hp.
  destruct (decide (r = Ok true)); lia.
Qed.

(** A job that a run completed was accepted by the provider: the ledger then
    holds, under the key of its message, an attempt with one of the statuses
    accepted, sent, delivered and read. *)
Theorem completed_job_accepted w job w1 r w' m :
  (forall req, keeps_db ledger_progress (adapter req)) ->
  claim_next timeout w = (Ok (Some job), w1) -> process adapter w = (r, w') ->
  messages (w_db w') !! ci_message_record_id job = Some m -> status_is PR_COMPLETED m = true ->
  exists id row status, rows (db_attempts (w_db w')) !! id = Some row /\
    a_idempotency_key row = reply_key (ci_message job) /\
    a_status row = enum_value status /\ provider_status status = true.
Proof.
  intros Had Hc Hp Hm Hst.
  assert (jobs (w_db w') !! ci_message_record_id job = Some m) as Hj.
  { apply lookup_jobs. split; [done|]. apply bool_decide_eq_true in Hst. by rewrite Hst. }
  apply process_inv in Hp as [[_ Hd]|(job' & w1' & m0 & o & w2 & Hc' & Ha & Hm0 & _ & Hat & Hend)]; [| |done..].
  { exfalso. destruct (claim_jobs _ _ _ _ Hc) as (m0 & c & Hm0 & _ & He & _).
    rewrite Hd, Hm0 in Hj. injection Hj as ->. apply eligible_status in He as [_ He].
    apply bool_decide_eq_true in Hst. rewrite Hst in He. destruct He as [He|He]; by vm_compute in He. }
  rewrite Hc in Hc'. injection Hc' as <- <-. unfold status_is in Hst. apply bool_decide_eq_true in Hst.
  destruct Hend as [(_ & st & err & av & Hend & Hput)|(_ & Hput)];
    rewrite Hput, lookup_insert_eq in Hj; injection Hj as <-; [|by vm_compute in Hst].
  destruct Hend as [result -> Hprov| |]; [|by vm_compute in Hst..].
  destruct (answer_recorded lock_ttl tools adapter Had job w1 result w2 Ha Hprov) as (id & row & Hrow & Hkey & Hs).
  exists id, row, (dres_status result). by rewrite Hat.
Qed.
End properties.

(** *** At most one call of the provider per message *)

Section once.
Context `{UCD} `{SqlEngine} `{RedisServer} `{Env} `{RowLocks}.
Context `{E : !ResponseEngine} `{!EngineLaws E}.
Variables (lock_ttl timeout max_attempts : Z) (tools : option BuenPickReader).
Hypothesis tools_frame : forall reader, tools = Some reader -> ReaderFrame reader.

Abbreviation process a := (process_once lock_ttl timeout max_attempts tools a).
Abbreviation answer a := (answer_job lock_ttl tools a).

Lemma job_failed_ledger job e : keeps_db ledger_progress (job_failed max_attempts job e).
Proof.
  unfold job_failed, fail, _transition.
  assert (forall p f, keeps_db ledger_progress (update_returning (R := MessageRecord) p f)) as Hu.
  { intros p f. apply same_attempts_progress, set_tbl_frame; [apply _|by intros ? ?]. }
  repeat first [apply Hu | keeps_step].
Qed.

Lemma settle_job_ledger job result : keeps_db ledger_progress (settle_job job result).
Proof.
  unfold settle_job, complete, fail, _transition.
  assert (forall p f, keeps_db ledger_progress (update_returning (R := MessageRecord) p f)) as Hu.
  { intros p f. apply same_attempts_progress, set_tbl_frame; [apply _|by intros ? ?]. }
  repeat first [apply Hu | keeps_step].
Qed.

Lemma claim_next_ledger : keeps_db ledger_progress (claim_next timeout).
Proof.
  intros w. apply ledger_progress_same. by destruct (job_claim_progress timeout w) as (_ & _ & _ & _ & ? & _).
Qed.

Lemma respond_persisted_ledger message acct cid :
  keeps_db ledger_progress (respond_persisted lock_ttl tools message acct cid).
Proof.
  apply same_attempts_progress, respond_persisted_keeps;
    [done|apply _|intros; apply record_outbound_attempts|apply request_attempts].
Qed.

(** The part of [answer_job] before the delivery; the adapter is not in it. *)
Definition answer_request (job : ClaimedInbound) : M DeliveryRequest :=
  reply ← respond_persisted lock_ttl tools (ci_message job) (ci_channel_account_id job)
    (ci_conversation_record_id job);
  t ← now;
  window ← lift (window_at t (im_received_at (ci_message job)));
  lift (reply_request (ci_message job) reply window).

Lemma answer_split a job w :
  answer a job w = (request ← answer_request job; send a (ci_conversation_record_id job) request) w.
Proof.
  unfold answer_job, answer_request. rewrite !bind_run. destruct (respond_persisted _ _ _ _ _ w) as [[reply|e] w1]; [|done].
  rewrite !bind_run. destruct (now w1) as [[t|e] w2]; [|done].
  rewrite !bind_run. destruct (lift _ w2) as [[win|e] w3]; [|done]. by rewrite !bind_run.
Qed.

Lemma answer_request_ledger job : keeps_db ledger_progress (answer_request job).
Proof.
  unfold answer_request. apply keeps_bind; [apply _|apply respond_persisted_ledger|]. intros. keeps_auto.
Qed.

Lemma answer_request_key job w req w' :
  answer_request job w = (Ok req, w') -> dr_idempotency_key req = reply_key (ci_message job).
Proof.
  unfold answer_request. intros (reply & w1 & _ & Hr)%bind_ok_inv.
  apply bind_ok_inv in Hr as (t & w2 & _ & Hr). apply bind_ok_inv in Hr as (win & w3 & _ & Hr).
  by apply lift_ok_inv in Hr as [[_ ->]%construct_ok _].
Qed.

Variable adapter : DeliveryRequest -> M DeliveryResult.
Hypothesis adapter_ledger : forall r, keeps_db ledger_progress (adapter r).

Lemma answer_ledger job : keeps_db ledger_progress (answer adapter job).
Proof.
  intros w. unfold db_rel. rewrite answer_split. revert w.
  apply (keeps_bind (db_rel ledger_progress)); [apply answer_request_ledger|]. intros. by apply send_ledger.
Qed.

Lemma process_job_ledger job w :
  ledger_progress (w_db (answer adapter job w).2)
    (w_db (process_job lock_ttl max_attempts tools adapter job w).2).
Proof.
  unfold process_job, try_except. rewrite bind_run.
  destruct (answer adapter job w) as [[result|e] w1]; cbn [snd].
  - rewrite bind_run. pose proof (settle_job_ledger job result w1) as Hs.
    destruct (settle_job job result w1) as [[[]|e] w2]; [exact Hs|].
    etrans; [exact Hs|]. revert w2 Hs. intros w2 _. rewrite bind_run.
    pose proof (job_failed_ledger job e w2) as Hf. by destruct (job_failed _ _ _ w2) as [[[]|e'] w3].
  - rewrite bind_run. pose proof (job_failed_ledger job e w1) as Hf.
    by destruct (job_failed _ _ _ w1) as [[[]|e'] w3].
Qed.

Lemma process_once_ledger : keeps_db ledger_progress (process adapter).
Proof.
  assert (forall job, keeps_db ledger_progress (process_job lock_ttl max_attempts tools adapter job)) as Hjob.
  { intros job w0. unfold db_rel. etrans; [apply (answer_ledger job w0)|apply process_job_ledger]. }
  unfold process_once. apply keeps_bind; [apply _|apply claim_next_ledger|].
  intros [job|]; [apply Hjob|apply keeps_ret, _].
Qed.

(** *** The requests the provider receives *)

Hypothesis engine_posts : forall packet turns text, keeps no_posts (engine_respond packet turns text).
Hypothesis tools_posts : forall reader query commerce,
  tools = Some reader -> keeps no_posts (br_search query commerce).
Hypothesis adapter_post : forall r, one_post (adapter r).

(** The provider received nothing; or one request, for a key that was not in
    the ledger before and is after. *)
Definition paid_for (key : str) (w w' : World) : Prop :=
  posts w' = posts w \/ posts w' = S (posts w) /\ ~ has_key w key /\ has_key w' key.

Lemma paid_for_frame key w0 w w' w1 :
  posts w = posts w0 -> ledger_progress (w_db w0) (w_db w) -> paid_for key w w' ->
  posts w1 = posts w' -> ledger_progress (w_db w') (w_db w1) -> paid_for key w0 w1.
Proof.
  intros Hp0 Hl0 [Hp|(Hp & Hn & Hk)] Hp1 Hl1; [left; congruence|right]. split; [congruence|].
  split; [intros Hk0; apply Hn|]; by eapply has_key_progress.
Qed.

Lemma send_posts cid req w : paid_for (dr_idempotency_key req) w (send adapter cid req w).2.
Proof.
  destruct (send adapter cid req w) as [r w'] eqn:Hs. cbn [snd]. apply send_cut in Hs as (rc & w1 & Hc & Hs).
  cbv zeta in Hs. pose proof (claim_posts cid req (tick w)) as Hp1. rewrite Hc in Hp1.
  assert (posts w1 = posts w) as Hp by exact Hp1. clear Hp1.
  assert (forall result t x, (_emit_attempt result t ≫= fun _ => mret result) x = (r, w') ->
    posts w' = posts x /\ ledger_progress (w_db x) (w_db w')) as Hemit.
  { intros result t x He. destruct (emit_attempt_step cid req result t x r w' [] He) as (_ & Hpx & _).
    split; [exact Hpx|]. apply ledger_progress_same. assert (keeps_db (=) (_emit_attempt result t)) as Hk
      by apply keeps_emit_attempt, _. specialize (Hk x). unfold db_rel in Hk. rewrite bind_run in He.
    destruct (_emit_attempt result t x) as [[a|e] w0]; injection He as <- <-; by rewrite Hk. }
  destruct rc as [c|e]; [|destruct Hs as [-> ->]; by left].
  destruct (claim_key _ _ _ _ _ Hc) as (Hn & row & Hrow & Hkey).
  destruct (claim_created c).
  - assert (has_key w1 (dr_idempotency_key req)) as Hk1 by (by eexists _, _).
    pose proof (adapter_post req w1) as Hp2. pose proof (adapter_ledger req w1) as Hl2.
    destruct (adapter req w1) as [ra w2]. unfold db_rel in Hl2. cbn [snd] in Hp2, Hl2.
    assert (posts w' = posts w2 -> has_key w' (dr_idempotency_key req) -> paid_for (dr_idempotency_key req) w w')
      as Hend.
    { intros Hp3 Hk3. destruct (decide (posts w' = posts w)) as [?|Hne]; [by left|right].
      split; [lia|]. split; [exact (Hn eq_refl)|exact Hk3]. }
    assert (has_key w2 (dr_idempotency_key req)) as Hk2 by (by eapply has_key_progress).
    destruct ra as [result|e]; [|destruct Hs as [-> ->]; by apply Hend].
    destruct Hs as (rf & w3 & Hf & Hs).
    pose proof (finalize_posts (snap_id (claim_attempt c)) result w2) as Hp3.
    pose proof (keeps_finalize (snap_id (claim_attempt c)) result w2) as Hl3. rewrite Hf in Hp3, Hl3.
    unfold no_posts, db_rel in Hp3, Hl3. cbn [snd] in Hp3, Hl3.
    assert (has_key w3 (dr_idempotency_key req)) as Hk3 by (by eapply has_key_progress).
    destruct rf as [[]|e]; [|destruct Hs as [-> ->]; by apply Hend].
    destruct (Hemit _ _ _ Hs) as [Hp4 Hl4]. apply Hend; [congruence|]. by eapply has_key_progress.
  - left. destruct (_existing_result (claim_attempt c)) as [result|e]; [|by destruct Hs as [_ ->]].
    destruct (Hemit _ _ _ Hs) as [Hp4 _]. congruence.
Qed.

Lemma answer_request_posts job : keeps no_posts (answer_request job).
Proof.
  unfold answer_request. apply keeps_bind; [apply _| |].
  { apply respond_persisted_frame; [apply _|exact engine_posts|exact tools_posts]. }
  intros reply. repeat frame_step.
Qed.

Lemma answer_posts job w : paid_for (reply_key (ci_message job)) w (answer adapter job w).2.
Proof.
  rewrite answer_split, bind_run. pose proof (answer_request_ledger job w) as Hl.
  pose proof (answer_request_posts job w) as Hp. unfold db_rel, no_posts in Hl, Hp.
  destruct (answer_request job w) as [[req|e] w1] eqn:Hr; cbn [snd] in *; [|by left].
  apply answer_request_key in Hr. rewrite <- Hr. eapply paid_for_frame; [exact Hp|exact Hl|apply send_posts|done|done].
Qed.

Lemma process_job_posts job w :
  posts (process_job lock_ttl max_attempts tools adapter job w).2 = posts (answer adapter job w).2.
Proof.
  unfold process_job, try_except. rewrite bind_run.
  assert (forall e w1, posts ((job_failed max_attempts job e;; mret true) w1).2 = posts w1) as Hfail.
  { intros e w1. rewrite bind_run. pose proof (job_failed_frame no_posts max_attempts job e w1) as Hf.
    by destruct (job_failed _ _ _ w1) as [[[]|e'] w2]. }
  destruct (answer adapter job w) as [[result|e] w1]; cbn [snd]; [|apply Hfail].
  rewrite bind_run. pose proof (settle_frame no_posts job result w1) as Hs. unfold no_posts in Hs.
  destruct (settle_job job result w1) as [[[]|e] w2]; [exact Hs|]. by rewrite Hfail.
Qed.

Lemma round_posts w :
  let w' := (process adapter w).2 in
  posts w' = posts w \/
  exists job w1, claim_next timeout w = (Ok (Some job), w1) /\ posts w' = S (posts w) /\
    ~ has_key w (reply_key (ci_message job)) /\ has_key w' (reply_key (ci_message job)).
Proof.
  cbv zeta. unfold process_once. rewrite bind_run.
  pose proof (claim_next_ledger w) as Hl. pose proof (claim_next_frame no_posts timeout w) as Hp.
  unfold db_rel, no_posts in Hl, Hp.
  destruct (claim_next timeout w) as [[[job|]|e] w1] eqn:Hc; cbn [snd] in *; [|by left..].
  destruct (paid_for_frame (reply_key (ci_message job)) w w1 (answer adapter job w1).2
    (process_job lock_ttl max_attempts tools adapter job w1).2) as [?|(? & ? & ?)];
    [exact Hp|exact Hl|apply answer_posts|apply process_job_posts|apply process_job_ledger|by left|].
  right. by exists job, w1.
Qed.

(** A history of rounds, each with the keys of the requests the provider
    received in it: the key of the reply to the message of the job the round
    claimed, once per request.  Between two rounds anything may happen that
    loses no attempt of the ledger and sends the provider nothing. *)
Definition round_keys (w : World) : list str :=
  replicate (posts (process adapter w).2 - posts w)
    (match (claim_next timeout w).1 with Ok (Some job) => reply_key (ci_message job) | _ => [] end).

Inductive rounds : World -> list str -> World -> Prop :=
| rounds_none w : rounds w [] w
| rounds_round w keys w' : rounds w keys w' -> rounds w (round_keys w' ++ keys) (process adapter w').2
| rounds_other w keys w' w'' : rounds w keys w' ->
    ledger_progress (w_db w') (w_db w'') -> posts w'' = posts w' -> rounds w keys w''.

Lemma rounds_once w keys w' :
  rounds w keys w' ->
  NoDup keys /\ posts w' = (length keys + posts w)%nat /\ ledger_progress (w_db w) (w_db w') /\
  Forall (fun key => ~ has_key w key /\ has_key w' key) keys.
Proof.
  induction 1 as [w|w keys w' _ (Hn & Hp & Hl & Hk)|w keys w' w'' _ (Hn & Hp & Hl & Hk) Hl' Hp'].
  - split_and!; [constructor|done|done|constructor].
  - pose proof (process_once_ledger w') as Hl'. unfold db_rel in Hl'.
    assert (Forall (fun key => ~ has_key w key /\ has_key (process adapter w').2 key) keys) as Hk'.
    { eapply Forall_impl; [exact Hk|]. intros key [Ha Hb]. split; [done|by eapply has_key_progress]. }
    assert (ledger_progress (w_db w) (w_db (process adapter w').2)) as Hl2 by (by etrans).
    unfold round_keys. destruct (round_posts w') as [Heq|(job & w1 & Hc & Heq & Hno & Hyes)]; rewrite Heq.
    + rewrite Nat.sub_diag. by split_and!.
    + rewrite Hc. replace (S (posts w') - posts w')%nat with 1%nat by lia. cbn [replicate app fst length].
      split_and!; [|lia|done|].
      * constructor; [|done]. intros Hin. rewrite Forall_forall in Hk. by destruct (Hk _ Hin).
      * constructor; [|done]. split; [|done]. intros Hw. apply Hno. by eapply has_key_progress.
  - split_and!; [done|lia|by etrans|].
    eapply Forall_impl; [exact Hk|]. intros key [Ha Hb]. split; [done|by eapply has_key_progress].
Qed.

(** C5. The provider receives at most one request for the reply to a message,
    over any number of rounds of the worker, however many times its job is
    claimed, and whatever else happens between the rounds.  In a history of
    rounds the requests the provider received are listed by the key of the
    message they answer: the list has no duplicates and as many elements as
    there were requests, and each of its keys was not in the ledger at the
    start and is at the end.  The adapter is any that loses no attempt and
    sends one request at most; the engine and the API of BuenPick are not the
    provider. *)
Theorem reply_sent_once w keys w' :
  rounds w keys w' ->
  NoDup keys /\ posts w' = (length keys + posts w)%nat /\
  Forall (fun key => ~ has_key w key /\ has_key w' key) keys.
Proof. intros Hr. destruct (rounds_once w keys w' Hr) as (? & ? & _ & ?). done. Qed.
End once.

(** ** Evaluations *)

Section concrete.
#[local] Existing Instances latin1_ucd map_engine scheduled_server sample_env no_locks friendly_engine friendly_laws.

(** A provider that accepts everything. *)
Definition accepting (request : DeliveryRequest) : M DeliveryResult :=
  mret {| dres_status := DS_ACCEPTED; dres_provider_message_id := Some (u "wamid.out");
          dres_error_code := None; dres_error_message := None;
          dres_trace_id := dr_trace_id request; dres_metadata := [] |}.

(** A provider that cannot be reached. *)
Definition unreachable (request : DeliveryRequest) : M DeliveryResult := raise TypeError.

Definition work_once (a : DeliveryRequest -> M DeliveryResult) : M bool :=
  process_once 30 60 3 no_tools a.
Definition worked_world : World := (work_once accepting queued_world).2.

Definition job_status (w : World) (k : Z) : option (option str) :=
  m_processing_status <$> rows (db_messages (w_db w)) !! k.

Example job_completed :
  (work_once accepting queued_world).1 = Ok true /\
  job_status worked_world 101 = Some (Some (u "completed")) /\
  (work_once accepting worked_world).1 = Ok false.
Proof. vm_compute. done. Qed.

Example job_retried :
  job_status (work_once unreachable queued_world).2 101 = Some (Some (u "pending")).
Proof. vm_compute. done. Qed.

Lemma accepting_db R `{!PreOrder R} r : keeps_db R (accepting r).
Proof. apply keeps_ret, _. Qed.

(** The provider's results are legal when the traces are. *)
Definition checked (request : DeliveryRequest) : M DeliveryResult :=
  lift (construct {| dres_status := DS_ACCEPTED; dres_provider_message_id := Some (u "wamid.out");
    dres_error_code := None; dres_error_message := None;
    dres_trace_id := dr_trace_id request; dres_metadata := [] |}).

Lemma checked_ok req w0 x w0' : checked req w0 = (Ok x, w0') -> contract_ok x = true.
Proof. by intros [[? ->]%construct_ok _]%lift_ok_inv. Qed.

Lemma checked_db R `{!PreOrder R} r : keeps_db R (checked r).
Proof. apply keeps_lift, _. Qed.

Lemma worker_ends_claimed_job_witness :
  exists busy w', work_once checked queued_world = (Ok busy, w') /\ busy = true.
Proof.
  destruct (worker_ends_claimed_job 30 60 3 no_tools no_tools_frame checked
    (fun r => checked_db same_db_messages r) queued_world) as (busy & w' & Hrun & _).
  - done.
  - apply queued_wf.
  - exact checked_ok.
  - exists busy, w'. split; [exact Hrun|].
    assert ((work_once checked queued_world).1 = Ok true) as He by (vm_compute; reflexivity).
    unfold work_once in He. rewrite Hrun in He. by injection He.
Defined.

Lemma worker_drains_witness :
  work 3 (w_db queued_world) = 3 /\
  let '(busy, w') := worker_runs 30 60 3 no_tools accepting 5 queued_world in
  busy + work 3 (w_db w') <= work 3 (w_db queued_world).
Proof.
  split; [vm_compute; reflexivity|].
  pose proof (worker_drains 30 60 3 no_tools no_tools_frame accepting
    (fun r => accepting_db same_db_messages r) 5 queued_world) as Hd. exact Hd.
Defined.

Definition the_job : ClaimedInbound := job_of 101 1 (u "phone-1") sample_message 1700000000000002.

Lemma completed_job_accepted_witness :
  exists id row status, rows (db_attempts (w_db worked_world)) !! id = Some row /\
    a_idempotency_key row = reply_key (ci_message the_job) /\
    a_status row = enum_value status /\ provider_status status = true.
Proof.
  assert (exists m, rows (db_messages (w_db worked_world)) !! 101 = Some m /\
    status_is PR_COMPLETED m = true) as (m & Hm & Hs).
  { destruct (rows (db_messages (w_db worked_world)) !! 101) as [m|] eqn:Hm;
      [|vm_compute in Hm; discriminate].
    exists m. split; [done|]. assert (job_status worked_world 101 = Some (Some (u "completed"))) as Hj
      by (vm_compute; reflexivity).
    unfold job_status in Hj. rewrite Hm in Hj. injection Hj as Hj. unfold status_is. by rewrite Hj. }
  eapply (completed_job_accepted 30 60 3 no_tools no_tools_frame accepting
    (fun r => accepting_db same_db_messages r) queued_world the_job
    (claim_next 60 queued_world).2 (Ok true) worked_world m (fun r => accepting_db ledger_progress r)).
  - apply run_fst. vm_compute. reflexivity.
  - apply (run_fst (work_once accepting)). vm_compute. reflexivity.
  - exact Hm.
  - exact Hs.
Defined.

(** A provider that receives one request and accepts it. *)
Definition posted (request : DeliveryRequest) : M DeliveryResult :=
  _ ← http {| hq_service := SVC_META; hq_path := u "phone-1/messages"; hq_params := []; hq_body := None |};
  accepting request.

Lemma posted_ledger r : keeps_db ledger_progress (posted r).
Proof. apply keeps_bind; [apply _|apply keeps_db_http, _|]. intros. by apply accepting_db, _. Qed.

Lemma friendly_posts packet turns text : keeps no_posts (engine_respond packet turns text).
Proof. apply (composer_frame no_posts friendly_adapter). intros r. apply keeps_ret, _. Qed.

(** The job of [queued_world] is run, put back into the queue as it was, and run
    again. *)
Definition posted_world : World := (work_once posted queued_world).2.
Definition requeued_world : World :=
  with_db (set_tbl (db_messages (w_db queued_world)) (w_db posted_world)) posted_world.

Lemma reply_sent_once_witness :
  let w' := (work_once posted requeued_world).2 in
  exists keys, rounds 30 60 3 no_tools posted queued_world keys w' /\
    (claim_next 60 requeued_world).1 = Ok (Some the_job) /\
    NoDup keys /\ posts w' = (length keys + posts queued_world)%nat /\ posts w' = S (posts queued_world).
Proof.
  intros w'.
  assert (rounds 30 60 3 no_tools posted queued_world
    (round_keys 30 60 3 no_tools posted requeued_world ++
     round_keys 30 60 3 no_tools posted queued_world ++ []) w') as Hr.
  { apply rounds_round, (rounds_other _ _ _ _ _ _ _ posted_world); [apply rounds_round, rounds_none| |].
    - apply ledger_progress_same. vm_compute. reflexivity.
    - vm_compute. reflexivity. }
  eexists. split; [exact Hr|]. split; [vm_compute; reflexivity|].
  destruct (reply_sent_once 30 60 3 no_tools no_tools_frame posted posted_ledger friendly_posts
    (fun _ _ _ Hn => False_ind _ (eq_ind None (fun o => match o with None => True | Some _ => False end) I _ Hn))
    (fun r w => http_post w _) queued_world _ w' Hr) as (Hn & Hp & _).
  split; [exact Hn|]. split; [exact Hp|]. vm_compute. reflexivity.
Defined.

(** A claim that was taken over while the reply was sent: the job is ended
    already, [complete] raises, [fail] raises in the [except] clause, and the
    [RuntimeError] leaves [process_once]. *)
Theorem lost_claim_escapes :
  (work_once (fun request => complete 101;; accepting request) queued_world).1 =
    Raise (RuntimeError (u "message processing claim is no longer active")).
Proof. vm_compute. reflexivity. Qed.
End concrete.
