(* ===== verification/Config.v ===== *)
(** * Settings ([src/piki/core/config.py])

    The settings of the program as one record, the check a [Settings] object
    passes when it is built from raw values, and the secrets read from files.
    [Files] is the file system: what [Path.read_text] answers for a path, the
    same at every reading.  Where the raw values come from (the environment,
    [.env]) is the job of pydantic-settings.  A float is the rational number it
    denotes. *)
From Stdlib Require Import QArith.
From S2P Require Import Prelude PyStr Errors.

Local Open Scope Z_scope.

Inductive Environment := ENV_DEVELOPMENT | ENV_TEST | ENV_PRODUCTION.
#[export] Instance Environment_eq_dec : EqDecision Environment.
Proof. solve_decision. Defined.
#[export] Program Instance Environment_enum : StrEnum Environment := {|
  enum_all := [ENV_DEVELOPMENT; ENV_TEST; ENV_PRODUCTION];
  enum_value e :=
    match e with
    | ENV_DEVELOPMENT => u "development"
    | ENV_TEST => u "test"
    | ENV_PRODUCTION => u "production"
    end
|}.
Solve All Obligations with enum_laws.

(** A [SecretStr] is the text it hides, a [Path] its text. *)
Record Settings := {
  st_app_name : str;
  st_app_version : str;
  st_environment : Environment;
  st_host : str;
  st_port : Z;
  st_log_level : str;
  st_database_url : str;
  st_database_url_file : option str;
  st_redis_url : str;
  st_active_pick_ttl_seconds : Z;
  st_conversation_lock_ttl_seconds : Z;
  st_message_dedup_ttl_seconds : Z;
  st_pending_action_ttl_seconds : Z;
  st_llm_provider : option str;
  st_llm_model : option str;
  st_llm_api_key : option str;
  st_llm_api_key_file : option str;
  st_llm_base_url : str;
  st_llm_timeout_seconds : Q;
  st_llm_max_attempts : Z;
  st_llm_max_output_tokens : Z;
  st_meta_app_id : option str;
  st_meta_app_secret : option str;
  st_meta_app_secret_file : option str;
  st_meta_waba_id : option str;
  st_meta_phone_number_id : option str;
  st_meta_access_token : option str;
  st_meta_access_token_file : option str;
  st_meta_webhook_verify_token : option str;
  st_meta_webhook_verify_token_file : option str;
  st_meta_graph_api_version : option str;
  st_meta_graph_base_url : str;
  st_meta_delivery_timeout_seconds : Q;
  st_meta_ingress_enabled : bool;
  st_conversation_enabled : bool;
  st_conversation_worker_enabled : bool;
  st_conversation_worker_poll_seconds : Q;
  st_conversation_worker_claim_timeout_seconds : Z;
  st_conversation_worker_max_attempts : Z;
  st_local_console_enabled : bool;
  st_readiness_timeout_seconds : Q;
  st_worker_heartbeat_path : str;
  st_worker_heartbeat_seconds : Q;
  st_buenpick_internal_api_base_url : str;
  st_buenpick_internal_api_token : option str;
  st_buenpick_internal_api_token_file : option str;
  st_buenpick_timeout_seconds : Q;
  st_buenpick_max_attempts : Z;
  st_buenpick_allow_production : bool
}.

Definition in_range (lo hi n : Z) : bool := (lo <=? n) && (n <=? hi).
(** [Field(gt=0, le=hi)] and [Field(ge=lo, le=hi)] of a float. *)
Definition positive_le (hi x : Q) : bool := negb (Qle_bool x 0) && Qle_bool x hi.
Definition between (lo hi x : Q) : bool := Qle_bool lo x && Qle_bool x hi.

(** The bounds of the fields. *)
Definition settings_in_bounds (s : Settings) : bool :=
  in_range 1 65535 (st_port s) &&
  in_range 60 86400 (st_active_pick_ttl_seconds s) &&
  in_range 5 300 (st_conversation_lock_ttl_seconds s) &&
  in_range 3600 2592000 (st_message_dedup_ttl_seconds s) &&
  in_range 60 86400 (st_pending_action_ttl_seconds s) &&
  positive_le 60 (st_llm_timeout_seconds s) &&
  in_range 1 5 (st_llm_max_attempts s) &&
  in_range 64 4096 (st_llm_max_output_tokens s) &&
  positive_le 60 (st_meta_delivery_timeout_seconds s) &&
  between (1 # 10) 30 (st_conversation_worker_poll_seconds s) &&
  in_range 30 3600 (st_conversation_worker_claim_timeout_seconds s) &&
  in_range 1 10 (st_conversation_worker_max_attempts s) &&
  positive_le 10 (st_readiness_timeout_seconds s) &&
  between 1 60 (st_worker_heartbeat_seconds s) &&
  positive_le 30 (st_buenpick_timeout_seconds s) &&
  in_range 1 5 (st_buenpick_max_attempts s).

Definition blank_optional_value (value : option str) : option str :=
  match value with
  | Some text => if truthy (strip text) then Some text else None
  | None => None
  end.

(** The [mode="before"] validator on the sixteen optional fields it names. *)
Definition blanked (s : Settings) : Settings := {|
  st_app_name := st_app_name s; st_app_version := st_app_version s;
  st_environment := st_environment s; st_host := st_host s; st_port := st_port s;
  st_log_level := st_log_level s; st_database_url := st_database_url s;
  st_database_url_file := st_database_url_file s; st_redis_url := st_redis_url s;
  st_active_pick_ttl_seconds := st_active_pick_ttl_seconds s;
  st_conversation_lock_ttl_seconds := st_conversation_lock_ttl_seconds s;
  st_message_dedup_ttl_seconds := st_message_dedup_ttl_seconds s;
  st_pending_action_ttl_seconds := st_pending_action_ttl_seconds s;
  st_llm_provider := blank_optional_value (st_llm_provider s);
  st_llm_model := blank_optional_value (st_llm_model s);
  st_llm_api_key := blank_optional_value (st_llm_api_key s);
  st_llm_api_key_file := blank_optional_value (st_llm_api_key_file s);
  st_llm_base_url := st_llm_base_url s;
  st_llm_timeout_seconds := st_llm_timeout_seconds s;
  st_llm_max_attempts := st_llm_max_attempts s;
  st_llm_max_output_tokens := st_llm_max_output_tokens s;
  st_meta_app_id := blank_optional_value (st_meta_app_id s);
  st_meta_app_secret := blank_optional_value (st_meta_app_secret s);
  st_meta_app_secret_file := blank_optional_value (st_meta_app_secret_file s);
  st_meta_waba_id := blank_optional_value (st_meta_waba_id s);
  st_meta_phone_number_id := blank_optional_value (st_meta_phone_number_id s);
  st_meta_access_token := blank_optional_value (st_meta_access_token s);
  st_meta_access_token_file := blank_optional_value (st_meta_access_token_file s);
  st_meta_webhook_verify_token := blank_optional_value (st_meta_webhook_verify_token s);
  st_meta_webhook_verify_token_file := blank_optional_value (st_meta_webhook_verify_token_file s);
  st_meta_graph_api_version := blank_optional_value (st_meta_graph_api_version s);
  st_meta_graph_base_url := st_meta_graph_base_url s;
  st_meta_delivery_timeout_seconds := st_meta_delivery_timeout_seconds s;
  st_meta_ingress_enabled := st_meta_ingress_enabled s;
  st_conversation_enabled := st_conversation_enabled s;
  st_conversation_worker_enabled := st_conversation_worker_enabled s;
  st_conversation_worker_poll_seconds := st_conversation_worker_poll_seconds s;
  st_conversation_worker_claim_timeout_seconds := st_conversation_worker_claim_timeout_seconds s;
  st_conversation_worker_max_attempts := st_conversation_worker_max_attempts s;
  st_local_console_enabled := st_local_console_enabled s;
  st_readiness_timeout_seconds := st_readiness_timeout_seconds s;
  st_worker_heartbeat_path := st_worker_heartbeat_path s;
  st_worker_heartbeat_seconds := st_worker_heartbeat_seconds s;
  st_buenpick_internal_api_base_url := st_buenpick_internal_api_base_url s;
  st_buenpick_internal_api_token := blank_optional_value (st_buenpick_internal_api_token s);
  st_buenpick_internal_api_token_file := blank_optional_value (st_buenpick_internal_api_token_file s);
  st_buenpick_timeout_seconds := st_buenpick_timeout_seconds s;
  st_buenpick_max_attempts := st_buenpick_max_attempts s;
  st_buenpick_allow_production := st_buenpick_allow_production s
|}.

(** ** Secrets *)

(** [Path(p).read_text(encoding="utf-8")]. *)
Class Files := { read_text : str -> res str }.

Section settings.
Context `{Files}.

Definition is_production (s : Settings) : bool := bool_decide (st_environment s = ENV_PRODUCTION).

Definition resolved_database_url (s : Settings) : res str :=
  match st_database_url_file s with
  | None => Ok (st_database_url s)
  | Some path =>
      text ← read_text path;
      if truthy (strip text) then Ok (strip text)
      else Raise (ValueError (u "database URL secret file is empty"))
  end.

Definition _resolved_secret (direct secret_file : option str) (name : str) : res (option str) :=
  match secret_file with
  | None => Ok direct
  | Some path =>
      text ← read_text path;
      if truthy (strip text) then Ok (Some (strip text))
      else Raise (ValueError (name ++ u " secret file is empty"))
  end.

Definition resolved_meta_app_secret (s : Settings) : res (option str) :=
  _resolved_secret (st_meta_app_secret s) (st_meta_app_secret_file s) (u "Meta app secret").
Definition resolved_llm_api_key (s : Settings) : res (option str) :=
  _resolved_secret (st_llm_api_key s) (st_llm_api_key_file s) (u "LLM API key").
Definition resolved_buenpick_internal_api_token (s : Settings) : res (option str) :=
  _resolved_secret (st_buenpick_internal_api_token s) (st_buenpick_internal_api_token_file s)
    (u "BuenPick Internal API token").
Definition resolved_meta_access_token (s : Settings) : res (option str) :=
  _resolved_secret (st_meta_access_token s) (st_meta_access_token_file s) (u "Meta access token").
Definition resolved_meta_webhook_verify_token (s : Settings) : res (option str) :=
  _resolved_secret (st_meta_webhook_verify_token s) (st_meta_webhook_verify_token_file s)
    (u "Meta webhook verify token").

(** ** Validation *)

(** [if value is None: raise ValueError(message)]. *)
Definition required (value : option str) (message : str) : res str :=
  match value with Some v => Ok v | None => Raise (ValueError message) end.

Definition validate_meta_ingress_configuration (s : Settings) : res unit :=
  (if st_meta_ingress_enabled s then
     app_secret ← resolved_meta_app_secret s;
     _ ← required app_secret (u "Meta ingress requires an app secret");
     verify_token ← resolved_meta_webhook_verify_token s;
     _ ← required verify_token (u "Meta ingress requires a webhook verify token");
     _ ← required (st_meta_waba_id s) (u "Meta ingress requires a WABA ID");
     _ ← required (st_meta_phone_number_id s) (u "Meta ingress requires a phone number ID");
     Ok tt
   else Ok tt) ≫= fun _ =>
  if st_conversation_worker_enabled s then
    _ ← (if st_conversation_enabled s then Ok tt
         else Raise (ValueError (u "conversation worker requires conversation runtime")));
    access_token ← resolved_meta_access_token s;
    _ ← required access_token (u "conversation worker requires a Meta access token");
    _ ← required (st_meta_phone_number_id s) (u "conversation worker requires a Meta phone number ID");
    _ ← required (st_meta_graph_api_version s)
          (u "conversation worker requires a Meta Graph API version");
    Ok tt
  else Ok tt.

(** [Settings(...)] on raw values of the right types: blank values dropped, the
    bounds checked, then the [mode="after"] validator, whose [ValueError]s
    pydantic reports as a [ValidationError]; a file error is not one. *)
Definition make_settings (raw : Settings) : res Settings :=
  let s := blanked raw in
  if settings_in_bounds s then
    match validate_meta_ingress_configuration s with
    | Ok _ => Ok s
    | Raise e => if is_value_error e then Raise (ValidationError (u "Settings")) else Raise e
    end
  else Raise (ValidationError (u "Settings")).
End settings.

(** [get_settings], under [lru_cache]: the object built by the first call that
    returned, or one built from [raw], what the environment says now. *)
Definition get_settings `{Files} (raw : Settings) (cache : option Settings)
    : res Settings * option Settings :=
  match cache with
  | Some s => (Ok s, cache)
  | None => match make_settings raw with
            | Ok s => (Ok s, Some s)
            | Raise e => (Raise e, None)
            end
  end.

Lemma make_settings_bounds `{Files} raw s : make_settings raw = Ok s -> settings_in_bounds s = true.
Proof.
  unfold make_settings. destruct (settings_in_bounds (blanked raw)) eqn:Hb; [|done].
  destruct (validate_meta_ingress_configuration _) as [|e]; [by intros [= <-]|by destruct (is_value_error e)].
Qed.
