(* ===== verification/Resources.v ===== *)
(** * Engines, pools and clients

    The connections the program holds: the [create_*] functions open them, the
    [close] methods and the lifespan of the application close them
    ([db/session.py], [state/*.py], [integrations/*/*.py],
    [conversation/service.py], [conversation/worker.py], [api/health.py],
    [api/app.py]).  The constructors and the closing of an SQLAlchemy engine, a
    Redis client and an httpx client are [Libraries] of [Startup]: any of them may raise.  A
    computation works on the log of what was opened and what was closed; the
    handle of a resource is its position in the log. *)
From Stdlib Require Import QArith.
From S2P Require Import Prelude PyStr Errors Config Contracts Sha256 Events Sql Redis Models World.
From S2P Require Import Session Pydantic Llm BuenPickModels BuenPick MetaDelivery State Coordination.
From S2P Require Import Startup.

Local Open Scope Z_scope.

(** ** Resources *)

Inductive resource_event := Opened (r : resource) | Closed (handle : nat).

Definition H (A : Type) : Type := list resource_event -> res A * list resource_event.
#[global] Instance H_ret : MRet H := fun A a log => (Ok a, log).
#[global] Instance H_bind : MBind H := fun A B f m log =>
  match m log with
  | (Ok a, log') => f a log'
  | (Raise e, log') => (Raise e, log')
  end.

Definition from_res {A} (r : res A) : H A := fun log => (r, log).

Section resources.
Context `{Libraries}.

Definition open_resource (r : resource) : H nat := fun log =>
  match open_error r with
  | Some e => (Raise e, log)
  | None => (Ok (length log), log ++ [Opened r])
  end.

(** [await x.dispose()], [await x.aclose()]. *)
Definition close_resource (handle : nat) : H unit := fun log =>
  (match close_error handle with Some e => Raise e | None => Ok tt end, log ++ [Closed handle]).

Fixpoint close_all (handles : list nat) : H unit :=
  match handles with
  | [] => mret tt
  | h :: handles => close_resource h;; close_all handles
  end.
End resources.

(** A client object: its options and its httpx client. *)
Record ClientHandle (O : Type) := { hc_options : O; hc_client : nat }.
Arguments hc_options {O} _.
Arguments hc_client {O} _.

(** ** [Database] *)

Record Database := { db_url : str; db_engine : nat }.

Section parts.
Context `{Libraries} `{Files} `{UrlParse}.

Definition new_database (database_url : str) : H Database :=
  engine ← open_resource (PgEngine database_url);
  mret {| db_url := database_url; db_engine := engine |}.

Definition close_database (d : Database) : H unit := close_resource (db_engine d).

Definition create_database (s : Settings) : H Database :=
  url ← from_res (resolved_database_url s); new_database url.

(** ** Redis *)

Record CoordinationHandle := { ch_parts : RedisCoordinationParts; ch_redis : nat }.

Definition new_redis_coordination (redis : nat) (s : Settings) : H CoordinationHandle :=
  lock_ttl ← from_res (check_ttl (u "lock TTL must be positive") (st_conversation_lock_ttl_seconds s));
  dedup_ttl ← from_res (check_ttl (u "dedup TTL must be positive") (st_message_dedup_ttl_seconds s));
  mret {| ch_parts := {| rc_redis_url := st_redis_url s; rc_lock_ttl_seconds := lock_ttl;
                         rc_dedup_ttl_seconds := dedup_ttl |};
          ch_redis := redis |}.

Definition close_coordination (c : CoordinationHandle) : H unit := close_resource (ch_redis c).

Definition create_redis_coordination (s : Settings) : H CoordinationHandle :=
  redis ← open_resource (RedisClient (st_redis_url s)); new_redis_coordination redis s.

(** A store with one client and a TTL. *)
Record StoreHandle := { sh_redis : nat; sh_ttl_seconds : Z }.

Definition new_store (message : str) (redis : nat) (ttl_seconds : Z) : H StoreHandle :=
  ttl ← from_res (check_ttl message ttl_seconds);
  mret {| sh_redis := redis; sh_ttl_seconds := ttl |}.

Definition close_store (store : StoreHandle) : H unit := close_resource (sh_redis store).

Definition create_active_pick_store (s : Settings) : H StoreHandle :=
  redis ← open_resource (RedisClient (st_redis_url s));
  new_store (u "active-pick TTL must be positive") redis (st_active_pick_ttl_seconds s).

Definition create_pending_action_store (s : Settings) : H StoreHandle :=
  redis ← open_resource (RedisClient (st_redis_url s));
  new_store (u "pending-action TTL must be positive") redis (st_pending_action_ttl_seconds s).

(** ** HTTP clients *)

Definition close_client {O} (c : ClientHandle O) : H unit := close_resource (hc_client c).

Definition llm_adapter (s : Settings) : H (ClientHandle Llm.AdapterOptions) :=
  api_key ← from_res (resolved_llm_api_key s);
  key ← from_res (required api_key (u "LLM API key is required"));
  model ← from_res (required (st_llm_model s) (u "LLM model is required"));
  options ← from_res (new_adapter key model (st_llm_max_attempts s) (st_llm_max_output_tokens s));
  client ← open_resource (llm_client s key);
  mret {| hc_options := options; hc_client := client |}.

Definition create_openai_responses_adapter (s : Settings) : H (ClientHandle Llm.AdapterOptions) :=
  if bool_decide (st_llm_provider s = Some (u "openai")) then llm_adapter s
  else from_res (Raise (ValueError (u "only the openai LLM provider is currently implemented"))).

Definition create_openai_chat_adapter (s : Settings) : H (ClientHandle Llm.AdapterOptions) :=
  if chat_provider (st_llm_provider s) then llm_adapter s
  else from_res (Raise (ValueError (u "LLM provider does not use chat completions"))).

Definition create_llm_adapter (s : Settings) : H (LlmProtocol * ClientHandle Llm.AdapterOptions) :=
  if bool_decide (st_llm_provider s = Some (u "openai"))
  then adapter ← create_openai_responses_adapter s; mret (LP_RESPONSES, adapter)
  else if chat_provider (st_llm_provider s)
  then adapter ← create_openai_chat_adapter s; mret (LP_CHAT, adapter)
  else from_res (Raise (ValueError (u "unsupported or missing LLM provider"))).

Definition create_buenpick_client (s : Settings) : H (ClientHandle ClientOptions) :=
  token ← from_res (resolved_buenpick_internal_api_token s);
  match token with
  | None => from_res (Raise (BuenPickConfigurationError (u "BuenPick token is required")))
  | Some token =>
      host ← from_res (hostname (st_buenpick_internal_api_base_url s));
      options ← from_res (new_client host token (st_buenpick_max_attempts s)
                            (st_buenpick_allow_production s));
      client ← open_resource (buenpick_client s token);
      mret {| hc_options := options; hc_client := client |}
  end.

Definition create_meta_delivery_adapter (s : Settings) : H (ClientHandle MetaDelivery.AdapterOptions) :=
  version ← from_res (required (st_meta_graph_api_version s) (u "Meta Graph API version is required"));
  phone ← from_res (required (st_meta_phone_number_id s) (u "Meta phone number ID is required"));
  token ← from_res (resolved_meta_access_token s);
  access_token ← from_res (required token (u "Meta access token is required"));
  options ← from_res (new_meta_adapter (st_meta_graph_base_url s) version phone access_token);
  client ← open_resource (meta_client s (mo_base_url options) access_token);
  mret {| hc_options := options; hc_client := client |}.

(** ** [ConversationOrchestrator] *)

Record OrchestratorHandle := {
  oh_database : Database;
  oh_coordination : CoordinationHandle;
  oh_llm : LlmProtocol * ClientHandle Llm.AdapterOptions;
  oh_buenpick : option (ClientHandle ClientOptions);
  oh_resources : list nat       (* [AsyncClosable]s, by their clients *)
}.

Definition close_orchestrator (o : OrchestratorHandle) : H unit :=
  close_all (reverse (oh_resources o));;
  close_coordination (oh_coordination o);;
  close_database (oh_database o).

(** The [try] around [create_buenpick_client]. *)
Definition optional_buenpick (s : Settings) : H (option (ClientHandle ClientOptions)) := fun log =>
  match create_buenpick_client s log with
  | (Ok client, log') => (Ok (Some client), log')
  | (Raise e, log') => (if is_buenpick_configuration e then Ok None else Raise e, log')
  end.

Definition create_conversation_orchestrator (s : Settings) : H OrchestratorHandle :=
  if negb (st_conversation_enabled s)
  then from_res (Raise (ValueError (u "conversation runtime is disabled")))
  else
    database ← create_database s;
    coordination ← create_redis_coordination s;
    llm ← create_llm_adapter s;
    buenpick_client ← optional_buenpick s;
    let resources := hc_client llm.2 :: match buenpick_client with Some c => [hc_client c] | None => [] end in
    mret {| oh_database := database; oh_coordination := coordination; oh_llm := llm;
            oh_buenpick := buenpick_client; oh_resources := resources |}.

(** ** [ConversationProcessingWorker] *)

Record WorkerHandle := {
  wh_database : Database;
  wh_orchestrator : OrchestratorHandle;
  wh_delivery : ClientHandle MetaDelivery.AdapterOptions
}.

Definition close_worker (w : WorkerHandle) : H unit :=
  close_client (wh_delivery w);; close_orchestrator (wh_orchestrator w);; close_database (wh_database w).

Definition create_processing_worker (s : Settings) : H WorkerHandle :=
  if negb (st_conversation_worker_enabled s)
  then from_res (Raise (ValueError (u "conversation worker is disabled")))
  else
    database ← create_database s;
    orchestrator ← create_conversation_orchestrator s;
    delivery_adapter ← create_meta_delivery_adapter s;
    mret {| wh_database := database; wh_orchestrator := orchestrator; wh_delivery := delivery_adapter |}.

(** ** [DefaultMetaWebhookIngress] *)

Record IngressHandle := { ih_database : Database; ih_coordination : CoordinationHandle }.

Definition close_ingress (i : IngressHandle) : H unit :=
  close_coordination (ih_coordination i);; close_database (ih_database i).

Definition create_default_meta_ingress (s : Settings) : H IngressHandle :=
  database ← create_database s;
  coordination ← create_redis_coordination s;
  mret {| ih_database := database; ih_coordination := coordination |}.

(** ** [InfrastructureReadiness] *)

Record ReadinessHandle := { rh_engine : nat; rh_redis : nat }.

Definition new_readiness (database_url redis_url : str) : H ReadinessHandle :=
  engine ← open_resource (PgEngine database_url);
  redis ← open_resource (RedisClient redis_url);
  mret {| rh_engine := engine; rh_redis := redis |}.

Definition close_readiness (r : ReadinessHandle) : H unit :=
  close_resource (rh_redis r);; close_resource (rh_engine r).

(** ** The application *)

Record AppHandle := {
  ah_readiness : ReadinessHandle;
  ah_ingress : option IngressHandle;            (* [owned_meta_ingress] *)
  ah_orchestrator : option OrchestratorHandle;  (* [owned_conversation_orchestrator] *)
  ah_parts : option str * option str            (* the secrets of the webhook *)
}.

Definition when {A} (b : bool) (m : H A) : H (option A) :=
  if b then a ← m; mret (Some a) else mret None.

(** [create_app(settings)]: no part is injected. *)
Definition create_app (s : Settings) : H AppHandle :=
  url ← from_res (resolved_database_url s);
  readiness ← new_readiness url (st_redis_url s);
  ingress ← when (st_meta_ingress_enabled s) (create_default_meta_ingress s);
  orchestrator ← when (st_conversation_enabled s && st_local_console_enabled s)
                      (create_conversation_orchestrator s);
  verify_token ← from_res (resolved_meta_webhook_verify_token s);
  app_secret ← from_res (resolved_meta_app_secret s);
  mret {| ah_readiness := readiness; ah_ingress := ingress; ah_orchestrator := orchestrator;
          ah_parts := (verify_token, app_secret) |}.

Definition close_owned {A} (close : A -> H unit) (o : option A) : H unit :=
  match o with Some a => close a | None => mret tt end.

(** The shutdown of [lifespan]: what follows its [yield]. *)
Definition shutdown (app : AppHandle) : H unit :=
  close_owned close_ingress (ah_ingress app);;
  close_owned close_orchestrator (ah_orchestrator app);;
  close_readiness (ah_readiness app).
End parts.

(** ** What a constructor opens *)

Section acquires.
Context `{Libraries}.

Implicit Types (log : list resource_event).

(** [m] opens resources one after the other and closes none; when it returns,
    [P] relates its result to the handles of what it opened. *)
Definition acquires {A} (m : H A) (P : A -> list nat -> Prop) : Prop :=
  forall log, exists rs, (m log).2 = log ++ map Opened rs /\
    forall a, (m log).1 = Ok a -> P a (seq (length log) (length rs)).

Lemma acquires_none {A} (r : res A) (P : A -> list nat -> Prop) :
  (forall a, r = Ok a -> P a []) -> acquires (from_res r) P.
Proof. intros HP log. exists []. cbn. by rewrite app_nil_r. Qed.

Lemma acquires_ret {A} (a : A) (P : A -> list nat -> Prop) : P a [] -> acquires (mret a) P.
Proof. intros HP. apply (acquires_none (Ok a)). by intros a' [= <-]. Qed.

Lemma acquires_open r : acquires (open_resource r) (fun h hs => hs = [h]).
Proof.
  intros log. unfold open_resource. destruct (open_error r).
  - exists []. cbn. rewrite app_nil_r. by split.
  - exists [r]. cbn. split; [done|]. by intros a [= <-].
Qed.

Lemma acquires_bind {A B} (m : H A) (f : A -> H B) P Q :
  acquires m P -> (forall a hs, P a hs -> acquires (f a) (fun b hs' => Q b (hs ++ hs'))) ->
  acquires (m ≫= f) Q.
Proof.
  intros Hm Hf log. unfold mbind, H_bind. destruct (Hm log) as (rs & Hl & HP).
  destruct (m log) as [[a|e] log1] eqn:Hr; cbn [fst snd] in *.
  - subst log1. destruct (Hf a _ (HP a eq_refl) (log ++ map Opened rs)) as (rs' & Hl' & HQ).
    exists (rs ++ rs'). rewrite Hl', map_app, app_assoc. split; [done|].
    intros b Hb. rewrite length_app, seq_app. specialize (HQ b Hb).
    by rewrite length_app, length_map in HQ.
  - exists rs. by split.
Qed.

Lemma acquires_weaken {A} (m : H A) (P Q : A -> list nat -> Prop) :
  acquires m P -> (forall a hs, P a hs -> Q a hs) -> acquires m Q.
Proof. intros Hm HPQ log. destruct (Hm log) as (rs & Hl & HP). exists rs. eauto. Qed.
End acquires.

(** ** What a [close] closes *)

Section closes.
Context `{Libraries}.

Lemma close_all_app l1 l2 log :
  close_all (l1 ++ l2) log = (close_all l1;; close_all l2) log.
Proof.
  revert log. induction l1 as [|h l1 IH]; intros log; [done|].
  cbn [app close_all]. unfold mbind, H_bind. destruct (close_resource h log) as [[[]|e] log1]; [|done].
  apply IH.
Qed.

Lemma close_one h log : close_all [h] log = close_resource h log.
Proof. cbn. unfold mbind, H_bind. by destruct (close_resource h log) as [[[]|e] log1]. Qed.

(** One [close] after another. *)
Lemma close_then (m m' : H unit) l l' log :
  (forall log, m log = close_all l log) -> (forall log, m' log = close_all l' log) ->
  (m;; m') log = close_all (l ++ l') log.
Proof.
  intros Hm Hm'. rewrite close_all_app. unfold mbind, H_bind. rewrite Hm.
  destruct (close_all l log) as [[[]|e] log1]; [apply Hm'|done].
Qed.

(** What closing a list of resources does: it stops at the first that fails. *)
Lemma close_all_run l log :
  (Forall (fun h => close_error h = None) l /\ close_all l log = (Ok tt, log ++ map Closed l)) \/
  exists closed h rest e, l = closed ++ h :: rest /\ close_error h = Some e /\
    close_all l log = (Raise e, log ++ map Closed (closed ++ [h])).
Proof.
  revert log. induction l as [|h l IH]; intros log.
  - left. split; [done|]. cbn. by rewrite app_nil_r.
  - cbn [close_all]. unfold mbind, H_bind, close_resource. destruct (close_error h) as [e|] eqn:He.
    + right. exists [], h, l, e. done.
    + destruct (IH (log ++ [Closed h])) as [[Hall ->]|(closed & h' & rest & e & -> & He' & ->)].
      * left. split; [by constructor|]. by rewrite <- app_assoc.
      * right. exists (h :: closed), h', rest, e. split_and!; [done|done|]. by rewrite <- app_assoc.
Qed.

(** The [close] of an object closes what it holds in reverse order of opening. *)
Definition reverse_close {A} (close : A -> H unit) (a : A) (hs : list nat) : Prop :=
  forall log, close a log = close_all (reverse hs) log.

Lemma reverse_one {A} (close : A -> H unit) a h :
  (forall log, close a log = close_resource h log) -> reverse_close close a [h].
Proof. intros Hc log. by rewrite Hc, <- close_one. Qed.

(** An object that opens two others and closes them the other way round. *)
Lemma reverse_two {A B} (close : A -> H unit) (close' : B -> H unit) a b hs hs' log :
  reverse_close close a hs -> reverse_close close' b hs' ->
  (close' b;; close a) log = close_all (reverse (hs ++ hs')) log.
Proof. intros Ha Hb. rewrite reverse_app. by apply close_then. Qed.
End closes.

(** ** The parts *)

Section owners.
Context `{Libraries} `{Files} `{UrlParse}.

Ltac then_none := eapply acquires_bind; [apply (acquires_none _ (fun _ hs => hs = [])); done|]; intros ? ? ->.
Ltac then_open := eapply acquires_bind; [apply acquires_open|]; intros ? ? ->.

Lemma database_owner s : acquires (create_database s) (reverse_close close_database).
Proof.
  unfold create_database, new_database. then_none. then_open. apply acquires_ret. by apply reverse_one.
Qed.

Lemma coordination_owner s : acquires (create_redis_coordination s) (reverse_close close_coordination).
Proof.
  unfold create_redis_coordination, new_redis_coordination. then_open. then_none. then_none.
  apply acquires_ret. by apply reverse_one.
Qed.

Lemma store_owner message s ttl :
  acquires (redis ← open_resource (RedisClient (st_redis_url s)); new_store message redis ttl)
    (reverse_close close_store).
Proof. unfold new_store. then_open. then_none. apply acquires_ret. by apply reverse_one. Qed.

Lemma llm_owner s : acquires (create_llm_adapter s) (fun a hs => hs = [hc_client a.2]).
Proof.
  assert (acquires (llm_adapter s) (fun a hs => hs = [hc_client a])) as Hl.
  { unfold llm_adapter. do 4 then_none. then_open. by apply acquires_ret. }
  unfold create_llm_adapter, create_openai_responses_adapter, create_openai_chat_adapter.
  destruct (bool_decide _); [|destruct (chat_provider _); [|by apply acquires_none]];
    (eapply acquires_bind; [exact Hl|]; intros a hs ->; by apply acquires_ret).
Qed.

Lemma buenpick_owner s : acquires (create_buenpick_client s) (fun c hs => hs = [hc_client c]).
Proof.
  unfold create_buenpick_client. then_none. destruct a as [token|]; [|by apply acquires_none].
  then_none. then_none. then_open. by apply acquires_ret.
Qed.

Lemma meta_owner s : acquires (create_meta_delivery_adapter s) (reverse_close close_client).
Proof.
  unfold create_meta_delivery_adapter. do 5 then_none. then_open. apply acquires_ret. by apply reverse_one.
Qed.

(** A client that could not be built left nothing open. *)
Lemma buenpick_raise s log e log' : create_buenpick_client s log = (Raise e, log') -> log' = log.
Proof.
  unfold create_buenpick_client, mbind, H_bind, from_res, open_resource.
  destruct (resolved_buenpick_internal_api_token s) as [[token|]|]; [|by intros [= <- <-]..].
  destruct (hostname _); [|by intros [= <- <-]]. destruct (new_client _ _ _ _); [|by intros [= <- <-]].
  destruct (open_error _); [by intros [= <- <-]|done].
Qed.

Lemma optional_owner s : acquires (optional_buenpick s) (fun o hs =>
  hs = match o with Some c => [hc_client c] | None => [] end).
Proof.
  intros log. unfold optional_buenpick. destruct (buenpick_owner s log) as (rs & Hl & HP).
  destruct (create_buenpick_client s log) as [[c|e] log1] eqn:Hc; cbn [fst snd] in *.
  - exists rs. split; [done|]. intros a [= <-]. by apply HP.
  - apply buenpick_raise in Hc as ->. exists []. split; [by rewrite app_nil_r|].
    destruct (is_buenpick_configuration e); by intros a [= <-].
Qed.

Lemma orchestrator_owner s :
  acquires (create_conversation_orchestrator s) (reverse_close close_orchestrator).
Proof.
  unfold create_conversation_orchestrator. destruct (negb _); [by apply acquires_none|].
  eapply acquires_bind; [apply database_owner|]. intros d hd Hd.
  eapply acquires_bind; [apply coordination_owner|]. intros c hc Hc.
  eapply acquires_bind; [apply llm_owner|]. intros llm ? ->.
  eapply acquires_bind; [apply optional_owner|]. intros b ? ->. apply acquires_ret.
  intros log. rewrite app_nil_r. unfold close_orchestrator.
  replace (hd ++ hc ++ [hc_client llm.2] ++ match b with Some c => [hc_client c] | None => [] end)
    with ((hd ++ hc) ++ oh_resources {| oh_database := d; oh_coordination := c; oh_llm := llm;
            oh_buenpick := b; oh_resources := hc_client llm.2 :: match b with Some c => [hc_client c] | None => [] end |})
    by (by rewrite <- app_assoc).
  rewrite reverse_app. apply close_then; [done|]. intros log'. by apply reverse_two.
Qed.

Lemma worker_owner s : acquires (create_processing_worker s) (reverse_close close_worker).
Proof.
  unfold create_processing_worker. destruct (negb _); [by apply acquires_none|].
  eapply acquires_bind; [apply database_owner|]. intros d hd Hd.
  eapply acquires_bind; [apply orchestrator_owner|]. intros o ho Ho.
  eapply acquires_bind; [apply meta_owner|]. intros m hm Hm. apply acquires_ret.
  intros log. rewrite app_nil_r, app_assoc, reverse_app. apply close_then; [apply Hm|].
  intros log'. by apply reverse_two.
Qed.

Lemma ingress_owner s : acquires (create_default_meta_ingress s) (reverse_close close_ingress).
Proof.
  unfold create_default_meta_ingress.
  eapply acquires_bind; [apply database_owner|]. intros d hd Hd.
  eapply acquires_bind; [apply coordination_owner|]. intros c hc Hc. apply acquires_ret.
  intros log. rewrite app_nil_r. by apply reverse_two.
Qed.

Lemma readiness_owner url redis : acquires (new_readiness url redis) (reverse_close close_readiness).
Proof.
  unfold new_readiness. then_open. then_open. apply acquires_ret.
  intros log. apply (reverse_two close_resource close_resource); by apply reverse_one.
Qed.

Lemma when_owner {A} b (m : H A) (close : A -> H unit) :
  acquires m (reverse_close close) -> acquires (when b m) (reverse_close (close_owned close)).
Proof.
  intros Hm. unfold when. destruct b; [|by apply acquires_ret].
  eapply acquires_bind; [exact Hm|]. intros a hs Ha. apply acquires_ret. by rewrite app_nil_r.
Qed.

(** The shutdown closes each part in reverse; the readiness, opened first, and
    the ingress are not swapped. *)
Lemma app_owner s : acquires (create_app s) (fun app hs =>
  exists hs', hs' ≡ₚ hs /\ forall log, shutdown app log = close_all hs' log).
Proof.
  unfold create_app. then_none.
  eapply acquires_bind; [apply readiness_owner|]. intros r hr Hr.
  eapply acquires_bind; [apply when_owner, ingress_owner|]. intros i hi Hi.
  eapply acquires_bind; [apply when_owner, orchestrator_owner|]. intros o ho Ho.
  then_none. then_none. apply acquires_ret.
  exists (reverse hi ++ (reverse ho ++ reverse hr)). split.
  - cbn [app]. rewrite !app_nil_r, !reverse_Permutation. solve_Permutation.
  - intros log. apply close_then; [exact Hi|]. intros log'. by apply close_then.
Qed.
End owners.

(** ** The parts built, against [Startup] *)

Section refinement.
Context `{Libraries} `{Files} `{UrlParse}.

Definition orchestrator_parts (o : OrchestratorHandle) : OrchestratorParts :=
  {| op_database_url := db_url (oh_database o); op_coordination := ch_parts (oh_coordination o);
     op_llm := ((oh_llm o).1, hc_options (oh_llm o).2);
     op_buenpick := hc_options <$> oh_buenpick o |}.
Definition worker_parts (w : WorkerHandle) : WorkerParts :=
  {| wp_database_url := db_url (wh_database w); wp_orchestrator := orchestrator_parts (wh_orchestrator w);
     wp_delivery := hc_options (wh_delivery w) |}.
Definition ingress_parts (i : IngressHandle) : IngressParts :=
  {| ip_database_url := db_url (ih_database i); ip_coordination := ch_parts (ih_coordination i) |}.
Definition app_parts (s : Settings) (a : AppHandle) : AppParts :=
  {| app_ingress := ingress_parts <$> ah_ingress a;
     app_orchestrator := orchestrator_parts <$> ah_orchestrator a;
     app_verify_token := (ah_parts a).1; app_secret_key := (ah_parts a).2;
     app_console := st_local_console_enabled s;
     app_docs_url := if is_production s then None else Some (u "/docs") |}.

(** Whatever was opened before, [m] answers what [r] does, seen through [f]. *)
Definition refines {A B} (m : H A) (f : A -> B) (r : res B) : Prop :=
  forall log, match (m log).1 with Ok a => Ok (f a) | Raise e => Raise e end = r.

Lemma refines_res {A B} (r : res A) (f : A -> B) :
  refines (from_res r) f (match r with Ok a => Ok (f a) | Raise e => Raise e end).
Proof. done. Qed.

Lemma refines_bind {A A' B B'} (m : H A) (k : A -> H B) (f : A -> A') (g : B -> B') r k' :
  refines m f r -> (forall a, refines (k a) g (k' (f a))) -> refines (m ≫= k) g (r ≫= k').
Proof.
  intros Hm Hk log. specialize (Hm log). unfold mbind at 1, H_bind.
  destruct (m log) as [[a|e] log1]; cbn [fst] in Hm; subst r; [|done]. apply Hk.
Qed.

(** The same computation without a resource. *)
Lemma refines_pure {A B B'} (r : res A) (k : A -> H B) (g : B -> B') k' :
  (forall a, refines (k a) g (k' a)) -> refines (from_res r ≫= k) g (r ≫= k').
Proof. intros Hk. apply (refines_bind _ _ id); [intros log; cbn; by destruct r|exact Hk]. Qed.

(** Opening is what [Startup] asks of the constructor. *)
Lemma refines_open {B B'} r (k : nat -> H B) (g : B -> B') r' :
  (forall h, refines (k h) g r') -> refines (open_resource r ≫= k) g (_ ← opening r; r').
Proof.
  intros Hk log. unfold mbind at 1, H_bind, open_resource, opening.
  destruct (open_error r); [done|apply Hk].
Qed.

Lemma refines_ret {A B} (a : A) (f : A -> B) : refines (mret a) f (Ok (f a)).
Proof. done. Qed.

Variable s : Settings.

Lemma database_refines : refines (create_database s) db_url (Startup.create_database s).
Proof. apply refines_pure. intros url. by apply refines_open. Qed.

Lemma coordination_refines :
  refines (create_redis_coordination s) ch_parts (Startup.create_redis_coordination s).
Proof. apply refines_open. intros h. by do 2 (apply refines_pure; intros ?). Qed.

Lemma llm_refines :
  refines (create_llm_adapter s) (fun a => (a.1, hc_options a.2)) (Startup.create_llm_adapter s).
Proof.
  assert (refines (llm_adapter s) hc_options (llm_options s)) as Hl
    by (do 4 (apply refines_pure; intros ?); by apply refines_open).
  unfold create_llm_adapter, Startup.create_llm_adapter, create_openai_responses_adapter,
    Startup.create_openai_responses_adapter, create_openai_chat_adapter, Startup.create_openai_chat_adapter.
  destruct (bool_decide _); [|destruct (chat_provider _); [|done]];
    (eapply refines_bind; [exact Hl|done]).
Qed.

Lemma buenpick_refines :
  refines (create_buenpick_client s) hc_options (Startup.create_buenpick_client s).
Proof.
  apply refines_pure. intros [token|]; [|done]. do 2 (apply refines_pure; intros ?).
  by apply refines_open.
Qed.

Lemma optional_refines :
  refines (optional_buenpick s) (fmap hc_options) (Startup.optional_buenpick s).
Proof.
  intros log. unfold optional_buenpick, Startup.optional_buenpick.
  pose proof (buenpick_refines log) as Hb. destruct (create_buenpick_client s log) as [[c|e] log1];
    cbn [fst] in Hb; rewrite <- Hb; [done|]. by destruct (is_buenpick_configuration e).
Qed.

Lemma meta_refines :
  refines (create_meta_delivery_adapter s) hc_options (Startup.create_meta_delivery_adapter s).
Proof. do 5 (apply refines_pure; intros ?). by apply refines_open. Qed.

Lemma orchestrator_refines :
  refines (create_conversation_orchestrator s) orchestrator_parts (Startup.create_conversation_orchestrator s).
Proof.
  unfold create_conversation_orchestrator, Startup.create_conversation_orchestrator.
  destruct (negb _); [done|]. eapply refines_bind; [apply database_refines|]. intros d.
  eapply refines_bind; [apply coordination_refines|]. intros c.
  eapply refines_bind; [apply llm_refines|]. intros llm.
  eapply refines_bind; [apply optional_refines|]. by intros b log.
Qed.

Lemma ingress_refines :
  refines (create_default_meta_ingress s) ingress_parts (Startup.create_default_meta_ingress s).
Proof.
  eapply refines_bind; [apply database_refines|]. intros d.
  eapply refines_bind; [apply coordination_refines|]. by intros c log.
Qed.

Lemma worker_refines :
  refines (create_processing_worker s) worker_parts (Startup.create_processing_worker s).
Proof.
  unfold create_processing_worker, Startup.create_processing_worker. destruct (negb _); [done|].
  eapply refines_bind; [apply database_refines|]. intros d.
  eapply refines_bind; [apply orchestrator_refines|]. intros o.
  eapply refines_bind; [apply meta_refines|]. by intros m log.
Qed.

Lemma when_refines {A B} b (m : H A) (f : A -> B) r :
  refines m f r -> refines (when b m) (fmap f) (if b then p ← r; Ok (Some p) else Ok None).
Proof.
  intros Hm. unfold when. destruct b; [|done]. eapply refines_bind; [exact Hm|]. by intros a log.
Qed.

Lemma readiness_refines url redis :
  refines (new_readiness url redis) (fun _ => tt) (create_readiness url redis).
Proof.
  apply refines_open. intros e log. unfold open_resource, opening, mbind, H_bind.
  by destruct (open_error (RedisClient redis)).
Qed.

Lemma app_refines : refines (create_app s) (app_parts s) (Startup.create_app s).
Proof.
  apply refines_pure. intros url.
  eapply refines_bind; [apply readiness_refines|]. intros r.
  eapply refines_bind; [apply when_refines, ingress_refines|]. intros i.
  eapply refines_bind; [apply when_refines, orchestrator_refines|]. intros o.
  apply refines_pure. intros v. apply refines_pure. by intros sec log.
Qed.
End refinement.

(** ** Properties *)

Section properties.
Context `{Libraries} `{Files} `{UrlParse}.

(** The resources [hs] closed in that order, until one fails: the rest stays
    open. *)
Definition closed_in_order (hs : list nat) (r : res unit) (log log' : list resource_event) : Prop :=
  (Forall (fun h => close_error h = None) hs /\ r = Ok tt /\ log' = log ++ map Closed hs) \/
  exists closed h rest e, hs = closed ++ h :: rest /\ close_error h = Some e /\ r = Raise e /\
    log' = log ++ map Closed (closed ++ [h]).

Lemma close_all_in_order hs log : closed_in_order hs (close_all hs log).1 log (close_all hs log).2.
Proof.
  destruct (close_all_run hs log) as [[Hn ->]|(closed & h & rest & e & Hl & He & ->)]; [by left|].
  right. exists closed, h, rest, e. done.
Qed.

(** C18. The worker closes what it opened.  Building it opens an engine, the
    orchestrator's engine, Redis client and HTTP clients, and the delivery
    client, and closes none of them; [close] then closes exactly these, each
    once, in the reverse order of opening.  When closing one of them raises,
    [close] raises the same error and those after it are never closed. *)
Theorem worker_closes_what_it_opened s log w log1 :
  create_processing_worker s log = (Ok w, log1) ->
  exists opened, log1 = log ++ map Opened opened /\
    closed_in_order (reverse (seq (length log) (length opened)))
      (close_worker w log1).1 log1 (close_worker w log1).2.
Proof.
  intros Hw. destruct (worker_owner s log) as (rs & Hl & HP). rewrite Hw in Hl, HP. cbn in Hl, HP.
  exists rs. split; [done|]. rewrite (HP w eq_refl). apply close_all_in_order.
Qed.

(** The application closes what it opened.  The shutdown of its lifespan
    closes every engine and client that [create_app] opened for its readiness,
    its ingress and its orchestrator, each exactly once, until one of them
    fails. *)
Theorem lifespan_closes_what_it_opened s log app log1 :
  create_app s log = (Ok app, log1) ->
  exists opened hs, log1 = log ++ map Opened opened /\
    hs ≡ₚ seq (length log) (length opened) /\
    closed_in_order hs (shutdown app log1).1 log1 (shutdown app log1).2.
Proof.
  intros Ha. destruct (app_owner s log) as (rs & Hl & HP). rewrite Ha in Hl, HP. cbn in Hl, HP.
  destruct (HP app eq_refl) as (hs & Hp & Hc). exists rs, hs. split_and!; [done|done|].
  rewrite Hc. apply close_all_in_order.
Qed.

(** The parts built are those of the settings.  Whatever the constructors of
    the libraries answer, the factories answer what the specification of
    [Startup] answers: the same parts, with the same options, or the same
    error. *)
Theorem factories_refine_startup s log :
  match (create_processing_worker s log).1 with Ok w => Ok (worker_parts w) | Raise e => Raise e end =
    Startup.create_processing_worker s /\
  match (create_app s log).1 with Ok a => Ok (app_parts s a) | Raise e => Raise e end =
    Startup.create_app s.
Proof. split; [by apply worker_refines|by apply app_refines]. Qed.
End properties.

(** ** Evaluations *)

Section concrete.
#[local] Instance no_files : Files := {| read_text _ := Raise FileNotFoundError |}.
#[local] Instance no_host : UrlParse := {| hostname _ := Ok None |}.

(** Libraries that build everything; the Redis server is gone when the worker
    stops, so closing its client (handle 2) raises. *)
#[local] Instance redis_gone : Libraries := {|
  open_error _ := None;
  close_error h := if bool_decide (h = 2%nat) then Some RedisError else None
|}.

Definition started : res WorkerHandle * list resource_event :=
  create_processing_worker (blanked (sample_settings None)) [].

Example five_resources : length started.2 = 5%nat.
Proof. vm_compute. reflexivity. Qed.

(** The two engines (handles 0 and 1) are left open. *)
Lemma worker_closes_what_it_opened_witness :
  exists w, started.1 = Ok w /\
    (close_worker w started.2).1 = Raise RedisError /\
    (close_worker w started.2).2 = started.2 ++ map Closed [4; 3; 2]%nat.
Proof.
  destruct started as [[w|e] log1] eqn:Hs; [|exfalso; vm_compute in Hs; discriminate Hs].
  exists w. split; [done|].
  destruct (worker_closes_what_it_opened (blanked (sample_settings None)) [] w log1 Hs) as (rs & Hl & Hc).
  assert (length rs = 5%nat) as Hn.
  { assert (length log1 = 5%nat) as H5 by (pose proof five_resources as H5; rewrite Hs in H5; exact H5).
    rewrite Hl in H5. cbn in H5. by rewrite length_map in H5. }
  rewrite Hn in Hc. cbn in Hc.
  destruct Hc as [(Hall & _)|(closed & h & rest & e & Hsplit & He & Hr & Hlog)].
  - exfalso. apply Forall_forall with (x := 2%nat) in Hall; [done|]. set_solver.
  - cbn [close_error redis_gone] in He. case_bool_decide as Hh; [|done]. injection He as <-. subst h.
    assert (closed = [4; 3]%nat) as ->.
    { destruct closed as [|a [|b [|c [|d [|f closed]]]]]; cbn in Hsplit; try discriminate Hsplit;
        [by injection Hsplit as -> ->|]. by destruct closed. }
    cbn [fst snd]. by rewrite Hr, Hlog.
Defined.

Lemma lifespan_closes_what_it_opened_witness :
  exists app log1 (opened : list resource) hs, create_app (blanked (sample_settings None)) [] = (Ok app, log1) /\
    hs ≡ₚ seq 0 (length opened) /\ length opened = 7%nat.
Proof.
  destruct (create_app (blanked (sample_settings None)) []) as [[app|e] log1] eqn:Ha;
    [|exfalso; vm_compute in Ha; discriminate Ha].
  destruct (lifespan_closes_what_it_opened (blanked (sample_settings None)) [] app log1 Ha)
    as (opened & hs & Hl & Hp & _).
  exists app, log1, opened, hs. split_and!; [done|exact Hp|].
  assert (length (create_app (blanked (sample_settings None)) []).2 = 7%nat) as H7 by (vm_compute; reflexivity).
  rewrite Ha in H7. cbn in H7. rewrite Hl in H7. cbn in H7. by rewrite length_map in H7.
Defined.

End concrete.
