(* ===== verification/Api.v ===== *)
(** * The HTTP endpoints ([src/piki/api])

    The handlers of the local console ([chat.py]) and of the Meta webhook
    ([meta_webhook.py]), after FastAPI has parsed the request: a body is its model, a header or a query
    parameter an optional text.  An [HTTPException] is the response of its
    status code; any other exception an internal error. *)
From S2P Require Import Prelude PyStr PyRegex Errors Sha256 Uuid Contracts Grounding Prompt Config.
From S2P Require Import Pydantic Events Sql Redis Models World Session Sample MetaWebhook.
From S2P Require Import Delivery DeliveryLaws DeliveryProps State Coordination.
From S2P Require Import Composition BuenPickModels BuenPick Conversations Handoffs Processing Tools.
From S2P Require Import Ingress Evidence Policies Orchestrator TurnLaws TurnProps.

Local Open Scope Z_scope.

#[local] Abbreviation messages d := (rows (db_messages d)).

(** ** The console ([chat.py]) *)

Record ChatMessageRequest := {
  cm_conversation_id : str;
  cm_message : str;
  cm_message_id : option str
}.
#[export] Instance ChatMessageRequest_contract : Contract ChatMessageRequest := {|
  fields_ok r := len_in 1 255 (cm_conversation_id r) && len_in 1 4096 (cm_message r) &&
                 opt_len_in 1 255 (cm_message_id r);
  model_validator _ := None
|}.

Record ChatRuntimeStatus := {
  rs_enabled : bool;
  rs_llm_provider : option str;
  rs_llm_model : option str;
  rs_buenpick_api_configured : bool;
  rs_meta_ingress_enabled : bool
}.

Record ChatHistoryMessage := {
  hm_role : turn_role;
  hm_text : str;
  hm_created_at : datetime
}.
#[export] Instance ChatHistoryMessage_contract : Contract ChatHistoryMessage := {|
  fields_ok m := len_in 1 4096 (hm_text m);
  model_validator _ := None
|}.

Definition console_account : str := u "piki-local-console".
Definition not_configured : exn := HTTPException 503 (u "conversation runtime is not configured").

Section chat.
Context `{Files} `{UCD} `{SqlEngine} `{RedisServer} `{Env} `{!ResponseEngine}.
Variables (settings : Settings) (configured : bool).
Variables (lock_ttl_seconds : Z) (tools : option BuenPickReader).

Definition runtime_status : res ChatRuntimeStatus :=
  token ← resolved_buenpick_internal_api_token settings;
  Ok {| rs_enabled := configured; rs_llm_provider := st_llm_provider settings;
        rs_llm_model := st_llm_model settings;
        rs_buenpick_api_configured := bool_decide (is_Some token);
        rs_meta_ingress_enabled := st_meta_ingress_enabled settings |}.

(** [request.message_id or f"web-{uuid4()}"]. *)
Definition message_id_of (request : ChatMessageRequest) : M str :=
  if truthy_opt (cm_message_id request) then mret (default [] (cm_message_id request))
  else id ← uuid4; mret (u "web-" ++ uuid_text id).

Definition web_inbound (request : ChatMessageRequest) (message_id : str) (t : Z) : res InboundMessage :=
  construct {| im_message_id := message_id; im_channel := WEB;
               im_conversation_id := cm_conversation_id request;
               im_sender_id := cm_conversation_id request; im_kind := MK_TEXT;
               im_text := Some (cm_message request); im_received_at := utc t; im_metadata := ∅ |}.

Definition send_message (request : ChatMessageRequest) : M ConversationReply :=
  if negb configured then raise not_configured
  else
    message_id ← message_id_of request;
    t ← now;
    inbound ← lift (web_inbound request message_id t);
    try_except (orchestrator_respond lock_ttl_seconds tools inbound console_account)
      (fun e => if is_busy e
                then Some (raise (HTTPException 409 (u "conversation is already being processed")))
                else None).

Definition history_message (item : StoredMessage) : res ChatHistoryMessage :=
  construct {| hm_role := if bool_decide (sm_direction item = u "outbound") then ROLE_ASSISTANT
                          else ROLE_USER;
               hm_text := default [] (sm_content_text item);
               hm_created_at := utc (sm_created_at item) |}.

Definition conversation_history (conversation_id : str) : M (list ChatHistoryMessage) :=
  if negb configured then raise not_configured
  else
    items ← history WEB console_account conversation_id;
    lift (res_map history_message (filter (fun item => has_text item = true) items)).
End chat.

(** ** The webhook ([meta_webhook.py]) *)

(** [json.loads] of a body: its value, a [JSONDecodeError], or the
    [UnicodeDecodeError] of bytes that are no text. *)
Class JsonLoads := { json_loads : list Z -> res json }.

Section webhook.
Context `{JsonLoads} `{LaxInt} `{UCD} `{SqlEngine} `{RedisServer} `{Env} `{!DeliveryStore}.
Variables (verify_token app_secret expected_waba_id expected_phone_number_id : option str).
Variables (ingress_ready : bool) (dedup_ttl_seconds : Z).

Definition challenge (mode provided_token challenge_value : option str) : res str :=
  match verify_token with
  | None => Raise (HTTPException 503 (u "webhook not configured"))
  | Some expected =>
      match challenge_value with
      | None => Raise (HTTPException 403 (u "webhook verification failed"))
      | Some value =>
          verified ← verify_challenge mode provided_token expected;
          if (verified : bool) then Ok value
          else Raise (HTTPException 403 (u "webhook verification failed"))
      end
  end.

(** The first [try] of [receive]. *)
Definition is_bad_payload (e : exn) : bool :=
  match e with JSONDecodeError | MetaWebhookError _ => true | _ => false end.
Definition webhook_events (raw_body : list Z) : res MetaWebhookEvents :=
  let parsed :=
    payload ← json_loads raw_body;
    match payload with
    | JObj fields => normalize_webhook fields expected_waba_id expected_phone_number_id
    | _ => Raise (MetaWebhookError (u "webhook payload must be an object"))
    end in
  match parsed with
  | Ok events => Ok events
  | Raise e => if is_bad_payload e then Raise (HTTPException 400 (u "invalid webhook payload"))
               else Raise e
  end.

Definition is_retryable (e : exn) : bool :=
  match e with MetaIngressRetryableError _ => true | _ => false end.

Definition receive (raw_body : list Z) (signature : option str) : M WebhookIngestResult :=
  match app_secret with
  | Some secret =>
      if ingress_ready then
        valid ← lift (verify_signature raw_body signature secret);
        if negb valid then raise (HTTPException 401 (u "invalid webhook signature"))
        else
          events ← lift (webhook_events raw_body);
          try_except (ingest dedup_ttl_seconds events)
            (fun e => if is_retryable e
                      then Some (raise (HTTPException 503 (u "webhook ingress temporarily unavailable")))
                      else None)
      else raise (HTTPException 503 (u "webhook not ready"))
  | None => raise (HTTPException 503 (u "webhook not ready"))
  end.
End webhook.

(** ** Properties *)

Section webhook_properties.
Context `{JsonLoads} `{LaxInt} `{UCD} `{SqlEngine} `{RedisServer} `{Env}.
Variables (app_secret expected_waba_id expected_phone_number_id : option str).
Variables (ingress_ready : bool) (dedup_ttl_seconds : Z).

Abbreviation events_of := (webhook_events expected_waba_id expected_phone_number_id).
Abbreviation post := (receive app_secret expected_waba_id expected_phone_number_id ingress_ready
  dedup_ttl_seconds).

Lemma signature_accepted body header secret :
  verify_signature body header secret = Ok true ->
  header = Some (u "sha256=" ++ hexdigest (hmac_sha256 (encode secret) body)).
Proof.
  unfold verify_signature. destruct header as [h|]; [|done].
  destruct (startswith (u "sha256=") h) eqn:Hp; [|done]. apply startswith_split in Hp. cbn [negb].
  destruct (negb _); [done|]. intros <-%compare_digest_true. by rewrite <- Hp.
Qed.

(** C24. Only a signed body has an effect.  A webhook call that changes anything, or
    answers, carries the HMAC of its body under the app secret, its body is a
    payload the normalisation accepts, and what it did is the ingest of the
    normalised events; one that answers has every message of the payload
    stored, and lost none. *)
Theorem webhook_effect_signed body header w :
  let '(o, w') := post body header w in
  w' <> w \/ (exists r, o = Ok r) ->
  exists secret events, app_secret = Some secret /\
    header = Some (u "sha256=" ++ hexdigest (hmac_sha256 (encode secret) body)) /\
    events_of body = Ok events /\ w' = (ingest dedup_ttl_seconds events w).2 /\
    forall r, o = Ok r ->
      (forall m, m ∈ we_messages events -> known_message (im_message_id m) w') /\
      (forall e, known_message e w -> known_message e w').
Proof.
  destruct (post body header w) as [o w'] eqn:Hr. revert Hr. unfold receive.
  destruct app_secret as [secret|]; [|by intros [= <- <-] [?|(? & ?)]].
  destruct ingress_ready; [|by intros [= <- <-] [?|(? & ?)]]. rewrite bind_run. unfold lift at 1.
  destruct (verify_signature body header secret) as [[]|e] eqn:Hs;
    [|by intros [= <- <-] [?|(? & ?)]..]. cbn [negb]. rewrite bind_run. unfold lift at 1.
  destruct (events_of body) as [events|e] eqn:He; [|by intros [= <- <-] [?|(? & ?)]].
  unfold try_except. destruct (ingest dedup_ttl_seconds events w) as [[r|e] w1] eqn:Hi.
  - intros [= <- <-] _. exists secret, events. split; [done|]. split; [by apply signature_accepted|].
    split; [done|]. split; [by rewrite Hi|]. intros r' _. by eapply ingest_stored.
  - intros Hr _. exists secret, events. split; [done|]. split; [by apply signature_accepted|].
    split; [done|]. rewrite Hi. destruct (is_retryable e); injection Hr as <- <-; done.
Qed.

(** A body that is no text is not refused as an invalid payload: the
    [UnicodeDecodeError] of [json.loads] leaves the handler. *)
Theorem undecodable_body_escapes body header w secret :
  app_secret = Some secret -> ingress_ready = true ->
  verify_signature body header secret = Ok true -> json_loads body = Raise UnicodeDecodeError ->
  post body header w = (Raise UnicodeDecodeError, w).
Proof.
  intros -> -> Hs Hj. unfold receive. rewrite bind_run. unfold lift at 1. rewrite Hs. cbn [negb].
  rewrite bind_run. unfold lift, webhook_events. by rewrite Hj.
Qed.
End webhook_properties.

Section chat_properties.
Context `{UCD} `{SqlEngine} `{RedisServer} `{Env} `{E : !ResponseEngine} `{!EngineLaws E}.
Variables (lock_ttl : Z) (tools : option BuenPickReader).
Hypothesis tools_frame : forall reader, tools = Some reader -> ReaderFrame reader.

(** The message a request with an identifier stands for. *)
Definition web_message_of (request : ChatMessageRequest) (id : str) (t : Z) : InboundMessage :=
  {| im_message_id := id; im_channel := WEB; im_conversation_id := cm_conversation_id request;
     im_sender_id := cm_conversation_id request; im_kind := MK_TEXT;
     im_text := Some (cm_message request); im_received_at := utc t; im_metadata := ∅ |}.

Lemma send_message_ok request id w r w' :
  cm_message_id request = Some id -> truthy id = true ->
  send_message true lock_ttl tools request w = (Ok r, w') ->
  orchestrator_respond lock_ttl tools (web_message_of request id (clock (w_tick w))) console_account
    (tick w) = (Ok r, w').
Proof.
  intros Hid Ht. unfold send_message, message_id_of. cbn [negb]. rewrite Hid. cbn [truthy_opt].
  rewrite Ht. rewrite bind_run. cbn [mret M_ret default]. rewrite bind_run. unfold now at 1.
  cbv beta iota zeta. intros (m & w1 & [Hm ->]%lift_ok_inv & Hr)%bind_ok_inv.
  apply construct_ok in Hm as [_ ->]. cbn [default] in Hr. revert Hr. unfold try_except.
  destruct (orchestrator_respond _ _ _ _ (tick w)) as [[r'|e] w2]; [done|].
  by destruct (is_busy e).
Qed.

(** A request can be repeated.  When a message sent with an identifier that
    was not answered yet is answered, and the same request is sent again later,
    any answer has the same text, is marked as a duplicate, and cost no call to
    the model or the API and no stored message. *)
Theorem web_retry_same_answer request id w r w1 w2 r2 w3 :
  cm_message_id request = Some id -> truthy id = true ->
  send_message true lock_ttl tools request w = (Ok r, w1) ->
  ~ known_message (u "piki-reply:" ++ id) w ->
  messages_kept (w_db w1) (w_db w2) -> conversations_wf (w_db w2) ->
  send_message true lock_ttl tools request w2 = (Ok r2, w3) ->
  rp_duplicate r = false /\ rp_text r2 = rp_text r /\ rp_duplicate r2 = true /\
  w_io w3 = w_io w2 /\ messages (w_db w3) = messages (w_db w2).
Proof.
  intros Hid Ht Hs1 Hn Hkept Hwf Hs2.
  apply (send_message_ok request id) in Hs1, Hs2; [|done..].
  destruct (first_answer lock_ttl tools tools_frame _ (tick w) r w1 (or_introl (ex_intro _ _ Hs1)) Hn)
    as (Hdup & Hans & k & m & Hk & He).
  destruct (later_answer lock_ttl tools (web_message_of request id (clock (w_tick w2))) (rp_text r)
    (tick w2) r2 w3) as (Htext & Hdup2 & Hio & Hms).
  - left. by exists console_account.
  - exists k, m. split; [by apply Hkept|done].
  - by eapply stored_answer_kept.
  - done.
  - done.
Qed.
End chat_properties.

Section long_ids.
Context `{UCD} `{SqlEngine} `{RedisServer} `{Env} `{E : !ResponseEngine}.

(** An identifier longer than 115 characters, legal in every contract, is
    never answered: the trace built from it does not fit, and both entry points
    raise a [ValidationError] before they read or write anything. *)
Theorem long_message_id_refused ttl tools message acct cid w :
  115 < py_len (im_message_id message) ->
  (exists msg, orchestrator_respond ttl tools message acct w = (Raise (ValidationError msg), w)) /\
  (exists msg, respond_persisted ttl tools message acct cid w = (Raise (ValidationError msg), w)).
Proof.
  intros Hlen.
  assert (forall component, exists msg,
    emit EV_MESSAGE_RECEIVED (trace_of message) component EO_SUCCEEDED None None None None w =
      (Raise (ValidationError msg), w)) as He.
  { intros component. unfold emit, emit_record. rewrite bind_run. cbn [mret M_ret].
    match goal with |- context [construct ?r] => destruct (construct r) as [ok|e] eqn:Hc end.
    - exfalso. apply construct_ok in Hc as [Hok ->]. apply fields_and_validator in Hok as [Hf _].
      cbn -[len_in py_len trace_of] in Hf. bools.
      match goal with Hx : len_in 1 128 (trace_of message) = true |- _ => apply len_in_spec in Hx end.
      unfold trace_of, py_len in *. rewrite length_app in *.
      change (length (u "conversation:")) with 13%nat in *. lia.
    - apply construct_raises in Hc as (_ & msg & ->). by exists msg. }
  unfold orchestrator_respond, respond_persisted. rewrite !bind_run. split;
    [destruct (He (u "conversation")) as (msg & ->)|destruct (He (u "conversation_worker")) as (msg & ->)];
    by exists msg.
Qed.
End long_ids.

(** ** Evaluations *)

Section concrete.
#[local] Existing Instances lax_int_default latin1_ucd map_engine scheduled_server sample_env friendly_engine friendly_laws.

(** A decoder that finds a payload without entries in the body [{}], and no
    text elsewhere. *)
#[local] Instance sample_loads : JsonLoads := {|
  json_loads body := if decide (body = [123; 125]) then Ok (JObj [(u "object", JStr (u "whatsapp_business_account")); (u "entry", JArr [])])
                     else Raise UnicodeDecodeError
|}.

Definition signed (body : list Z) : option str :=
  Some (u "sha256=" ++ hexdigest (hmac_sha256 (encode (u "secret")) body)).

Definition posted : res WebhookIngestResult * World :=
  receive (Some (u "secret")) None None true 3600 [123; 125] (signed [123; 125]) sample_world.

Example uuid_of_3 : uuid_text (2 ^ 127 + 3) = u "80000000-0000-0000-0000-000000000003".
Proof. vm_compute. reflexivity. Qed.

Lemma webhook_effect_signed_witness :
  exists secret, Some (u "secret") = Some secret /\
    signed [123; 125] = Some (u "sha256=" ++ hexdigest (hmac_sha256 (encode secret) [123; 125])).
Proof.
  pose proof (webhook_effect_signed (Some (u "secret")) None None true 3600 [123; 125]
    (signed [123; 125]) sample_world) as Hw.
  assert (exists r, posted.1 = Ok r) as [r Hr] by (vm_compute; eexists; reflexivity).
  unfold posted in Hr. destruct (receive _ _ _ _ _ _ _ _) as [o w'].
  destruct Hw as (secret & events & Hs & Hsig & _); [right; by exists r|]. exists secret. split; [exact Hs|exact Hsig].
Defined.

Lemma undecodable_body_escapes_witness :
  receive (Some (u "secret")) None None true 3600 [255] (signed [255]) sample_world =
    (Raise UnicodeDecodeError, sample_world).
Proof.
  apply (undecodable_body_escapes (Some (u "secret")) None None true 3600 [255] (signed [255])
    sample_world (u "secret")); vm_compute; reflexivity.
Defined.

Definition hello_request : ChatMessageRequest :=
  {| cm_conversation_id := u "alice"; cm_message := u "hola"; cm_message_id := Some (u "m1") |}.

Abbreviation said := (send_message true 30 no_tools hello_request).

Lemma said_wf r w w' :
  said w = (Ok r, w') -> conversations_wf (w_db w) -> conversations_wf (w_db w').
Proof.
  intros Hr%(send_message_ok 30 no_tools hello_request (u "m1")); [|done|done]. intros Hwf.
  pose proof (respond_keeps_wf 30 no_tools (web_message_of hello_request (u "m1") (clock (w_tick w)))
    console_account no_tools_frame (tick w) Hwf) as Hk.
  rewrite Hr in Hk. exact Hk.
Qed.

Lemma web_retry_same_answer_witness :
  rp_duplicate <$> (match (said (said sample_world).2).1 with Ok r => Some r | Raise _ => None end) =
    Some true.
Proof.
  assert (exists r, (said sample_world).1 = Ok r) as [r Hr] by (vm_compute; eexists; reflexivity).
  assert (exists r, (said (said sample_world).2).1 = Ok r) as [r2 Hr2] by (vm_compute; eexists; reflexivity).
  rewrite Hr2. cbn. f_equal.
  destruct (web_retry_same_answer 30 no_tools no_tools_frame hello_request (u "m1") sample_world r
    (said sample_world).2 (said sample_world).2 r2 (said (said sample_world).2).2) as (_ & _ & Hd & _);
    [done|vm_compute; reflexivity|by apply run_fst|apply nothing_known|by intros k m| |by apply run_fst|exact Hd].
  exact (said_wf r _ _ (run_fst said sample_world _ Hr) sample_conversations_wf).
Defined.

Definition long_id_message : InboundMessage := web_message (replicate 116 97) (u "alice") (Some (u "hola")).

Lemma long_message_id_refused_witness :
  contract_ok long_id_message = true /\
  exists msg, orchestrator_respond 30 no_tools long_id_message console sample_world =
    (Raise (ValidationError msg), sample_world).
Proof.
  split; [vm_compute; reflexivity|].
  destruct (long_message_id_refused 30 no_tools long_id_message console 1 sample_world) as [He _];
    [vm_compute; reflexivity|exact He].
Defined.
End concrete.
