(* ===== verification/Web.v ===== *)
(** * The files of the package

    The console page ([src/piki/web/router.py]) and the system prompt
    ([PromptAssets.system_prompt] of [prompts/renderer.py]): what the program
    reads from its own package.  [PackageFiles] is
    [importlib.resources.files(package).joinpath(name).read_text()]. *)
From S2P Require Import Prelude PyStr Errors.

Local Open Scope Z_scope.

Class PackageFiles := { resource_text : str -> str -> res str }.

Inductive console_response :=
| RedirectResponse (url : str) (status_code : Z)
| TextResponse (media_type body : str).
#[export] Instance console_response_eq_dec : EqDecision console_response.
Proof. solve_decision. Defined.

Section console.
Context `{PackageFiles}.

Definition _asset (name : str) : res str := resource_text (u "piki.web.static") name.

Definition root : res console_response := Ok (RedirectResponse (u "/console") 307).
Definition console : res console_response :=
  html ← _asset (u "index.html"); Ok (TextResponse (u "text/html") html).
Definition styles : res console_response :=
  css ← _asset (u "app.css"); Ok (TextResponse (u "text/css") css).
Definition script : res console_response :=
  js ← _asset (u "app.js"); Ok (TextResponse (u "application/javascript") js).

(** The routes of the router, in the order they are added. *)
Definition create_console_router : list (str * res console_response) :=
  [(u "/", root); (u "/console", console); (u "/console/assets/app.css", styles);
   (u "/console/assets/app.js", script)].

(** What a GET of a path answers; [None] when no route matches. *)
Definition get_page (path : str) : option (res console_response) :=
  snd <$> head (filter (fun route => route.1 = path) create_console_router).

(** ** [PromptAssets.system_prompt] *)

Definition system_prompt : res str :=
  text ← resource_text (u "piki.prompts") (u "system_prompt.txt"); Ok (strip text).

(** ** Lemmas *)

(** A browser that opens the root is sent to a page the router serves, and every
    served page is a file of the package. *)
Lemma console_reachable path r :
  get_page path = Some (Ok r) ->
  (exists url, r = RedirectResponse url 307 /\ is_Some (get_page url)) \/
  (exists media name body, r = TextResponse media body /\ _asset name = Ok body).
Proof.
  unfold get_page, create_console_router. cbn [filter list_filter fst]. intros Hr.
  assert (forall (media name : str) (page : res console_response),
    page = (body ← _asset name; Ok (TextResponse media body)) -> page = Ok r ->
    exists media name body, r = TextResponse media body /\ _asset name = Ok body) as Hasset.
  { intros media name page -> Hp. destruct (_asset name) as [body|] eqn:Hb; [|done].
    injection Hp as <-. eauto. }
  repeat (case_decide; [cbn in Hr; injection Hr as Hr|]); [|right; by eapply Hasset..|done].
  left. exists (u "/console"). subst r. split; [done|]. vm_compute. by eexists.
Qed.
End console.
