(* ===== verification/IntegrityLaws.v ===== *)
(** * The program keeps the integrity of the database

    Every statement of the repositories, whatever the clocks, the outages and
    the answers of remote services, leaves the database within its constraints:
    an INSERT tests every unique constraint of its table and its foreign key, an
    UPDATE writes no column of a constraint and only values that fit. *)
From S2P Require Import Prelude PyStr PyRegex Errors Sha256 Uuid Contracts Grounding Prompt.
From S2P Require Import Schema Migrations Config Pydantic Events Sql Redis Models Integrity.
From S2P Require Import ModelSchema World Session Sample.
From S2P Require Import MetaWebhook Delivery DeliveryLaws DeliveryProps State Coordination.
From S2P Require Import Composition BuenPickModels BuenPick Conversations Handoffs Processing Tools.
From S2P Require Import Ingress Evidence Policies Orchestrator TurnLaws TurnProps Worker Api.

Local Open Scope Z_scope.

Section statements.
Context `{SqlEngine} `{RedisServer} `{Env}.

Definition integrity_kept : relation Db := fun d d' => integrity d -> integrity d'.
#[export] Instance integrity_kept_preorder : PreOrder integrity_kept.
Proof. split; unfold integrity_kept; intros ?; auto. Qed.

Context {R : Type} `{!InDb R} `{C : !Constrained R}.

(** An INSERT whose constraints, the arbiter's and the others, are those of the
    table, and whose foreign key test is the table's. *)
Definition tested (a un : R -> R -> bool) (fk : Db -> bool) (mk : Z -> R) : Prop :=
  (forall t d, fk d = true -> parent (mk t) d = true) /\
  Forall (fun c => forall t s, c (mk t) s = true -> a (mk t) s = true \/ un (mk t) s = true) uniques.

(** An UPDATE of columns outside the constraints. *)
Definition unconstrained (f : Z -> R -> R) : Prop :=
  (forall t r d, parent (f t r) d = parent r d) /\
  Forall (fun c => forall t r s, c (f t r) s = true -> c r s = true) uniques.

Lemma insert_ok (a un : R -> R -> bool) fk k t mk tb d :
  tested a un fk mk -> integrity d -> row_fits (mk t) = true -> fk d = true ->
  conflicts a (mk t) (rows (tbl d)) = false -> conflicts un (mk t) (rows (tbl d)) = false ->
  rows tb = <[k := mk t]> (rows (tbl d)) -> integrity (set_tbl tb d).
Proof.
  intros [Hp Hc] Hi Hfit Hfk Ha Hu Htb. apply integrity_set; rewrite ?Htb; [done|set_solver|].
  apply table_ok_insert; [apply uniques_sym|by apply integrity_tbl|done|by apply Hp|].
  rewrite Forall_forall in *. intros c Hin. apply conflicts_false. intros k' s Hs.
  rewrite conflicts_false in *. apply not_true_iff_false. intros [Hcs|Hcs]%(Hc c Hin).
  - by rewrite (Ha k' s Hs) in Hcs.
  - by rewrite (Hu k' s Hs) in Hcs.
Qed.

Lemma update_ok (p : Z -> R -> bool) f t d :
  unconstrained f -> integrity d ->
  existsb (fun kr => negb (row_fits (f t kr.2))) (sql_select p unordered (tbl d)) = false ->
  integrity (set_tbl (sql_update p (f t) (tbl d)) d).
Proof.
  intros [Hp Hc] Hi Hfits.
  assert (forall k r, rows (tbl d) !! k = Some r -> p k r = true -> row_fits (f t r) = true) as Hfit.
  { intros k r Hk Hpk. apply not_false_iff_true. intros Hn. apply not_true_iff_false in Hfits.
    apply Hfits, existsb_exists. exists (k, r). split; [|by cbn; rewrite Hn].
    by apply list_elem_of_In, elem_of_select. }
  apply integrity_set; rewrite ?sql_update_law; [done| |].
  - intros k. rewrite !elem_of_dom, update_spec_lookup. by destruct (rows (tbl d) !! k).
  - apply table_ok_update; [apply uniques_sym|by apply integrity_tbl|done|by intros; apply Hp|].
    eapply Forall_impl; [exact Hc|]. cbn. intros c Hcc r s. apply Hcc.
Qed.

Lemma insert_integrity (a un : R -> R -> bool) fk k mk :
  tested a un fk mk -> keeps_db integrity_kept (insert_row a un fk k mk).
Proof.
  intros Ht. apply keeps_db_stmt; [apply _|]. unfold integrity_kept. intros t d Hi. cbn zeta.
  destruct (negb _) eqn:Hf; [exact Hi|]. bools.
  pose proof (insert_cases a un (fk d) k (mk t) (tbl d)) as Hc. destruct (sql_insert _ _ _ _ _ _) as [o tb].
  destruct Hc as [(-> & _)|[(-> & _)|(-> & Hr & _ & Ha & Hu & Hfk)]]; [exact Hi..|].
  by eapply insert_ok.
Qed.

Lemma update_integrity (p : Z -> R -> bool) f :
  unconstrained f -> keeps_db integrity_kept (update_returning p f).
Proof.
  intros Hu. apply keeps_db_stmt; [apply _|]. unfold integrity_kept. intros t d Hi. cbn zeta.
  destruct (existsb _ _) eqn:Hx; [exact Hi|]. by apply update_ok.
Qed.

Lemma upsert_integrity (a un : R -> R -> bool) fk k mk f :
  tested a un fk mk -> unconstrained f ->
  keeps_db integrity_kept (upsert_returning a un fk k mk f).
Proof.
  intros Ht Hu. apply keeps_db_stmt; [apply _|]. unfold integrity_kept. intros t d Hi. cbn zeta.
  destruct (negb _) eqn:Hf; [exact Hi|]. bools.
  pose proof (insert_cases a un (fk d) k (mk t) (tbl d)) as Hc. destruct (sql_insert _ _ _ _ _ _) as [o tb].
  destruct Hc as [(-> & _)|[(-> & _)|(-> & Hr & _ & Ha & Hun & Hfk)]]; [|exact Hi|by eapply insert_ok].
  destruct (existsb _ _) eqn:Hx; [exact Hi|]. by apply update_ok.
Qed.
End statements.

Lemma any_handoff_true r s :
  uq_handoffs_conversation_idempotency r s = true \/ uq_handoffs_one_open_per_conversation r s = true ->
  any_handoff_conflict r s = true.
Proof. unfold any_handoff_conflict. by rewrite orb_true_iff. Qed.
#[local] Hint Resolve any_handoff_true : core.

(** Splits [tested] and [unconstrained]; the constraints of a record are those
    of its table. *)
Ltac constraints :=
  split; [done|]; repeat (apply Forall_cons; split); [..|apply Forall_nil; exact I]; cbn; intros ? ?; auto.

Ltac integrity_step :=
  first [ apply insert_integrity; constraints | apply update_integrity; constraints
        | apply upsert_integrity; constraints | keeps_step ].
Ltac integrity_auto := repeat integrity_step.

(** ** The repositories *)

Section repositories.
Context `{SqlEngine} `{RedisServer} `{Env}.

Lemma record_inbound_integrity acct message trace enqueue :
  keeps_db integrity_kept (record_inbound acct message trace enqueue).
Proof. unfold record_inbound. integrity_auto. Qed.

Lemma record_outbound_integrity cid text trace ext :
  keeps_db integrity_kept (record_outbound cid text trace ext).
Proof. unfold record_outbound. integrity_auto. Qed.

Lemma request_integrity r : keeps_db integrity_kept (request r).
Proof. unfold request. integrity_auto. Qed.

Lemma claim_integrity cid req : keeps_db integrity_kept (claim cid req).
Proof. unfold claim. integrity_auto. Qed.

Lemma finalize_integrity id result : keeps_db integrity_kept (finalize id result).
Proof. unfold finalize. integrity_auto. Qed.

Lemma apply_callback_integrity cb : keeps_db integrity_kept (apply_callback cb).
Proof. unfold apply_callback, _apply_callback, callback_read, callback_event, callback_write. integrity_auto. Qed.
End repositories.

(** ** The queue and the delivery service *)

Section services.
Context `{SqlEngine} `{RedisServer} `{Env} `{RowLocks}.

Lemma transition_integrity id status err av : keeps_db integrity_kept (_transition id status err av).
Proof. unfold _transition. integrity_auto. Qed.

Lemma fail_integrity id code retry delay : keeps_db integrity_kept (fail id code retry delay).
Proof. unfold fail. repeat first [apply transition_integrity | keeps_step]. Qed.

Lemma claim_next_integrity timeout : keeps_db integrity_kept (claim_next timeout).
Proof.
  unfold claim_next, select_due.
  repeat first [ integrity_step | solve [intros w; by apply keeps_db_stmt; [apply _|]] ].
Qed.

Lemma send_integrity adapter cid req :
  (forall r, keeps_db (=) (adapter r)) -> keeps_db integrity_kept (send adapter cid req).
Proof.
  intros Had. apply send_keeps; [apply _|apply claim_integrity|apply keeps_db_eq, Had; apply _|].
  intros. apply finalize_integrity.
Qed.

Lemma dedup_claim_db ttl a m : keeps_db (=) (dedup_claim ttl a m).
Proof. unfold dedup_claim. repeat first [apply redis_try_db | keeps_step]. Qed.

Lemma ingest_integrity ttl events : keeps_db integrity_kept (ingest ttl events).
Proof.
  unfold ingest, store_messages, store_message, apply_status.
  repeat first [ apply record_inbound_integrity | apply apply_callback_integrity
               | solve [apply keeps_db_eq, dedup_claim_db; apply _] | keeps_step ].
Qed.
End services.

(** ** The system *)

Section runs.
Context `{SqlEngine} `{RedisServer} `{Env}.

Lemma keeps_map_in {A B} (R : relation World) `{!PreOrder R} (f : A -> M B) l :
  (forall a, a ∈ l -> keeps R (f a)) -> keeps R (m_map f l).
Proof.
  induction l as [|x l IH]; intros Hf; cbn [m_map]; [apply keeps_ret, _|].
  apply keeps_bind; [apply _|apply Hf; by left|]. intros y.
  apply keeps_bind; [apply _|apply IH; intros a Ha; apply Hf; by right|]. intros. apply keeps_ret, _.
Qed.

Lemma keeps_lift_bind {A B} (R : relation World) `{!PreOrder R} (r : res A) (f : A -> M B) :
  (forall a, r = Ok a -> keeps R (f a)) -> keeps R (lift r ≫= f).
Proof. intros Hf w. rewrite bind_run. destruct r as [a|e]; cbn; [by apply Hf|done]. Qed.

(** A time that is read and handed on. *)
Lemma keeps_stamp_some {B} (R : relation World) `{!PreOrder R} (g : Z -> Z) (f : option Z -> M B) :
  keeps R now -> (forall t, keeps R (f (Some t))) -> keeps R ((t ← now; mret (Some (g t))) ≫= f).
Proof. intros Hn Hf w. pose proof (Hn w) as Hw. etrans; [exact Hw|]. apply Hf. Qed.
End runs.

Section system.
Context `{JsonLoads} `{LaxInt} `{UCD} `{SqlEngine} `{RedisServer} `{Env} `{RowLocks}.
Context `{E : !ResponseEngine} `{!EngineLaws E}.
Variables (configured : bool) (lock_ttl dedup_ttl timeout max_attempts : Z).
Variable tools : option BuenPickReader.
Hypothesis tools_frame : forall reader, tools = Some reader -> ReaderFrame reader.
Variables app_secret expected_waba_id expected_phone_number_id : option str.
Variable ingress_ready : bool.
Variable adapter : DeliveryRequest -> M DeliveryResult.
Hypothesis adapter_db : forall request, keeps_db (=) (adapter request).

(** What a request keeps, from what its statements keep. *)
Section requests.
Context (Rd : relation Db) `{!PreOrder Rd}.

Lemma send_message_keeps request :
  (forall acct message, contract_ok message = true ->
     keeps_db Rd (record_inbound acct message (trace_of message) false)) ->
  (forall cid text trace ext, py_len text <= 4096 -> keeps_db Rd (record_outbound cid text trace ext)) ->
  (forall r, keeps_db Rd (Handoffs.request r)) ->
  keeps_db Rd (send_message configured lock_ttl tools request).
Proof.
  intros Hin Hout Hreq. unfold send_message. apply keeps_if; [apply keeps_raise, _|].
  assert (keeps_db Rd (message_id_of request)) as Hid.
  { unfold message_id_of. destruct (truthy_opt _); keeps_auto. }
  apply keeps_bind; [apply _|exact Hid|]. intros id.
  apply keeps_bind; [apply _|apply keeps_db_now, _|]. intros t.
  apply keeps_lift_bind; [apply _|]. intros inbound [Hok ->]%construct_ok.
  apply keeps_try; [apply _|apply respond_keeps; [done|apply _|exact Hout|exact Hreq|by apply Hin]|].
  intros e m' Hm. destruct (is_busy e); [|done]. injection Hm as <-. apply keeps_raise, _.
Qed.

Lemma webhook_keeps body signature :
  (forall events, webhook_events expected_waba_id expected_phone_number_id body = Ok events ->
     keeps_db Rd (ingest dedup_ttl events)) ->
  keeps_db Rd (Api.receive app_secret expected_waba_id expected_phone_number_id
    ingress_ready dedup_ttl body signature).
Proof.
  intros Hi. unfold Api.receive. destruct app_secret; [|apply keeps_raise, _].
  apply keeps_if; [|apply keeps_raise, _].
  apply keeps_bind; [apply _|apply keeps_lift, _|]. intros ok.
  apply keeps_if; [apply keeps_raise, _|].
  apply keeps_lift_bind; [apply _|]. intros events Hev. apply keeps_try; [apply _|by apply Hi|].
  intros e m' Hm. destruct (is_retryable e); [|done]. injection Hm as <-. apply keeps_raise, _.
Qed.
End requests.

Lemma history_db id : keeps_db (=) (conversation_history configured id).
Proof.
  unfold conversation_history, history, find_conversation_id, recent_messages. keeps_auto.
Qed.

Lemma send_message_integrity request :
  keeps_db integrity_kept (send_message configured lock_ttl tools request).
Proof.
  apply send_message_keeps; [apply _|..]; intros;
    [apply record_inbound_integrity|apply record_outbound_integrity|apply request_integrity].
Qed.

Lemma history_integrity id : keeps_db integrity_kept (conversation_history configured id).
Proof. apply keeps_db_eq, history_db. apply _. Qed.

Lemma webhook_integrity body signature :
  keeps_db integrity_kept (Api.receive app_secret expected_waba_id expected_phone_number_id
    ingress_ready dedup_ttl body signature).
Proof. apply webhook_keeps; [apply _|]. intros. apply ingest_integrity. Qed.

Lemma process_job_integrity job :
  keeps_db integrity_kept (process_job lock_ttl max_attempts tools adapter job).
Proof.
  unfold process_job. apply keeps_try; [apply _| |].
  - apply keeps_bind; [apply _| |].
    + unfold answer_job. apply keeps_bind; [apply _| |].
      * apply respond_persisted_keeps; [exact tools_frame|apply _|..]; intros;
          [apply record_outbound_integrity|apply request_integrity].
      * intros reply. repeat first [apply send_integrity, adapter_db | keeps_step].
    + intros result. unfold settle_job, complete.
      repeat first [apply transition_integrity | apply fail_integrity | keeps_step].
  - intros e m' [= <-]. unfold job_failed. repeat first [apply fail_integrity | keeps_step].
Qed.

Lemma process_once_integrity :
  keeps_db integrity_kept (process_once lock_ttl timeout max_attempts tools adapter).
Proof.
  unfold process_once. apply keeps_bind; [apply _|apply claim_next_integrity|].
  intros [job|]; [apply process_job_integrity|apply keeps_ret, _].
Qed.

(** One request to the console or to the webhook, or one round of the worker,
    whatever it answers. *)
Inductive step : World -> World -> Prop :=
| chat_step request w :
    step w (send_message configured lock_ttl tools request w).2
| history_step id w : step w (conversation_history configured id w).2
| webhook_step body signature w :
    step w (Api.receive app_secret expected_waba_id expected_phone_number_id ingress_ready dedup_ttl
              body signature w).2
| worker_step w : step w (process_once lock_ttl timeout max_attempts tools adapter w).2.

Lemma step_integrity w w' : step w w' -> integrity_kept (w_db w) (w_db w').
Proof.
  destruct 1; [apply send_message_integrity|apply history_integrity|apply webhook_integrity
              |apply process_once_integrity].
Qed.

(** Whatever requests the console and the webhook receive and whatever rounds
    the worker makes, in whatever order and with whatever clocks, outages and
    answers, the database keeps its integrity: every row fits its columns, every
    unique constraint holds, every foreign key has its row.  So the database the
    program writes is valid for the migrated schema. *)
Theorem database_integrity w w' :
  integrity (w_db w) -> rtc step w w' ->
  integrity (w_db w') /\ (machine_ranges (w_db w') -> valid metadata (database_rows (w_db w'))).
Proof.
  intros Hi Hs. assert (integrity (w_db w')) as Hi'.
  { revert Hi. induction Hs as [|w w1 w' Hs _ IH]; [done|]. intros Hi. by apply IH, (step_integrity w w1). }
  split; [done|]. intros Hr. apply (proj2 (schema_validity _)). done.
Qed.
End system.

(** An empty database has its integrity. *)
Lemma empty_integrity `{SqlEngine} d :
  rows (db_conversations d) = ∅ -> rows (db_messages d) = ∅ -> rows (db_handoffs d) = ∅ ->
  rows (db_attempts d) = ∅ -> rows (db_events d) = ∅ -> integrity d.
Proof.
  intros Hc Hm Hh Ha He.
  split; rewrite ?Hc, ?Hm, ?Hh, ?Ha, ?He; split; try apply map_Forall_empty;
    repeat (apply Forall_cons; split); try apply Forall_nil; try done; apply map_Forall_empty.
Qed.

(** ** Evaluations *)

Section concrete.
#[local] Existing Instances lax_int_default latin1_ucd map_engine scheduled_server sample_env no_locks friendly_engine friendly_laws.
#[local] Instance empty_loads : JsonLoads := {| json_loads _ := Raise UnicodeDecodeError |}.

Definition blank_world : World :=
  mkWorld map_engine scheduled_server (mkDb map_engine ∅ ∅ ∅ ∅ ∅) (Scheduled ∅ []) [] [] 100 0.

(** A message on the console, a round of the worker, a bad webhook. *)
Definition said_hello : World := (send_message true 30 no_tools hello_request blank_world).2.
Definition nothing_to_do : World :=
  (process_once 30 60 3 no_tools (fun _ => raise TypeError) said_hello).2.
Definition refused_webhook : World :=
  (Api.receive (Some (u "secret")) None None true 3600 [255] None nothing_to_do).2.

Lemma database_integrity_witness :
  dom (db_messages (w_db refused_webhook)) = {[101; 102]} /\ integrity (w_db refused_webhook).
Proof.
  split; [vm_compute; reflexivity|].
  apply (database_integrity true 30 3600 60 3 no_tools no_tools_frame (Some (u "secret")) None None true
    (fun _ => raise TypeError) (fun _ => keeps_raise _ TypeError) blank_world).
  - by apply empty_integrity.
  - eapply rtc_l; [apply (chat_step true 30 3600 60 3 no_tools _ _ _ _ _ hello_request)|].
    eapply rtc_l; [apply worker_step|].
    eapply rtc_l; [apply (webhook_step true 30 3600 60 3 no_tools _ _ _ _ _ [255] None)|]. apply rtc_refl.
Defined.
End concrete.
