(* ===== verification/QueueLaws.v ===== *)
(** * The program keeps its queue claimable

    [queue_wf]: every queued message can be turned into a job.  Every request
    to the console or the webhook and every round of the worker keeps it,
    whatever the clocks, the outages and the answers of remote services: what
    the webhook enqueues was validated, a claim and a transition write only the
    columns of the queue, and nothing else touches an inbound message or the
    identity of a conversation. *)
From S2P Require Import Prelude PyStr PyRegex Errors Sha256 Uuid Contracts Grounding Prompt.
From S2P Require Import Schema Migrations Config Pydantic Events Sql Redis Models Integrity.
From S2P Require Import ModelSchema World Session Sample.
From S2P Require Import MetaWebhook Delivery DeliveryLaws DeliveryProps State Coordination.
From S2P Require Import Composition BuenPickModels BuenPick Conversations Handoffs Processing Tools.
From S2P Require Import Ingress Evidence Policies Orchestrator TurnLaws TurnProps Worker Api.
From S2P Require Import IntegrityLaws.

Local Open Scope Z_scope.

#[local] Abbreviation messages d := (rows (db_messages d)).
#[local] Abbreviation conversations d := (rows (db_conversations d)).

(** ** Changes that keep the queue *)

(** The columns a job is built from. *)
Definition same_identity (c c' : ConversationRecord) : Prop :=
  c_channel c' = c_channel c /\ c_channel_account_id c' = c_channel_account_id c /\
  c_external_conversation_id c' = c_external_conversation_id c.

Lemma claimed_identity k m c c' :
  same_identity c c' -> claimed_inbound k m c' = claimed_inbound k m c.
Proof. intros (Hc & Ha & He). unfold claimed_inbound. by rewrite Hc, Ha, He. Qed.

(** A message that is a job. *)
Definition queued (m : MessageRecord) : Prop :=
  m_direction m = u "inbound" /\ m_processing_status m <> None.

Section changes.
Context `{SqlEngine}.

Definition queue_kept : relation Db := fun d d' => queue_wf d -> queue_wf d'.
#[export] Instance queue_kept_preorder : PreOrder queue_kept.
Proof. split; unfold queue_kept; intros ?; auto. Qed.

(** Conversations keep their identity. *)
Definition identities_kept : relation Db := fun d d' => forall k c,
  conversations d !! k = Some c -> exists c', conversations d' !! k = Some c' /\ same_identity c c'.

Lemma queue_frame d d' :
  identities_kept d d' ->
  (forall k m, messages d' !! k = Some m -> queued m -> messages d !! k = Some m) ->
  queue_kept d d'.
Proof.
  intros Hc Hm Hq k m Hk Hd Hs. apply Hm in Hk; [|done]. destruct (Hq k m Hk Hd Hs) as (Hf & c & job & Hcs & Hj).
  split; [done|]. destruct (Hc _ _ Hcs) as (c' & Hc' & Hsame). exists c', job.
  split; [done|]. by rewrite (claimed_identity _ _ c c').
Qed.

Lemma identities_same d d' : db_conversations d' = db_conversations d -> identities_kept d d'.
Proof. intros Hd k c Hk. exists c. by rewrite Hd. Qed.

Lemma identities_update d tb (p : Z -> ConversationRecord -> bool) f :
  (forall c, same_identity c (f c)) -> rows tb = update_spec p f (conversations d) ->
  identities_kept d (set_tbl tb d).
Proof.
  intros Hf Hr k c Hk. cbn. rewrite Hr, update_spec_lookup, Hk. eexists. split; [reflexivity|].
  by destruct (p k c).
Qed.

Lemma identities_insert d tb k (c : ConversationRecord) :
  conversations d !! k = None -> rows tb = <[k := c]> (conversations d) ->
  identities_kept d (set_tbl tb d).
Proof.
  intros Hn Hr k' c' Hk'. cbn. rewrite Hr, lookup_insert_ne by congruence. by exists c'.
Qed.

(** A change of the tables of the delivery. *)
Lemma queue_same d d' :
  db_conversations d' = db_conversations d -> db_messages d' = db_messages d -> queue_kept d d'.
Proof.
  intros Hc Hm. apply queue_frame; [by apply identities_same|]. by rewrite Hm.
Qed.

Lemma queue_message_put d tb k m :
  messages d !! k = None -> rows tb = <[k := m]> (messages d) -> ~ queued m ->
  queue_kept d (set_tbl tb d).
Proof.
  intros Hn Hr Hm. apply queue_frame; [by apply identities_same|]. cbn. rewrite Hr.
  intros k' m' [[<- <-]|[_ Hk]]%lookup_insert_Some Hq; done.
Qed.
End changes.

(** ** Statements and repositories *)

Section repositories.
Context `{SqlEngine} `{RedisServer} `{Env}.

(** A statement that raises changes nothing. *)
Lemma stmt_raise {A} (f : Z -> Db -> res A * Db) w e w' :
  (forall t d e d', f t d = (Raise e, d') -> d' = d) ->
  stmt f w = (Raise e, w') -> w_db w' = w_db w.
Proof.
  intros Hf. unfold stmt. destruct (db_up _); [|by intros [= _ <-]].
  destruct (f _ _) as [r d] eqn:He. intros [= -> <-]. by eapply Hf.
Qed.

Lemma upsert_raise {R} `{!InDb R} (a un : R -> R -> bool) fk k mk f w e w' :
  upsert_returning a un fk k mk f w = (Raise e, w') -> w_db w' = w_db w.
Proof. apply stmt_raise. intros t d e' d'. cbv beta zeta. split_all; naive_solver. Qed.

Lemma insert_raise {R} `{!InDb R} (a un : R -> R -> bool) fk k mk w e w' :
  insert_row a un fk k mk w = (Raise e, w') -> w_db w' = w_db w.
Proof. apply stmt_raise. intros t d e' d'. cbv beta zeta. split_all; naive_solver. Qed.

(** A row that is stored, or only tested, fits its columns. *)
Lemma upsert_fits {R} `{!InDb R} (a un : R -> R -> bool) fk k mk f w ids w' :
  upsert_returning a un fk k mk f w = (Ok ids, w') -> row_fits (mk (clock (w_tick w))) = true.
Proof.
  unfold upsert_returning, stmt. destruct (db_up _); [|done]. cbn zeta.
  by destruct (row_fits (mk (clock (w_tick w)))).
Qed.

(** The conversation an upsert returns is that of the message. *)
Lemma upsert_identity acct message k w cid ids w' :
  upsert_returning uq_conversation_channel_identity no_constraint (fun _ => true) k
    (new_conversation acct message) touch w = (Ok ids, w') -> one ids = Ok cid ->
  (exists c, conversations (w_db w') !! cid = Some c /\ is_identity acct message c) /\
  identities_kept (w_db w) (w_db w') /\ db_messages (w_db w') = db_messages (w_db w).
Proof.
  intros Hup ->%one_inv. apply upsert_ok_inv in Hup as (t & tb & -> & Hcase). split; [|split; [|done]].
  - cbn. destruct Hcase as [([= ->] & _ & _ & _ & _ & Hr)|(Hsel & Hr)]; rewrite Hr.
    + rewrite lookup_insert_eq. by eexists.
    + destruct (fst_one_inv _ _ Hsel) as (c & (Hk & Hu & _)%select_one_inv).
      change (rows (tbl (w_db w))) with (conversations (w_db w)) in *.
      rewrite update_spec_lookup, Hk. cbn. rewrite Hu. eexists. split; [done|].
      apply uq_identity_true in Hu. unfold is_identity. cbn in *. naive_solver congruence.
  - destruct Hcase as [(_ & _ & _ & Hk & _ & Hr)|(_ & Hr)].
    + eapply identities_insert; [exact Hk|exact Hr].
    + eapply identities_update; [|exact Hr]. done.
Qed.

Lemma queued_row cid message trace av t :
  queued (inbound_row cid message trace av t) -> is_Some av.
Proof. intros [_ Hs]. destruct av; [by eexists|done]. Qed.

(** Recording a message keeps the queue: what it enqueues, if anything, is a
    valid message of a stored conversation. *)
Lemma record_inbound_queue acct message trace enqueue :
  (enqueue = true -> contract_ok message = true /\ 1 <= py_len acct) ->
  keeps_db queue_kept (record_inbound acct message trace enqueue).
Proof.
  intros Hvalid w. unfold db_rel, record_inbound. rewrite bind_run. unfold uuid4 at 1. cbv beta iota zeta.
  set (w1 := mkWorld _ _ _ _ _ _ _ _). change (w_db w) with (w_db w1). rewrite bind_run.
  destruct (upsert_returning _ _ _ _ _ _ w1) as [[ids|e] w2] eqn:Hup; cbn [snd];
    [|by rewrite (upsert_raise _ _ _ _ _ _ _ _ _ Hup)].
  pose proof (upsert_fits _ _ _ _ _ _ _ _ _ Hup) as Hfit.
  rewrite bind_run. unfold lift at 1. destruct (one ids) as [cid|e] eqn:Hone; cbn [snd].
  2: { apply upsert_ok_inv in Hup as (t & tb & -> & Hcase).
       destruct Hcase as [(-> & _)|(_ & Hr)]; [done|].
       apply queue_frame; [|done]. by eapply identities_update; [|exact Hr]. }
  destruct (upsert_identity _ _ _ _ _ _ _ Hup Hone) as ((c & Hc & Hid) & Hkept & Hms).
  etrans; [apply queue_frame; [exact Hkept|by rewrite Hms]|].
  rewrite bind_run. unfold uuid4 at 1. cbv beta iota zeta. set (w3 := mkWorld _ _ _ _ _ _ _ _).
  rewrite bind_run. set (stamp := if enqueue then _ else _).
  assert (exists av w4, stamp w3 = (Ok av, w4) /\ w_db w4 = w_db w2 /\ (is_Some av -> enqueue = true))
    as (av & w4 & -> & Hd4 & Hav)
    by (subst stamp; destruct enqueue; do 2 eexists; split_and!; try done; by intros [? ?]).
  rewrite bind_run. destruct (insert_row _ _ _ _ _ w4) as [[o|e] w5] eqn:Hins; cbn [snd];
    [|by rewrite (insert_raise _ _ _ _ _ _ _ _ Hins), Hd4].
  match goal with |- context [(?m w5).2] => replace (w_db (m w5).2) with (w_db w5) by (by destruct o) end.
  apply insert_ok_inv in Hins as [(r & t & -> & _ & Hfits & _ & Hk & _ & _ & tb & -> & Hr)|(_ & -> & _)];
    rewrite Hd4; [|done].
  intros Hq k0 m0. rewrite Hd4 in Hk, Hr. cbn. rewrite Hr.
  intros [[<- <-]|[_ Hk0]]%lookup_insert_Some Hdir Hst; [|by apply Hq].
  destruct Hvalid as [Hm Ha]; [by eapply Hav, queued_row|].
  split; [exact Hfits|]. exists c. eexists. split; [exact Hc|]. apply (claimed_inbound_roundtrip _ cid acct message trace av t); [|exact Ha|exact Hid].
  split; [done|]. split.
  - unfold row_fits in Hfit. cbn -[fits fits_opt u enum_value] in Hfit. unfold conversation_fits in Hfit.
    cbn -[fits fits_opt u enum_value] in Hfit. bools. by apply Z.leb_le.
  - unfold row_fits in Hfits. cbn -[fits fits_opt u enum_value] in Hfits. unfold message_fits in Hfits.
    cbn -[fits fits_opt u enum_value] in Hfits. bools. by apply Z.leb_le.
Qed.
End repositories.

Section services.
Context `{SqlEngine} `{RedisServer} `{Env} `{RowLocks}.

Lemma outbound_queue cid text trace ext k :
  keeps_db queue_kept (insert_row uq_messages_external_message_id no_constraint
    (conversation_exists cid) k (outbound_row cid text trace ext)).
Proof.
  intros w. unfold db_rel. destruct (insert_effect uq_messages_external_message_id no_constraint
    (conversation_exists cid) k (outbound_row cid text trace ext) w) as [->|(t & tb & -> & Hk & Hr)]; [done|].
  eapply queue_message_put; [exact Hk|exact Hr|]. intros [Hd _]. by vm_compute in Hd.
Qed.

Lemma needs_human_queue p : keeps_db queue_kept (update_returning p needs_human).
Proof.
  intros w. unfold db_rel. destruct (update_effect p needs_human w) as [->|(t & tb & -> & Hr)]; [done|].
  apply queue_frame; [|done]. by eapply identities_update; [|exact Hr].
Qed.

(** A statement on one of the other tables. *)
Ltac queue_step :=
  first [ apply outbound_queue | apply needs_human_queue
        | apply set_tbl_frame; [apply _|intros ? ?; by apply queue_same] | keeps_step ].
Ltac queue_auto := repeat queue_step.

Lemma record_outbound_queue cid text trace ext : keeps_db queue_kept (record_outbound cid text trace ext).
Proof. unfold record_outbound. queue_auto. Qed.

Lemma request_queue r : keeps_db queue_kept (request r).
Proof. unfold request. queue_auto. Qed.

Lemma claim_queue cid req : keeps_db queue_kept (claim cid req).
Proof. unfold claim. queue_auto. Qed.

Lemma finalize_queue id result : keeps_db queue_kept (finalize id result).
Proof. unfold finalize. queue_auto. Qed.

Lemma apply_callback_queue cb : keeps_db queue_kept (apply_callback cb).
Proof. unfold apply_callback, _apply_callback, callback_read, callback_event, callback_write. queue_auto. Qed.

(** A claim and a transition write the columns of the queue only. *)
Lemma claim_next_queue timeout : keeps_db queue_kept (claim_next timeout).
Proof.
  intros w. unfold db_rel. destruct (claim_next timeout w) as [[[job|]|e] w'] eqn:Hc; cbn [snd].
  - apply claim_ok_inv in Hc as (id & m & c & l & tb & Hdue & _ & Hd & Hr). rewrite Hd. intros Hq.
    assert ((id, m, c) ∈ (id, m, c) :: l) as Hin by by left. rewrite <- Hdue in Hin.
    apply elem_of_due in Hin as (Hm & He & _). apply eligible_status in He as [Hdir Hst].
    assert (m_processing_status m <> None) as Hs by (destruct Hst; congruence).
    eapply queue_wf_put; [exact Hq|exact Hm|done|done| |by apply mark_fits, (Hq id m)|exact Hr].
    split_and!; try done. cbn. lia.
  - by apply claim_ok_inv in Hc as [_ ->].
  - by rewrite (claim_raise_db _ _ _ _ Hc).
Qed.

Lemma transition_queue id status err av :
  fits_opt 100 err = true -> keeps_db queue_kept (_transition id status err av).
Proof.
  intros He w. unfold db_rel. destruct (_transition id status err av w) as [[[]|e] w'] eqn:Ht; cbn [snd];
    [|by rewrite (session_raise_db _ _ _ _ Ht)].
  apply transition_ok_inv in Ht as (m & tb & Hm & Hp & -> & Hr). intros Hq k0 m0. cbn. rewrite Hr.
  intros [[<- <-]|[_ Hk]]%lookup_insert_Some Hdir Hst; [|by apply Hq].
  assert (m_processing_status m <> None) as Hs by (apply bool_decide_eq_true in Hp; by rewrite Hp).
  assert (queue_wf (set_tbl tb (w_db w))) as Hq'.
  { apply (queue_wf_put _ _ id m (transitioned status err av m)); [exact Hq|exact Hm|exact Hdir|exact Hs|done| |exact Hr].
    apply transitioned_fits; [done|]. by apply (Hq id m). }
  apply Hq'; [|done..]. cbn. by rewrite Hr, lookup_insert_eq.
Qed.

Lemma fail_queue id code retry delay :
  fits 100 code = true -> keeps_db queue_kept (fail id code retry delay).
Proof.
  intros Hc. unfold fail. apply keeps_bind; [apply _|destruct retry; queue_auto|].
  intros av. by apply transition_queue.
Qed.

Lemma send_queue adapter cid req :
  (forall r, keeps_db (=) (adapter r)) -> keeps_db queue_kept (send adapter cid req).
Proof.
  intros Had. apply send_keeps; [apply _|apply claim_queue|apply keeps_db_eq, Had; apply _|].
  intros. apply finalize_queue.
Qed.
End services.

(** ** The system *)

(** What a webhook stores was validated. *)
Lemma webhook_messages_valid `{JsonLoads} `{LaxInt} `{UCD} waba phone body events m :
  webhook_events waba phone body = Ok events -> m ∈ we_messages events -> contract_ok m = true.
Proof.
  unfold webhook_events. destruct (json_loads body) as [payload|e]; cbn [mbind res_bind];
    [|by destruct (is_bad_payload e)].
  destruct payload as [| | | | | |fields]; try done.
  destruct (normalize_webhook fields waba phone) as [ev|e] eqn:Hn; [|by destruct (is_bad_payload e)].
  intros [= ->]. revert Hn. unfold normalize_webhook. destruct (parse_payload fields) as [p|]; [|done].
  intros (es & Hes & [= <-])%res_bind_ok. cbn [we_messages].
  destruct (proj1 (entries_ok waba phone p (concat es))) as [_ Hcs]; [by eauto|].
  apply changes_ok in Hcs as (_ & Hm & _). intros Hin.
  destruct (Forall2_elem_r _ _ _ _ Hm Hin) as (pm & _ & Hok). by apply normalize_message_ok in Hok as [? _].
Qed.

Section system.
Context `{JsonLoads} `{LaxInt} `{UCD} `{SqlEngine} `{RedisServer} `{Env} `{RowLocks}.
Context `{E : !ResponseEngine} `{!EngineLaws E}.
Variables (configured : bool) (lock_ttl dedup_ttl timeout max_attempts : Z).
Variable tools : option BuenPickReader.
Hypothesis tools_frame : forall reader, tools = Some reader -> ReaderFrame reader.
Variables app_secret expected_waba_id expected_phone_number_id : option str.
Variable ingress_ready : bool.
Variable adapter : DeliveryRequest -> M DeliveryResult.
Hypothesis adapter_db : forall request, keeps_db (=) (adapter request).
Hypothesis adapter_ok : forall req w x w', adapter req w = (Ok x, w') -> contract_ok x = true.

Lemma send_message_queue request :
  keeps_db queue_kept (send_message configured lock_ttl tools request).
Proof.
  apply send_message_keeps; [exact tools_frame|apply _|..]; intros;
    [by apply record_inbound_queue|apply record_outbound_queue|apply request_queue].
Qed.

Lemma ingest_queue events :
  (forall m, m ∈ we_messages events -> contract_ok m = true) ->
  keeps_db queue_kept (ingest dedup_ttl events).
Proof.
  intros Hok. unfold ingest. apply keeps_bind; [apply _| |].
  { apply keeps_db_session; [apply _|]. apply keeps_map_in; [apply _|]. intros m Hm. unfold store_message.
    destruct (negb _) eqn:Ht; [apply keeps_raise, _|]. apply keeps_bind; [apply _| |intros; apply keeps_ret, _].
    apply record_inbound_queue. intros _. split; [by apply Hok|].
    apply negb_false_iff, truthy_len in Ht. exact Ht. }
  intros stored. repeat first [ apply apply_callback_queue
    | solve [apply keeps_db_eq, dedup_claim_db; apply _] | keeps_step ].
Qed.

Lemma webhook_queue body signature :
  keeps_db queue_kept (Api.receive app_secret expected_waba_id expected_phone_number_id
    ingress_ready dedup_ttl body signature).
Proof.
  apply webhook_keeps; [apply _|]. intros events Hev. apply ingest_queue. intros m.
  by apply (webhook_messages_valid _ _ _ _ _ Hev).
Qed.

Lemma process_job_queue job : keeps_db queue_kept (process_job lock_ttl max_attempts tools adapter job).
Proof.
  unfold process_job. apply keeps_try; [apply _| |].
  - intros w. rewrite bind_run.
    assert (keeps_db queue_kept (answer_job lock_ttl tools adapter job)) as Hans.
    { unfold answer_job. apply keeps_bind; [apply _| |].
      - apply respond_persisted_keeps; [exact tools_frame|apply _|..]; intros;
          [apply record_outbound_queue|apply request_queue].
      - intros reply. repeat first [by apply send_queue | keeps_step]. }
    specialize (Hans w). destruct (answer_job lock_ttl tools adapter job w) as [[result|e] w1] eqn:Ha; [|exact Hans].
    etrans; [exact Hans|]. cbn [snd].
    assert (contract_ok result = true) as Hok.
    { unfold answer_job in Ha. apply bind_ok_inv in Ha as (reply & wa & _ & Ha).
      apply bind_ok_inv in Ha as (t & wb & _ & Ha). apply bind_ok_inv in Ha as (win & wc & _ & Ha).
      apply bind_ok_inv in Ha as (req & wd & _ & Ha). eapply send_result_ok; [apply adapter_ok|exact Ha]. }
    revert w1 Ha Hans. intros w1 _ _. unfold settle_job, complete.
    apply (keeps_bind (db_rel queue_kept)); [|intros; apply keeps_ret, _].
    destruct (provider_status _); [by apply transition_queue|by apply fail_queue, result_code_fits].
  - intros e m' [= <-]. apply keeps_bind; [apply _| |intros; apply keeps_ret, _].
    apply fail_queue, failure_code_fits.
Qed.

Lemma process_once_queue :
  keeps_db queue_kept (process_once lock_ttl timeout max_attempts tools adapter).
Proof.
  unfold process_once. apply keeps_bind; [apply _|apply claim_next_queue|].
  intros [job|]; [apply process_job_queue|apply keeps_ret, _].
Qed.

(** Whatever requests arrive and whatever rounds the worker makes, every queued
    message can be turned into a job. *)
Theorem queue_always_claimable w w' :
  queue_wf (w_db w) ->
  rtc (IntegrityLaws.step configured lock_ttl dedup_ttl timeout max_attempts tools
         app_secret expected_waba_id expected_phone_number_id ingress_ready adapter) w w' ->
  queue_wf (w_db w').
Proof.
  intros Hq Hs. revert Hq. induction Hs as [|w w1 w' Hs _ IH]; [done|]. intros Hq. apply IH. revert Hq.
  destruct Hs; [apply send_message_queue| |apply webhook_queue|apply process_once_queue].
  pose proof (history_db configured id) as Hh.
  specialize (Hh w). unfold db_rel in Hh. by rewrite <- Hh.
Qed.
End system.
