(* ===== verification/Identifiers.v ===== *)
(** * Identifiers are used once

    The rows of the program are keyed by [uuid4()]: a new row gets an identifier
    that no row of any table has.  [ids_unused] says that the identifiers still
    to come are free; every request and every round of the worker keeps it,
    whatever the database and the remote services answer, since every INSERT is
    given the identifier drawn just before it. *)
From S2P Require Import Prelude PyStr PyRegex Errors Sha256 Uuid Contracts Grounding Prompt.
From S2P Require Import Schema Migrations Config Pydantic Events Sql Redis Models Integrity.
From S2P Require Import ModelSchema World Session Sample.
From S2P Require Import MetaWebhook Delivery DeliveryLaws DeliveryProps State Coordination.
From S2P Require Import Composition BuenPickModels BuenPick Conversations Handoffs Processing Tools.
From S2P Require Import Ingress Evidence Policies Orchestrator TurnLaws TurnProps Worker Api.
From S2P Require Import IntegrityLaws.

Local Open Scope Z_scope.

(** ** Free identifiers *)

Section free.
Context `{SqlEngine}.

(** No row of the database has this key. *)
Definition free (d : Db) (k : Z) : Prop :=
  rows (db_conversations d) !! k = None /\ rows (db_messages d) !! k = None /\
  rows (db_handoffs d) !! k = None /\ rows (db_attempts d) !! k = None /\
  rows (db_events d) !! k = None.

(** A table of the database and its keys. *)
Class Keyed (R : Type) `{!InDb R} : Prop := {
  free_tbl d k : free d k -> rows (tbl d) !! k = None;
  free_set tb d k : free d k -> rows tb !! k = None -> free (set_tbl tb d) k
}.

#[export] Instance conversations_keyed : Keyed ConversationRecord.
Proof. split; unfold free; cbn; tauto. Qed.
#[export] Instance messages_keyed : Keyed MessageRecord.
Proof. split; unfold free; cbn; tauto. Qed.
#[export] Instance handoffs_keyed : Keyed HandoffRecord.
Proof. split; unfold free; cbn; tauto. Qed.
#[export] Instance attempts_keyed : Keyed DeliveryAttemptRecord.
Proof. split; unfold free; cbn; tauto. Qed.
#[export] Instance events_keyed : Keyed DeliveryStatusEventRecord.
Proof. split; unfold free; cbn; tauto. Qed.
End free.

Section unused.
Context `{SqlEngine} `{RedisServer}.

Definition ids_unused (w : World) : Prop := forall k, w_next_id w <= k -> free (w_db w) k.

(** What a run does that may write rows under the drawn identifier [drawn]. *)
Definition ids_kept (drawn : option Z) : relation World := fun w w' =>
  w_next_id w <= w_next_id w' /\
  ((forall k, drawn = Some k -> k < w_next_id w) -> ids_unused w -> ids_unused w').
#[export] Instance ids_kept_preorder drawn : PreOrder (ids_kept drawn).
Proof.
  split; [by intros w|]. intros w1 w2 w3 [H12 K12] [H23 K23]. split; [lia|]. intros Hd Hu.
  apply K23; [intros k Hk; specialize (Hd k Hk); lia|by apply K12].
Qed.

(** A run that touches neither the rows nor the identifiers. *)
Definition quiet : relation World := fun w w' => w_db w' = w_db w /\ w_next_id w' = w_next_id w.
#[export] Instance quiet_preorder : PreOrder quiet.
Proof. split; unfold quiet; [done|]. intros x y z [] []. split; congruence. Qed.

Lemma quiet_kept drawn w w' : quiet w w' -> ids_kept drawn w w'.
Proof. intros [Hd Hn]. split; [lia|]. intros _ Hu k Hk. rewrite Hd. apply Hu. lia. Qed.

Lemma keeps_quiet_ids drawn {A} (m : M A) : keeps quiet m -> keeps (ids_kept drawn) m.
Proof. intros Hm w. apply quiet_kept, Hm. Qed.
End unused.

(** ** Statements *)

Section statements.
Context `{SqlEngine} `{RedisServer} `{Env}.

Lemma quiet_emit ev tr co ou st er cc uc : keeps quiet (emit ev tr co ou st er cc uc).
Proof.
  unfold emit. apply keeps_bind; [apply _| |].
  - destruct st; [|apply keeps_ret, _]. apply keeps_bind; [apply _|by intros w|]. intros. apply keeps_ret, _.
  - intros d w. unfold quiet, emit_record. by destruct (construct _).
Qed.

Lemma quiet_redis_try c : keeps quiet (redis_try c).
Proof.
  intros w. unfold quiet, redis_try, try_except. rewrite bind_run. unfold redis.
  by destruct (redis_exec _ _ _) as [[r|] s].
Qed.

Lemma quiet_http q : keeps quiet (http q).
Proof. by intros w. Qed.
Lemma quiet_sleep t : keeps quiet (sleep t).
Proof. by intros w. Qed.

Lemma quiet_select {R} `{!InDb R} (p : Z -> R -> bool) le : keeps quiet (select p le).
Proof. intros w. unfold quiet, select, stmt. by destruct (db_up _). Qed.

Lemma ids_session drawn {A} (body : M A) : keeps (ids_kept drawn) body -> keeps (ids_kept drawn) (session body).
Proof.
  intros Hb w. specialize (Hb w). unfold session. destruct (body w) as [[a|e] w1]; cbn [snd] in *.
  - destruct (db_up _); [exact Hb|]. destruct Hb as [Hn _]. split; [exact Hn|]. intros _ Hu k Hk. apply Hu.
    cbn in Hk. lia.
  - destruct Hb as [Hn _]. split; [exact Hn|]. intros _ Hu k Hk. apply Hu. cbn in Hk. lia.
Qed.

(** What is drawn is new; the run goes on under it. *)
Lemma ids_draw drawn {A} (f : Z -> M A) :
  (forall k, keeps (ids_kept (Some k)) (f k)) -> keeps (ids_kept drawn) (uuid4 ≫= f).
Proof.
  intros Hf w. rewrite bind_run. unfold uuid4. cbv beta iota zeta. set (w1 := mkWorld _ _ _ _ _ _ _ _).
  specialize (Hf (w_next_id w) w1) as [Hn Hk]. cbn in Hn. split; [lia|]. intros _ Hu. apply Hk.
  - intros k [= <-]. cbn. lia.
  - intros k Hle. apply Hu. cbn in Hle. lia.
Qed.

(** A new table with no more keys than the old one, and possibly the drawn one. *)
Lemma ids_set_tbl {R} `{!InDb R, !Keyed R} drawn tb w w' :
  w_db w' = set_tbl tb (w_db w) -> w_next_id w' = w_next_id w ->
  (forall k, rows (tbl (w_db w)) !! k = None -> drawn <> Some k -> rows tb !! k = None) ->
  ids_kept drawn w w'.
Proof.
  intros Hd Hn Htb. split; [lia|]. intros Hlt Hu k Hk. rewrite Hd. rewrite Hn in Hk.
  apply free_set; [by apply Hu|]. apply Htb; [by apply free_tbl, Hu|]. intros ->.
  specialize (Hlt k eq_refl). lia.
Qed.

Lemma stmt_next {A} (f : Z -> Db -> res A * Db) w : w_next_id (stmt f w).2 = w_next_id w.
Proof. unfold stmt. destruct (db_up _); [|done]. by destruct (f _ _). Qed.

Context {R : Type} `{!InDb R, !Keyed R}.

Lemma ids_insert (a un : R -> R -> bool) fk k mk : keeps (ids_kept (Some k)) (insert_row a un fk k mk).
Proof.
  intros w. pose proof (stmt_next (fun t d => let r := mk t in
    if negb (row_fits r) then (Raise DataError, d)
    else match sql_insert a un (fk d) k r (tbl d) with
         | (Inserted, tb) => (Ok (Some r), set_tbl tb d)
         | (Skipped, _) => (Ok None, d)
         | (Violation, _) => (Raise IntegrityError, d)
         end) w) as Hn.
  change (w_next_id (insert_row a un fk k mk w).2 = w_next_id w) in Hn.
  destruct (insert_effect a un fk k mk w) as [Hd|(t & tb & Hd & _ & Hr)]; [by apply quiet_kept|].
  eapply ids_set_tbl; [exact Hd|exact Hn|]. intros k' Hk' Hne. rewrite Hr, lookup_insert_ne by congruence. done.
Qed.

Lemma ids_update drawn (p : Z -> R -> bool) f : keeps (ids_kept drawn) (update_returning p f).
Proof.
  intros w. pose proof (stmt_next (fun t d =>
    let hit := sql_select p unordered (tbl d) in
    if existsb (fun kr => negb (row_fits (f t kr.2))) hit then (Raise DataError, d)
    else (Ok hit.*1, set_tbl (sql_update p (f t) (tbl d)) d)) w) as Hn.
  change (w_next_id (update_returning p f w).2 = w_next_id w) in Hn.
  destruct (update_effect p f w) as [Hd|(t & tb & Hd & Hr)]; [by apply quiet_kept|].
  eapply ids_set_tbl; [exact Hd|exact Hn|]. intros k' Hk' _. by rewrite Hr, update_spec_lookup, Hk'.
Qed.

Lemma ids_upsert (a un : R -> R -> bool) fk k mk f :
  keeps (ids_kept (Some k)) (upsert_returning a un fk k mk f).
Proof.
  intros w. destruct (upsert_returning a un fk k mk f w) as [[ids|e] w'] eqn:Hu; cbn [snd].
  - assert (w_next_id w' = w_next_id w) as Hn.
    { revert Hu. unfold upsert_returning, stmt. split_all; naive_solver. }
    apply upsert_ok_inv in Hu as (t & tb & Hd & Hcase). eapply ids_set_tbl; [exact Hd|exact Hn|].
    intros k' Hk' Hne. destruct Hcase as [(_ & _ & _ & _ & _ & ->)|(_ & ->)].
    + by rewrite lookup_insert_ne by congruence.
    + by rewrite update_spec_lookup, Hk'.
  - apply quiet_kept. revert Hu. unfold upsert_returning, stmt, quiet. split_all; naive_solver.
Qed.
End statements.

(** ** The repositories *)

Ltac ids_step :=
  lazymatch goal with
  | |- keeps _ (uuid4 ≫= _) => apply ids_draw; intros ?
  | |- keeps _ (session _) => apply ids_session
  | |- keeps _ (insert_row _ _ _ _ _) => apply ids_insert
  | |- keeps _ (update_returning _ _) => apply ids_update
  | |- keeps _ (upsert_returning _ _ _ _ _ _) => apply ids_upsert
  | |- keeps _ (select _ _) => apply keeps_quiet_ids, quiet_select
  | |- keeps _ (emit _ _ _ _ _ _ _ _) => apply keeps_quiet_ids, quiet_emit
  | |- keeps _ (redis_try _) => apply keeps_quiet_ids, quiet_redis_try
  | |- keeps _ (_ ≫= _) => apply keeps_bind; [apply _| |intros ?]
  | |- keeps _ (try_except _ _) => apply keeps_try; [apply _| |]
  | |- keeps _ (try_finally _ _) => apply keeps_finally; [apply _| |]
  | |- keeps _ (m_map _ _) => apply keeps_map; [apply _|intros ?]
  | |- keeps _ (mret _) => apply keeps_ret, _
  | |- keeps _ (raise _) => apply keeps_raise, _
  | |- keeps _ (lift _) => apply keeps_lift, _
  | |- keeps _ now => apply keeps_quiet_ids; by intros ?
  | |- keeps _ started_at => apply keeps_quiet_ids; by intros ?
  | |- keeps _ new_token => apply keeps_quiet_ids; by intros ?
  | |- keeps _ (let '(_, _) := ?x in _) => destruct x
  | |- keeps _ (match ?x with _ => _ end) => destruct x
  end.

Section repositories.
Context `{SqlEngine} `{RedisServer} `{Env} `{RowLocks}.

Lemma record_inbound_ids drawn acct message trace enqueue :
  keeps (ids_kept drawn) (record_inbound acct message trace enqueue).
Proof. unfold record_inbound. repeat ids_step. Qed.

Lemma record_outbound_ids drawn cid text trace ext :
  keeps (ids_kept drawn) (record_outbound cid text trace ext).
Proof. unfold record_outbound. repeat ids_step. Qed.

Lemma request_ids drawn r : keeps (ids_kept drawn) (request r).
Proof. unfold request. repeat ids_step. Qed.

Lemma claim_ids drawn cid req : keeps (ids_kept drawn) (claim cid req).
Proof. unfold claim. repeat ids_step. Qed.

Lemma finalize_ids drawn id result : keeps (ids_kept drawn) (finalize id result).
Proof. unfold finalize. repeat ids_step. Qed.

Lemma apply_callback_ids drawn cb : keeps (ids_kept drawn) (apply_callback cb).
Proof.
  unfold apply_callback, _apply_callback, callback_read, callback_event, callback_write. repeat ids_step.
Qed.

Lemma claim_next_ids drawn timeout : keeps (ids_kept drawn) (claim_next timeout).
Proof.
  unfold claim_next. apply keeps_bind; [apply _|apply keeps_quiet_ids; by intros ?|]. intros t.
  apply ids_session. apply keeps_bind; [apply _| |intros; repeat ids_step].
  apply keeps_quiet_ids. intros w. unfold quiet, select_due, stmt. by destruct (db_up _).
Qed.

Lemma transition_ids drawn id status err av : keeps (ids_kept drawn) (_transition id status err av).
Proof. unfold _transition. repeat ids_step. Qed.
End repositories.

(** ** The system *)

Section system.
Context `{JsonLoads} `{LaxInt} `{UCD} `{SqlEngine} `{RedisServer} `{Env} `{RowLocks}.
Context `{E : !ResponseEngine}.
Variables (configured : bool) (lock_ttl dedup_ttl timeout max_attempts : Z).
Variable tools : option BuenPickReader.
Variables app_secret expected_waba_id expected_phone_number_id : option str.
Variable ingress_ready : bool.
Variable adapter : DeliveryRequest -> M DeliveryResult.

(** The collaborators write no row and draw no identifier. *)
Hypothesis engine_quiet : forall packet turns text, keeps quiet (engine_respond packet turns text).
Hypothesis reader_quiet : forall reader query commerce,
  tools = Some reader -> keeps quiet (br_search query commerce).
Hypothesis adapter_quiet : forall request, keeps quiet (adapter request).

Lemma tool_search_quiet (reader : BuenPickReader) query trace :
  tools = Some reader -> keeps quiet (tool_search query None trace).
Proof.
  intros Ht. unfold tool_search, _run.
  do 2 (apply keeps_bind; [apply _|by intros ?|]; intros ?).
  apply keeps_bind; [apply _|apply quiet_emit|]. intros _. apply keeps_try; [apply _| |].
  - apply keeps_bind; [apply _|by eapply reader_quiet|]. intros data.
    apply keeps_bind; [apply _|apply quiet_emit|]. intros _.
    apply keeps_bind; [apply _|by intros ?|]. intros f. apply keeps_lift, _.
  - intros e m' Hm. destruct e; try done. injection Hm as <-.
    apply keeps_bind; [apply _|apply quiet_emit|]. intros _.
    apply keeps_bind; [apply _|by intros ?|]. intros f. apply keeps_lift, _.
Qed.

Ltac system_step :=
  lazymatch goal with
  | |- keeps _ (engine_respond _ _ _) => apply keeps_quiet_ids, engine_quiet
  | |- keeps _ (adapter _) => apply keeps_quiet_ids, adapter_quiet
  | |- keeps _ (tool_search _ _ _) => apply keeps_quiet_ids; by apply tool_search_quiet
  | |- keeps _ (record_inbound _ _ _ _) => apply record_inbound_ids
  | |- keeps _ (record_outbound _ _ _ _) => apply record_outbound_ids
  | |- keeps _ (request _) => apply request_ids
  | |- keeps _ (claim _ _) => apply claim_ids
  | |- keeps _ (finalize _ _) => apply finalize_ids
  | |- keeps _ (apply_callback _) => apply apply_callback_ids
  | |- keeps _ (_transition _ _ _ _) => apply transition_ids
  | |- keeps _ (match ?x with _ => _ end) => case_eq x; intros
  | _ => ids_step
  end.

Lemma compose_reply_ids drawn intent query trace cid hist mid :
  keeps (ids_kept drawn) (_compose_reply tools intent query trace cid hist mid).
Proof. unfold _compose_reply, reply_handoff, reply_discover, reply_explain. repeat system_step. Qed.

Lemma finish_turn_ids drawn message trace cid hist :
  keeps (ids_kept drawn) (finish_turn tools message trace cid hist).
Proof.
  unfold finish_turn. repeat lazymatch goal with
  | |- keeps _ (_compose_reply _ _ _ _ _ _ _) => apply compose_reply_ids
  | _ => system_step
  end.
Qed.

Ltac turn_step :=
  lazymatch goal with
  | |- keeps _ (finish_turn _ _ _ _ _) => apply finish_turn_ids
  | _ => system_step
  end.

Lemma respond_persisted_ids drawn message acct cid :
  keeps (ids_kept drawn) (respond_persisted lock_ttl tools message acct cid).
Proof.
  unfold respond_persisted, respond_persisted_locked, recall, find_message, recent_messages, acquire, release.
  repeat turn_step.
Qed.

Lemma send_message_ids request : keeps (ids_kept None) (send_message configured lock_ttl tools request).
Proof.
  unfold send_message, message_id_of, orchestrator_respond, _respond_locked, Orchestrator.receive, find_message,
    recent_messages, acquire, release_observed, release.
  repeat turn_step.
  intros e m'. destruct (is_busy e); [|done]. intros [= <-]. apply keeps_raise, _.
Qed.

Lemma webhook_ids body signature :
  keeps (ids_kept None) (Api.receive app_secret expected_waba_id expected_phone_number_id
    ingress_ready dedup_ttl body signature).
Proof.
  unfold Api.receive, ingest, store_messages, store_message, apply_status, dedup_claim.
  cbn [store_apply_callback PostgresDeliveryStore]. repeat system_step.
  intros e m'. destruct (is_retryable e); [|done]. intros [= <-]. apply keeps_raise, _.
Qed.

Lemma process_job_ids job :
  keeps (ids_kept None) (process_job lock_ttl max_attempts tools adapter job).
Proof.
  unfold process_job, answer_job, settle_job, job_failed, complete, fail, send, _emit_attempt.
  cbn [store_claim store_finalize PostgresDeliveryStore].
  repeat lazymatch goal with
  | |- keeps _ (respond_persisted _ _ _ _ _) => apply respond_persisted_ids
  | _ => system_step
  end.
  intros e m' [= <-]. repeat system_step.
Qed.

Lemma history_ids id : keeps (ids_kept None) (conversation_history configured id).
Proof. unfold conversation_history, history, find_conversation_id, recent_messages. repeat system_step. Qed.

(** Whatever requests arrive and whatever rounds the worker makes, the
    identifiers still to be drawn name no row. *)
Theorem identifiers_unused w w' :
  ids_unused w ->
  rtc (IntegrityLaws.step configured lock_ttl dedup_ttl timeout max_attempts tools
         app_secret expected_waba_id expected_phone_number_id ingress_ready adapter) w w' ->
  ids_unused w'.
Proof.
  intros Hu Hs. revert Hu. induction Hs as [|w w1 w' Hs _ IH]; [done|]. intros Hu. apply IH. revert Hu.
  assert (ids_kept None w w1) as [_ Hk]; [|by apply Hk].
  destruct Hs; [apply send_message_ids|apply history_ids|apply webhook_ids|].
  unfold process_once.
  apply (keeps_bind (ids_kept None)); [apply claim_next_ids|intros [job|]; [apply process_job_ids|apply keeps_ret, _]].
Qed.
End system.
