(* ===== verification/Reachable.v ===== *)
(** * The states the program reaches

    [sound]: what every state of the program satisfies that was reached from an
    empty database.  The database has its integrity ([IntegrityLaws]), the
    queue is claimable ([QueueLaws]), the identifiers to come are free
    ([Identifiers]), and what is stored can be read back: every text fits a turn
    of a conversation and every handoff has a known status. *)
From S2P Require Import Prelude PyStr PyRegex Errors Sha256 Uuid Contracts Grounding Prompt.
From S2P Require Import Schema Migrations Config Pydantic Events Sql Redis Models Integrity.
From S2P Require Import ModelSchema World Session Sample.
From S2P Require Import MetaWebhook Delivery DeliveryLaws DeliveryProps State Coordination.
From S2P Require Import Composition BuenPickModels BuenPick Conversations Handoffs Processing Tools.
From S2P Require Import Ingress Evidence Policies Orchestrator TurnLaws TurnProps Worker Api.
From S2P Require Import IntegrityLaws QueueLaws Identifiers.

Local Open Scope Z_scope.

(** ** What is stored can be read back *)

Section contents.
Context `{SqlEngine}.

Record contents_wf (d : Db) : Prop := {
  text_fits : forall k m, rows (db_messages d) !! k = Some m -> fits_opt 4096 (m_content_text m) = true;
  status_known : forall k r, rows (db_handoffs d) !! k = Some r ->
    exists s : HandoffStatus, h_status r = enum_value s
}.

Definition contents_kept : relation Db := fun d d' => contents_wf d -> contents_wf d'.
#[export] Instance contents_kept_preorder : PreOrder contents_kept.
Proof. split; unfold contents_kept; intros ?; auto. Qed.

Lemma contents_same d d' :
  db_messages d' = db_messages d -> db_handoffs d' = db_handoffs d -> contents_kept d d'.
Proof. intros Hm Hh [Ht Hs]. split; by rewrite ?Hm, ?Hh. Qed.
End contents.

Section statements.
Context `{SqlEngine} `{RedisServer} `{Env} `{RowLocks}.

Lemma insert_message_contents (a un : MessageRecord -> MessageRecord -> bool) fk k mk :
  (forall t, fits_opt 4096 (m_content_text (mk t)) = true) ->
  keeps_db contents_kept (insert_row a un fk k mk).
Proof.
  intros Hm w. unfold db_rel. destruct (insert_effect a un fk k mk w) as [->|(t & tb & -> & _ & Hr)]; [done|].
  intros [Ht Hs]. split; [|exact Hs]. intros k' m'. cbn. rewrite Hr.
  intros [[<- <-]|[_ Hk]]%lookup_insert_Some; [apply Hm|by eapply Ht].
Qed.

Lemma update_message_contents (p : Z -> MessageRecord -> bool) f :
  (forall t m, m_content_text (f t m) = m_content_text m) -> keeps_db contents_kept (update_returning p f).
Proof.
  intros Hf w. unfold db_rel. destruct (update_effect p f w) as [->|(t & tb & -> & Hr)]; [done|].
  intros [Ht Hs]. split; [|exact Hs]. intros k' m'. cbn. rewrite Hr, update_spec_lookup.
  intros (m & Hk & ->)%fmap_Some. case_match; [rewrite Hf|]; by eapply Ht.
Qed.

Lemma insert_handoff_contents (a un : HandoffRecord -> HandoffRecord -> bool) fk k req :
  keeps_db contents_kept (insert_row a un fk k (handoff_row req)).
Proof.
  intros w. unfold db_rel.
  destruct (insert_effect a un fk k (handoff_row req) w) as [->|(t & tb & -> & _ & Hr)]; [done|].
  intros [Ht Hs]. split; [exact Ht|]. intros k' r'. cbn. rewrite Hr.
  intros [[<- <-]|[_ Hk]]%lookup_insert_Some; [by exists HS_REQUESTED|by eapply Hs].
Qed.

(** A statement on one of the other tables. *)
Ltac contents_step :=
  first [ apply insert_handoff_contents
        | apply update_message_contents; done
        | apply set_tbl_frame; [apply _|intros ? ?; by apply contents_same] | keeps_step ].
Ltac contents_auto := repeat contents_step.

Lemma record_inbound_contents acct message trace enqueue :
  contract_ok message = true -> keeps_db contents_kept (record_inbound acct message trace enqueue).
Proof.
  intros [Hf _]%fields_and_validator. cbn -[len_in opt_len_in] in Hf. bools. unfold record_inbound.
  repeat first [ apply insert_message_contents; intros; cbn -[fits_opt] | contents_step ].
  match goal with Hx : opt_len_in 0 4096 _ = true |- _ => revert Hx end.
  destruct (im_text message); [|done]. unfold opt_len_in, len_in, fits_opt, fits. by intros [_ ?]%andb_true_iff.
Qed.

Lemma record_outbound_contents cid text trace ext :
  py_len text <= 4096 -> keeps_db contents_kept (record_outbound cid text trace ext).
Proof.
  intros Ht. unfold record_outbound.
  repeat first [ apply insert_message_contents; intros; cbn -[fits]; by apply Z.leb_le | contents_step ].
Qed.

Lemma request_contents r : keeps_db contents_kept (request r).
Proof. unfold request. contents_auto. Qed.

Lemma claim_contents cid req : keeps_db contents_kept (claim cid req).
Proof. unfold claim. contents_auto. Qed.

Lemma finalize_contents id result : keeps_db contents_kept (finalize id result).
Proof. unfold finalize. contents_auto. Qed.

Lemma apply_callback_contents cb : keeps_db contents_kept (apply_callback cb).
Proof. unfold apply_callback, _apply_callback, callback_read, callback_event, callback_write. contents_auto. Qed.

Lemma claim_next_contents timeout : keeps_db contents_kept (claim_next timeout).
Proof.
  unfold claim_next, select_due.
  repeat first [ contents_step | solve [intros w; by apply keeps_db_stmt; [apply _|]] ].
Qed.

Lemma transition_contents id status err av : keeps_db contents_kept (_transition id status err av).
Proof. unfold _transition. contents_auto. Qed.

Lemma send_contents adapter cid req :
  (forall r, keeps_db (=) (adapter r)) -> keeps_db contents_kept (send adapter cid req).
Proof.
  intros Had. apply send_keeps; [apply _|apply claim_contents|apply keeps_db_eq, Had; apply _|].
  intros. apply finalize_contents.
Qed.
End statements.

(** ** Sound states *)

Record sound `{SqlEngine} `{RedisServer} (w : World) : Prop := {
  sound_integrity : integrity (w_db w);
  sound_queue : queue_wf (w_db w);
  sound_ids : ids_unused w;
  sound_contents : contents_wf (w_db w)
}.

Section system.
Context `{JsonLoads} `{LaxInt} `{UCD} `{SqlEngine} `{RedisServer} `{Env} `{RowLocks}.
Context `{E : !ResponseEngine} `{!EngineLaws E}.
Variables (configured : bool) (lock_ttl dedup_ttl timeout max_attempts : Z).
Variable tools : option BuenPickReader.
Hypothesis tools_frame : forall reader, tools = Some reader -> ReaderFrame reader.
Variables app_secret expected_waba_id expected_phone_number_id : option str.
Variable ingress_ready : bool.
Variable adapter : DeliveryRequest -> M DeliveryResult.
Hypothesis adapter_ok : forall req w x w', adapter req w = (Ok x, w') -> contract_ok x = true.
Hypothesis engine_quiet : forall packet turns text, keeps quiet (engine_respond packet turns text).
Hypothesis reader_quiet : forall reader query commerce,
  tools = Some reader -> keeps quiet (br_search query commerce).
Hypothesis adapter_quiet : forall request, keeps quiet (adapter request).

Lemma quiet_adapter_db request : keeps_db (=) (adapter request).
Proof. intros w. symmetry. apply adapter_quiet. Qed.

Lemma process_once_contents :
  keeps_db contents_kept (process_once lock_ttl timeout max_attempts tools adapter).
Proof.
  unfold process_once. apply keeps_bind; [apply _|apply claim_next_contents|].
  intros [job|]; [|apply keeps_ret, _]. unfold process_job. apply keeps_try; [apply _| |].
  - apply keeps_bind; [apply _| |].
    + unfold answer_job. apply keeps_bind; [apply _| |].
      * apply respond_persisted_keeps; [exact tools_frame|apply _|..]; intros;
          [by apply record_outbound_contents|apply request_contents].
      * intros reply. repeat first [apply send_contents, quiet_adapter_db | keeps_step].
    + intros result. unfold settle_job, complete, fail.
      repeat first [apply transition_contents | keeps_step].
  - intros e m' [= <-]. unfold job_failed, fail. repeat first [apply transition_contents | keeps_step].
Qed.

Lemma ingest_contents events :
  (forall m, m ∈ we_messages events -> contract_ok m = true) ->
  keeps_db contents_kept (ingest dedup_ttl events).
Proof.
  intros Hok. unfold ingest. apply keeps_bind; [apply _| |].
  { apply keeps_db_session; [apply _|]. apply keeps_map_in; [apply _|]. intros m Hm. unfold store_message.
    apply keeps_if; [apply keeps_raise, _|]. apply keeps_bind; [apply _| |intros; apply keeps_ret, _].
    by apply record_inbound_contents, Hok. }
  intros stored. repeat first [ apply apply_callback_contents
    | solve [apply keeps_db_eq, dedup_claim_db; apply _] | keeps_step ].
Qed.

Abbreviation step := (IntegrityLaws.step configured lock_ttl dedup_ttl timeout max_attempts tools
  app_secret expected_waba_id expected_phone_number_id ingress_ready adapter).

Lemma step_contents w w' : step w w' -> contents_kept (w_db w) (w_db w').
Proof.
  destruct 1; [|apply contents_same; f_equal; symmetry; apply (history_db configured id w)| |apply process_once_contents].
  - apply send_message_keeps; [exact tools_frame|apply _|..]; intros;
      [by apply record_inbound_contents|by apply record_outbound_contents|apply request_contents].
  - apply webhook_keeps; [apply _|]. intros events Hev. apply ingest_contents. intros m.
    by apply (webhook_messages_valid _ _ _ _ _ Hev).
Qed.

(** Whatever requests arrive and whatever rounds the worker makes, a sound state
    stays sound. *)
Theorem states_sound w w' : sound w -> rtc step w w' -> sound w'.
Proof.
  intros [Hi Hq Hu Hc] Hs. split.
  - clear Hq Hu Hc. induction Hs as [|w w1 w' Hs _ IH]; [done|]. apply IH.
    eapply step_integrity; [exact tools_frame|exact quiet_adapter_db|exact Hs|exact Hi].
  - eapply queue_always_claimable; [exact tools_frame|exact quiet_adapter_db|exact adapter_ok|exact Hq|exact Hs].
  - eapply identifiers_unused; [exact engine_quiet|exact reader_quiet|exact adapter_quiet|exact Hu|exact Hs].
  - clear Hi Hq Hu. induction Hs as [|w w1 w' Hs _ IH]; [done|]. apply IH. by apply (step_contents w w1).
Qed.
End system.

(** An empty database is sound. *)
Lemma empty_sound `{SqlEngine} `{RedisServer} w :
  rows (db_conversations (w_db w)) = ∅ -> rows (db_messages (w_db w)) = ∅ ->
  rows (db_handoffs (w_db w)) = ∅ -> rows (db_attempts (w_db w)) = ∅ -> rows (db_events (w_db w)) = ∅ ->
  sound w.
Proof.
  intros Hc Hm Hh Ha He. split.
  - by apply empty_integrity.
  - intros k m. by rewrite Hm, lookup_empty.
  - intros k _. unfold free. by rewrite Hc, Hm, Hh, Ha, He, !lookup_empty.
  - split; intros k x; by rewrite ?Hm, ?Hh, lookup_empty.
Qed.
