(* ===== verification/Totality.v ===== *)
(** * Turns that return

    Total correctness of a turn.  [delivers] is the judgement that a computation
    returns, with what it returns and where it ends; its rules follow the code.
    [based] is what a turn needs of the tables, [turn_kept] what its steps keep.
    While the database and Redis answer and nobody holds the lock, a turn whose
    message can be answered returns its reply ([turn_answers]): the prompts fit
    the engine, the handoff finds its conversation, the reply is stored. *)
From S2P Require Import Prelude PyStr PyRegex Errors Sha256 Uuid Contracts Grounding Prompt.
From S2P Require Import Schema Migrations Config Pydantic Events Sql Redis Models Integrity.
From S2P Require Import ModelSchema World Session Sample.
From S2P Require Import MetaWebhook Delivery DeliveryLaws DeliveryProps State Coordination.
From S2P Require Import Composition BuenPickModels BuenPick Conversations Handoffs Processing Tools.
From S2P Require Import Ingress Evidence Policies Orchestrator TurnLaws TurnProps Worker Api.
From S2P Require Import IntegrityLaws QueueLaws Identifiers Reachable.


Local Open Scope Z_scope.

(** ** Computations that return *)

Section delivers.
Context `{SqlEngine} `{RedisServer} `{Env}.

Definition delivers {A} (m : M A) (w : World) (Q : A -> World -> Prop) : Prop :=
  exists a w', m w = (Ok a, w') /\ Q a w'.

Lemma delivers_ret {A} (a : A) w (Q : A -> World -> Prop) : Q a w -> delivers (mret a) w Q.
Proof. intros HQ. by exists a, w. Qed.

Lemma delivers_lift {A} (r : res A) a w (Q : A -> World -> Prop) : r = Ok a -> Q a w -> delivers (lift r) w Q.
Proof. intros -> HQ. by exists a, w. Qed.

Lemma delivers_bind {A B} (m : M A) (f : A -> M B) w Q Q' :
  delivers m w Q' -> (forall a w1, Q' a w1 -> delivers (f a) w1 Q) -> delivers (m ≫= f) w Q.
Proof. intros (a & w1 & Hm & HQ) Hf. unfold delivers. rewrite (bind_ok_run f m w a w1 Hm). by apply Hf. Qed.

Lemma delivers_lift_bind {A B} (r : res A) (f : A -> M B) a w Q :
  r = Ok a -> delivers (f a) w Q -> delivers (lift r ≫= f) w Q.
Proof. by intros ->. Qed.

Lemma delivers_run_bind {A B} (m : M A) (f : A -> M B) a w w1 Q :
  m w = (Ok a, w1) -> delivers (f a) w1 Q -> delivers (m ≫= f) w Q.
Proof. intros Hm Hf. unfold delivers. by rewrite (bind_ok_run f m w a w1 Hm). Qed.

Lemma delivers_weaken {A} (m : M A) w (Q Q' : A -> World -> Prop) :
  delivers m w Q' -> (forall a w1, Q' a w1 -> Q a w1) -> delivers m w Q.
Proof. intros (a & w1 & Hm & HQ) Hw. exists a, w1. auto. Qed.

(** What every run keeps holds of the one that returns. *)
Lemma delivers_keeps (R : relation World) {A} (m : M A) w Q :
  keeps R m -> delivers m w Q -> delivers m w (fun a w1 => Q a w1 /\ R w w1).
Proof.
  intros Hk (a & w1 & Hm & HQ). exists a, w1. split; [done|]. split; [done|].
  specialize (Hk w). by rewrite Hm in Hk.
Qed.

(** The run itself, for what is known of runs that return. *)
Lemma delivers_run {A} (m : M A) w Q :
  delivers m w Q -> delivers m w (fun a w1 => Q a w1 /\ m w = (Ok a, w1)).
Proof. intros (a & w1 & Hm & HQ). by exists a, w1. Qed.

Lemma delivers_finally {A} (m : M A) (f : M unit) w Q Q' :
  delivers m w Q' -> (forall a w1, Q' a w1 -> delivers f w1 (fun _ w2 => Q a w2)) ->
  delivers (try_finally m f) w Q.
Proof.
  intros (a & w1 & Hm & HQ) Hf. destruct (Hf a w1 HQ) as ([] & w2 & Hr & HQ2).
  exists a, w2. split; [|done]. unfold try_finally. by rewrite Hm, Hr.
Qed.

Hypothesis up : forall n, db_up n = true.

Lemma delivers_session {A} (body : M A) w Q :
  delivers body w (fun a w1 => Q a (tick w1)) -> delivers (session body) w Q.
Proof. intros (a & w1 & Hm & HQ). exists a, (tick w1). split; [by apply session_up|done]. Qed.

Lemma delivers_select {R} `{!InDb R} (p : Z -> R -> bool) le w (Q : list (Z * R) -> World -> Prop) :
  Q (sql_select p le (tbl (w_db w))) (tick w) -> delivers (select p le) w Q.
Proof. intros HQ. do 2 eexists. split; [apply select_up, up|exact HQ]. Qed.

Lemma delivers_emit ev tr co ou st er w :
  1 <= py_len tr <= 128 -> 1 <= py_len co <= 100 -> opt_len_in 0 100 er = true ->
  delivers (emit ev tr co ou st er None None) w (fun _ => quiet w).
Proof.
  intros Ht Hc He. destruct (emit_up ev tr co ou st er w Ht Hc He) as (w1 & Hr & _).
  exists tt, w1. split; [done|]. pose proof (quiet_emit ev tr co ou st er None None w) as Hq. by rewrite Hr in Hq.
Qed.
End delivers.

(** ** What a run leaves of Redis *)

Section redis.
Context `{SqlEngine} `{RedisServer} `{Env} `{RowLocks}.

(** Time may pass; Redis stays as it is. *)
Definition redis_left : relation World := fun w w' =>
  w_redis w' = w_redis w /\ (w_tick w <= w_tick w')%nat.
#[export] Instance redis_left_preorder : PreOrder redis_left.
Proof. split; unfold redis_left; [done|]. intros x y z [] []. split; [congruence|lia]. Qed.

Lemma left_emit ev tr co ou st er cc uc : keeps redis_left (emit ev tr co ou st er cc uc).
Proof.
  unfold emit. apply keeps_bind; [apply _| |].
  - destruct st; [|apply keeps_ret, _].
    apply keeps_bind; [apply _|intros w; split; [done|cbn; lia]|]. intros. apply keeps_ret, _.
  - intros d w. unfold redis_left, emit_record. by destruct (construct _).
Qed.

Lemma left_stmt {A} (f : Z -> Db -> res A * Db) : keeps redis_left (stmt f).
Proof.
  intros w. unfold redis_left, stmt. destruct (db_up _); [|cbn; split; [done|lia]].
  destruct (f _ _). cbn. split; [done|lia].
Qed.

Lemma left_session {A} (body : M A) : keeps redis_left body -> keeps redis_left (session body).
Proof.
  intros Hb w. specialize (Hb w). unfold redis_left, session in *. destruct (body w) as [[a|e] w1]; cbn in *; [|tauto].
  destruct (db_up _); cbn; split; try tauto; lia.
Qed.

Lemma left_claim timeout : keeps redis_left (claim_next timeout).
Proof.
  unfold claim_next. apply keeps_bind; [apply _|intros w; split; [done|cbn; lia]|]. intros t.
  apply left_session. apply keeps_bind; [apply _|intros w0; apply left_stmt|]. intros found.
  apply keeps_bind; [apply _|apply keeps_lift, _|]. intros [[[id r] c]|]; [|apply keeps_ret, _].
  apply keeps_bind; [apply _|apply keeps_lift, _|]. intros job.
  apply keeps_bind; [apply _|apply left_stmt|]. intros. apply keeps_ret, _.
Qed.

(** The key of the lock is not held at any tick to come. *)
Definition lock_free (scope : ConversationScope) (w : World) : Prop := forall n,
  (w_tick w <= n)%nat -> live (clock n) (dump (w_redis w)) (lock_key_for scope) = None.

Lemma lock_free_left scope w w' : redis_left w w' -> lock_free scope w -> lock_free scope w'.
Proof. intros [Hr Ht] Hf n Hn. rewrite Hr. apply Hf. lia. Qed.

Hypothesis redis_up : forall t c s, (redis_exec t c s).1 <> None.
Hypothesis tokens : forall n, token_ok (token_urlsafe n).

Lemma acquire_free ttl scope w :
  lock_free scope w ->
  delivers (acquire ttl scope) w (fun lease w1 => quiet w w1 /\
    lease = {| ll_status := LK_ACQUIRED; ll_owner_token := Some (token_urlsafe (w_tick w)) |}).
Proof.
  intros Hfree. set (t := token_urlsafe (w_tick w)).
  pose proof (redis_up (clock (w_tick (tick w))) (CSet (lock_key_for scope) t ttl true) (w_redis w)) as Hup.
  destruct (redis_exec (clock (w_tick (tick w))) (CSet (lock_key_for scope) t ttl true) (w_redis w))
    as [[r|] s] eqn:Hx; [|done].
  assert (r = RepOk) as ->.
  { apply redis_exec_ok in Hx. cbn [redis_spec andb] in Hx. rewrite Hfree in Hx by (cbn; lia).
    rewrite bool_decide_eq_false_2 in Hx by (by intros []). by injection Hx. }
  assert (redis_try (CSet (lock_key_for scope) t ttl true) (tick w) =
    (Ok (Some RepOk), tick (with_redis s (tick w)))) as Hset.
  { unfold redis_try, try_except. rewrite bind_run. unfold redis. cbn [tick w_redis] in *. by rewrite Hx. }
  eexists _, _. split.
  - unfold acquire. rewrite bind_run. unfold new_token. cbv beta iota zeta.
    rewrite (bind_ok_run _ _ _ _ _ Hset). cbn [reply_truthy negb]. rewrite construct_good; [reflexivity|].
    unfold contract_ok. cbn -[opt_len_in]. rewrite andb_true_r. apply len_in_spec. exact (tokens (w_tick w)).
  - by split.
Qed.
End redis.

(** ** Turns of a conversation *)

Lemma res_map_total {A B} (f : A -> res B) l :
  (forall x, x ∈ l -> exists y, f x = Ok y) -> exists ys, res_map f l = Ok ys /\ length ys = length l.
Proof.
  intros Hf. destruct (res_map f l) as [ys|e] eqn:Hm; [by exists ys; split; [|by eapply res_map_length]|].
  apply res_map_raise in Hm as (x & Hx & He). destruct (Hf x Hx) as [y Hy]. congruence.
Qed.

Definition readable (history : list StoredMessage) : Prop :=
  (length history <= 20)%nat /\ Forall (fun item => fits_opt 4096 (sm_content_text item) = true) history.

Lemma turns_readable history :
  readable history -> exists turns, turns_of history = Ok turns /\ (length turns <= 20)%nat.
Proof.
  intros [Hl Hf]. unfold turns_of. rewrite Forall_forall in Hf.
  destruct (res_map_total turn_of (filter (fun item => has_text item = true) history)) as (ys & Hys & Hlen).
  - intros item [Ht Hin]%list_elem_of_filter. specialize (Hf _ Hin). unfold turn_of.
    eexists. apply construct_good. unfold contract_ok. cbn -[len_in]. rewrite andb_true_r. apply len_in_spec.
    unfold has_text in Ht. destruct (sm_content_text item) as [text|]; [|done]. cbn -[py_len] in *.
    apply truthy_len in Ht. apply Z.leb_le in Hf. lia.
  - exists ys. split; [done|]. rewrite Hlen. etrans; [apply length_filter|exact Hl].
Qed.

(** The length of the prompt that explains BuenPick: an escape takes at most six
    characters. *)
Lemma json_string_length s : py_len (json_string s) <= 6 * py_len s + 2.
Proof.
  unfold json_string, py_len. cbn [length]. rewrite length_app. cbn [length].
  assert (length (s ≫= json_char) <= 6 * length s)%nat; [|lia].
  induction s as [|c s IH]; [done|]. rewrite bind_cons, length_app. cbn [length].
  assert (length (json_char c) <= 6)%nat; [|lia].
  unfold json_char. repeat case_match; cbn; lia.
Qed.

Lemma render_nonempty packet : 1 <= py_len (render_evidence packet).
Proof.
  rewrite render_evidence_lines.
  assert (exists s, lines_text (prompt_lines packet) = 84 :: s) as [s ->] by (eexists; reflexivity).
  unfold py_len. cbn [app length]. lia.
Qed.

(** The lines around the one of the query. *)
Definition lines_before (packet : ContextPacket) : list str :=
  [u "TAREA"; json_string (cp_task packet); []; u "CONSULTA"].
Definition lines_after (packet : ContextPacket) : list str :=
  [[]; u "DATOS CONFIRMADOS"] ++
  or_none (u "- Ninguno.") (map evidence_line (cp_confirmed_data packet)) ++
  [u "DATOS NO DISPONIBLES"] ++
  or_none (u "- Ninguno.") (map item_line (cp_unavailable_data packet)) ++
  [u "ACCIONES REALIZADAS"] ++
  or_none (u "- Ninguna.") (map action_line (cp_actions_performed packet)) ++
  [u "REGLAS DE REDACCIÓN"] ++
  or_none (u "- Aplicar únicamente el system prompt.") (map item_line (cp_writing_rules packet)) ++
  [u "CONTROL"; u "- modo=" ++ json_string (enum_value (cp_response_mode packet));
   u "- active_pick_id=" ++
     (if truthy_opt (cp_active_pick_id packet)
      then json_string (default [] (cp_active_pick_id packet)) else u "null")].

Lemma prompt_lines_query packet :
  prompt_lines packet = lines_before packet ++ [json_string (cp_query packet)] ++ lines_after packet.
Proof. unfold prompt_lines, lines_before, lines_after. cbn [app]. reflexivity. Qed.

Lemma packet_prompt_fits name query trace confirmed unavailable actions :
  py_len query <= 4096 -> py_len trace <= 128 ->
  (let packet := packet_of name [] [] confirmed unavailable actions None in
   py_len (lines_text (lines_before packet)) + py_len (lines_text (lines_after packet)) <= 4000) ->
  py_len (render_evidence (packet_of name query trace confirmed unavailable actions None)) <= 30000.
Proof.
  cbv zeta. intros Hq Ht Hrest. pose proof (json_string_length query) as Hjq. pose proof (json_string_length trace) as Hjt.
  set (packet := packet_of name query trace confirmed unavailable actions None).
  change (lines_before _) with (lines_before packet) in Hrest.
  change (lines_after (packet_of _ [] [] _ _ _ _)) with (lines_after packet) in Hrest.
  rewrite render_evidence_lines, prompt_lines_query, !lines_text_app. unfold last_line.
  assert (py_len (u "- trace_id=") = 11) as Hl by reflexivity.
  assert (lines_text [json_string (cp_query packet)] = json_string query ++ newline) as ->
    by (unfold lines_text; by rewrite bind_cons, app_nil_r).
  rewrite !py_len_app. change (cp_trace_id packet) with trace. change (py_len newline) with 1. lia.
Qed.

(** ** States a turn runs in *)

Section based.
Context `{SqlEngine} `{RedisServer} `{Env}.

(** What a turn needs of the tables. *)
Record based (w : World) : Prop := {
  based_integrity : integrity (w_db w);
  based_ids : ids_unused w;
  based_contents : contents_wf (w_db w)
}.

Lemma sound_based w : sound w -> based w.
Proof. intros []. by split. Qed.

#[export] Instance identities_kept_preorder : PreOrder identities_kept.
Proof.
  split; unfold identities_kept, same_identity; intros d; [intros k c Hk; by exists c|].
  intros d1 d2 H1' H2' k c Hk. destruct (H1' k c Hk) as (c1 & Hk1 & ? & ? & ?).
  destruct (H2' k c1 Hk1) as (c2 & Hk2 & ? & ? & ?). exists c2. split; [done|]. split_and!; congruence.
Qed.

Lemma needs_human_identities p : keeps_db identities_kept (update_returning p needs_human).
Proof.
  intros w. unfold db_rel. destruct (update_effect p needs_human w) as [->|(t & tb & -> & Hr)]; [done|].
  by eapply identities_update; [|exact Hr].
Qed.

Ltac identities_step :=
  first [ apply needs_human_identities
        | apply set_tbl_frame; [apply _|intros ? ?; by apply identities_same] | keeps_step ].

Lemma record_outbound_identities cid text trace ext : keeps_db identities_kept (record_outbound cid text trace ext).
Proof. unfold record_outbound. repeat identities_step. Qed.

Lemma request_identities r : keeps_db identities_kept (request r).
Proof. unfold request. repeat identities_step. Qed.

(** What the steps of a turn keep: the state, and the conversations in it. *)
Definition turn_kept : relation World := fun w w' =>
  (based w -> based w') /\ identities_kept (w_db w) (w_db w').
#[export] Instance turn_kept_preorder : PreOrder turn_kept.
Proof.
  split; unfold turn_kept; [intros ?; split; [done|reflexivity]|].
  intros x y z [] []. split; [auto|by etrans].
Qed.

Lemma keeps_turn {A} (m : M A) :
  keeps_db integrity_kept m -> keeps (ids_kept None) m -> keeps_db contents_kept m ->
  keeps_db identities_kept m -> keeps turn_kept m.
Proof.
  intros Hi Hu Hc Hk w. split; [|apply Hk]. intros [Hi' Hu' Hc']. split; [by apply Hi| |by apply Hc].
  by apply (proj2 (Hu w)).
Qed.

Lemma turn_kept_quiet w w' : quiet w w' -> turn_kept w w'.
Proof.
  intros [Hd Hn]. unfold turn_kept. rewrite Hd. split; [|reflexivity]. intros [Hi Hu Hc].
  split; rewrite ?Hd; [done| |done]. intros k Hk. rewrite Hd. apply Hu. lia.
Qed.

Lemma turn_conversation w w' k :
  turn_kept w w' -> is_Some (rows (db_conversations (w_db w)) !! k) ->
  is_Some (rows (db_conversations (w_db w')) !! k).
Proof. intros [_ Hk] [c Hc]. destruct (Hk k c Hc) as (c' & Hc' & _). by exists c'. Qed.

(** What the operations ask of the tables. *)
Lemma unique_key {R} (c : R -> R -> bool) m k k' r r' :
  unique_by c m -> m !! k = Some r -> m !! k' = Some r' -> c r r' = true -> k = k'.
Proof. intros Hu Hk Hk'. by apply (Hu k r Hk k' r'). Qed.

Lemma based_conversations w : based w -> conversations_wf (w_db w).
Proof.
  intros [[[_ Hc _] [_ Hm Hp] _ _ _] _ _]. apply Forall_cons in Hc as [Hc _]. apply Forall_cons in Hm as [Hm _].
  split; [intros *; by apply unique_key|intros *; by apply unique_key|].
  intros k m Hk. specialize (Hp k m Hk). cbv beta in Hp. unfold conversation_exists in Hp. by bools.
Qed.

Lemma based_fresh w : based w -> ids_fresh w.
Proof. intros [_ Hu _] k Hk. by destruct (Hu k Hk) as (? & ? & _). Qed.

Lemma based_requestable w req :
  based w -> is_Some (rows (db_conversations (w_db w)) !! hr_conversation_id req) -> requestable req w.
Proof.
  intros [[[Hcf _ _] _ [_ Hh _] _ _] Hu [_ Hs]] [c Hc]. apply Forall_cons in Hh as [Hh1 Hh].
  apply Forall_cons in Hh as [Hh2 _]. split.
  - split; [intros *; by apply unique_key|intros *; by apply unique_key|exact Hs].
  - intros k Hk. by destruct (Hu k Hk) as (_ & _ & ? & _).
  - exists c. split; [done|]. by apply (Hcf _ _ Hc).
Qed.
End based.

(** What an engine is asked, so that it must answer. *)
Definition answerable (packet : ContextPacket) (turns : list ConversationTurn) (dt : option str) : Prop :=
  contract_ok packet = true /\ (length turns <= 20)%nat /\
  match cp_response_mode packet with
  | JINJA => True
  | DETERMINISTIC => exists text, dt = Some text /\ py_len text <= 4096
  | _ => py_len (render_evidence packet) <= 30000
  end.

(** The picks of a search can be shown, and the model told about them. *)
Definition showable `{UCD} (query trace : str) (data : PickSearchResponse) : Prop :=
  Forall pick_fits (sr_items data) /\ Z.of_nat (length (sr_items data)) < 10 ^ 80 /\
  forall (result : ToolResult PickSearchResponse) b, tr_data result = Some data ->
    search_result_evidence result = Ok b -> te_confirmed_data b <> [] ->
    py_len (render_evidence (packet_of PN_DISCOVER_PICKS query trace (te_confirmed_data b)
      (te_unavailable_data b) (te_actions_performed b) None)) <= 30000.

Section turn.
Context `{UCD} `{SqlEngine} `{RedisServer} `{Env} `{RowLocks}.
Context `{E : !ResponseEngine} `{!EngineLaws E}.
Variables (lock_ttl : Z) (tools : option BuenPickReader).
Hypothesis up : forall n, db_up n = true.
Hypothesis clock_monotonic : monotonic.
Hypothesis engine_quiet : forall packet turns text, keeps quiet (engine_respond packet turns text).
Hypothesis tools_frame : forall reader, tools = Some reader -> ReaderFrame reader.
Hypothesis reader_quiet : forall reader query commerce,
  tools = Some reader -> keeps quiet (br_search query commerce).
Hypothesis engine_answers : forall packet turns dt w,
  answerable packet turns dt -> exists o w', engine_respond packet turns dt w = (Ok o, w').
Hypothesis reader_laws : forall reader, tools = Some reader -> ReaderLaws reader.
Hypothesis reader_shows : forall reader query trace w data w', tools = Some reader ->
  1 <= py_len query <= 4096 -> 1 <= py_len trace <= 128 ->
  br_search (Some query) None w = (Ok data, w') -> showable query trace data.

Lemma engine_delivers packet turns dt w :
  answerable packet turns dt ->
  delivers (outcome ← engine_respond packet turns dt; mret (ro_text outcome, ro_used_fallback outcome)) w
    (fun _ _ => True).
Proof.
  intros Ha. destruct (engine_answers packet turns dt w Ha) as (o & w1 & Hr).
  eapply delivers_bind; [by exists o, w1; split; [exact Hr|exact I]|]. intros. by apply delivers_ret.
Qed.

Definition turn_fits (query trace mid : str) : Prop :=
  1 <= py_len query <= 4096 /\ 1 <= py_len trace <= 128 /\ py_len mid <= 247.

Lemma plain_packet name query trace actions :
  pd_requires_confirmed_evidence (get_policy name) = false ->
  1 <= py_len query <= 4096 -> 1 <= py_len trace <= 128 ->
  context_packet (get_policy name) query trace [] [] actions None =
    Ok (packet_of name query trace [] [] actions None).
Proof.
  intros Hp Hq Ht. apply context_packet_ok. rewrite !len_in_spec. split; [congruence|]. by repeat (split; [done|]).
Qed.

Lemma explain_delivers turns query trace mid w :
  turn_fits query trace mid -> (length turns <= 20)%nat ->
  delivers (reply_explain turns query trace) w (fun _ _ => True).
Proof.
  intros (Hq & Ht & _) Hl.
  assert (context_packet (get_policy PN_EXPLAIN_BUENPICK) query trace [] [] [] None =
    Ok (packet_of PN_EXPLAIN_BUENPICK query trace [] [] [] None)) as Hp.
  { by apply plain_packet. }
  unfold reply_explain. eapply delivers_lift_bind; [exact Hp|].
  apply engine_delivers. split; [by eapply context_packet_valid|]. split; [exact Hl|].
  cbn [cp_response_mode packet_of get_policy pd_response_mode explain_buenpick_policy plain].
  apply packet_prompt_fits; [apply Hq|apply Ht|by vm_compute].
Qed.

Lemma handoff_delivers turns query trace mid cid w :
  turn_fits query trace mid -> (length turns <= 20)%nat ->
  (forall req, hr_conversation_id req = cid -> requestable req w) ->
  delivers (reply_handoff turns query trace cid mid) w (fun _ _ => True).
Proof.
  intros (Hq & Ht & Hm) Hl Hreq. unfold reply_handoff.
  set (req := {| hr_conversation_id := cid; hr_idempotency_key := u "handoff:" ++ mid;
    hr_reason := u "La persona solicitó atención humana."; hr_trace_id := trace |}).
  assert (contract_ok req = true) as Hok.
  { unfold contract_ok. cbn -[len_in u]. rewrite !andb_true_r, !andb_true_iff, !len_in_spec, py_len_app.
    change (py_len (u "handoff:")) with 8. pose proof (py_len_nonneg mid). split_and!; try lia; by vm_compute. }
  destruct (request_up up req w (Hreq req eq_refl) Hok) as (p & w1 & Hr & _).
  eapply delivers_bind.
  { apply (delivers_session up _ _ (fun _ _ => True)). exists p, w1. split; [|done].
    rewrite construct_good by exact Hok. exact Hr. }
  intros _ w2 _. eapply delivers_lift_bind; [by apply performed_eq; vm_compute|].
  set (action := {| pa_name := _; pa_outcome := _; pa_reference := _ |}).
  assert (context_packet (get_policy PN_HUMAN_HANDOFF) query trace [] [] [action] None =
    Ok (packet_of PN_HUMAN_HANDOFF query trace [] [] [action] None)) as Hp.
  { by apply plain_packet. }
  eapply delivers_lift_bind; [exact Hp|].
  apply engine_delivers. split; [by eapply context_packet_valid|]. split; [exact Hl|].
  exists handoff_text. split; [done|by vm_compute].
Qed.

Lemma search_bundle_ready (result : ToolResult PickSearchResponse) query trace :
  (forall data, tr_data result = Some data -> showable query trace data) ->
  exists b, search_result_evidence result = Ok b /\
    (te_confirmed_data b <> [] ->
      py_len (render_evidence (packet_of PN_DISCOVER_PICKS query trace (te_confirmed_data b)
        (te_unavailable_data b) (te_actions_performed b) None)) <= 30000).
Proof.
  intros Hd. pose proof (search_evidence_exact result (fun data Hr => proj1 (proj2 (Hd data Hr)))) as Hx.
  destruct (search_result_evidence result) as [b|e] eqn:Hb.
  - exists b. split; [done|]. intros Hc. destruct (search_backed _ _ Hb) as (_ & Hn & _).
    destruct (tr_data result) as [data|] eqn:Hr; [|by destruct Hc; apply Hn; right].
    destruct (Hd data eq_refl) as (_ & _ & Hfit). by apply (Hfit result).
  - destruct Hx as (data & pick & _ & Hr & Hin & Hno). destruct (Hd data Hr) as (Hf & _).
    destruct Hno. by eapply Forall_forall in Hf.
Qed.

Lemma discover_delivers turns query trace mid w :
  turn_fits query trace mid -> (length turns <= 20)%nat ->
  delivers (reply_discover tools turns query trace) w (fun _ _ => True).
Proof.
  intros (Hq & Ht & _) Hl. unfold reply_discover. case_eq tools; [|intros _; by apply delivers_ret].
  intros reader Hreader. pose proof (reader_laws reader Hreader) as Hlaws. unfold tool_search.
  destruct (tool_run trace (u "search_available_picks") (br_search (Some query) None) w clock_monotonic
    (law_search _ _) Ht) as (w1 & result & w2 & Hrun & Hok & Hrep & _); [by vm_compute|].
  eapply delivers_run_bind; [exact Hrun|]. destruct (search_bundle_ready result query trace) as (b & Hb & Hfits).
  { intros data Hdata. destruct (br_search (Some query) None w1) as [[x|e] w4] eqn:Hbr; cbn in Hrep.
    - destruct Hrep as (_ & _ & _ & Hx & _). rewrite Hdata in Hx. injection Hx as ->. by eapply (reader_shows reader).
    - destruct Hrep as (_ & _ & Hx). destruct e; try done. destruct Hx as (_ & Hx & _). congruence. }
  eapply delivers_lift_bind; [exact Hb|]. case_bool_decide as He; [by apply delivers_ret|].
  assert (context_packet (get_policy PN_DISCOVER_PICKS) query trace (te_confirmed_data b)
    (te_unavailable_data b) (te_actions_performed b) None = Ok (packet_of PN_DISCOVER_PICKS query trace
      (te_confirmed_data b) (te_unavailable_data b) (te_actions_performed b) None)) as Hp.
  { apply context_packet_ok. rewrite !len_in_spec. split; [by intros _ Hc; rewrite Hc in He|].
    by repeat (split; [done|]). }
  eapply delivers_lift_bind; [exact Hp|]. apply engine_delivers. split; [by eapply context_packet_valid|].
  split; [done|]. apply Hfits. intros Hc. by rewrite Hc in He.
Qed.
Abbreviation has_conversation cid w := (is_Some (rows (db_conversations (w_db w)) !! cid)).

Lemma compose_turn_kept intent query trace cid hist mid :
  keeps turn_kept (_compose_reply tools intent query trace cid hist mid).
Proof.
  apply keeps_turn.
  - apply compose_reply_keeps; [done|apply _|apply request_integrity].
  - apply compose_reply_ids; [apply engine_quiet|apply reader_quiet].
  - apply compose_reply_keeps; [done|apply _|apply request_contents].
  - apply compose_reply_keeps; [done|apply _|apply request_identities].
Qed.

Lemma compose_delivers intent query trace cid hist mid w :
  turn_fits query trace mid -> readable hist -> based w -> has_conversation cid w ->
  delivers (_compose_reply tools intent query trace cid hist mid) w (fun reply w1 =>
    1 <= py_len reply.1 <= 4096 /\ based w1 /\ has_conversation cid w1).
Proof.
  intros Hf Hh Hb Hc. assert (delivers (_compose_reply tools intent query trace cid hist mid) w (fun _ _ => True)) as Hd.
  { destruct (turns_readable hist Hh) as (turns & Ht & Hl). unfold _compose_reply.
    eapply delivers_lift_bind; [exact Ht|].
    destruct intent; [by eapply explain_delivers|by eapply discover_delivers| |by eapply explain_delivers].
    eapply handoff_delivers; [done|done|]. intros req Hreq. apply based_requestable; [done|]. by rewrite Hreq. }
  eapply delivers_weaken; [exact (delivers_keeps turn_kept _ _ _ (compose_turn_kept _ _ _ _ _ _) (delivers_run _ _ _ Hd))|].
  intros [text fb] w1 [[_ Hr] Hk]. split; [by eapply compose_text_fits|]. split; [by apply Hk|].
  by eapply turn_conversation.
Qed.

(** A message that can be answered. *)
Record message_ready (message : InboundMessage) : Prop := {
  ready_contract : contract_ok message = true;
  ready_text : truthy_opt (im_text message) = true;
  ready_id : py_len (im_message_id message) <= 115
}.

Lemma ready_fits message :
  message_ready message -> turn_fits (message_text message) (trace_of message) (im_message_id message) /\
  1 <= py_len (im_message_id message).
Proof.
  intros [Hc Ht Hi]. apply fields_and_validator in Hc as [Hc _]. cbn -[len_in opt_len_in] in Hc. bools.
  unfold turn_fits, trace_of, message_text. rewrite py_len_app. change (py_len (u "conversation:")) with 13.
  destruct (im_text message) as [text|]; [|done]. cbn [default] in *. apply truthy_len in Ht.
  unfold opt_len_in in *. repeat match goal with Hl : len_in _ _ _ = true |- _ => apply len_in_spec in Hl end. unfold id. lia.
Qed.

Lemma finish_delivers message cid hist w :
  message_ready message -> readable hist -> based w -> has_conversation cid w ->
  delivers (finish_turn tools message (trace_of message) cid hist) w (fun _ _ => True).
Proof.
  intros Hm Hh Hb Hc. destruct (ready_fits message Hm) as [Hf Hi]. pose proof Hf as (_ & Ht & _).
  unfold finish_turn.
  eapply delivers_bind; [apply delivers_emit; [exact Ht|by destruct (resolve_intent _)|done]|].
  cbv beta. intros _ w1 Hq%turn_kept_quiet.
  eapply delivers_bind; [apply compose_delivers; [exact Hf|exact Hh|by apply Hq|by eapply turn_conversation]|].
  cbv beta. intros [text fb] w2 (Hlen & Hb2 & Hc2). cbn [fst snd] in *.
  destruct (record_outbound_up up cid text (trace_of message) (reply_id_of message) w2) as (p & w3 & Hr & _).
  { by apply based_conversations. } { by apply based_fresh. }
  { split; [apply Ht|]. unfold reply_id_of. rewrite py_len_app. change (py_len (u "piki-reply:")) with 11.
    destruct Hm as [_ _ ?]. lia. }
  { exact Hc2. }
  eapply delivers_run_bind; [apply session_up; [exact up|exact Hr]|].
  eapply delivers_lift; [|done]. apply construct_good. unfold contract_ok. cbn -[len_in py_len trace_of].
  by rewrite andb_true_r, andb_true_iff, !len_in_spec.
Qed.
Lemma recent_delivers cid w :
  based w -> delivers (recent_messages cid 20) w (fun hist w1 => readable hist /\ quiet w w1).
Proof.
  intros Hb. unfold recent_messages. cbn [Z.ltb Z.compare Pos.compare Pos.compare_cont orb].
  eapply delivers_bind; [by apply delivers_select with (Q := fun l w1 =>
    l = sql_select (fun _ r => m_conversation_id r =? cid) newest_first (tbl (w_db w)) /\ quiet w w1)|].
  cbv beta. intros l w1 [-> Hq]. apply delivers_ret. split; [|exact Hq]. split.
  - rewrite length_map, length_reverse, length_take. change (Z.to_nat 20) with 20%nat. lia.
  - apply Forall_forall. intros item. rewrite list_elem_of_fmap. intros ([k m] & -> & Hin).
    apply elem_of_reverse, elem_of_take in Hin as (i & Hin & _).
    apply list_elem_of_lookup_2, elem_of_select in Hin as [Hin _].
    by apply (text_fits _ (based_contents w Hb) k m).
Qed.

Lemma recall_delivers message cid w :
  based w -> ~ known_message (reply_id_of message) w ->
  delivers (recall message cid) w (fun recalled w1 =>
    exists hist, recalled = inr hist /\ readable hist /\ quiet w w1).
Proof.
  intros Hb Hn. unfold recall. apply delivers_session; [exact up|].
  eapply delivers_bind with (Q' := fun existing w1 => existing = None /\ quiet w w1).
  { unfold find_message. eapply delivers_run_bind; [apply select_up, up|].
    destruct (sql_select (has_external_id (reply_id_of message)) unordered (tbl (w_db w))) as [|[k m] l] eqn:Hs.
    - by eapply delivers_lift_bind; [reflexivity|]; apply delivers_ret.
    - destruct Hn. assert ((k, m) ∈ (k, m) :: l) as Hin by by left. rewrite <- Hs in Hin.
      apply elem_of_select in Hin as [Hk Hp]. unfold has_external_id in Hp. bools. by exists k, m. }
  intros existing w1 [-> Hq]. eapply delivers_bind; [apply recent_delivers|].
  { by apply (turn_kept_quiet _ _ Hq). }
  cbv beta. intros hist w2 [Hr Hq2]. apply delivers_ret. exists hist. split; [done|]. split; [done|].
  etrans; [exact Hq|exact Hq2].
Qed.
Hypothesis redis_up : forall t c s, (redis_exec t c s).1 <> None.
Hypothesis tokens : forall n, token_ok (token_urlsafe n).

Lemma release_delivers scope token w : delivers (release scope token;; mret tt) w (fun _ w1 => w_db w1 = w_db w).
Proof.
  unfold release, redis_try, try_except, redis. unfold delivers. rewrite !bind_run.
  destruct (redis_exec _ _ _) as [[r|] s]; do 2 eexists; by split.
Qed.

Lemma respond_turn_kept message acct cid :
  keeps turn_kept (respond_persisted lock_ttl tools message acct cid).
Proof.
  apply keeps_turn.
  - apply respond_persisted_keeps; [done|apply _|intros; apply record_outbound_integrity|apply request_integrity].
  - apply respond_persisted_ids; [apply engine_quiet|apply reader_quiet].
  - apply respond_persisted_keeps; [done|apply _|intros; by apply record_outbound_contents|apply request_contents].
  - apply respond_persisted_keeps; [done|apply _|intros; apply record_outbound_identities|apply request_identities].
Qed.

Lemma respond_delivers message acct cid scope w :
  message_ready message -> scope_of message acct = Ok scope -> lock_free scope w ->
  based w -> has_conversation cid w -> ~ known_message (reply_id_of message) w ->
  delivers (respond_persisted lock_ttl tools message acct cid) w (fun _ _ => True).
Proof.
  intros Hm Hs Hlock Hb Hc Hn. destruct (ready_fits message Hm) as [[_ [Ht _]] _].
  unfold respond_persisted.
  eapply delivers_bind.
  { apply (delivers_keeps redis_left); [apply left_emit|]. apply delivers_emit; [exact Ht|by vm_compute|done]. }
  cbv beta. intros _ w1 [Hq1 Hl1]. eapply delivers_lift_bind; [exact Hs|].
  eapply delivers_bind; [apply acquire_free; [exact redis_up|exact tokens|by eapply lock_free_left]|].
  cbv beta. intros lease w2 [Hq2 ->]. eapply delivers_lift_bind; [reflexivity|].
  assert (quiet w w2) as Hq by (etrans; [exact Hq1|exact Hq2]). pose proof (turn_kept_quiet _ _ Hq) as Hk.
  apply (delivers_finally _ _ _ _ (fun _ _ => True)).
  2: { intros r w3 _. eapply delivers_weaken; [apply release_delivers|done]. }
  unfold respond_persisted_locked. eapply delivers_bind; [apply recall_delivers|].
  { by apply Hk. } { unfold known_message. by rewrite (proj1 Hq). }
  cbv beta. intros x w3 (hist & -> & Hr & Hq3). pose proof (turn_kept_quiet _ _ Hq3) as Hk3.
  apply finish_delivers; [done|done|by apply Hk3, Hk|]. by eapply turn_conversation, turn_conversation.
Qed.

(** What the answer of a turn is, and what it left. *)
Lemma turn_answers message acct cid scope w :
  message_ready message -> scope_of message acct = Ok scope -> lock_free scope w ->
  based w -> has_conversation cid w -> ~ known_message (reply_id_of message) w ->
  delivers (respond_persisted lock_ttl tools message acct cid) w (fun reply w1 =>
    1 <= py_len (rp_text reply) <= 4096 /\ rp_trace_id reply = trace_of message /\
    stored_answer message (rp_text reply) (w_db w1) /\
    based w1 /\ has_conversation cid w1 /\ db_attempts (w_db w1) = db_attempts (w_db w)).
Proof.
  intros Hm Hs Hlock Hb Hc Hn.
  pose proof (respond_delivers message acct cid scope w Hm Hs Hlock Hb Hc Hn) as Hd.
  apply delivers_run, (delivers_keeps turn_kept _ _ _ (respond_turn_kept message acct cid)) in Hd.
  eapply delivers_weaken; [exact Hd|]. intros reply w1 [[_ Hr] Hk].
  assert (keeps_db same_attempts (respond_persisted lock_ttl tools message acct cid)) as Ha
    by (apply respond_persisted_keeps; [done|apply _|intros; apply record_outbound_attempts|apply request_attempts]).
  specialize (Ha w). rewrite Hr in Ha.
  apply respond_persisted_ok_inv in Hr as (sc & token & w2 & w3 & _ & Hd2 & _ & Hl & Hrel).
  destruct (release_delivers sc token w3) as ([] & w4 & Hrel' & Hd4). rewrite Hrel in Hrel'. injection Hrel' as <-.
  unfold respond_persisted_locked in Hl. apply bind_ok_inv in Hl as (x & w5 & Hx & Hl).
  apply recall_inv in Hx as [Hd5 Hx]. destruct x as [r|hist].
  { exfalso. destruct Hx as (_ & k & m & Hkm & He & _). apply Hn. exists k, m. by rewrite <- Hd2. }
  apply finish_turn_inv in Hl as (_ & Hlen & Htr & _ & _ & Hst); [|done].
  split; [done|]. split; [done|]. split.
  { rewrite Hd4. apply Hst. unfold known_message. by rewrite Hd5, Hd2. }
  split; [by apply Hk|]. split; [by eapply turn_conversation|done].
Qed.
End turn.
