(* ===== verification/Answering.v ===== *)
(** * A healthy round answers

    The delivery of a reply under a new key, the time a round takes, and the
    round: [due_message_answered] joins the claim, the turn ([turn_answers]),
    the delivery ([send_delivers]) and the end of the job.  What is asked of the
    engine and of the reader are the interfaces [EngineUp], which the engine of
    the program implements ([composer_up]), and [ReaderUp]. *)
From S2P Require Import Prelude PyStr PyRegex Errors Sha256 Uuid Contracts Grounding Prompt.
From S2P Require Import Schema Migrations Config Pydantic Events Sql Redis Models Integrity.
From S2P Require Import ModelSchema World Session Sample.
From S2P Require Import MetaWebhook Delivery DeliveryLaws DeliveryProps State Coordination.
From S2P Require Import Composition BuenPickModels BuenPick Conversations Handoffs Processing Tools.
From S2P Require Import Ingress Evidence Policies Orchestrator TurnLaws TurnProps Worker Frames Api.
From S2P Require Import WorkerProps IntegrityLaws QueueLaws Identifiers Reachable Totality.

Local Open Scope Z_scope.

(** ** Deliveries under a new key *)

Section delivery.
Context `{SqlEngine} `{RedisServer} `{Env}.
Hypothesis up : forall n, db_up n = true.

Abbreviation attempts w := (rows (db_attempts (w_db w))).
Abbreviation events w := (rows (db_events (w_db w))).

(** No event of the table carries the identifier the provider gave. *)
Definition unreported (result : DeliveryResult) (w : World) : Prop := forall k e,
  events w !! k = Some e -> sql_eq (dres_provider_message_id result) (se_provider_message_id e) = false.

Definition same_events : relation Db := fun d d' => db_events d' = db_events d.
#[export] Instance same_events_preorder : PreOrder same_events.
Proof. split; unfold same_events; [done|]. intros x y z Hxy Hyz. congruence. Qed.

Ltac events_step := first [ apply set_tbl_frame; [apply _|by intros ? ?] | keeps_step ].

Lemma record_outbound_events cid text trace ext : keeps_db same_events (record_outbound cid text trace ext).
Proof. unfold record_outbound. repeat events_step. Qed.

Lemma request_events r : keeps_db same_events (request r).
Proof. unfold request. repeat events_step. Qed.

Lemma claim_events cid req : keeps_db same_events (claim cid req).
Proof. unfold claim. repeat events_step. Qed.

Lemma pending_row_fits cid req t : contract_ok req = true -> attempt_fits (pending_row cid req t) = true.
Proof.
  intros [Hf _]%fields_and_validator. cbn -[len_in opt_len_in] in Hf. bools.
  repeat match goal with Hl : len_in _ _ _ = true |- _ => apply len_in_spec in Hl end.
  unfold attempt_fits, fits, fits_opt. cbn -[py_len]. rewrite !andb_true_iff, !Z.leb_le. by split_and!; try lia; vm_compute.
Qed.

Lemma fits_bound n o : opt_len_in 0 n o = true -> fits_opt n o = true.
Proof. destruct o as [x|]; [|done]. unfold opt_len_in, len_in, fits_opt, fits. by intros [_ ?]%andb_true_iff. Qed.

(** The key is new: the attempt is recorded as pending. *)
Lemma claim_delivers cid req w :
  based w -> is_Some (rows (db_conversations (w_db w)) !! cid) -> contract_ok req = true ->
  ~ has_key w (dr_idempotency_key req) ->
  delivers (claim cid req) w (fun c w1 => claim_created c = true /\
    exists t, attempts w1 !! snap_id (claim_attempt c) = Some (pending_row cid req t)).
Proof.
  intros Hb Hc Hok Hn. unfold claim. eapply delivers_run_bind; [reflexivity|]. apply delivers_session; [exact up|].
  set (w1 := mkWorld _ _ _ _ _ _ _ _).
  destruct (insert_up uq_delivery_attempts_idempotency_key no_constraint (conversation_exists cid) (w_next_id w)
    (pending_row cid req) w1) as (tb & Hins & Hrows).
  { apply up. } { by apply pending_row_fits. }
  { apply conflicts_false. intros k s Hk. apply bool_decide_eq_false. intros Hkey. apply Hn. by exists k, s. }
  { by apply conflicts_false. } { by apply (based_ids w Hb (w_next_id w)). } { by apply bool_decide_eq_true. }
  eapply delivers_run_bind; [exact Hins|].
  set (row := pending_row cid req (clock (w_tick w1))).
  assert (_snapshot (w_next_id w) row = Ok {| snap_id := w_next_id w; snap_state := DA_PENDING;
    snap_provider_message_id := None; snap_error_code := None; snap_error_message := None;
    snap_trace_id := dr_trace_id req |}) as Hsnap.
  { unfold _snapshot. cbn [row pending_row a_status]. change (attempt_state (enum_value DA_PENDING)) with (Ok DA_PENDING).
    cbn [mbind res_bind]. apply construct_good. apply fields_and_validator in Hok as [Hf _].
    cbn -[len_in opt_len_in] in Hf. bools. unfold contract_ok. cbn -[len_in]. by rewrite andb_true_r. }
  eapply delivers_lift_bind; [exact Hsnap|]. apply delivers_ret. split; [done|]. exists (clock (w_tick w1)).
  cbn [claim_attempt snap_id]. change (rows tb !! w_next_id w = Some row). by rewrite Hrows, lookup_insert_eq.
Qed.

Lemma finalized_row_fits result t row :
  contract_ok result = true -> attempt_fits row = true -> attempt_fits (finalized_row result t row) = true.
Proof.
  intros (Hp & Hc & Hm & _)%result_ok_iff Hf. unfold attempt_fits in *. cbn -[fits fits_opt enum_value].
  rewrite !andb_true_iff in *. destruct Hf as (((((? & _) & _) & _) & _) & ?).
  repeat (split; [|done]). split; [|by apply fits_bound]. split; [split; [split|]|]; try by apply fits_bound.
  - done.
  - by destruct (dres_status result).
Qed.

Lemma result_event_fits result id s t :
  contract_ok result = true -> status_event_fits {| se_delivery_attempt_id := id;
    se_provider_message_id := dres_provider_message_id result; se_status := enum_value (dres_status result);
    se_error_code := dres_error_code result; se_error_message := dres_error_message result;
    se_trace_id := dres_trace_id result; se_occurred_at := s; se_created_at := t |} = true.
Proof.
  intros (Hp & Hc & Hm & [_ Ht] & _)%result_ok_iff. unfold status_event_fits. cbn -[fits fits_opt enum_value].
  rewrite !andb_true_iff. split; [|by apply Z.leb_le]. repeat split; try by apply fits_bound.
  by destruct (dres_status result).
Qed.

(** The result is recorded with its event. *)
Lemma finalize_delivers id row result w :
  based w -> attempts w !! id = Some row -> a_status row = enum_value DA_PENDING ->
  contract_ok result = true -> unreported result w ->
  delivers (finalize id result) w (fun _ _ => True).
Proof.
  intros Hb Hrow Hst Hok Hnew. pose proof Hok as (Hp & Hc & Hm & Ht & _)%result_ok_iff.
  unfold finalize. apply delivers_session; [exact up|].
  destruct (update_up (fun k r => (k =? id) && bool_decide (a_status r = enum_value DA_PENDING))
    (finalized_row result) w id row) as (tb & Hupd & Hrows).
  { apply up. } { exact Hrow. } { by rewrite Z.eqb_refl, bool_decide_eq_true_2. }
  { intros k r _ Hk. by bools. }
  { by apply finalized_row_fits, (ok_fits _ _ _ _ (integrity_attempts _ (based_integrity w Hb)) _ _ Hrow). }
  eapply delivers_run_bind; [exact Hupd|]. eapply delivers_lift_bind; [reflexivity|].
  eapply delivers_run_bind; [reflexivity|]. eapply delivers_run_bind; [reflexivity|].
  set (w1 := mkWorld _ _ _ _ _ _ _ _).
  destruct (insert_up no_constraint uq_delivery_status_provider_state (attempt_exists id) (w_next_id w)
    (fun t => {| se_delivery_attempt_id := id; se_provider_message_id := dres_provider_message_id result;
      se_status := enum_value (dres_status result); se_error_code := dres_error_code result;
      se_error_message := dres_error_message result; se_trace_id := dres_trace_id result;
      se_occurred_at := clock (w_tick (tick (with_db (set_tbl tb (w_db w)) w))); se_created_at := t |}) w1)
    as (tb2 & Hins & _).
  { apply up. } { by apply result_event_fits. } { by apply conflicts_false. }
  { apply conflicts_false. intros k e He. unfold uq_delivery_status_provider_state. cbn [se_provider_message_id].
    by rewrite (Hnew k e He). }
  { by apply (based_ids w Hb (w_next_id w)). }
  { apply bool_decide_eq_true. change (is_Some (rows tb !! id)). rewrite Hrows, lookup_insert_eq. by eexists. }
  eapply delivers_run_bind; [exact Hins|]. by apply delivers_ret.
Qed.
Lemma claim_turn_kept cid req : keeps turn_kept (claim cid req).
Proof.
  apply keeps_turn; [apply claim_integrity|apply claim_ids|apply claim_contents|].
  unfold claim. repeat first [ apply set_tbl_frame; [apply _|intros ? ?; by apply identities_same] | keeps_step ].
Qed.

Variable adapter : DeliveryRequest -> M DeliveryResult.
Hypothesis adapter_quiet : forall request, keeps quiet (adapter request).

(** What a provider accepts: texts inside the service window. *)
Definition deliverable (req : DeliveryRequest) : Prop :=
  contract_ok req = true /\ dr_kind req = DK_TEXT /\ dr_customer_service_window req = CSW_OPEN.

Definition accepts (w : World) : Prop := forall req wa, deliverable req -> exists r wa',
  adapter req wa = (Ok r, wa') /\ contract_ok r = true /\ provider_status (dres_status r) = true /\
  unreported r w.

Lemma send_delivers cid req w0 w :
  accepts w0 -> db_events (w_db w) = db_events (w_db w0) ->
  based w -> is_Some (rows (db_conversations (w_db w)) !! cid) -> deliverable req ->
  ~ has_key w (dr_idempotency_key req) ->
  delivers (send adapter cid req) w (fun r _ => contract_ok r = true /\ provider_status (dres_status r) = true).
Proof.
  intros Hacc Hev Hb Hc Hreq Hn. unfold send. eapply delivers_run_bind; [reflexivity|].
  cbn [store_claim store_finalize PostgresDeliveryStore].
  eapply delivers_bind.
  { apply (delivers_keeps turn_kept); [apply claim_turn_kept|]. apply (delivers_run (claim cid req)).
    by apply (claim_delivers cid req (tick w)); try apply Hreq; try apply (turn_kept_quiet w (tick w)). }
  cbv beta. intros c w1 [[[Hcr [t Hrow]] Hrun] Hk]. rewrite Hcr. cbn [negb].
  assert (based w1) as Hb1 by (apply Hk; by apply (turn_kept_quiet w (tick w))).
  pose proof (claim_events cid req (tick w)) as Hev1. rewrite Hrun in Hev1.
  destruct (Hacc req w1 Hreq) as (r & w2 & Hr & Hok & Hp & Hnew). eapply delivers_run_bind; [exact Hr|].
  pose proof (adapter_quiet req w1) as Hq. rewrite Hr in Hq. cbn [snd] in Hq.
  eapply delivers_bind; [apply (finalize_delivers _ (pending_row cid req t))|].
  { by apply (turn_kept_quiet w1 w2). } { by rewrite (proj1 Hq). } { done. } { exact Hok. }
  { intros k e. rewrite (proj1 Hq). unfold db_rel, same_events in Hev1. cbn in Hev1. rewrite Hev1, Hev. apply Hnew. }
  cbv beta. intros _ w3 _. destruct (emit_attempt_up r (perf_counter (w_tick w)) w3 Hok) as (w4 & He & _).
  eapply delivers_run_bind; [exact He|]. by apply delivers_ret.
Qed.
End delivery.

(** ** A due message is answered *)

(** What the round relies on, of the engine and of the reader. *)
Class EngineUp `{SqlEngine} `{RedisServer} (E : ResponseEngine) := {
  up_quiet packet turns text : keeps quiet (engine_respond packet turns text);
  up_later packet turns text : keeps later (engine_respond packet turns text);
  up_answers packet turns dt w : answerable packet turns dt ->
    exists o w', engine_respond packet turns dt w = (Ok o, w')
}.

Class ReaderUp `{UCD} `{SqlEngine} `{RedisServer} (R : BuenPickReader) := {
  up_laws :: ReaderLaws R;
  up_frame :: ReaderFrame R;
  up_search query commerce : keeps quiet (br_search query commerce);
  up_shows query trace w data w' : 1 <= py_len query <= 4096 -> 1 <= py_len trace <= 128 ->
    br_search (Some query) None w = (Ok data, w') -> showable query trace data
}.


(** The engine of the program answers, whatever the model does: an adapter that
    keeps its contract answers or raises [LLMAdapterError]. *)
Lemma composer_up `{UCD} `{SqlEngine} `{RedisServer} `{Env} adapter system_prompt :
  1 <= py_len system_prompt <= 12000 ->
  (forall r, keeps quiet (adapter r)) -> (forall r, keeps later (adapter r)) ->
  (forall r w, match (adapter r w).1 with
               | Ok x => contract_ok x = true
               | Raise (LLMAdapterError _ _ _) => True
               | Raise _ => False
               end) ->
  EngineUp (ComposerEngine adapter system_prompt).
Proof.
  intros Hs Hq Hl Had. split; cbn [engine_respond ComposerEngine].
  - intros packet turns text. apply respond_relates; [apply _|apply quiet_emit|by intros ?|exact Hq].
  - intros packet turns text. by apply (composer_frame later).
  - intros packet turns dt w (Hp & Ht & Hm). pose proof (trace_ok packet Hp) as Htr.
    destruct (llm_mode (cp_response_mode packet)) eqn:Hllm.
    { eapply respond_answers; [exact Hp|exact Hllm| |exact Had]. split; [exact Hs|]. split; [|exact Ht].
      split; [apply render_nonempty|]. by destruct (cp_response_mode packet). }
    unfold Composition.respond.
    destruct (emit_counts_up EV_CONTEXT_BUILT (cp_trace_id packet) (u "context_packet") EO_SUCCEEDED
      None None (Some (Z.of_nat (length (cp_confirmed_data packet))))
      (Some (Z.of_nat (length (cp_unavailable_data packet)))) w) as (w1 & Hw1 & _);
      [exact Htr|by vm_compute|done|apply Z.leb_le; lia|apply Z.leb_le; lia|].
    rewrite (bind_ok_run _ _ _ _ _ Hw1). destruct (cp_response_mode packet); try done.
    + destruct Hm as (text & -> & Hlen). by apply validated_outcome_total.
    + rewrite fallback_total by done. do 2 eexists. reflexivity.
Qed.

Section answered.
Context `{UL : UCDLaws} `{SqlEngine} `{RedisServer} `{Env} `{RowLocks}.
Context `{E : !ResponseEngine} `{!EngineLaws E} `{!EngineUp E}.
Variables (lock_ttl timeout max_attempts : Z) (tools : option BuenPickReader).
Hypothesis reader_up : forall reader, tools = Some reader -> ReaderUp reader.
Variable adapter : DeliveryRequest -> M DeliveryResult.
Hypothesis adapter_quiet : forall request, keeps quiet (adapter request).
Hypothesis adapter_later : forall request, keeps later (adapter request).
Hypothesis adapter_ok : forall req w x w', adapter req w = (Ok x, w') -> contract_ok x = true.
Hypothesis up : forall n, db_up n = true.
Hypothesis redis_up : forall t c s, (redis_exec t c s).1 <> None.
Hypothesis tokens : forall n, token_ok (token_urlsafe n).
Hypothesis clock_monotonic : monotonic.

Abbreviation respond job := (respond_persisted lock_ttl tools (ci_message job) (ci_channel_account_id job)
  (ci_conversation_record_id job)).

(** A job that can be answered for the first time. *)
Record job_ready (job : ClaimedInbound) (w : World) : Prop := {
  job_message : message_ready (ci_message job);
  job_unanswered : ~ known_message (reply_id_of (ci_message job)) w;
  job_unsent : ~ has_key w (reply_key (ci_message job));
  job_scope : exists scope, scope_of (ci_message job) (ci_channel_account_id job) = Ok scope /\ lock_free scope w;
  job_conversation : is_Some (rows (db_conversations (w_db w)) !! ci_conversation_record_id job)
}.

(** The window in which the provider takes texts. *)
Definition window_open (message : InboundMessage) (n : nat) : Prop :=
  clock n - dt_us (im_received_at message) <= 24 * 3600 * second.

Lemma window_at_open message n :
  contract_ok message = true -> window_open message n -> window_at (clock n) (im_received_at message) = Ok CSW_OPEN.
Proof.
  intros [_ Hv]%fields_and_validator Hw. unfold window_at, since.
  assert (dt_aware (im_received_at message) = true) as ->.
  { destruct (dt_aware _) eqn:Ha; [done|]. cbn in Hv. by rewrite Ha in Hv. }
  cbn [mbind res_bind]. by rewrite (proj2 (Z.leb_le _ _)).
Qed.

Lemma reply_request_ok message reply :
  message_ready message -> 1 <= py_len (rp_text reply) <= 4096 -> rp_trace_id reply = trace_of message ->
  exists req, reply_request message reply CSW_OPEN = Ok req /\ deliverable req /\
    dr_idempotency_key req = reply_key message.
Proof.
  intros Hm Ht Htr. destruct (ready_fits message Hm) as [[_ [Htrace _]] Hid]. pose proof (ready_id _ Hm) as Hid2.
  destruct Hm as [Hc _ _]. apply fields_and_validator in Hc as [Hc _]. cbn -[len_in opt_len_in] in Hc. bools.
  unfold reply_request. set (req := {| dr_idempotency_key := _ |}).
  assert (contract_ok req = true) as Hok; [|exists req; by rewrite construct_good].
  assert (truthy (rp_text reply) = true) as Htr' by (apply truthy_len; lia).
  apply fields_and_validator. split.
  - subst req. cbn -[len_in py_len trace_of reply_key]. rewrite Htr. unfold reply_key.
    rewrite !andb_true_iff, !len_in_spec, py_len_app. change (py_len (u "reply:")) with 6.
    repeat match goal with Hl : len_in _ _ _ = true |- _ => apply len_in_spec in Hl end. split_and!; lia || done.
  - subst req. cbn -[truthy]. by rewrite Htr'.
Qed.

Lemma adapter_messages req : keeps_db same_db_messages (adapter req).
Proof. intros x. unfold db_rel, same_db_messages. by rewrite (proj1 (adapter_quiet req x)). Qed.

Lemma adapter_attempts req : keeps_db ledger_progress (adapter req).
Proof. intros x. apply ledger_progress_same. by rewrite (proj1 (adapter_quiet req x)). Qed.

Abbreviation tools_frame := (fun reader Hreader => up_frame (ReaderUp := reader_up reader Hreader)).

Lemma search_later reader query commerce : tools = Some reader -> keeps later (br_search query commerce).
Proof. intros Hreader. by apply (law_search (ReaderLaws := up_laws (ReaderUp := reader_up reader Hreader))). Qed.

Lemma respond_later job : keeps later (respond job).
Proof. apply (respond_persisted_frame later); [apply up_later|exact search_later]. Qed.

(** The sending and the end of the job come after the turn. *)
Lemma respond_before_end job w reply w1 :
  respond job w = (Ok reply, w1) ->
  later w1 (process_job lock_ttl max_attempts tools adapter job w).2.
Proof.
  intros Hr. unfold process_job, answer_job. unfold try_except at 1. rewrite 2!bind_run, Hr.
  match goal with |- context [mbind ?k now w1] =>
    assert (keeps later (try_except (result ← mbind k now; settle_job job result;; mret true)
      (fun e => Some (job_failed max_attempts job e;; mret true)))) as Hl; [|exact (Hl w1)] end.
  repeat lazymatch goal with
  | |- keeps _ (send _ _ _) => by apply (send_frame later)
  | |- keeps _ (settle_job _ _) => apply (settle_frame later)
  | |- keeps _ (job_failed _ _ _) => apply (job_failed_frame later)
  | _ => frame_step
  end.
Qed.

Lemma respond_frames job w reply w1 :
  respond job w = (Ok reply, w1) -> db_events (w_db w1) = db_events (w_db w).
Proof.
  intros Hr. assert (keeps_db same_events (respond job)) as Hk.
  { apply respond_persisted_keeps; [intros reader Hreader; apply (reader_up _ Hreader)|apply _|
      intros; apply record_outbound_events|apply request_events]. }
  specialize (Hk w). by rewrite Hr in Hk.
Qed.

(** The answer of a job that is ready: the reply is stored and accepted, if
    the window is open when it is sent. *)
Lemma answer_delivers job w0 w :
  accepts adapter w0 -> db_events (w_db w) = db_events (w_db w0) -> based w -> job_ready job w ->
  exists n, (w_tick w <= n)%nat /\
    (n <= w_tick (process_job lock_ttl max_attempts tools adapter job w).2)%nat /\
    (window_open (ci_message job) n ->
    delivers (answer_job lock_ttl tools adapter job) w (fun r w1 =>
      contract_ok r = true /\ provider_status (dres_status r) = true /\
      exists text, 1 <= py_len text <= 4096 /\ stored_answer (ci_message job) text (w_db w1))).
Proof.
  intros Hacc Hev Hb [Hm Hun Hus (scope & Hs & Hlock) Hc].
  assert (delivers (respond job) w (fun reply w1 =>
    1 <= py_len (rp_text reply) <= 4096 /\ rp_trace_id reply = trace_of (ci_message job) /\
    stored_answer (ci_message job) (rp_text reply) (w_db w1) /\
    based w1 /\ is_Some (rows (db_conversations (w_db w1)) !! ci_conversation_record_id job) /\
    db_attempts (w_db w1) = db_attempts (w_db w))) as (reply & w1 & Hr & Hlen & Htr & Hst & Hb1 & Hc1 & Ha1).
  { eapply turn_answers; try done; try apply up_quiet; try apply up_answers.
    all: intros reader **; by eapply reader_up. }
  pose proof (respond_frames job w reply w1 Hr) as Hev1.
  assert (later w w1) as Hl1.
  { pose proof (respond_later job w) as Hl. by rewrite Hr in Hl. }
  exists (w_tick w1). split; [exact Hl1|]. split; [by eapply respond_before_end|]. intros Hwin. unfold answer_job.
  eapply delivers_run_bind; [exact Hr|]. eapply delivers_run_bind; [reflexivity|].
  eapply delivers_lift_bind; [apply window_at_open; [apply Hm|exact Hwin]|].
  destruct (reply_request_ok (ci_message job) reply Hm Hlen Htr) as (req & Hreq & Hdel & Hkey).
  eapply delivers_lift_bind; [exact Hreq|].
  assert (~ has_key (tick w1) (dr_idempotency_key req)) as Hus1.
  { rewrite Hkey. unfold has_key. cbn [tick w_db]. by rewrite Ha1. }
  assert (delivers (send adapter (ci_conversation_record_id job) req) (tick w1)
    (fun r _ => contract_ok r = true /\ provider_status (dres_status r) = true)) as Hd.
  { eapply send_delivers; try done; [by rewrite <- Hev, <- Hev1|by apply (turn_kept_quiet w1 (tick w1))]. }
  destruct Hd as (r & w2 & Hsend & Hok & Hp). exists r, w2. split; [exact Hsend|].
  split; [exact Hok|]. split; [exact Hp|].
  exists (rp_text reply). split; [exact Hlen|]. eapply stored_answer_kept; [|exact Hst].
  assert (keeps_db same_db_messages (send adapter (ci_conversation_record_id job) req)) as Hk.
  { apply send_same_messages, adapter_messages. }
  specialize (Hk (tick w1)). rewrite Hsend in Hk. intros k m. unfold db_rel, same_db_messages in Hk. cbn in Hk.
  by rewrite Hk.
Qed.

(** A due job whose message can be answered and was not, in a conversation that
    nobody holds. *)
Record answerable_job (job : ClaimedInbound) (w : World) : Prop := {
  due_text : truthy_opt (im_text (ci_message job)) = true;
  due_id : py_len (im_message_id (ci_message job)) <= 115;
  due_unanswered : ~ known_message (reply_id_of (ci_message job)) w;
  due_unsent : ~ has_key w (reply_key (ci_message job));
  due_unlocked : forall scope,
    scope_of (ci_message job) (ci_channel_account_id job) = Ok scope -> lock_free scope w
}.

(** The job is done: its reply is stored, it is completed, and the ledger has
    the status of an accepted delivery under the key of the message. *)
Record job_answered (job : ClaimedInbound) (w : World) : Prop := {
  answered_reply : exists text, 1 <= py_len text <= 4096 /\ stored_answer (ci_message job) text (w_db w);
  answered_row : exists m, rows (db_messages (w_db w)) !! ci_message_record_id job = Some m /\
    status_is PR_COMPLETED m = true;
  answered_attempt : exists id row status, rows (db_attempts (w_db w)) !! id = Some row /\
    a_idempotency_key row = reply_key (ci_message job) /\
    a_status row = enum_value status /\ provider_status status = true
}.

Lemma claim_next_turn_kept : keeps turn_kept (claim_next timeout).
Proof.
  apply keeps_turn; [apply claim_next_integrity|apply claim_next_ids|apply claim_next_contents|].
  intros w. unfold db_rel. destruct (claim_next timeout w) as [[[job|]|e] w'] eqn:Hc; cbn [snd].
  - apply claim_ok_inv in Hc as (id & m & c & l & tb & _ & _ & -> & _). by apply identities_same.
  - apply claim_ok_inv in Hc as [_ ->]. reflexivity.
  - rewrite (claim_raise_db _ _ _ _ Hc). reflexivity.
Qed.

Lemma claimed_scope id m c job :
  claimed_inbound id m c = Ok job -> exists scope, scope_of (ci_message job) (ci_channel_account_id job) = Ok scope.
Proof.
  unfold claimed_inbound. destruct (m_external_message_id m) as [e|]; [|done].
  intros (ch & _ & (ki & _ & (msg & [Hm ->]%construct_ok & [Hok ->]%construct_ok)%res_bind_ok)%res_bind_ok)%res_bind_ok.
  apply fields_and_validator in Hm as [Hm _]. apply fields_and_validator in Hok as [Hf _].
  cbn -[len_in opt_len_in] in Hm, Hf. bools. unfold scope_of. eexists. apply construct_good.
  unfold contract_ok. cbn -[len_in]. by rewrite andb_true_r, andb_true_iff.
Qed.

(** A claimed job is ready when its message can be answered and was not. *)
Lemma claimed_ready w job w1 :
  sound w -> claim_next timeout w = (Ok (Some job), w1) -> answerable_job job w ->
  based w1 /\ job_ready job w1 /\ db_events (w_db w1) = db_events (w_db w) /\
  (w_tick w <= w_tick w1)%nat /\ exists m, held (ci_message_record_id job) m w1.
Proof.
  intros Hs Hc [Ht Hi Hun Hus Hlock]. pose proof (claim_next_turn_kept w) as Hk.
  pose proof (left_claim timeout w) as Hl. rewrite Hc in Hk, Hl. cbn [snd] in Hk, Hl.
  assert (based w1) as Hb1 by by apply Hk, sound_based.
  pose proof (claim_jobs _ _ _ _ Hc) as (m0 & c0 & _ & Hj & _ & _ & _).
  apply claim_ok_inv in Hc as (id & m & c & l & tb & Hdue & Hjob & Hd & Hr).
  assert ((id, m, c) ∈ (id, m, c) :: l) as Hin by by left. rewrite <- Hdue in Hin.
  apply elem_of_due in Hin as (Hm & _ & _ & Hconv).
  destruct (claimed_fields _ _ _ _ Hjob) as (Hid & Hcid & _ & _ & _ & _ & _ & Hok).
  split; [exact Hb1|]. split; [split|].
  - by split.
  - intros (k & m' & Hk' & He). apply Hun. rewrite Hd in Hk'. change (rows tb !! k = Some m') in Hk'.
    rewrite Hr in Hk'. apply lookup_insert_Some in Hk' as [[<- <-]|[_ Hk']]; [by exists id, m|by exists k, m'].
  - unfold has_key. by rewrite Hd.
  - destruct (claimed_scope _ _ _ _ Hjob) as [scope Hscope]. exists scope. split; [done|].
    by eapply lock_free_left; [exact Hl|apply Hlock].
  - rewrite Hcid, Hd. by exists c.
  - split; [by rewrite Hd|]. split; [apply Hl|]. exists (mark_claimed (clock (w_tick w)) m0).
    assert (jobs (w_db w1) !! ci_message_record_id job = Some (mark_claimed (clock (w_tick w)) m0)) as Hj1
      by (by rewrite Hj, lookup_insert_eq).
    split; [exact Hj1|]. split; [by apply bool_decide_eq_true|]. apply lookup_jobs in Hj1 as [Hj1 _].
    by apply (ok_fits _ _ _ _ (integrity_messages _ (based_integrity _ Hb1)) _ _ Hj1).
Qed.

(** The end of a job keeps the replies. *)
Lemma stored_answer_transition message text k m st err av tb d :
  rows (db_messages d) !! k = Some m -> rows tb = <[k := transitioned st err av m]> (rows (db_messages d)) ->
  stored_answer message text d -> stored_answer message text (set_tbl tb d).
Proof.
  intros Hm Hr (k' & m' & Hk & He & Hc & Ht). destruct (decide (k' = k)) as [->|Hne].
  - assert (m' = m) as -> by congruence. exists k, (transitioned st err av m).
    change (db_messages (set_tbl tb d)) with tb. by rewrite Hr, lookup_insert_eq.
  - exists k', m'. change (db_messages (set_tbl tb d)) with tb. by rewrite Hr, lookup_insert_ne by done.
Qed.

(** An accepted answer ends its job. *)
Lemma answered_settles job m w1 r w2 text :
  held (ci_message_record_id job) m w1 ->
  answer_job lock_ttl tools adapter job w1 = (Ok r, w2) ->
  contract_ok r = true -> provider_status (dres_status r) = true ->
  1 <= py_len text <= 4096 -> stored_answer (ci_message job) text (w_db w2) ->
  exists w3, process_job lock_ttl max_attempts tools adapter job w1 = (Ok true, w3) /\ later w2 w3 /\ job_answered job w3.
Proof.
  intros Hheld Ha Hok Hp Hlen Hst.
  assert (held (ci_message_record_id job) m w2) as Hheld2.
  { unfold held. pose proof (answer_jobs lock_ttl tools tools_frame adapter adapter_messages job w1) as Hj.
    rewrite Ha in Hj. unfold db_rel, same_jobs in Hj. cbn in Hj. by rewrite Hj. }
  destruct (settle_held job r w2 m up Hheld2 Hok) as (w3 & Hset).
  destruct (answer_recorded lock_ttl tools adapter adapter_attempts job w1 r w2 Ha Hp)
    as (id & row & Hrow & Hkey & Hstatus).
  exists w3. split.
  { unfold process_job, try_except. by rewrite (bind_ok_run _ _ _ _ _ Ha), (bind_ok_run _ _ _ _ _ Hset). }
  pose proof (settle_frame later job r w2) as Hl3. rewrite Hset in Hl3. split; [exact Hl3|].
  unfold settle_job in Hset. rewrite Hp in Hset. apply transition_ok_inv in Hset as (m2 & tb & Hm2 & _ & Hd3 & Hr3).
  split; rewrite Hd3.
  - exists text. split; [exact Hlen|]. by eapply stored_answer_transition.
  - exists (transitioned PR_COMPLETED None None m2). change (rows (db_messages _)) with (rows tb).
    by rewrite Hr3, lookup_insert_eq.
  - by exists id, row, (dres_status r).
Qed.

End answered.

(** ** Evaluations *)

(** A wall clock that stands still, a Redis that always answers. *)
#[local] Instance still_env : Env := {|
  clock _ := 1700000000000000; perf_counter n := 1000 * Z.of_nat n; db_up _ := true;
  transport _ _ := HTimeout; token_urlsafe _ := replicate 43 65
|}.
#[local] Program Instance steady_server : RedisServer := {|
  srv := dataset; dump s := s;
  redis_exec now c s := let '(r, m) := redis_spec now c s in (Some r, m)
|}.
Next Obligation. intros now c s r s'. cbn. by destruct (redis_spec now c s) as [r' m]; intros [= <- <-]. Qed.
Next Obligation. intros now c s s'. cbn. by destruct (redis_spec now c s). Qed.

Section concrete.
#[local] Existing Instances latin1_ucd map_engine.

(** The model is never there: the replies are factual fallbacks. *)
Definition absent_model (request : CompositionRequest) : M CompositionResult :=
  raise (LLMAdapterError LE_TIMEOUT (u "x") None).
#[local] Instance absent_engine : ResponseEngine := ComposerEngine absent_model (u "sys").
#[local] Instance absent_laws : EngineLaws absent_engine.
Proof. apply composer_engine_laws. intros r. apply keeps_raise, _. Qed.
#[local] Instance absent_up : EngineUp absent_engine.
Proof. apply composer_up; [by vm_compute|intros r; apply keeps_raise, _..|done]. Qed.

(** A provider that accepts the texts of the worker. *)
Definition prompt_provider (request : DeliveryRequest) : M DeliveryResult :=
  lift (construct {| dres_status := DS_ACCEPTED; dres_provider_message_id := Some (u "wamid.out");
    dres_error_code := None; dres_error_message := None;
    dres_trace_id := dr_trace_id request; dres_metadata := [] |}).

Lemma provider_ok request w x w' : prompt_provider request w = (Ok x, w') -> contract_ok x = true.
Proof. by intros [[? ->]%construct_ok _]%lift_ok_inv. Qed.

(** A reader that always answers the same pick. *)
#[local] Instance one_pick_reader : BuenPickReader := {|
  br_search _ _ := mret {| sr_items := [sample_summary]; sr_total := 1 |};
  br_pick _ := raise (BuenPickClientError TE_NOT_FOUND (u "x") None);
  br_commerce _ := raise (BuenPickClientError TE_NOT_FOUND (u "x") None);
  br_order _ _ _ := raise (BuenPickClientError TE_NOT_FOUND (u "x") None)
|}.

Lemma one_pick_showable query trace :
  1 <= py_len query <= 4096 -> 1 <= py_len trace <= 128 ->
  showable query trace {| sr_items := [sample_summary]; sr_total := 1 |}.
Proof.
  intros Hq Ht. split; [|split; [done|]].
  - constructor; [|done]. split; [done|]. split; [done|]. intros price [= <-]. by vm_compute.
  - intros result b Hd Hb Hc. unfold search_result_evidence in Hb. rewrite Hd in Hb.
    destruct (tr_success result).
    + vm_compute in Hb. injection Hb as <-. apply packet_prompt_fits; [apply Hq|apply Ht|by vm_compute].
    + rewrite failed_bundle_eq in Hb by (by vm_compute). by injection Hb as <-.
Qed.

Lemma one_pick_up : forall reader, Some one_pick_reader = Some reader -> ReaderUp reader.
Proof.
  intros reader [= <-]. split.
  - split; intros; (split; [intros w e|]); try (apply keeps_ret, _ || apply keeps_raise, _); try done;
      intros [= <-]; do 3 eexists; (split; [reflexivity|]); by vm_compute.
  - split. intros. apply keeps_ret, _.
  - intros. apply keeps_ret, _.
  - intros query trace w data w' Hq Ht [= <- <-]. by apply one_pick_showable.
Qed.

(** The question a person asks. *)
Definition asking : InboundMessage := {|
  im_message_id := u "wamid.in"; im_channel := WHATSAPP; im_conversation_id := u "5491";
  im_sender_id := u "5491"; im_kind := MK_TEXT; im_text := Some (u "¿Qué hay disponible?");
  im_received_at := utc 0; im_metadata := ∅ |}.

Definition question_world : World := (record_inbound (u "phone-1") asking (u "meta:wamid.in") true
  (mkWorld map_engine steady_server (mkDb map_engine ∅ ∅ ∅ ∅ ∅) ∅ [] [] 100 0)).2.
Definition asked_round : res bool * World := process_once 30 60 3 (Some one_pick_reader) prompt_provider question_world.

Example asked_answered :
  asked_round.1 = Ok true /\
  m_processing_status <$> rows (db_messages (w_db asked_round.2)) !! 101 = Some (Some (u "completed")).
Proof. vm_compute. done. Qed.

Lemma provider_accepts : accepts prompt_provider question_world.
Proof.
  intros req wa ([Hf _]%fields_and_validator & _). unfold prompt_provider.
  set (x := {| dres_status := DS_ACCEPTED; dres_provider_message_id := _ |}).
  assert (contract_ok x = true) as Hx.
  { apply result_ok_iff. cbn -[len_in] in Hf. bools.
    split; [done|]. split; [done|]. split; [done|]. split; [by apply len_in_spec|done]. }
  exists x, wa. split; [unfold lift; by rewrite (construct_good _ Hx)|]. split; [exact Hx|]. split; [done|].
  intros k e He. vm_compute in He. by destruct k.
Qed.

Lemma asked_sound : sound question_world.
Proof.
  unfold question_world. set (w0 := mkWorld _ _ _ _ _ _ _ _).
  destruct (empty_sound w0) as [Hi Hq Hu Hc]; [done..|]. split.
  - by apply record_inbound_integrity.
  - by apply record_inbound_queue.
  - by apply (record_inbound_ids None).
  - by apply record_inbound_contents.
Qed.
Definition asked_job : ClaimedInbound :=
  job_of 101 100 (u "phone-1") asking 1700000000000000.

Lemma asked_claim : claim_next 60 question_world = (Ok (Some asked_job), (claim_next 60 question_world).2).
Proof. apply (run_fst (claim_next 60)). vm_compute. reflexivity. Qed.

Lemma still_up n : db_up n = true.
Proof. reflexivity. Qed.

Lemma asked_unanswered : ~ known_message (reply_id_of asking) question_world.
Proof.
  intros (k & m & Hk & He). assert ((k, m) ∈ map_to_list (rows (db_messages (w_db question_world)))) as Hin
    by by apply elem_of_map_to_list.
  assert (((fun km => m_external_message_id km.2) <$> map_to_list (rows (db_messages (w_db question_world)))) =
    [Some (im_message_id asking)]) as Hl by (vm_compute; reflexivity).
  destruct (map_to_list (rows (db_messages (w_db question_world)))) as [|x [|y l]]; [done| |done].
  apply list_elem_of_singleton in Hin as <-. injection Hl as Hl. cbn in Hl. rewrite He in Hl. by vm_compute in Hl.
Qed.

Lemma asked_answerable : answerable_job asked_job question_world.
Proof.
  split.
  - by vm_compute.
  - by apply Z.leb_le; vm_compute.
  - exact asked_unanswered.
  - intros (k & r & Hk & _). vm_compute in Hk. by destruct k.
  - intros scope _ k _. by vm_compute.
Qed.

Lemma asked_window n : window_open (ci_message asked_job) n.
Proof. by apply Z.leb_le; vm_compute. Qed.

End concrete.
