(* ===== verification/ScheduleLaws.v ===== *)
(** * No job is forgotten

    The query of the queue looks for a pending job by the time it is available
    and for a claimed one by the time it was claimed: a job without that time
    would never be found again.  [scheduled_wf] says that every queued message
    is inbound and has it, or is done.  Every request to the console or the
    webhook and every round of the worker keeps this, so waiting makes every
    unfinished job due ([everything_becomes_due]). *)
From S2P Require Import Prelude PyStr PyRegex Errors Sha256 Uuid Contracts Grounding Prompt.
From S2P Require Import Schema Migrations Config Pydantic Events Sql Redis Models Integrity.
From S2P Require Import ModelSchema World Session Sample.
From S2P Require Import MetaWebhook Delivery DeliveryLaws DeliveryProps State Coordination.
From S2P Require Import Composition BuenPickModels BuenPick Conversations Handoffs Processing Tools.
From S2P Require Import Ingress Evidence Policies Orchestrator TurnLaws TurnProps Worker Api.
From S2P Require Import IntegrityLaws.

Local Open Scope Z_scope.

#[local] Abbreviation messages d := (rows (db_messages d)).

(** A queued message has the time its state is looked for by. *)
Definition scheduled (m : MessageRecord) : Prop :=
  m_direction m = u "inbound" /\
  ((status_is PR_PENDING m = true /\ is_Some (m_processing_available_at m)) \/
   (status_is PR_PROCESSING m = true /\ is_Some (m_processing_claimed_at m)) \/ job_done m).

Definition scheduled_row (m : MessageRecord) : Prop := m_processing_status m <> None -> scheduled m.

Section changes.
Context `{SqlEngine}.

Definition scheduled_wf (d : Db) : Prop := forall k m, messages d !! k = Some m -> scheduled_row m.

Definition schedule_kept : relation Db := fun d d' => scheduled_wf d -> scheduled_wf d'.
#[export] Instance schedule_kept_preorder : PreOrder schedule_kept.
Proof. split; unfold schedule_kept; intros ?; auto. Qed.

Lemma schedule_same d d' : db_messages d' = db_messages d -> schedule_kept d d'.
Proof. unfold schedule_kept, scheduled_wf. by intros ->. Qed.

Lemma schedule_put d tb k m :
  rows tb = <[k := m]> (messages d) -> (scheduled_wf d -> scheduled_row m) -> schedule_kept d (set_tbl tb d).
Proof.
  intros Hr Hm Hq k' m'. cbn. rewrite Hr. intros [[<- <-]|[_ Hk]]%lookup_insert_Some; [by apply Hm|by eapply Hq].
Qed.
End changes.

Section statements.
Context `{SqlEngine} `{RedisServer} `{Env} `{RowLocks}.

Lemma insert_message_schedule (a un : MessageRecord -> MessageRecord -> bool) fk k mk :
  (forall t, scheduled_row (mk t)) -> keeps_db schedule_kept (insert_row a un fk k mk).
Proof.
  intros Hm w. unfold db_rel. destruct (insert_effect a un fk k mk w) as [->|(t & tb & -> & _ & Hr)]; [done|].
  by apply (schedule_put _ _ k (mk t)).
Qed.

Lemma inbound_row_scheduled cid message trace av t : scheduled_row (inbound_row cid message trace av t).
Proof.
  intros Hs. split; [done|]. left. destruct av as [n|]; [|done]. cbn. split; [by vm_compute|by eexists].
Qed.

Lemma outbound_row_scheduled cid text trace ext t : scheduled_row (outbound_row cid text trace ext t).
Proof. by intros Hs. Qed.

(** A statement on one of the other tables. *)
Ltac schedule_step :=
  first [ apply insert_message_schedule; intros; first [apply inbound_row_scheduled | apply outbound_row_scheduled]
        | apply set_tbl_frame; [apply _|intros ? ?; by apply schedule_same] | keeps_step ].
Ltac schedule_auto := repeat schedule_step.

Lemma record_inbound_schedule acct message trace enqueue :
  keeps_db schedule_kept (record_inbound acct message trace enqueue).
Proof. unfold record_inbound. schedule_auto. Qed.

Lemma record_outbound_schedule cid text trace ext : keeps_db schedule_kept (record_outbound cid text trace ext).
Proof. unfold record_outbound. schedule_auto. Qed.

Lemma request_schedule r : keeps_db schedule_kept (request r).
Proof. unfold request. schedule_auto. Qed.

Lemma claim_schedule cid req : keeps_db schedule_kept (claim cid req).
Proof. unfold claim. schedule_auto. Qed.

Lemma finalize_schedule id result : keeps_db schedule_kept (finalize id result).
Proof. unfold finalize. schedule_auto. Qed.

Lemma apply_callback_schedule cb : keeps_db schedule_kept (apply_callback cb).
Proof.
  intros w Hq k m Hk. eapply Hq. pose proof (apply_callback_messages cb w) as Hm. cbn in Hm. by rewrite <- Hm.
Qed.

(** What a claim takes is inbound, and it records when. *)
Lemma claim_next_schedule timeout : keeps_db schedule_kept (claim_next timeout).
Proof.
  intros w. unfold db_rel. destruct (claim_next timeout w) as [[[job|]|e] w'] eqn:Hc; cbn [snd].
  - apply claim_ok_inv in Hc as (id & m & c & l & tb & Hdue & _ & -> & Hr).
    apply (schedule_put _ _ _ _ Hr). intros _ _.
    assert ((id, m, c) ∈ (id, m, c) :: l) as Hin by by left. rewrite <- Hdue in Hin.
    apply elem_of_due in Hin as (_ & He & _). apply eligible_status in He as [Hdir _].
    split; [exact Hdir|]. right. left. split; [by vm_compute|by eexists].
  - by apply claim_ok_inv in Hc as [_ ->].
  - by rewrite (claim_raise_db _ _ _ _ Hc).
Qed.

(** A job that is put back says when it is available. *)
Lemma transition_schedule id status err av :
  status <> PR_PROCESSING -> (status = PR_PENDING -> is_Some av) ->
  keeps_db schedule_kept (_transition id status err av).
Proof.
  intros Hproc Hpend w. unfold db_rel. destruct (_transition id status err av w) as [[[]|e] w'] eqn:Ht; cbn [snd];
    [|by rewrite (session_raise_db _ _ _ _ Ht)].
  apply transition_ok_inv in Ht as (m & tb & Hm & Hp & -> & Hr).
  apply (schedule_put _ _ _ _ Hr). intros Hq _.
  destruct (Hq id m Hm) as [Hdir _]; [apply bool_decide_eq_true in Hp; by rewrite Hp|].
  split; [exact Hdir|]. destruct status; [left; split; [by vm_compute|by apply Hpend]|done|..];
    right; right; [left|right]; reflexivity.
Qed.

Lemma complete_schedule id : keeps_db schedule_kept (complete id).
Proof. unfold complete. by apply transition_schedule. Qed.

Lemma fail_schedule id code retry delay : keeps_db schedule_kept (fail id code retry delay).
Proof.
  unfold fail. destruct retry.
  - apply (keeps_stamp_some _ (fun t => t + delay)); [apply keeps_db_now, _|]. intros t. apply transition_schedule; [done|by eexists].
  - apply keeps_bind; [apply _|apply keeps_ret, _|]. intros av. by apply transition_schedule.
Qed.

Lemma send_schedule adapter cid req :
  (forall r, keeps_db (=) (adapter r)) -> keeps_db schedule_kept (send adapter cid req).
Proof.
  intros Had. apply send_keeps; [apply _|apply claim_schedule|apply keeps_db_eq, Had; apply _|].
  intros. apply finalize_schedule.
Qed.

Lemma ingest_schedule ttl events : keeps_db schedule_kept (ingest ttl events).
Proof.
  unfold ingest, store_messages, store_message, apply_status.
  repeat first [ apply record_inbound_schedule | apply apply_callback_schedule
    | solve [apply keeps_db_eq, dedup_claim_db; apply _] | keeps_step ].
Qed.
End statements.

(** ** The system *)

Section system.
Context `{JsonLoads} `{LaxInt} `{UCD} `{SqlEngine} `{RedisServer} `{Env} `{RowLocks}.
Context `{E : !ResponseEngine} `{!EngineLaws E}.
Variables (configured : bool) (lock_ttl dedup_ttl timeout max_attempts : Z).
Variable tools : option BuenPickReader.
Hypothesis tools_frame : forall reader, tools = Some reader -> ReaderFrame reader.
Variables app_secret expected_waba_id expected_phone_number_id : option str.
Variable ingress_ready : bool.
Variable adapter : DeliveryRequest -> M DeliveryResult.
Hypothesis adapter_db : forall request, keeps_db (=) (adapter request).

Lemma process_once_schedule :
  keeps_db schedule_kept (process_once lock_ttl timeout max_attempts tools adapter).
Proof.
  unfold process_once. apply keeps_bind; [apply _|apply claim_next_schedule|].
  intros [job|]; [|apply keeps_ret, _]. unfold process_job. apply keeps_try; [apply _| |].
  - apply keeps_bind; [apply _| |].
    + unfold answer_job. apply keeps_bind; [apply _| |].
      * apply respond_persisted_keeps; [exact tools_frame|apply _|..]; intros;
          [apply record_outbound_schedule|apply request_schedule].
      * intros reply. repeat first [apply send_schedule, adapter_db | keeps_step].
    + intros result. apply (keeps_bind (db_rel schedule_kept)); [|intros; apply keeps_ret, _].
      unfold settle_job. destruct (provider_status _); [apply complete_schedule|apply fail_schedule].
  - intros e m' [= <-]. apply (keeps_bind (db_rel schedule_kept)); [|intros; apply keeps_ret, _].
    apply fail_schedule.
Qed.

(** Whatever requests arrive and whatever rounds the worker makes, every
    unfinished job keeps the time it is looked for by. *)
Theorem queue_always_scheduled w w' :
  scheduled_wf (w_db w) ->
  rtc (IntegrityLaws.step configured lock_ttl dedup_ttl timeout max_attempts tools
         app_secret expected_waba_id expected_phone_number_id ingress_ready adapter) w w' ->
  scheduled_wf (w_db w').
Proof.
  intros Hq Hs. revert Hq. induction Hs as [|w w1 w' Hs _ IH]; [done|]. intros Hq. apply IH. revert Hq.
  destruct Hs; [|apply schedule_same; f_equal; symmetry; apply (history_db configured id w)| |apply process_once_schedule].
  - apply send_message_keeps; [exact tools_frame|apply _|..]; intros;
      [apply record_inbound_schedule|apply record_outbound_schedule|apply request_schedule].
  - apply webhook_keeps; [apply _|]. intros. apply ingest_schedule.
Qed.
End system.
