(* ===== verification/Progress.v ===== *)
(** * From a webhook to the end of its jobs

    The composition of the webhook, the queue and the worker: a message of an
    acknowledged webhook becomes a job, and a worker that polls again once what
    is scheduled is due ends every job, whatever the model, the API and the
    provider answer. *)
From S2P Require Import Prelude PyStr PyRegex Errors Sha256 Uuid Contracts Grounding Prompt.
From S2P Require Import Schema Migrations Config Pydantic Events Sql Redis Models Integrity.
From S2P Require Import ModelSchema World Session Sample.
From S2P Require Import MetaWebhook Delivery DeliveryLaws DeliveryProps State Coordination.
From S2P Require Import Composition BuenPickModels BuenPick Conversations Handoffs Processing Tools.
From S2P Require Import Ingress Evidence Policies Orchestrator TurnLaws TurnProps Worker WorkerProps.
From S2P Require Import Api IntegrityLaws QueueLaws ScheduleLaws.

Local Open Scope Z_scope.

#[local] Abbreviation messages d := (rows (db_messages d)).

(** ** What an acknowledged webhook enqueued *)

Section enqueued.
Context `{SqlEngine} `{RedisServer} `{Env}.

(** Stored messages stay, and each new one is a job that is pending. *)
Definition pending_job (m : MessageRecord) : Prop :=
  m_processing_status m = Some (enum_value PR_PENDING).

Definition new_jobs : relation Db := fun d d' =>
  (forall k m, messages d !! k = Some m -> messages d' !! k = Some m) /\
  (forall k m, messages d' !! k = Some m -> messages d !! k = Some m \/ pending_job m).
#[export] Instance new_jobs_preorder : PreOrder new_jobs.
Proof. split; unfold new_jobs; [intros d; naive_solver|]. intros d1 d2 d3. naive_solver. Qed.

Lemma new_jobs_same d d' : messages d' = messages d -> new_jobs d d'.
Proof. intros Hd. unfold new_jobs. rewrite Hd. naive_solver. Qed.

Lemma record_inbound_new_jobs acct message trace :
  keeps_db new_jobs (record_inbound acct message trace true).
Proof.
  unfold record_inbound. apply keeps_bind; [apply _|apply keeps_db_uuid4, _|]. intros k.
  apply keeps_bind; [apply _|apply set_tbl_frame; [apply _|intros ? ?; by apply new_jobs_same]|]. intros ids.
  apply keeps_bind; [apply _|apply keeps_lift, _|]. intros cid.
  apply keeps_bind; [apply _|apply keeps_db_uuid4, _|]. intros mid.
  apply (keeps_stamp_some _ id); [apply keeps_db_now, _|]. intros t.
  apply keeps_bind; [apply _| |intros [|]; apply keeps_lift, _].
  intros w. unfold db_rel.
  destruct (insert_effect uq_messages_external_message_id no_constraint (conversation_exists cid) mid
    (inbound_row cid message trace (Some t)) w) as [->|(t' & tb & -> & Hk & Hr)]; [done|].
  unfold new_jobs. cbn. rewrite Hr. split.
  - intros k0 m0 Hk0. rewrite lookup_insert_ne; [done|]. intros ->.
    change (messages (w_db w) !! k0 = None) in Hk. congruence.
  - intros k0 m0 [[_ <-]|[_ ?]]%lookup_insert_Some; [by right|by left].
Qed.

Lemma ingest_new_jobs ttl events : keeps_db new_jobs (ingest ttl events).
Proof.
  unfold ingest, store_messages, store_message.
  repeat first [ apply record_inbound_new_jobs
    | solve [apply keeps_db_eq, dedup_claim_db; apply _]
    | solve [intros w; apply new_jobs_same, same_apply_status]
    | keeps_step ].
Qed.

(** A message of an acknowledged webhook that was not stored before is a
    pending job. *)
Lemma ingest_enqueues ttl events w r w' m :
  ingest ttl events w = (Ok r, w') -> m ∈ we_messages events -> ~ known_message (im_message_id m) w ->
  exists k row, messages (w_db w') !! k = Some row /\
    m_external_message_id row = Some (im_message_id m) /\ pending_job row.
Proof.
  intros Hi Hin Hnew. pose proof (ingest_new_jobs ttl events w) as [_ Hjobs]. rewrite Hi in Hjobs.
  destruct (ingest_stored _ _ _ _ _ Hi) as [Hk _]. destruct (Hk m Hin) as (k & row & Hrow & He).
  exists k, row. split; [done|]. split; [done|]. destruct (Hjobs k row Hrow) as [Hold|]; [|done].
  destruct Hnew. by exists k, row.
Qed.
End enqueued.

Lemma receive_ok_inv `{JsonLoads} `{LaxInt} `{UCD} `{SqlEngine} `{RedisServer} `{Env}
    secret waba phone ready ttl body signature w r w' :
  Api.receive secret waba phone ready ttl body signature w = (Ok r, w') ->
  exists events, webhook_events waba phone body = Ok events /\ ingest ttl events w = (Ok r, w').
Proof.
  unfold Api.receive. destruct secret; [|done]. destruct ready; [|done].
  intros (ok & w1 & [_ ->]%lift_ok_inv & Hr)%bind_ok_inv. destruct (negb ok); [done|].
  apply bind_ok_inv in Hr as (events & w2 & [He ->]%lift_ok_inv & Hr). exists events. split; [done|].
  revert Hr. unfold try_except. destruct (ingest ttl events w) as [[r'|e] w1]; [done|].
  by destruct (is_retryable e).
Qed.

(** ** What a round does to the jobs *)

Section accepted.
Context `{SqlEngine}.

(** An event of the attempt in which the provider has the message: its answer to
    the request, or a callback. *)
Definition accepted_event (id : Z) (d : Db) : Prop :=
  exists k e status, rows (db_events d) !! k = Some e /\ se_delivery_attempt_id e = id /\
    se_status e = enum_value status /\ provider_status status = true.

(** The provider accepted the reply to a message, whatever it reported later. *)
Definition reply_accepted (message_id : option str) (d : Db) : Prop :=
  exists id row, rows (db_attempts d) !! id = Some row /\
    message_id = Some (removeprefix (u "reply:") (a_idempotency_key row)) /\
    startswith (u "reply:") (a_idempotency_key row) = true /\ accepted_event id d.

(** What the ledger says of an attempt, an event says too. *)
Definition evented (d : Db) : Prop := forall id row status,
  rows (db_attempts d) !! id = Some row -> a_status row = enum_value status ->
  provider_status status = true -> accepted_event id d.

Definition events_kept (d d' : Db) : Prop := forall k e,
  rows (db_events d) !! k = Some e -> rows (db_events d') !! k = Some e.

(** No event is lost, and each acceptance is told by one. *)
Definition events_progress : relation Db := fun d d' => events_kept d d' /\ (evented d -> evented d').

#[export] Instance events_progress_preorder : PreOrder events_progress.
Proof. split; unfold events_progress, events_kept; [done|]. intros d1 d2 d3. naive_solver. Qed.

Lemma accepted_event_kept id d d' : events_kept d d' -> accepted_event id d -> accepted_event id d'.
Proof. intros Hk (k & e & st & He & Hs). exists k, e, st. split; [by apply Hk|done]. Qed.

Lemma events_progress_same d d' :
  db_attempts d' = db_attempts d -> db_events d' = db_events d -> events_progress d d'.
Proof. unfold events_progress, events_kept, evented, accepted_event. by intros -> ->. Qed.

Lemma events_kept_put d d' k e :
  rows (db_events d) !! k = None -> rows (db_events d') = <[k := e]> (rows (db_events d)) -> events_kept d d'.
Proof. intros Hk He k' e' Hk'. rewrite He, lookup_insert_ne; [done|]. intros ->. congruence. Qed.

(** One attempt changes, with an event that tells its new status. *)
Lemma events_progress_put d d' id row k e :
  rows (db_attempts d') = <[id := row]> (rows (db_attempts d)) ->
  rows (db_events d) !! k = None -> rows (db_events d') = <[k := e]> (rows (db_events d)) ->
  se_delivery_attempt_id e = id -> se_status e = a_status row ->
  events_progress d d'.
Proof.
  intros Ha Hk He Hid Hst. assert (events_kept d d') as Hkept by by eapply events_kept_put.
  split; [exact Hkept|]. intros Hev id' row' st Hrow Hs Hp. rewrite Ha in Hrow.
  apply lookup_insert_Some in Hrow as [[<- <-]|[_ Hrow]].
  - exists k, e, st. rewrite He, lookup_insert_eq. split_and!; congruence.
  - eapply accepted_event_kept; [exact Hkept|by eapply Hev].
Qed.

Lemma reply_accepted_progress e d d' :
  ledger_progress d d' -> events_progress d d' -> reply_accepted e d -> reply_accepted e d'.
Proof.
  intros Hp [Hk _] (id & row & Hr & He & Hs & Hev).
  destruct (Hp _ _ Hr) as (row' & Hr' & _ & Hkey & _).
  exists id, row'. rewrite Hkey. split_and!; try done. by eapply accepted_event_kept.
Qed.

(** Attempts only move forward, and so do jobs: none is lost, each keeps its
    message and moves by the steps of the queue, and one that was completed
    meanwhile had its reply accepted, when the events tell what the ledger says. *)
Definition jobs_progress (d d' : Db) : Prop :=
  forall k m, jobs d !! k = Some m -> exists m', jobs d' !! k = Some m' /\
    m_external_message_id m' = m_external_message_id m /\ rtc job_step m m' /\
    (status_is PR_COMPLETED m' = true ->
       status_is PR_COMPLETED m = true \/ (evented d -> reply_accepted (m_external_message_id m) d')).

Definition rounds_progress : relation Db := fun d d' =>
  ledger_progress d d' /\ events_progress d d' /\ jobs_progress d d'.

#[export] Instance rounds_progress_preorder : PreOrder rounds_progress.
Proof.
  split.
  - intros d. split; [done|]. split; [done|]. intros k m Hk. exists m. split_and!; try done. by left.
  - intros d1 d2 d3 (Hl1 & He1 & Hj1) (Hl2 & He2 & Hj2). split; [by etrans|]. split; [by etrans|]. intros k m Hk.
    destruct (Hj1 k m Hk) as (m2 & Hk2 & Hm2 & Hs2 & Hc2).
    destruct (Hj2 k m2 Hk2) as (m3 & Hk3 & Hm3 & Hs3 & Hc3). exists m3.
    split; [done|]. split; [congruence|]. split; [by etrans|].
    intros [Hc|Hr]%Hc3; [|right; intros Hev; rewrite <- Hm2; by apply Hr, He1].
    apply Hc2 in Hc as [?|Hr]; [by left|right]. intros Hev. by eapply reply_accepted_progress; [..|apply Hr].
Qed.

Lemma rounds_progress_same d d' : d' = d -> rounds_progress d d'.
Proof. by intros ->. Qed.
End accepted.

(** *** What tells the ledger *)

Section told.
Context `{SqlEngine} `{RedisServer} `{Env}.

Ltac told_step := first [ apply set_tbl_frame; [apply _|intros ? ?; by apply events_progress_same] | keeps_step ].

Lemma record_inbound_told acct message trace enqueue :
  keeps_db events_progress (record_inbound acct message trace enqueue).
Proof. unfold record_inbound. repeat told_step. Qed.

Lemma record_outbound_told cid text trace ext : keeps_db events_progress (record_outbound cid text trace ext).
Proof. unfold record_outbound. repeat told_step. Qed.

Lemma request_told r : keeps_db events_progress (request r).
Proof. unfold request. repeat told_step. Qed.

Lemma transition_told id status err av : keeps_db events_progress (_transition id status err av).
Proof. unfold _transition. repeat told_step. Qed.

Lemma claim_next_told `{RowLocks} timeout : keeps_db events_progress (claim_next timeout).
Proof.
  intros w. unfold db_rel. destruct (claim_next timeout w) as [[[job|]|e] w'] eqn:Hc; cbn [snd].
  - apply claim_ok_inv in Hc as (id & m & c & l & tb & _ & _ & -> & _). by apply events_progress_same.
  - apply claim_ok_inv in Hc as [_ ->]. done.
  - by rewrite (claim_raise_db _ _ _ _ Hc).
Qed.

Lemma claim_told cid req : keeps_db events_progress (claim cid req).
Proof.
  intros w. unfold db_rel. pose proof (claim_cases cid req w) as Hc.
  destruct (claim cid req w) as [[c|e] w']; cbn [snd]; [|by rewrite Hc].
  inversion Hc as [id t snap d' Hid _ Ha He _ _|]; subst; [|done].
  split; [intros k e; by rewrite He|]. intros Hev id' row st Hrow Hs Hp. rewrite Ha in Hrow.
  apply lookup_insert_Some in Hrow as [[<- <-]|[_ Hrow]]; [by destruct st|].
  unfold accepted_event. rewrite He. by eapply Hev.
Qed.

Lemma finalize_told id result : keeps_db events_progress (finalize id result).
Proof.
  intros w. unfold db_rel. destruct (finalize id result w) as [[a|e] w'] eqn:Hf; cbn [snd].
  - apply finalize_run in Hf as (r & t & k & e & _ & _ & Ha & Hk & He & _ & Hs & Hid & _).
    eapply events_progress_put; [exact Ha|exact Hk|exact He|exact Hid|exact Hs].
  - by rewrite (session_raise_db _ _ _ _ Hf).
Qed.

Lemma apply_callback_told cb : keeps_db events_progress (apply_callback cb).
Proof.
  intros w. unfold db_rel. pose proof (apply_callback_cases cb w) as Hc. destruct (apply_callback cb w) as [r w'].
  cbn [snd]. destruct Hc as [[-> _]|(st & tr & Hc & _)]; [done|].
  inversion Hc as [| |id r0 c k e d' (Hrow & _) Hst _ Hk _ Hs Hid Ha He _|id r0 c target t k e d' _ _ Ht _ Hk _ Hs Hid Ha He _];
    subst; try done.
  - assert (events_kept (w_db w) (w_db w')) as Hkept by by eapply events_kept_put.
    split; [exact Hkept|]. intros Hev id row s Hr Hs' Hp. rewrite Ha in Hr.
    eapply accepted_event_kept; [exact Hkept|by eapply Hev].
  - eapply events_progress_put; [exact Ha|exact Hk|exact He|done|]. by rewrite Hs, <- Ht.
Qed.
End told.

(** A job that was pending is, after any steps, pending, processing, or ended. *)
Definition known_status (m : MessageRecord) : Prop :=
  exists s : ProcessingStatus, m_processing_status m = Some (enum_value s).

Lemma known_status_steps m m' : rtc job_step m m' -> known_status m -> known_status m'.
Proof.
  induction 1 as [m|m m1 m' Hs _ IH]; [done|]. intros Hm. apply IH.
  destruct Hs; [by exists PR_PROCESSING|by eexists].
Qed.

Definition unfinished (m : MessageRecord) : bool :=
  status_is PR_PENDING m || status_is PR_PROCESSING m.

Lemma finished_done m : known_status m -> unfinished m = false -> job_done m.
Proof.
  intros [s Hs]. unfold unfinished, status_is, job_done. rewrite Hs.
  destruct s; [|by vm_compute|by left|by right]. by vm_compute.
Qed.

Section rounds.
Context `{UL : UCDLaws} `{SqlEngine} `{RedisServer} `{Env} `{RowLocks}.
Context `{E : !ResponseEngine} `{!EngineLaws E}.
Variables (lock_ttl timeout max_attempts : Z) (tools : option BuenPickReader).
Hypothesis tools_frame : forall reader, tools = Some reader -> ReaderFrame reader.
Variable adapter : DeliveryRequest -> M DeliveryResult.
Hypothesis adapter_db : forall request, keeps_db (=) (adapter request).

Abbreviation process := (process_once lock_ttl timeout max_attempts tools adapter).

Lemma adapter_same_messages r : keeps_db same_db_messages (adapter r).
Proof. apply keeps_db_eq, adapter_db. apply _. Qed.

Lemma adapter_ledger r : keeps_db ledger_progress (adapter r).
Proof. apply keeps_db_eq, adapter_db. apply _. Qed.

Lemma adapter_events r : keeps_db events_progress (adapter r).
Proof. apply keeps_db_eq, adapter_db. apply _. Qed.

Lemma process_ledger : keeps_db ledger_progress process.
Proof.
  apply process_once_ledger; [exact tools_frame|exact adapter_ledger].
Qed.

Lemma process_events : keeps_db events_progress process.
Proof.
  unfold process_once, process_job, answer_job, settle_job, job_failed, complete, fail.
  repeat lazymatch goal with
  | |- keeps _ (claim_next _) => apply claim_next_told
  | |- keeps _ (respond_persisted _ _ _ _ _) => apply respond_persisted_keeps;
      [exact tools_frame|apply _|intros; apply record_outbound_told|apply request_told]
  | |- keeps _ (send _ _ _) => apply send_keeps;
      [apply _|apply claim_told|apply adapter_events|intros; apply finalize_told]
  | |- keeps _ (_transition _ _ _ _) => apply transition_told
  | _ => keeps_step
  end.
Qed.

Lemma process_progress w : rounds_progress (w_db w) (w_db (process w).2).
Proof.
  split; [apply (process_ledger w)|]. split; [apply (process_events w)|].
  pose proof (process_events w) as [_ Hevd]. destruct (process w) as [r w'] eqn:Hp. cbn [snd] in *.
  apply process_inv in Hp as [[_ Hd]|(job & w1 & m & o & w2 & Hc & Ha & Hm & _ & Hat & Hend)];
    [rewrite Hd; by apply rounds_progress_same| |done|apply adapter_same_messages].
  destruct (claim_jobs _ _ _ _ Hc) as (m0 & c & Hm0 & _ & He & _ & Hjob). rewrite Hm in Hm0. injection Hm0 as <-.
  apply eligible_status in He as [_ Hst]. set (t := clock (w_tick w)) in *.
  assert (rtc job_step m (mark_claimed t m)) as Hstep by by apply rtc_once, job_claimed.
  intros k m0 Hk. assert (exists m', jobs (w_db w') = <[ci_message_record_id job := m']> (jobs (w_db w)) /\
    m_external_message_id m' = m_external_message_id m /\ rtc job_step m m' /\
    (status_is PR_COMPLETED m' = true -> evented (w_db w) -> reply_accepted (m_external_message_id m) (w_db w')))
    as (m' & Hput & Hext & Hsteps & Hacc).
  { destruct Hend as [(_ & st & err & av & Hending & Hput)|(_ & Hput)]; eexists; (split; [exact Hput|]);
      (split; [done|]); [|by split].
    split; [etrans; [exact Hstep|]; apply rtc_once; constructor; [done|by destruct Hending]|].
    intros Hcomp Hev. destruct Hending as [result -> Hprov| |]; [|by vm_compute in Hcomp..].
    destruct (answer_recorded lock_ttl tools adapter adapter_ledger _ _ _ _ Ha Hprov)
      as (id & row & Hrow & Hkey & Hs).
    apply claimed_fields in Hjob as (_ & _ & _ & _ & _ & Hmid & _). cbn in Hmid.
    rewrite <- Hat in Hrow. exists id, row. rewrite Hkey, Hmid. unfold reply_key.
    rewrite removeprefix_app, startswith_app. split_and!; try done. by apply (Hevd Hev id row (dres_status result)). }
  rewrite Hput. destruct (decide (k = ci_message_record_id job)) as [->|Hne].
  - rewrite Hm in Hk. injection Hk as <-. rewrite lookup_insert_eq. exists m'. split_and!; try done.
    intros Hcs. right. by apply Hacc.
  - rewrite lookup_insert_ne by done. exists m0. split_and!; try done. by left.
Qed.

(** *** Rounds with pauses *)

(** Everything that is not ended is due: what was scheduled or claimed lies far
    enough in the past, and no other session holds its row. *)
Definition all_due (w : World) : Prop :=
  forall k m, jobs (w_db w) !! k = Some m -> unfinished m = true -> due timeout w k m.

(** [n] rounds of the worker.  Before each one it waits until everything that
    is not ended is due; meanwhile anything may change but the database. *)
Inductive patient_rounds : nat -> World -> World -> Prop :=
| no_round w : patient_rounds 0 w w
| one_round n w w1 w' :
    w_db w1 = w_db w -> all_due w1 -> patient_rounds n (process w1).2 w' ->
    patient_rounds (S n) w w'.

Lemma patient_progress n w w' : patient_rounds n w w' -> rounds_progress (w_db w) (w_db w').
Proof.
  induction 1 as [w|n w w1 w' Hw1 _ _ IH]; [done|]. etrans; [|exact IH]. rewrite <- Hw1. apply process_progress.
Qed.

(** Waiting makes everything due. *)
Lemma job_deadlines (jobs : gmap Z MessageRecord) : exists t, forall k m, jobs !! k = Some m ->
  default 0 (m_processing_available_at m) <= t /\ default 0 (m_processing_claimed_at m) + timeout * second <= t.
Proof.
  induction jobs as [|k m jobs Hk [t IH]] using map_ind; [by exists 0|].
  exists (Z.max t (Z.max (default 0 (m_processing_available_at m))
                         (default 0 (m_processing_claimed_at m) + timeout * second))).
  intros k' m' [[<- <-]|[_ Hk']]%lookup_insert_Some; [lia|]. specialize (IH k' m' Hk'). lia.
Qed.

Hypothesis time_passes : forall t, exists n, t <= clock n /\ forall k, row_locked (S n) k = false.

Lemma everything_becomes_due w :
  scheduled_wf (w_db w) -> exists w1, w_db w1 = w_db w /\ all_due w1.
Proof.
  intros Hq. destruct (job_deadlines (jobs (w_db w))) as [t Ht]. destruct (time_passes t) as (n & Hn & Hl).
  exists (mkWorld _ _ (w_db w) (w_redis w) (w_lifecycle w) (w_io w) (w_next_id w) n). split; [done|].
  intros k m Hjob Hu. cbn [w_db] in Hjob. pose proof Hjob as [Hk Hs]%lookup_jobs. split; [done|].
  split; [|by apply Hl]. cbn [w_tick]. specialize (Ht k m Hjob).
  destruct (Hq k m Hk Hs) as [Hdir Hcase]. unfold eligible. rewrite (bool_decide_eq_true_2 _ Hdir). cbn [andb].
  apply orb_true_iff. rewrite !andb_true_iff.
  destruct Hcase as [[Hp [t' Ha]]|[[Hp [t' Ha]]|Hd]]; [left|right|].
  - split; [done|]. rewrite Ha in *. cbn in *. apply Z.leb_le. lia.
  - split; [done|]. rewrite Ha in *. cbn in *. apply Z.leb_le. lia.
  - exfalso. unfold unfinished, status_is in Hu. destruct Hd as [Hd|Hd]; rewrite Hd in Hu; by vm_compute in Hu.
Qed.

(** So the worker can be patient. *)
Lemma patience_possible n w : scheduled_wf (w_db w) -> exists w', patient_rounds n w w'.
Proof.
  revert w. induction n as [|n IH]; intros w Hq; [exists w; constructor|].
  destruct (everything_becomes_due w Hq) as (w1 & Hw1 & Hdue).
  destruct (IH (process w1).2) as [w' Hw'].
  - apply (process_once_schedule lock_ttl timeout max_attempts tools tools_frame adapter adapter_db w1).
    by rewrite Hw1.
  - exists w'. by apply (one_round n w w1 w').
Qed.

Lemma work_member d k m : jobs d !! k = Some m -> job_work max_attempts m <= work max_attempts d.
Proof.
  intros Hk. unfold work. rewrite <- (insert_delete_id (jobs d) k m Hk).
  rewrite map_fold_insert_L by (try (intros; lia); apply lookup_delete_eq).
  assert (forall ms : gmap Z MessageRecord, 0 <= map_fold (fun _ m n => job_work max_attempts m + n) 0 ms) as Hn.
  { intros ms. apply (map_fold_weak_ind (fun n _ => 0 <= n)); [lia|].
    intros _ x xs n _ Hn. pose proof (job_work_nonneg max_attempts x). lia. }
  specialize (Hn (delete k (jobs d))). lia.
Qed.

Lemma unfinished_work m : unfinished m = true -> 1 <= job_work max_attempts m.
Proof. unfold unfinished, job_work. intros ->. lia. Qed.

Lemma no_work_finished d k m : work max_attempts d <= 0 -> jobs d !! k = Some m -> unfinished m = false.
Proof.
  intros Hw Hk%work_member. destruct (unfinished m) eqn:Hu; [|done]. apply unfinished_work in Hu. lia.
Qed.

(** No unfinished job, no work. *)
Lemma finished_work d :
  (forall k m, jobs d !! k = Some m -> unfinished m = false) -> work max_attempts d = 0.
Proof.
  intros Hf. assert (map_Forall (fun _ m => unfinished m = false) (jobs d)) as Hall by exact Hf.
  revert Hall. unfold work. generalize (jobs d). intros ms.
  induction ms as [|k m ms Hk IH] using map_ind; [done|]. intros Hall.
  apply map_Forall_insert in Hall as [Hm Hms]; [|done].
  rewrite map_fold_insert_L by (try (intros; lia); done). rewrite (IH Hms).
  unfold job_work. unfold unfinished in Hm. by rewrite Hm.
Qed.

Hypothesis adapter_ok : forall req w x w', adapter req w = (Ok x, w') -> contract_ok x = true.
Hypothesis up : forall n, db_up n = true.

(** One round: something was due, and some work was done; or nothing is left. *)
Lemma round_works w :
  queue_wf (w_db w) -> all_due w ->
  work max_attempts (w_db (process w).2) <= Z.max 0 (work max_attempts (w_db w) - 1).
Proof.
  intros Hq Hdue. destruct (process w) as [r w'] eqn:Hp. cbn [snd].
  pose proof (run_work lock_ttl timeout max_attempts tools tools_frame adapter adapter_same_messages w r w' Hp) as Hw.
  destruct (run_up lock_ttl timeout max_attempts tools tools_frame adapter adapter_same_messages w up Hq adapter_ok)
    as ([job|] & w1 & Hc & Hrun).
  - destruct Hrun as [w2 Hrun]. rewrite Hp in Hrun. injection Hrun as -> ->.
    rewrite decide_True in Hw by done. lia.
  - rewrite Hp in Hrun. injection Hrun as -> ->. apply claim_ok_inv in Hc as [Hnone Hd].
    rewrite finished_work; [lia|]. rewrite Hd. intros k m Hk. apply not_true_iff_false. intros Hu.
    destruct (due_listed timeout w k m Hq (Hdue k m Hk Hu)) as (c & Hin). rewrite Hnone in Hin.
    by apply elem_of_nil in Hin.
Qed.

Lemma patient_works n w w' :
  queue_wf (w_db w) -> patient_rounds n w w' ->
  work max_attempts (w_db w') <= Z.max 0 (work max_attempts (w_db w) - Z.of_nat n).
Proof.
  intros Hq Hr. revert Hq. induction Hr as [w|n w w1 w' Hw1 Hdue _ IH]; intros Hq; [lia|]. rewrite <- Hw1 in Hq |- *.
  pose proof (round_works w1 Hq Hdue) as Hone.
  pose proof (process_once_queue lock_ttl timeout max_attempts tools tools_frame adapter adapter_db
    adapter_ok w1 Hq) as Hq'. specialize (IH Hq'). lia.
Qed.
End rounds.

(** ** What a request does to the jobs *)

Section requests.
Context `{JsonLoads} `{LaxInt} `{UCD} `{SqlEngine} `{RedisServer} `{Env}.
Context `{E : !ResponseEngine} `{!EngineLaws E}.

(** Stored messages stay as they are, attempts only move forward, and events tell
    of them. *)
Definition standing : relation Db := fun d d' =>
  messages_kept d d' /\ ledger_progress d d' /\ events_progress d d'.
#[export] Instance standing_preorder : PreOrder standing.
Proof.
  split; unfold standing; [done|]. intros d1 d2 d3 (Hm1 & Hl1 & He1) (Hm2 & Hl2 & He2). split_and!; by etrans.
Qed.

Lemma keeps_standing {A} (m : M A) :
  keeps_db messages_kept m -> keeps_db ledger_progress m -> keeps_db events_progress m -> keeps_db standing m.
Proof. intros Hm Hl He w. split; [apply Hm|]. split; [apply Hl|apply He]. Qed.

(** A job that stays as it is makes no step. *)
Lemma standing_progress d d' : standing d d' -> rounds_progress d d'.
Proof.
  intros (Hm & Hl & He). split; [exact Hl|]. split; [exact He|]. intros k m [Hk Hs]%lookup_jobs. exists m.
  split; [by apply lookup_jobs; split; [apply Hm|]|]. split_and!; try done. by left.
Qed.

Lemma send_message_standing configured lock_ttl tools request :
  (forall reader, tools = Some reader -> ReaderFrame reader) ->
  keeps_db standing (send_message configured lock_ttl tools request).
Proof.
  intros Ht. apply send_message_keeps; [exact Ht|apply _|..]; intros; apply keeps_standing.
  - apply record_inbound_kept.
  - apply same_attempts_progress, record_inbound_attempts.
  - apply record_inbound_told.
  - apply record_outbound_kept.
  - apply same_attempts_progress, record_outbound_attempts.
  - apply record_outbound_told.
  - apply request_kept.
  - apply same_attempts_progress, request_attempts.
  - apply request_told.
Qed.

Lemma apply_callback_kept cb : keeps_db messages_kept (apply_callback cb).
Proof. intros w k m Hk. by rewrite apply_callback_messages. Qed.

Lemma ingest_standing ttl events : keeps_db standing (ingest ttl events).
Proof.
  apply keeps_standing; unfold ingest, store_messages, store_message, apply_status;
    repeat first
    [ apply record_inbound_kept | apply same_attempts_progress, record_inbound_attempts
    | apply record_inbound_told
    | apply keeps_apply_callback | apply apply_callback_kept | apply apply_callback_told
    | solve [apply keeps_db_eq, dedup_claim_db; apply _] | keeps_step ].
Qed.
End requests.

(** ** From the webhook to the end *)

Section end_to_end.
Context `{JsonLoads} `{LaxInt} `{UL : UCDLaws} `{SqlEngine} `{RedisServer} `{Env} `{RowLocks}.
Context `{E : !ResponseEngine} `{!EngineLaws E}.
Variables (configured : bool) (lock_ttl dedup_ttl timeout max_attempts : Z) (tools : option BuenPickReader).
Hypothesis tools_frame : forall reader, tools = Some reader -> ReaderFrame reader.
Variables app_secret expected_waba_id expected_phone_number_id : option str.
Variable ingress_ready : bool.
Variable adapter : DeliveryRequest -> M DeliveryResult.
Hypothesis adapter_db : forall request, keeps_db (=) (adapter request).
Hypothesis adapter_ok : forall req w x w', adapter req w = (Ok x, w') -> contract_ok x = true.

Abbreviation traffic := (rtc (IntegrityLaws.step configured lock_ttl dedup_ttl timeout max_attempts tools
  app_secret expected_waba_id expected_phone_number_id ingress_ready adapter)).

Lemma traffic_progress w w' : traffic w w' -> rounds_progress (w_db w) (w_db w').
Proof.
  induction 1 as [w|w w1 w' Hs _ IH]; [done|]. etrans; [|exact IH].
  destruct Hs; [|apply rounds_progress_same; symmetry; apply (history_db configured id w)| |by apply process_progress].
  - by apply standing_progress, send_message_standing.
  - apply standing_progress. apply webhook_keeps; [apply _|]. intros. apply ingest_standing.
Qed.

Lemma webhook_events_progress body signature : keeps_db events_progress
  (Api.receive app_secret expected_waba_id expected_phone_number_id ingress_ready dedup_ttl body signature).
Proof. apply webhook_keeps; [apply _|]. intros events _ w. apply ingest_standing. Qed.

(** Every message of an acknowledged webhook reaches an end.  While the
    database answers, whatever other requests and rounds come in between, and
    when the worker then polls again once what is scheduled is due, as many
    rounds as the queue holds attempts end every job, whatever the model, the
    API and the provider answer: each message of the webhook that was not stored
    before is then completed or failed, and a completed one has its reply
    accepted by the provider, recorded under its key with an event that says so. *)
Lemma webhook_messages_end body signature w r w1 w2 n w' :
  (forall n, db_up n = true) -> queue_wf (w_db w) -> evented (w_db w) ->
  Api.receive app_secret expected_waba_id expected_phone_number_id ingress_ready dedup_ttl
    body signature w = (Ok r, w1) ->
  traffic w1 w2 ->
  patient_rounds lock_ttl timeout max_attempts tools adapter n w2 w' ->
  work max_attempts (w_db w2) <= Z.of_nat n ->
  (forall k m, jobs (w_db w') !! k = Some m -> unfinished m = false) /\
  exists events, webhook_events expected_waba_id expected_phone_number_id body = Ok events /\
    forall m, m ∈ we_messages events -> ~ known_message (im_message_id m) w ->
      exists k row, messages (w_db w') !! k = Some row /\
        m_external_message_id row = Some (im_message_id m) /\ job_done row /\
        (status_is PR_COMPLETED row = true -> reply_accepted (Some (im_message_id m)) (w_db w')).
Proof.
  intros up Hq Hevd Hrec Hw2 Hrounds Hn.
  pose proof (webhook_events_progress body signature w) as [_ Hevd1]. rewrite Hrec in Hevd1. specialize (Hevd1 Hevd).
  pose proof (webhook_queue dedup_ttl app_secret expected_waba_id expected_phone_number_id ingress_ready
    body signature w Hq) as Hq1. rewrite Hrec in Hq1. cbn [snd] in Hq1.
  apply (queue_always_claimable configured lock_ttl dedup_ttl timeout max_attempts tools tools_frame
    app_secret expected_waba_id expected_phone_number_id ingress_ready adapter adapter_db adapter_ok
    w1 w2) in Hq1; [|exact Hw2].
  assert (forall k m, jobs (w_db w') !! k = Some m -> unfinished m = false) as Hend.
  { intros k m. apply (no_work_finished max_attempts).
    pose proof (patient_works lock_ttl timeout max_attempts tools tools_frame adapter adapter_db
      adapter_ok up n w2 w' Hq1 Hrounds). lia. }
  split; [exact Hend|]. apply receive_ok_inv in Hrec as (events & Hev & Hi). exists events.
  split; [done|]. intros m Hm Hnew.
  destruct (ingest_enqueues _ _ _ _ _ _ Hi Hm Hnew) as (k & row & Hrow & He & Hp).
  assert (jobs (w_db w1) !! k = Some row) as Hjob by (apply lookup_jobs; split; [done|by rewrite Hp]).
  assert (rounds_progress (w_db w1) (w_db w')) as (_ & _ & Hprog).
  { etrans; [by apply traffic_progress|].
    by apply (patient_progress lock_ttl timeout max_attempts tools tools_frame adapter adapter_db n). }
  destruct (Hprog k row Hjob) as (row' & Hjob' & He' & Hsteps & Hacc). exists k, row'.
  split; [by apply lookup_jobs in Hjob' as [? _]|]. split; [congruence|]. split.
  - apply finished_done; [|by eapply Hend]. eapply known_status_steps; [exact Hsteps|]. by exists PR_PENDING.
  - intros [Hc|Hr]%Hacc; [|rewrite <- He; by apply Hr]. exfalso. apply bool_decide_eq_true in Hc.
    rewrite Hp in Hc. by vm_compute in Hc.
Qed.
End end_to_end.

(** ** Evaluations *)

(** [all_due], computed. *)
Definition all_dueb `{SqlEngine} `{RedisServer} `{Env} `{RowLocks} (timeout : Z) (w : World) : bool :=
  let t := clock (w_tick w) in
  forallb (fun kr : Z * MessageRecord => negb (unfinished kr.2) ||
      (eligible t (t - timeout * second) kr.2 && negb (row_locked (S (w_tick w)) kr.1)))
    (map_to_list (jobs (w_db w))).

Lemma all_dueb_due `{SqlEngine} `{RedisServer} `{Env} `{RowLocks} timeout w :
  all_dueb timeout w = true -> all_due timeout w.
Proof.
  unfold all_dueb. rewrite forallb_forall. intros Hall k m Hk Hu.
  specialize (Hall (k, m)). cbn in Hall. rewrite Hu in Hall. cbn [negb orb] in Hall.
  pose proof Hk as Hin. apply elem_of_map_to_list, list_elem_of_In, Hall in Hin. bools.
  split; [by apply lookup_jobs in Hk as [? _]|done].
Qed.

Section concrete.
#[local] Existing Instances lax_int_default latin1_ucd latin1_laws map_engine scheduled_server no_locks.

(** Every tick is a second. *)
#[local] Instance seconds_env : Env := {|
  clock n := 1700000000000000 + second * Z.of_nat n;
  perf_counter n := second * Z.of_nat n;
  db_up _ := true;
  transport _ _ := HTimeout;
  token_urlsafe _ := replicate 43 65
|}.
#[local] Instance greeting_engine : ResponseEngine := ComposerEngine friendly_adapter (u "sys").
#[local] Instance greeting_laws : EngineLaws greeting_engine :=
  composer_engine_laws friendly_adapter (u "sys") friendly_db.

(** A payload with one text message, the decoding of the body [{}]. *)
Definition text_payload : list (str * json) :=
  [(u "object", JStr (u "whatsapp_business_account"));
   (u "entry", JArr [JObj [
     (u "id", JStr (u "waba-1"));
     (u "changes", JArr [JObj [
       (u "field", JStr (u "messages"));
       (u "value", JObj [
         (u "messaging_product", JStr (u "whatsapp"));
         (u "metadata", JObj [
           (u "display_phone_number", JStr (u "549"));
           (u "phone_number_id", JStr (u "phone-1"))]);
         (u "messages", JArr [JObj [
           (u "id", JStr (u "wamid.1")); (u "from", JStr (u "5491"));
           (u "timestamp", JStr (u "1700000000")); (u "type", JStr (u "text"));
           (u "text", JObj [(u "body", JStr (u "hola"))])]])])]])]])].
#[local] Instance text_loads : JsonLoads := {| json_loads _ := Ok (JObj text_payload) |}.

(** Redis fails at the second command, the lock of the first round. *)
Definition interrupted_world : World :=
  mkWorld map_engine scheduled_server sample_db (Scheduled ∅ [false; true]) [] [] 100 0.

Definition delivered_webhook : res WebhookIngestResult * World :=
  Api.receive (Some (u "secret")) None None true 3600 [123; 125] (signed [123; 125])
    interrupted_world.

Abbreviation round w := (process_once 30 60 3 no_tools checked w).2.
Definition round_1 : World := round delivered_webhook.2.
Definition round_2 : World := round round_1.
Definition round_3 : World := round round_2.

Example retried_then_completed :
  job_status delivered_webhook.2 101 = Some (Some (u "pending")) /\
  job_status round_1 101 = Some (Some (u "pending")) /\
  job_status round_2 101 = Some (Some (u "completed")).
Proof. vm_compute. done. Qed.

Lemma sample_rounds :
  patient_rounds 30 60 3 no_tools checked 3 delivered_webhook.2 round_3.
Proof.
  apply (one_round _ _ _ _ _ 2 delivered_webhook.2 delivered_webhook.2); [reflexivity| |].
  { apply all_dueb_due. vm_compute. reflexivity. }
  apply (one_round _ _ _ _ _ 1 round_1 round_1); [reflexivity| |].
  { apply all_dueb_due. vm_compute. reflexivity. }
  apply (one_round _ _ _ _ _ 0 round_2 round_2); [reflexivity| |apply no_round].
  apply all_dueb_due. vm_compute. reflexivity.
Qed.

(** The message of [delivered_webhook] is completed at its second round. *)
Lemma sample_message_ends :
  work 3 (w_db delivered_webhook.2) = 3 /\ job_status round_3 101 = Some (Some (u "completed")) /\
  reply_accepted (Some (u "wamid.1")) (w_db round_3).
Proof.
  assert (work 3 (w_db delivered_webhook.2) = 3) as Hw by (vm_compute; reflexivity).
  split; [exact Hw|]. split; [vm_compute; reflexivity|].
  assert (exists r, delivered_webhook.1 = Ok r) as [r Hr] by (vm_compute; eexists; reflexivity).
  destruct (webhook_messages_end true 30 3600 60 3 no_tools no_tools_frame (Some (u "secret")) None None true
    checked (checked_db (=)) checked_ok [123; 125] (signed [123; 125]) interrupted_world r
    delivered_webhook.2 delivered_webhook.2 3 round_3)
    as (_ & events & Hev & Hall); [intros; reflexivity| | |exact (run_fst _ interrupted_world _ Hr)|apply rtc_refl|exact sample_rounds
    |rewrite Hw; reflexivity|].
  { intros k m Hk. discriminate Hk. }
  { intros id row st Hrow. vm_compute in Hrow. discriminate Hrow. }
  assert (im_message_id <$> we_messages events = [u "wamid.1"]) as Hids.
  { assert (exists ev, webhook_events None None [123; 125] = Ok ev /\
      im_message_id <$> we_messages ev = [u "wamid.1"]) as (ev & Hev' & Hids)
      by (eexists; split; vm_compute; reflexivity).
    rewrite Hev in Hev'. injection Hev' as ->. exact Hids. }
  destruct (we_messages events) as [|m [|m' l]]; [discriminate Hids| |discriminate Hids]. injection Hids as Hid.
  destruct (Hall m) as (k & row & Hrow & He & _ & Hacc); [by left| |].
  { intros (k & x & Hk & _). vm_compute in Hk. discriminate Hk. }
  rewrite <- Hid. apply Hacc.
  assert (forallb (fun kr : Z * MessageRecord => negb (bool_decide (m_external_message_id kr.2 = Some (u "wamid.1"))) ||
      status_is PR_COMPLETED kr.2) (map_to_list (rows (db_messages (w_db round_3)))) = true) as Hc
    by (vm_compute; reflexivity).
  rewrite forallb_forall in Hc. specialize (Hc (k, row)). cbn [snd] in Hc.
  rewrite He, Hid, bool_decide_eq_true_2 in Hc by reflexivity. apply Hc.
  apply (proj1 (list_elem_of_In _ _)). apply (proj2 (elem_of_map_to_list _ k row)). exact Hrow.
Qed.
End concrete.
