(* ===== verification/Transcript.v ===== *)
(** * What the rows of the database say of each other

    Every reply, every delivery and every completed job in the database goes back
    to a message that is stored: [transcript].  No constraint of the schema says
    so; it is the order in which the turn, the worker and the delivery service
    write that makes it true, in every state that requests, webhooks and rounds
    of the worker reach ([traffic_transcript]). *)
From S2P Require Import Prelude PyStr PyRegex Errors Sha256 Uuid Contracts Grounding Prompt.
From S2P Require Import Schema Migrations Config Pydantic Events Sql Redis Models Integrity.
From S2P Require Import ModelSchema World Session Sample.
From S2P Require Import MetaWebhook Delivery DeliveryLaws DeliveryProps State Coordination.
From S2P Require Import Composition BuenPickModels BuenPick Conversations Handoffs Processing Tools.
From S2P Require Import Ingress Evidence Policies Orchestrator TurnLaws TurnProps Worker WorkerProps.
From S2P Require Import Api IntegrityLaws QueueLaws ScheduleLaws Progress.

Local Open Scope Z_scope.

#[local] Abbreviation messages d := (rows (db_messages d)).
#[local] Abbreviation attempts d := (rows (db_attempts d)).

(** ** The invariant *)

Section transcript.
Context `{SqlEngine}.

Definition inbound (m : MessageRecord) : Prop := m_direction m = u "inbound".

(** A message of the conversation with this identifier is stored. *)
Definition asked (cid : Z) (e : str) (d : Db) : Prop := exists k m,
  messages d !! k = Some m /\ inbound m /\ m_conversation_id m = cid /\ m_external_message_id m = Some e.

(** A row holds the identifier of the reply to the message. *)
Definition replied (e : str) (d : Db) : Prop := exists k m,
  messages d !! k = Some m /\ m_external_message_id m = Some (u "piki-reply:" ++ e).

(** The reply to a message of its own conversation, a text that a provider takes;
    it never enters the queue. *)
Definition reply_row (d : Db) (m : MessageRecord) : Prop := exists e text,
  asked (m_conversation_id m) e d /\ m_external_message_id m = Some (u "piki-reply:" ++ e) /\
  m_content_text m = Some text /\ 1 <= py_len text <= 4096 /\ m_processing_status m = None.

(** The delivery of a reply that is stored, to a message of the conversation. *)
Definition delivery_row (d : Db) (a : DeliveryAttemptRecord) : Prop := exists e,
  asked (a_conversation_id a) e d /\ a_idempotency_key a = u "reply:" ++ e /\ replied e d.

Record transcript (d : Db) : Prop := {
  replies_answer : forall k m, messages d !! k = Some m -> ~ inbound m -> reply_row d m;
  deliveries_reply : forall id a, attempts d !! id = Some a -> delivery_row d a;
  completed_accepted : forall k m, messages d !! k = Some m -> status_is PR_COMPLETED m = true ->
    reply_accepted (m_external_message_id m) d;
  acceptances_told : evented d
}.

(** ** What is never undone *)

Definition same_row (m m' : MessageRecord) : Prop :=
  m_conversation_id m' = m_conversation_id m /\ m_external_message_id m' = m_external_message_id m /\
  m_direction m' = m_direction m /\ m_content_text m' = m_content_text m /\
  (m_processing_status m = None -> m_processing_status m' = None).

#[export] Instance same_row_preorder : PreOrder same_row.
Proof.
  split; unfold same_row; [done|]. intros m1 m2 m3 (?&?&?&?&?) (?&?&?&?&?). split_and!; try congruence. auto.
Qed.

(** No message is lost or becomes another, no attempt and no event is lost. *)
Definition grows (d d' : Db) : Prop :=
  (forall k m, messages d !! k = Some m -> exists m', messages d' !! k = Some m' /\ same_row m m') /\
  ledger_progress d d' /\ events_progress d d'.

#[export] Instance grows_preorder : PreOrder grows.
Proof.
  split; unfold grows.
  - intros d. split; [|done]. intros k m Hk. by exists m.
  - intros d1 d2 d3 (Hm1 & Hl1 & He1) (Hm2 & Hl2 & He2). split; [|split; by etrans].
    intros k m (m2 & Hk2 & Hs2)%Hm1. destruct (Hm2 _ _ Hk2) as (m3 & Hk3 & Hs3).
    exists m3. split; [done|by etrans].
Qed.

Lemma grows_same d d' :
  db_messages d' = db_messages d -> db_attempts d' = db_attempts d -> db_events d' = db_events d -> grows d d'.
Proof.
  intros Hm Ha He. split; [|by split; [apply ledger_progress_same|apply events_progress_same]].
  intros k m Hk. exists m. by rewrite Hm.
Qed.

(** What stays true as the database grows. *)
Class Lasting (P : Db -> Prop) : Prop := lasting d d' : grows d d' -> P d -> P d'.

#[export] Instance true_lasting : Lasting (fun _ => True).
Proof. by intros d d'. Qed.
#[export] Instance and_lasting P Q : Lasting P -> Lasting Q -> Lasting (fun d => P d /\ Q d).
Proof. intros HP HQ d d' Hg [Hp Hq]. split; [by eapply HP|by eapply HQ]. Qed.

#[export] Instance asked_lasting cid e : Lasting (asked cid e).
Proof.
  intros d d' [Hm _] (k & m & Hk & Hi & Hc & He). destruct (Hm k m Hk) as (m' & Hk' & Hs1 & Hs2 & Hs3 & _).
  exists k, m'. unfold inbound in *. split_and!; congruence.
Qed.
#[export] Instance replied_lasting e : Lasting (replied e).
Proof.
  intros d d' [Hm _] (k & m & Hk & He). destruct (Hm k m Hk) as (m' & Hk' & _ & Hs & _).
  exists k, m'. split; congruence.
Qed.
#[export] Instance accepted_lasting e : Lasting (reply_accepted e).
Proof. intros d d' (_ & Hl & He) Ha. by eapply reply_accepted_progress. Qed.

(** A row with the identifier. *)
Definition row_of (id : Z) (e : str) (d : Db) : Prop := exists m,
  messages d !! id = Some m /\ m_external_message_id m = Some e.
#[export] Instance row_of_lasting id e : Lasting (row_of id e).
Proof.
  intros d d' [Hm _] (m & Hk & He). destruct (Hm id m Hk) as (m' & Hk' & _ & Hs & _). exists m'. split; congruence.
Qed.

(** ** How it is kept *)

Lemma reply_row_grows d d' m m' : grows d d' -> same_row m m' -> reply_row d m -> reply_row d' m'.
Proof.
  intros Hg (Hc & He & _ & Ht & Hst) (e & text & Ha & Hext & Htext & Hlen & Hn).
  exists e, text. rewrite Hc, He, Ht. split_and!; [by eapply asked_lasting|done|done|apply Hlen|apply Hlen|by apply Hst].
Qed.

(** A row of [d'] comes from [d], is a message, or is a reply. *)
Definition row_accounted (d d' : Db) (k : Z) (m' : MessageRecord) : Prop :=
  (exists m, messages d !! k = Some m /\ same_row m m' /\
     (status_is PR_COMPLETED m' = true ->
        status_is PR_COMPLETED m = true \/ reply_accepted (m_external_message_id m') d')) \/
  (inbound m' /\ status_is PR_COMPLETED m' = false) \/
  (reply_row d' m').

Definition attempt_accounted (d d' : Db) (id : Z) (a' : DeliveryAttemptRecord) : Prop :=
  (exists a, attempts d !! id = Some a /\ a_conversation_id a' = a_conversation_id a /\
     a_idempotency_key a' = a_idempotency_key a) \/
  delivery_row d' a'.

Lemma transcript_grows d d' :
  grows d d' ->
  (forall k m', messages d' !! k = Some m' -> row_accounted d d' k m') ->
  (forall id a', attempts d' !! id = Some a' -> attempt_accounted d d' id a') ->
  transcript d -> transcript d'.
Proof.
  intros Hg Hrows Hatts [Hr Hd Hc He]. split.
  - intros k m' Hk Hn. destruct (Hrows k m' Hk) as [(m & Hm & Hs & _)|[[Hi _]|Hrep]]; [|done|done].
    eapply reply_row_grows; [exact Hg|exact Hs|]. apply (Hr k m Hm). unfold inbound in *.
    destruct Hs as (_ & _ & Hdir & _). congruence.
  - intros id a' Ha'. destruct (Hatts id a' Ha') as [(a & Ha & Hcid & Hkey)|]; [|done].
    destruct (Hd id a Ha) as (e & Hask & Hk & Hrep). exists e. rewrite Hcid, Hkey.
    split_and!; [by eapply asked_lasting|done|by eapply replied_lasting].
  - intros k m' Hk Hcomp. destruct (Hrows k m' Hk) as [(m & Hm & Hs & Hst)|[[_ Hnc]|Hrep]]; [|congruence|].
    + destruct (Hst Hcomp) as [Hcm|]; [|done]. destruct Hs as (_ & -> & _).
      eapply accepted_lasting; [exact Hg|by eapply Hc].
    + destruct Hrep as (e & text & _ & _ & _ & _ & Hn). unfold status_is in Hcomp. by rewrite Hn in Hcomp.
  - destruct Hg as (_ & _ & _ & Hev). auto.
Qed.

(** The writes of an operation that is run when [P] holds. *)
Definition recorded (P : Db -> Prop) : relation Db := fun d d' =>
  grows d d' /\ (P d -> transcript d -> transcript d').

#[export] Instance recorded_preorder P `{!Lasting P} : PreOrder (recorded P).
Proof.
  split; unfold recorded; [done|]. intros d1 d2 d3 [Hg1 H1] [Hg2 H2].
  split; [by etrans|]. intros Hp Ht. apply H2; [by eapply lasting|auto].
Qed.

Lemma recorded_weaken (P Q : Db -> Prop) d d' : (Q d -> transcript d -> P d) -> recorded P d d' -> recorded Q d d'.
Proof. intros HPQ [Hg Ht]. split; auto. Qed.

Lemma row_same d d' k m : messages d !! k = Some m -> row_accounted d d' k m.
Proof. intros Hk. left. exists m. split; [done|]. split; [done|]. auto. Qed.

Lemma attempt_same d d' id a : attempts d !! id = Some a -> attempt_accounted d d' id a.
Proof. intros Hk. left. by exists a. Qed.

Lemma recorded_same P d d' :
  db_messages d' = db_messages d -> db_attempts d' = db_attempts d -> db_events d' = db_events d -> recorded P d d'.
Proof.
  intros Hm Ha He. split; [by apply grows_same|]. intros _. apply transcript_grows; [by apply grows_same|..].
  - intros k m. rewrite Hm. apply row_same.
  - intros id a. rewrite Ha. apply attempt_same.
Qed.

(** A message row is added, or one changes. *)
Lemma recorded_put P d (tb : table MessageRecord) k (m' : MessageRecord) :
  rows tb = <[k := m']> (messages d) ->
  (forall m, messages d !! k = Some m -> same_row m m') ->
  (grows d (set_tbl tb d) -> P d -> transcript d -> row_accounted d (set_tbl tb d) k m') ->
  recorded P d (set_tbl tb d).
Proof.
  intros Hr Hsame Hacc. assert (grows d (set_tbl tb d)) as Hg.
  { split; [|split; [by apply ledger_progress_same|by apply events_progress_same]].
    intros k0 m0 Hk0. change (messages (set_tbl tb d)) with (rows tb). rewrite Hr.
    destruct (decide (k0 = k)) as [->|Hne].
    - rewrite lookup_insert_eq. exists m'. split; [done|by apply Hsame].
    - rewrite lookup_insert_ne by done. by exists m0. }
  split; [exact Hg|]. intros Hp Ht. apply (transcript_grows d); [exact Hg|..|exact Ht].
  - intros k0 m0 Hk0. change (messages (set_tbl tb d)) with (rows tb) in Hk0. rewrite Hr in Hk0.
    apply lookup_insert_Some in Hk0 as [[<- <-]|[_ Hk0]]; [by apply Hacc|by apply row_same].
  - intros id a Ha. by apply attempt_same.
Qed.

(** The delivery tables change, and the messages do not. *)
Lemma recorded_ledger P d d' :
  db_messages d' = db_messages d -> ledger_progress d d' -> events_progress d d' ->
  (P d -> forall id a', attempts d' !! id = Some a' -> attempt_accounted d d' id a') ->
  recorded P d d'.
Proof.
  intros Hm Hl He Hatts. assert (grows d d') as Hg.
  { split; [|by split]. intros k m Hk. exists m. by rewrite Hm. }
  split; [exact Hg|]. intros Hp. apply transcript_grows; [exact Hg| |by apply Hatts].
  intros k m. rewrite Hm. apply row_same.
Qed.
End transcript.

(** ** The operations *)

Section operations.
Context `{SqlEngine} `{RedisServer} `{Env}.
Context (P : Db -> Prop) `{!Lasting P}.

Ltac other_table := apply set_tbl_frame; [apply _|intros ? ?; by apply recorded_same].
Ltac recorded_step := first [ other_table | keeps_step ].

(** A bind whose second part uses what the first established. *)
Lemma keeps_bind_post {A B} (m : M A) (f : A -> M B) :
  keeps_db (recorded P) m ->
  (forall w a w', m w = (Ok a, w') -> recorded P (w_db w') (w_db (f a w').2)) ->
  keeps_db (recorded P) (m ≫= f).
Proof.
  intros Hm Hf w. unfold db_rel. rewrite bind_run. specialize (Hm w). unfold db_rel in Hm.
  destruct (m w) as [[a|e] w'] eqn:Hr; [|exact Hm]. etrans; [exact Hm|]. by apply (Hf w).
Qed.

Lemma insert_recorded (a un : MessageRecord -> MessageRecord -> bool) fk k mk :
  (forall d d' t, grows d d' -> P d -> row_accounted d d' k (mk t)) ->
  keeps_db (recorded P) (insert_row a un fk k mk).
Proof.
  intros Hacc w. unfold db_rel. destruct (insert_effect a un fk k mk w) as [->|(t & tb & -> & Hk & Hr)]; [done|].
  apply (recorded_put P _ tb k (mk t)); [exact Hr| |auto].
  intros m Hm. change (messages (w_db w) !! k = None) in Hk. congruence.
Qed.

Lemma record_inbound_recorded acct message trace enqueue :
  keeps_db (recorded P) (record_inbound acct message trace enqueue).
Proof.
  unfold record_inbound. apply keeps_bind; [apply _|apply keeps_db_uuid4, _|]. intros k.
  apply keeps_bind; [apply _|other_table|]. intros ids.
  apply keeps_bind; [apply _|apply keeps_lift, _|]. intros cid.
  apply keeps_bind; [apply _|apply keeps_db_uuid4, _|]. intros mid.
  apply keeps_bind; [apply _|destruct enqueue; keeps_auto|]. intros av.
  apply keeps_bind; [apply _| |intros [|]; apply keeps_lift, _].
  apply insert_recorded. intros d d' t _ _. right. left. split; [done|]. by destruct av.
Qed.

Lemma record_outbound_recorded cid text trace e :
  (forall d, P d -> asked cid e d) -> 1 <= py_len text <= 4096 ->
  keeps_db (recorded P) (record_outbound cid text trace (u "piki-reply:" ++ e)).
Proof.
  intros HP Hlen. unfold record_outbound. apply keeps_bind; [apply _|apply keeps_db_uuid4, _|]. intros k.
  apply keeps_bind; [apply _| |intros [|]; keeps_auto].
  apply insert_recorded. intros d d' t Hg Hp. right. right. exists e, text.
  split; [|by repeat split; apply Hlen]. eapply asked_lasting; [exact Hg|by apply HP].
Qed.

Lemma request_recorded r : keeps_db (recorded P) (request r).
Proof. unfold request. repeat recorded_step. Qed.

(** A claim under the key of a reply that is stored. *)
Lemma claim_recorded cid req e :
  (forall d, P d -> asked cid e d /\ replied e d) -> dr_idempotency_key req = u "reply:" ++ e ->
  keeps_db (recorded P) (claim cid req).
Proof.
  intros HP Hkey w. unfold db_rel. pose proof (keeps_claim cid req w) as Hl. pose proof (claim_told cid req w) as He.
  unfold db_rel in Hl, He. pose proof (claim_cases cid req w) as Hc.
  destruct (claim cid req w) as [[c|x] w']; cbn [snd] in *; [|by rewrite Hc].
  inversion Hc as [id t snap d' Hid _ Ha _ (_ & Hm & _) _|]; subst; [|done].
  apply recorded_ledger; [exact Hm|exact Hl|exact He|]. intros [Hask Hrep]%HP id' a' Ha'. rewrite Ha in Ha'.
  apply lookup_insert_Some in Ha' as [[<- <-]|[_ Ha']]; [right|by apply attempt_same].
  assert (grows (w_db w) (w_db w')) as Hg.
  { split; [|by split]. intros k m Hk. exists m. by rewrite Hm. }
  exists e. split_and!; [by eapply asked_lasting|done|by eapply replied_lasting].
Qed.

Lemma finalize_recorded id result : keeps_db (recorded P) (finalize id result).
Proof.
  intros w. unfold db_rel. pose proof (keeps_finalize id result w) as Hl. pose proof (finalize_told id result w) as He.
  unfold db_rel in Hl, He. destruct (finalize id result w) as [[a|x] w'] eqn:Hf; cbn [snd] in *.
  - apply finalize_run in Hf as (r & t & k & e & Hr & _ & Ha & _ & _ & _ & _ & _ & (_ & Hm & _)).
    apply recorded_ledger; [exact Hm|exact Hl|exact He|]. intros _ id' a' Ha'. rewrite Ha in Ha'.
    apply lookup_insert_Some in Ha' as [[<- <-]|[_ Ha']]; [left; by exists r|by apply attempt_same].
  - by rewrite (session_raise_db _ _ _ _ Hf).
Qed.

Lemma apply_callback_recorded cb : keeps_db (recorded P) (apply_callback cb).
Proof.
  intros w. unfold db_rel. pose proof (keeps_apply_callback cb w) as Hl. pose proof (apply_callback_told cb w) as He.
  unfold db_rel in Hl, He. pose proof (apply_callback_cases cb w) as Hc.
  destruct (apply_callback cb w) as [r w']. cbn [snd] in *.
  destruct Hc as [[-> _]|(st & tr & Hc & _)]; [done|].
  apply recorded_ledger; [by apply callback_effect_messages in Hc|exact Hl|exact He|]. intros _ id a' Ha'.
  inversion Hc as [| |id0 r0 c k e d' _ _ _ _ _ _ _ Ha|id0 r0 c target t k e d' (Hr & _) _ _ _ _ _ _ _ Ha]; subst.
  1-2: apply attempt_same; congruence.
  - rewrite Ha in Ha'. by apply attempt_same.
  - rewrite Ha in Ha'. apply lookup_insert_Some in Ha' as [[<- <-]|[_ Ha']]; [left; by exists r0|by apply attempt_same].
Qed.

(** A claim of the queue. *)
Lemma claim_next_recorded `{RowLocks} timeout : keeps_db (recorded P) (claim_next timeout).
Proof.
  intros w. unfold db_rel. destruct (claim_next timeout w) as [[[job|]|x] w'] eqn:Hc; cbn [snd].
  - apply claim_ok_inv in Hc as (id & m & c & l & tb & Hdue & _ & -> & Hr).
    assert ((id, m, c) ∈ (id, m, c) :: l) as Hin by by left. rewrite <- Hdue in Hin.
    apply elem_of_due in Hin as (Hm & He & _).
    assert (same_row m (mark_claimed (clock (w_tick w)) m)) as Hs.
    { split_and!; try done. intros Hn. unfold eligible, status_is in He. rewrite Hn in He.
      rewrite (bool_decide_eq_false_2 (None = _)) in He by done.
      rewrite (bool_decide_eq_false_2 (None = _)) in He by done. by destruct (bool_decide _). }
    apply (recorded_put P _ tb id (mark_claimed (clock (w_tick w)) m)); [exact Hr| |].
    + intros m0 Hm0. by assert (m0 = m) as -> by congruence.
    + intros _ _ _. left. exists m. split; [exact Hm|]. split; [exact Hs|]. by intros ?%bool_decide_eq_true.
  - apply claim_ok_inv in Hc as [_ ->]. done.
  - by rewrite (claim_raise_db _ _ _ _ Hc).
Qed.

(** The end of a job; a job is completed when its reply was accepted. *)
Lemma transition_recorded id status err av :
  (status = PR_COMPLETED -> forall d m, P d -> transcript d -> messages d !! id = Some m ->
     reply_accepted (m_external_message_id m) d) ->
  keeps_db (recorded P) (_transition id status err av).
Proof.
  intros Hend w. unfold db_rel. destruct (_transition id status err av w) as [[[]|x] w'] eqn:Ht; cbn [snd].
  - apply transition_ok_inv in Ht as (m & tb & Hm & Hst & -> & Hr).
    assert (same_row m (transitioned status err av m)) as Hs.
    { split_and!; try done. intros Hn. unfold status_is in Hst. rewrite Hn in Hst. by apply bool_decide_eq_true in Hst. }
    apply (recorded_put P _ tb id (transitioned status err av m)); [exact Hr| |].
    + intros m0 Hm0. by assert (m0 = m) as -> by congruence.
    + intros Hg Hp Htr. left. exists m. split; [exact Hm|]. split; [exact Hs|]. intros Hcomp. right.
      change (m_external_message_id (transitioned status err av m)) with (m_external_message_id m).
      eapply accepted_lasting; [exact Hg|]. apply Hend; [|exact Hp|exact Htr|exact Hm].
      apply bool_decide_eq_true in Hcomp. cbn in Hcomp. by destruct status.
  - by rewrite (session_raise_db _ _ _ _ Ht).
Qed.
End operations.

(** ** The turns *)

Section turns.
Context `{UCD} `{SqlEngine} `{RedisServer} `{Env} `{E : !ResponseEngine} `{!EngineLaws E}.
Variables (lock_ttl : Z) (tools : option BuenPickReader).
Hypothesis tools_frame : forall reader, tools = Some reader -> ReaderFrame reader.

Lemma finish_turn_recorded P `{!Lasting P} message trace cid hist :
  (forall d, P d -> asked cid (im_message_id message) d) ->
  keeps_db (recorded P) (finish_turn tools message trace cid hist).
Proof.
  intros HP. unfold finish_turn. apply keeps_bind; [apply _|apply keeps_db_emit, _|]. intros _.
  apply keeps_bind_run; [apply _|apply compose_reply_keeps; [done|apply _|intros; by apply request_recorded]|].
  intros w1 [text fb] w2 Hc. apply compose_text_fits in Hc.
  apply keeps_bind; [apply _|apply keeps_db_session; [apply _|]|intros; apply keeps_lift, _].
  by apply record_outbound_recorded.
Qed.

(** A message that was received is stored, in the conversation of the turn. *)
Lemma recorded_asked acct message trace w p w' :
  record_inbound acct message trace false w = (Ok p, w') -> pi_status p = PS_CREATED ->
  asked (pi_conversation_id p) (im_message_id message) (w_db w').
Proof.
  unfold record_inbound. intros (k & w1 & _ & Hr)%bind_ok_inv Hst.
  apply bind_ok_inv in Hr as (ids & w2 & _ & Hr). apply bind_ok_inv in Hr as (cid & w3 & _ & Hr).
  apply bind_ok_inv in Hr as (mid & w4 & _ & Hr). apply bind_ok_inv in Hr as (av & w5 & _ & Hr).
  apply bind_ok_inv in Hr as (stored & w6 & Hins & Hr).
  apply insert_ok_inv in Hins as [(r & t & -> & -> & _ & _ & _ & _ & _ & tb & Hd & Hrows)|(-> & _)].
  - apply lift_ok_inv in Hr as [Hp ->]. apply construct_ok in Hp as [_ ->]. rewrite Hd.
    exists mid, (inbound_row cid message trace av t). change (messages (set_tbl tb (w_db w5))) with (rows tb).
    by rewrite Hrows, lookup_insert_eq.
  - apply lift_ok_inv in Hr as [Hp ->]. apply construct_ok in Hp as [_ ->]. done.
Qed.

Lemma receive_asked message acct trace w cid hist w' :
  Orchestrator.receive message acct trace w = (Ok (inr (cid, hist)), w') -> asked cid (im_message_id message) (w_db w').
Proof.
  unfold Orchestrator.receive. intros (w1 & Hr & ->)%session_ok_inv. apply bind_ok_inv in Hr as (p & w2 & Hp & Hr).
  destruct (pi_status p) eqn:Hst.
  - apply bind_ok_inv in Hr as (h & w3 & Hh & Hr). apply ret_ok_inv in Hr as [[= -> ->] ->].
    pose proof (recent_messages_db (pi_conversation_id p) 20 w2) as Hd. rewrite Hh in Hd. unfold db_rel in Hd.
    cbn in *. rewrite <- Hd. by eapply recorded_asked.
  - apply bind_ok_inv in Hr as (o & w3 & _ & Hr). destruct o as [s|]; [|done]. destruct (has_text s); [|done].
    apply bind_ok_inv in Hr as (r & w4 & _ & Hr). by apply ret_ok_inv in Hr as [? _].
Qed.

Lemma respond_recorded P `{!Lasting P} message acct :
  keeps_db (recorded P) (orchestrator_respond lock_ttl tools message acct).
Proof.
  unfold orchestrator_respond. apply keeps_bind; [apply _|apply keeps_db_emit, _|]. intros _.
  apply keeps_bind; [apply _|apply keeps_lift, _|]. intros scope.
  apply keeps_bind; [apply _|apply keeps_db_eq; [apply _|apply acquire_db]|]. intros lease.
  apply keeps_bind; [apply _|apply keeps_lift, _|]. intros token.
  apply keeps_finally; [apply _| |apply keeps_db_eq; [apply _|apply release_observed_db]].
  unfold _respond_locked. apply keeps_bind_post; [apply _| |].
  - apply receive_keeps; [apply _|by apply record_inbound_recorded].
  - intros w [reply|[cid hist]] w' Hr; [done|]. apply receive_asked in Hr.
    apply (recorded_weaken (asked cid (im_message_id message))); [done|].
    by apply finish_turn_recorded; [apply _|].
Qed.

Lemma respond_persisted_recorded P `{!Lasting P} message acct cid :
  (forall d, P d -> asked cid (im_message_id message) d) ->
  keeps_db (recorded P) (respond_persisted lock_ttl tools message acct cid).
Proof.
  intros HP. unfold respond_persisted. apply keeps_bind; [apply _|apply keeps_db_emit, _|]. intros _.
  apply keeps_bind; [apply _|apply keeps_lift, _|]. intros scope.
  apply keeps_bind; [apply _|apply keeps_db_eq; [apply _|apply acquire_db]|]. intros lease.
  apply keeps_bind; [apply _|apply keeps_lift, _|]. intros token.
  apply keeps_finally; [apply _| |].
  - unfold respond_persisted_locked. apply keeps_bind; [apply _|apply keeps_db_eq; [apply _|apply recall_db]|].
    intros [reply|hist]; [apply keeps_ret, _|by apply finish_turn_recorded].
  - apply keeps_bind; [apply _|apply keeps_db_eq; [apply _|apply release_db]|]. intros. apply keeps_ret, _.
Qed.

(** A turn that returns leaves its reply in the database. *)
Lemma finish_turn_replied message trace cid hist w r w' :
  finish_turn tools message trace cid hist w = (Ok r, w') -> replied (im_message_id message) (w_db w').
Proof.
  unfold finish_turn. intros ([] & w1 & _ & Hr)%bind_ok_inv. apply bind_ok_inv in Hr as ([text fb] & w2 & _ & Hr).
  apply bind_ok_inv in Hr as (p & w3 & Ho & [_ ->]%lift_ok_inv). apply session_ok_inv in Ho as (w4 & Ho & ->).
  cbn [tick w_db]. unfold record_outbound in Ho. apply bind_ok_inv in Ho as (mid & w5 & _ & Ho).
  apply bind_ok_inv in Ho as (stored & w6 & Hins & Ho).
  apply insert_ok_inv in Hins as [(row & t & -> & -> & _ & _ & _ & _ & _ & tb & Hd & Hrows)|(-> & Hd & t & Hc)].
  - apply ret_ok_inv in Ho as [_ ->]. rewrite Hd. eexists mid, _.
    change (messages (set_tbl tb (w_db w5))) with (rows tb). by rewrite Hrows, lookup_insert_eq.
  - apply bind_ok_inv in Ho as (found & w7 & Hsel & Ho). apply select_ok_inv in Hsel as [_ Hd7].
    apply bind_ok_inv in Ho as (x & w8 & [_ ->]%lift_ok_inv & Ho). apply ret_ok_inv in Ho as [_ ->].
    rewrite Hd7, Hd. apply conflicts_true in Hc as (k & m & Hk & Hu).
    apply uq_external_true in Hu as (e & [= <-] & He). by exists k, m.
Qed.

Lemma respond_persisted_replied message acct cid w r w' :
  respond_persisted lock_ttl tools message acct cid w = (Ok r, w') -> replied (im_message_id message) (w_db w').
Proof.
  intros (scope & token & w1 & w2 & _ & _ & _ & Hl & Hrel)%respond_persisted_ok_inv.
  apply bind_ok_inv in Hrel as (st & w3 & Hrel & [_ ->]%ret_ok_inv).
  pose proof (release_db scope token w2) as Hd. rewrite Hrel in Hd. unfold db_rel in Hd. cbn in Hd. rewrite <- Hd.
  unfold respond_persisted_locked in Hl. apply bind_ok_inv in Hl as (x & w4 & [Hd4 Hx]%recall_inv & Hl).
  destruct x as [reply|hist]; [|by eapply finish_turn_replied]. apply ret_ok_inv in Hl as [_ ->]. rewrite Hd4.
  destruct Hx as (_ & k & m & Hk & He & _). by exists k, m.
Qed.
End turns.

(** ** The worker *)

Section worker.
Context `{UCD} `{SqlEngine} `{RedisServer} `{Env} `{RowLocks} `{E : !ResponseEngine} `{!EngineLaws E}.
Variables (lock_ttl timeout max_attempts : Z) (tools : option BuenPickReader).
Hypothesis tools_frame : forall reader, tools = Some reader -> ReaderFrame reader.
Variable adapter : DeliveryRequest -> M DeliveryResult.
Hypothesis adapter_db : forall request, keeps_db (=) (adapter request).

Lemma ledger_of_adapter request : keeps_db ledger_progress (adapter request).
Proof. apply keeps_db_eq, adapter_db. apply _. Qed.

(** What a claim establishes. *)
Definition job_stored (job : ClaimedInbound) (d : Db) : Prop :=
  asked (ci_conversation_record_id job) (im_message_id (ci_message job)) d /\
  row_of (ci_message_record_id job) (im_message_id (ci_message job)) d.

Lemma claim_next_stored w job w' :
  claim_next timeout w = (Ok (Some job), w') -> job_stored job (w_db w').
Proof.
  intros (id & m & c & l & tb & Hdue & Hjob & -> & Hr)%claim_ok_inv.
  assert ((id, m, c) ∈ (id, m, c) :: l) as Hin by by left. rewrite <- Hdue in Hin.
  apply elem_of_due in Hin as (_ & [Hdir _]%eligible_status & _).
  unfold job_stored. apply claimed_fields in Hjob as (-> & -> & _ & _ & _ & Hext & _).
  assert (rows tb !! id = Some (mark_claimed (clock (w_tick w)) m)) as Hk by by rewrite Hr, lookup_insert_eq.
  split; [exists id|]; exists (mark_claimed (clock (w_tick w)) m); (split; [exact Hk|]); by split_and?.
Qed.

Lemma send_of_job P `{!Lasting P} job req :
  (forall d, P d -> asked (ci_conversation_record_id job) (im_message_id (ci_message job)) d /\
     replied (im_message_id (ci_message job)) d) ->
  dr_idempotency_key req = reply_key (ci_message job) ->
  keeps_db (recorded P) (send adapter (ci_conversation_record_id job) req).
Proof.
  intros HP Hkey. apply send_keeps; [apply _|by eapply claim_recorded|apply keeps_db_eq, adapter_db; apply _|].
  intros. by apply finalize_recorded.
Qed.

Lemma answer_recorded_rows P `{!Lasting P} job :
  (forall d, P d -> asked (ci_conversation_record_id job) (im_message_id (ci_message job)) d) ->
  keeps_db (recorded P) (answer_job lock_ttl tools adapter job).
Proof.
  intros HP. unfold answer_job. apply keeps_bind_post; [apply _|by apply respond_persisted_recorded|].
  intros w reply w1 Hr%respond_persisted_replied.
  set (Q d := P d /\ replied (im_message_id (ci_message job)) d).
  apply (recorded_weaken Q); [intros Hp _; by split|].
  assert (keeps_db (recorded Q) (t ← now; window ← lift (window_at t (im_received_at (ci_message job)));
    request ← lift (reply_request (ci_message job) reply window);
    send adapter (ci_conversation_record_id job) request)) as Hk; [|apply Hk].
  assert (Lasting Q) by (apply and_lasting; apply _).
  apply keeps_bind; [apply _|apply keeps_db_now, _|]. intros t.
  apply keeps_bind; [apply _|apply keeps_lift, _|]. intros window.
  apply keeps_lift_bind; [apply _|]. intros request [_ ->]%construct_ok.
  apply send_of_job; [apply _| |done]. intros d [Hp Hrep]. split; [by apply HP|done].
Qed.

Lemma fail_recorded P `{!Lasting P} id code retry delay : keeps_db (recorded P) (fail id code retry delay).
Proof.
  unfold fail. apply keeps_bind; [apply _|destruct retry; keeps_auto|]. intros av.
  apply transition_recorded; [apply _|]. by destruct retry.
Qed.

#[local] Instance job_stored_lasting job : Lasting (job_stored job).
Proof. apply and_lasting; apply _. Qed.

(** The job can be settled: an accepted result has its event. *)
Definition settling (job : ClaimedInbound) (result : DeliveryResult) (d : Db) : Prop :=
  job_stored job d /\
  (provider_status (dres_status result) = true -> reply_accepted (Some (im_message_id (ci_message job))) d).
#[local] Instance settling_lasting job result : Lasting (settling job result).
Proof.
  intros d d' Hg [Hj Ha]. split; [by eapply lasting|]. intros Hp. eapply accepted_lasting; [exact Hg|auto].
Qed.

Lemma settle_recorded job result : keeps_db (recorded (settling job result)) (settle_job job result).
Proof.
  unfold settle_job. destruct (provider_status (dres_status result)) eqn:Hp; [|by apply fail_recorded, _].
  apply transition_recorded; [apply _|]. intros _ d m [[_ (m' & Hm' & He)] Hacc] _ Hm.
  assert (m' = m) as -> by congruence. rewrite He. by apply Hacc.
Qed.

Lemma answer_settling job w result w1 :
  answer_job lock_ttl tools adapter job w = (Ok result, w1) ->
  job_stored job (w_db w1) -> transcript (w_db w1) -> settling job result (w_db w1).
Proof.
  intros Hans Hjob Ht. split; [exact Hjob|]. intros Hp.
  destruct (answer_recorded lock_ttl tools adapter ledger_of_adapter _ _ _ _ Hans Hp) as (id & row & Hrow & Hkey & Hst).
  exists id, row. rewrite Hkey. unfold reply_key. rewrite removeprefix_app, startswith_app.
  split_and!; try done. by eapply (acceptances_told _ Ht).
Qed.

Lemma process_job_recorded job w :
  job_stored job (w_db w) ->
  recorded (fun _ => True) (w_db w) (w_db (process_job lock_ttl max_attempts tools adapter job w).2).
Proof.
  intros Hjob. apply (recorded_weaken (job_stored job)); [done|].
  assert (forall P `{!Lasting P} e, keeps_db (recorded P) (job_failed max_attempts job e;; mret true)) as Hfail.
  { intros P HP e. apply keeps_bind; [apply _|by apply fail_recorded|]. intros. apply keeps_ret, _. }
  pose proof (answer_recorded_rows (job_stored job) job (fun d Hj => proj1 Hj) w) as Ha.
  unfold process_job. destruct (answer_job lock_ttl tools adapter job w) as [[result|e] w1] eqn:Hans;
    unfold db_rel in Ha; cbn [snd] in Ha.
  - etrans; [exact Ha|]. apply (recorded_weaken (settling job result)); [by eapply answer_settling|].
    assert (keeps_db (recorded (settling job result)) (try_except (settle_job job result;; mret true)
      (fun e => Some (job_failed max_attempts job e;; mret true)))) as Hk.
    { apply keeps_try; [apply _| |intros e m' [= <-]; by apply Hfail, _].
      apply keeps_bind; [apply _|apply settle_recorded|]. intros. apply keeps_ret, _. }
    unfold try_except. rewrite bind_run, Hans. apply (Hk w1).
  - etrans; [exact Ha|]. unfold try_except. rewrite bind_run, Hans. by apply Hfail, _.
Qed.

Lemma process_once_recorded w :
  recorded (fun _ => True) (w_db w) (w_db (process_once lock_ttl timeout max_attempts tools adapter w).2).
Proof.
  unfold process_once. revert w. apply keeps_bind_post; [apply _|by apply claim_next_recorded, _|].
  intros w [job|] w' Hc; [|done]. by apply process_job_recorded, (claim_next_stored w).
Qed.
End worker.

(** ** The system *)

Section system.
Context `{JsonLoads} `{LaxInt} `{UCD} `{SqlEngine} `{RedisServer} `{Env} `{RowLocks}.
Context `{E : !ResponseEngine} `{!EngineLaws E}.
Variables (configured : bool) (lock_ttl dedup_ttl timeout max_attempts : Z) (tools : option BuenPickReader).
Hypothesis tools_frame : forall reader, tools = Some reader -> ReaderFrame reader.
Variables app_secret expected_waba_id expected_phone_number_id : option str.
Variable ingress_ready : bool.
Variable adapter : DeliveryRequest -> M DeliveryResult.
Hypothesis adapter_db : forall request, keeps_db (=) (adapter request).

Abbreviation step := (IntegrityLaws.step configured lock_ttl dedup_ttl timeout max_attempts tools
  app_secret expected_waba_id expected_phone_number_id ingress_ready adapter).
Abbreviation anywhere := (fun _ : Db => True).

Lemma ingest_recorded events : keeps_db (recorded anywhere) (ingest dedup_ttl events).
Proof.
  unfold ingest, store_messages, store_message, apply_status.
  repeat first
    [ by apply record_inbound_recorded, _ | by apply apply_callback_recorded, _
    | solve [apply keeps_db_eq, dedup_claim_db; apply _] | keeps_step ].
Qed.

Lemma send_message_recorded request : keeps_db (recorded anywhere) (send_message configured lock_ttl tools request).
Proof.
  unfold send_message. apply keeps_if; [apply keeps_raise, _|].
  apply keeps_bind; [apply _|unfold message_id_of; destruct (truthy_opt _); keeps_auto|]. intros id.
  apply keeps_bind; [apply _|apply keeps_db_now, _|]. intros t.
  apply keeps_bind; [apply _|apply keeps_lift, _|]. intros inbound_message.
  apply keeps_try; [apply _|by apply respond_recorded, _|].
  intros e m' Hm. destruct (is_busy e); [|done]. injection Hm as <-. apply keeps_raise, _.
Qed.

Lemma step_recorded w w' : step w w' -> recorded anywhere (w_db w) (w_db w').
Proof.
  destruct 1; [apply send_message_recorded| | |by apply process_once_recorded].
  - rewrite <- (history_db configured id w). done.
  - apply webhook_keeps; [apply _|]. intros. apply ingest_recorded.
Qed.

(** Whatever is requested and worked, the rows account for each other. *)
Lemma traffic_transcript w w' : transcript (w_db w) -> rtc step w w' -> transcript (w_db w').
Proof.
  intros Ht Hs. induction Hs as [w|w w1 w' Hs _ IH]; [done|]. by apply IH, (step_recorded w w1 Hs).
Qed.
End system.

(** A database without messages and without attempts says nothing false. *)
Lemma empty_transcript `{SqlEngine} d : messages d = ∅ -> attempts d = ∅ -> transcript d.
Proof.
  intros Hm Ha. split.
  - intros k m. by rewrite Hm, lookup_empty.
  - intros id a. by rewrite Ha, lookup_empty.
  - intros k m. by rewrite Hm, lookup_empty.
  - intros id a st. by rewrite Ha, lookup_empty.
Qed.
