(* ===== verification/Runtime.v ===== *)
(** * The worker process ([src/piki/worker/main.py])

    [run_worker]: the logging, the processor the settings ask for, the loop
    around its [process_once], and the cleaning up; the freshness of the
    heartbeat; the command line of [main].  [Signals] says at which ticks the
    stop event is set.  The operations on the heartbeat file, the line a logger
    prints, the creation and the closing of the processor are computations,
    which may fail.  A loop that runs out of fuel answers [false];
    [run_worker_ends] shows how much is enough. *)
From Stdlib Require Import QArith.
From S2P Require Import Prelude PyStr PyRegex Errors Sha256 Contracts Grounding Prompt Config.
From S2P Require Import Pydantic Events Sql Redis Models World Session Sample MetaWebhook.
From S2P Require Import Delivery DeliveryLaws DeliveryProps State Coordination.
From S2P Require Import Composition BuenPickModels BuenPick Conversations Handoffs Processing Tools.
From S2P Require Import Evidence Policies Orchestrator TurnLaws TurnProps Worker Frames WorkerProps.
From S2P Require Import Logging Startup.

Local Open Scope Z_scope.

Class Signals := { stop_set : nat -> bool }.

(** A processor: [process_once] and [close]. *)
Record Processor `{SqlEngine} `{RedisServer} := { process : M bool; close_processor : M unit }.

Section loop.
Context `{UCD} `{SqlEngine} `{RedisServer} `{Signals}.
Variable settings : Settings.
Variables touch unlink : M unit.
Variable print_line : str -> M unit.
(** [wait_for(stop_event.wait(), timeout)], its [TimeoutError] caught. *)
Variable wait_for_stop : Q -> M unit.
(** [create_processing_worker]. *)
Variable create_processor : M Processor.

Definition stop_is_set : M bool := fun w => (Ok (stop_set (w_tick w)), w).

Definition processed (processor : option Processor) : M bool :=
  match processor with Some p => process p | None => mret false end.

Definition wait_seconds (processor : option Processor) : Q :=
  match processor with
  | Some _ => st_conversation_worker_poll_seconds settings
  | None => st_worker_heartbeat_seconds settings
  end.

Fixpoint worker_loop (processor : option Processor) (fuel : nat) : M bool :=
  match fuel with
  | O => mret false
  | S fuel =>
      stopped ← stop_is_set;
      if (stopped : bool) then mret true
      else
        touch;;
        busy ← processed processor;
        if (busy : bool) then worker_loop processor fuel
        else wait_for_stop (wait_seconds processor);; worker_loop processor fuel
  end.

(** [logger.info]. *)
Definition info (logger : Logger) (event : str) : M unit :=
  if writes logger INFO then print_line event else mret tt.

Definition start_processor : M (option Processor) :=
  if st_conversation_worker_enabled settings
  then processor ← create_processor; mret (Some processor)
  else mret None.

(** The [finally] of [run_worker]. *)
Definition clean_up (logger : Logger) (processor : option Processor) : M unit :=
  (match processor with Some p => close_processor p | None => mret tt end);;
  unlink;;
  info logger (u "worker_stopped").

Definition run_worker (fuel : nat) : M bool :=
  logger ← lift (configure_logging (st_log_level settings));
  processor ← start_processor;
  info logger (u "worker_started");;
  try_finally (worker_loop processor fuel) (clean_up logger processor).
End loop.

(** [heartbeat_is_fresh]: the file's [st_mtime] if it exists, at [time.time()]. *)
Definition heartbeat_is_fresh (settings : Settings) (mtime : option Q) (now : Q) : bool :=
  match mtime with
  | None => false
  | Some modified => Qle_bool (now - modified) (st_worker_heartbeat_seconds settings * 3)
  end.

(** [main]: the exit status of [--check], or a run of the worker. *)
Definition main `{SqlEngine} `{RedisServer} (check : bool) (settings : Settings) (mtime : option Q)
    (now : Q) (run : M bool) : M (option Z) :=
  if check then mret (Some (if heartbeat_is_fresh settings mtime now then 0 else 1))
  else run;; mret None.

(** ** The clock of a job *)

Section clock.
Context `{UCD} `{SqlEngine} `{RedisServer} `{Env} `{RowLocks} `{E : !ResponseEngine}.
Variables (lock_ttl timeout max_attempts : Z) (tools : option BuenPickReader).
Variable adapter : DeliveryRequest -> M DeliveryResult.
Hypothesis engine_later : forall packet turns text, keeps later (engine_respond packet turns text).
Hypothesis reader_later : forall reader query commerce,
  tools = Some reader -> keeps later (br_search query commerce).
Hypothesis adapter_later : forall request, keeps later (adapter request).

Lemma process_job_later job : keeps later (process_job lock_ttl max_attempts tools adapter job).
Proof. by apply process_job_frame; [apply _|..]. Qed.

Lemma claim_ticks w : (w_tick w < w_tick (claim_next timeout w).2)%nat.
Proof.
  unfold claim_next. rewrite bind_run. unfold now at 1. cbv beta iota zeta.
  match goal with |- (_ < w_tick (session ?body _).2)%nat =>
    assert (keeps later (session body)) as Hk end.
  { apply prim_session. apply keeps_bind; [apply _|intros w0; apply prim_stmt|]. intros found.
    repeat frame_step. }
  specialize (Hk (tick w)). unfold later in Hk. cbn [tick w_tick] in Hk. lia.
Qed.

(** Every run of [process_once] reads the clock. *)
Lemma process_once_ticks w :
  (w_tick w < w_tick (process_once lock_ttl timeout max_attempts tools adapter w).2)%nat.
Proof.
  unfold process_once. rewrite bind_run. pose proof (claim_ticks w) as Hc.
  destruct (claim_next timeout w) as [[[job|]|e] w1]; cbn [snd] in *; [|done..].
  pose proof (process_job_later job w1) as Hp. unfold later in Hp. lia.
Qed.
End clock.

(** ** Properties *)

Section properties.
Context `{UCD} `{SqlEngine} `{RedisServer} `{Signals}.
Variable settings : Settings.
Variables touch unlink : M unit.
Variable print_line : str -> M unit.
Variable wait_for_stop : Q -> M unit.
Variable create_processor : M Processor.

Abbreviation loop := (worker_loop settings touch wait_for_stop).
Abbreviation run := (run_worker settings touch unlink print_line wait_for_stop create_processor).

Definition passes_time {A} (m : M A) : Prop := forall w, (w_tick w < w_tick (m w).2)%nat.

Section loop.
Hypothesis touch_later : keeps later touch.
Hypothesis wait_passes : forall seconds, passes_time (wait_for_stop seconds).

Lemma loop_ends processor stop fuel w :
  (forall p, processor = Some p -> passes_time (process p)) ->
  (forall n, (stop <= n)%nat -> stop_set n = true) ->
  (stop - w_tick w < fuel)%nat -> (loop processor fuel w).1 <> Ok false.
Proof.
  intros Hproc Hstop. revert w. induction fuel as [|fuel IH]; intros w Hfuel; [lia|].
  cbn [worker_loop]. rewrite bind_run. unfold stop_is_set at 1. cbv beta iota zeta.
  destruct (stop_set (w_tick w)) eqn:Hs; [done|].
  assert (w_tick w < stop)%nat as Hlt.
  { destruct (decide (stop <= w_tick w)%nat) as [Hle|?]; [|lia]. by rewrite Hstop in Hs. }
  rewrite bind_run. pose proof (touch_later w) as Htouch. unfold later in Htouch.
  destruct (touch w) as [[[]|e] w1]; [|done]. cbn [snd] in Htouch. rewrite bind_run.
  assert (forall w2, (w_tick w <= w_tick w2)%nat ->
    ((wait_for_stop (wait_seconds settings processor);; loop processor fuel) w2).1 <> Ok false) as Hwait.
  { intros w2 Hle. rewrite bind_run. pose proof (wait_passes (wait_seconds settings processor) w2) as Hw.
    destruct (wait_for_stop _ w2) as [[[]|e] w3]; [|done]. cbn [snd] in Hw. apply IH. lia. }
  unfold processed. destruct processor as [p|].
  - pose proof (Hproc p eq_refl w1) as Hp.
    destruct (process p w1) as [[[]|e] w2]; cbn [snd] in Hp; [apply IH; lia|apply Hwait; lia|done].
  - cbn [mret M_ret]. by apply Hwait.
Qed.
End loop.

Lemma clean_up_run logger processor w r w' :
  clean_up unlink print_line logger processor w = (r, w') ->
  (exists w1, w' = (unlink w1).2 \/ w' = (info print_line logger (u "worker_stopped") (unlink w1).2).2) \/
  (exists p e, processor = Some p /\ close_processor p w = (Raise e, w') /\ r = Raise e).
Proof.
  unfold clean_up. rewrite bind_run. intros Hr.
  destruct (match processor with Some p => close_processor p | None => mret tt end w) as [[[]|e] w1] eqn:Hc.
  - left. exists w1. rewrite bind_run in Hr. destruct (unlink w1) as [[[]|e] w2] eqn:Hu; [right|left];
      cbn [snd]; [by rewrite Hr|by injection Hr].
  - injection Hr as <- <-. destruct processor as [p|]; [|done]. right. exists p, e. done.
Qed.

(** The worker stops and cleans up.  Once the stop event is set, from the tick
    [stop] on, and when waiting and each run of the processor pass some time,
    the process ends within [stop] iterations: it never runs out of fuel.
    However its loop ends, on the stop event or on an exception, the heartbeat
    is removed last, before at most one line of the log, unless closing the
    processor failed; and a process that did not reach its loop (the level of
    the log is refused, the processor cannot be built, the first line cannot be
    printed) answers with that exception. *)
Lemma run_worker_ends stop fuel w :
  (forall n, (stop <= n)%nat -> stop_set n = true) -> keeps later touch ->
  (forall seconds, passes_time (wait_for_stop seconds)) ->
  (forall w0 p w1, create_processor w0 = (Ok p, w1) -> passes_time (process p)) ->
  (forall w0, (w_tick w0 <= w_tick (create_processor w0).2)%nat) ->
  (forall line, keeps later (print_line line)) ->
  (stop - w_tick w < fuel)%nat ->
  let '(r, w') := run fuel w in
  r <> Ok false /\
  ((exists w1 logger, w' = (unlink w1).2 \/
      w' = (info print_line logger (u "worker_stopped") (unlink w1).2).2) \/
   (exists p e w0 w1, create_processor w = (Ok p, w0) /\ close_processor p w1 = (Raise e, w') /\ r = Raise e) \/
   (exists e, configure_logging (st_log_level settings) = Raise e /\ r = Raise e /\ w' = w) \/
   (exists e, create_processor w = (Raise e, w') /\ r = Raise e) \/
   (exists e w1, print_line (u "worker_started") w1 = (Raise e, w') /\ r = Raise e)).
Proof.
  intros Hstop Htouch Hwait Hproc Hcreate Hprint Hfuel. unfold run_worker. rewrite bind_run. unfold lift at 1.
  destruct (configure_logging (st_log_level settings)) as [logger|e] eqn:Hlog;
    [|split; [done|]; do 2 right; left; by exists e].
  rewrite bind_run.
  assert (match start_processor settings create_processor w with
    | (Ok processor, w1) => (w_tick w <= w_tick w1)%nat /\
        forall p, processor = Some p -> passes_time (process p) /\ create_processor w = (Ok p, w1)
    | (Raise e, w1) => create_processor w = (Raise e, w1) end) as Hstart.
  { unfold start_processor. destruct (st_conversation_worker_enabled settings); [|cbn; split; [lia|done]].
    rewrite bind_run. specialize (Hcreate w).
    destruct (create_processor w) as [[p|e] w1] eqn:Hc; [|done]. cbn [mret M_ret]. split; [exact Hcreate|].
    intros p' [= <-]. split; [by eapply Hproc|done]. }
  destruct (start_processor settings create_processor w) as [[processor|e] w1];
    [destruct Hstart as [Hle Hp]|split; [done|]; do 3 right; left; by exists e].
  rewrite bind_run.
  assert (w_tick w1 <= w_tick (info print_line logger (u "worker_started") w1).2)%nat as Hinfo.
  { unfold info. destruct (writes logger INFO); [apply Hprint|done]. }
  destruct (info print_line logger (u "worker_started") w1) as [[[]|e] w2] eqn:Hi.
  - cbn [snd] in Hinfo. unfold try_finally.
    pose proof (loop_ends Htouch Hwait processor stop fuel w2 (fun p Hs => proj1 (Hp p Hs)) Hstop) as Hl.
    destruct (loop processor fuel w2) as [r w3]. cbn [fst] in Hl.
    destruct (clean_up unlink print_line logger processor w3) as [r' w4] eqn:Hc.
    pose proof (clean_up_run _ _ _ _ _ Hc) as [[w5 Hu]|(p & e & Hsome & Hcl & ->)].
    + assert (exists r'', (match r' with Ok _ => (r, w4) | Raise e => (Raise e, w4) end) = (r'', w4) /\
        r'' <> Ok false) as (r'' & Hr'' & Hne).
      { destruct r'; eexists; (split; [reflexivity|]); [apply Hl; lia|done]. }
      destruct r' as [[]|e]; injection Hr'' as ->; (split; [done|]); left; exists w5, logger; exact Hu.
    + split; [done|]. right. left. destruct (Hp p Hsome) as [_ Hcr]. by exists p, e, w1, w3.
  - split; [done|]. do 4 right. exists e, w1. split; [|done]. revert Hi. unfold info.
    by destruct (writes logger INFO).
Qed.
End properties.

(** ** Evaluations *)

Section concrete.
#[local] Existing Instances latin1_ucd map_engine scheduled_server sample_env no_locks friendly_engine friendly_laws.

(** The stop event set from the tick 40 on. *)
#[local] Instance stop_at_40 : Signals := {| stop_set n := (40 <=? n)%nat |}.

Lemma friendly_later packet turns text : keeps later (engine_respond packet turns text).
Proof. apply (composer_frame later friendly_adapter (u "sys")). intros r. apply keeps_ret, _. Qed.

Definition file_operation : M unit := mret tt.
Definition printed (line : str) : M unit := mret tt.
Definition waited (seconds : Q) : M unit := fun w => (Ok tt, tick w).
Definition accepting_processor : Processor :=
  {| process := work_once accepting; close_processor := mret tt |}.

Definition worked : res bool * World :=
  run_worker (sample_settings None) file_operation file_operation printed waited
    (mret accepting_processor) 41 queued_world.

Example worker_run : worked.1 = Ok true /\ job_status worked.2 101 = Some (Some (u "completed")).
Proof. vm_compute. done. Qed.

Example worker_run_ends : worked.1 <> Ok false.
Proof.
  pose proof (run_worker_ends (sample_settings None) file_operation file_operation printed waited
    (mret accepting_processor) 40 41 queued_world) as Hw.
  unfold worked. destruct (run_worker _ _ _ _ _ _ 41 queued_world) as [r w']. apply Hw.
  - intros n Hn. by apply Nat.leb_le.
  - apply keeps_ret, _.
  - intros seconds w0. cbn. lia.
  - intros w0 p w1 [= <- <-] w2. apply process_once_ticks.
    + apply friendly_later.
    + done.
    + intros request. apply keeps_ret, _.
  - intros w0. cbn. lia.
  - intros line. apply keeps_ret, _.
  - cbn. lia.
Qed.
End concrete.
